(** * DecentralizedResourceID: identifier core, text watermark codec,
      hierarchical metadata and relationship graph

    A shallow embedding of the JavaScript sources

      - [unnamed/part_004]                  (DIDFactory)
      - [src/verification/watermarking.js]  (TextWatermarkStrategy,
                                             WatermarkingEngine)
      - [unnamed/part_006]                  (MetadataLayer and its subclasses,
                                             HierarchicalMetadataManager)
      - [src/relation/resource_graph.js]    (ResourceGraph)

    and the properties of the specification checked against them.

    Conventions of the embedding.

    - A JavaScript value is a term of [value].  Objects are association
      lists in property insertion order; [obj_set] overwrites in place or
      appends, as property assignment does.  Identifiers that are canonical
      array indices (which JavaScript enumerates first) are not treated
      specially.
    - A property read sees the own properties of an object: the names
      inherited from [Object.prototype] are not modelled.  The key
      [__proto__], which on a plain object reads and sets the prototype
      instead of a property, is an ordinary key of the model: where an
      object is used as a map from identifiers or from path segments, the
      statements exclude that key.
    - Strict equality on values is structural equality: object identity and
      NaN are not modelled.  Numbers are integers.
    - A string is a [string] whose characters stand for the UTF-16 code
      units 0..255.  The watermark codec, which inserts U+00A0 and U+200B,
      works on lists of code units ([text]).
    - A function that can throw returns [option]; [None] is the exception.
      Where the values of the model cannot hold what a function does on
      some input, [None] stands for that input too, and the comment of the
      function says so.
    - [new Date().toISOString()] is an input: every reading of the clock is
      an argument of the operation that performs it. *)

From Stdlib Require Import List String Ascii ZArith NArith Lia Bool Arith.
From Stdlib Require Import Permutation DecimalString.
Import ListNotations.

Open Scope list_scope.
Open Scope string_scope.

(* ================================================================== *)
(** * JavaScript values and objects *)
(* ================================================================== *)

#[local] Set Warnings "-register-all".

Inductive value : Type :=
| VUndefined
| VNull
| VBool (b : bool)
| VNum (z : Z)
| VStr (s : string)
| VArr (l : list value)
| VObj (l : list (string * value)).

Definition obj := list (string * value).

(** Structural induction that reaches below arrays and objects. *)
Section value_rect_nested.
Variable P : value -> Prop.
Hypothesis Hundef : P VUndefined.
Hypothesis Hnull : P VNull.
Hypothesis Hbool : forall b, P (VBool b).
Hypothesis Hnum : forall z, P (VNum z).
Hypothesis Hstr : forall s, P (VStr s).
Hypothesis Harr : forall l, Forall P l -> P (VArr l).
Hypothesis Hobj : forall l, Forall (fun kv => P (snd kv)) l -> P (VObj l).

Fixpoint value_ind_nested (v : value) : P v :=
  match v with
  | VUndefined => Hundef
  | VNull => Hnull
  | VBool b => Hbool b
  | VNum z => Hnum z
  | VStr s => Hstr s
  | VArr l =>
      Harr l ((fix go (l : list value) : Forall P l :=
                 match l with
                 | [] => Forall_nil _
                 | x :: r => Forall_cons _ (value_ind_nested x) (go r)
                 end) l)
  | VObj l =>
      Hobj l ((fix go (l : list (string * value))
                 : Forall (fun kv => P (snd kv)) l :=
                 match l with
                 | [] => Forall_nil _
                 | x :: r => Forall_cons _ (value_ind_nested (snd x)) (go r)
                 end) l)
  end.
End value_rect_nested.

(** [a === b] on the modelled values. *)
Fixpoint value_eqb (a b : value) {struct a} : bool :=
  match a, b with
  | VUndefined, VUndefined => true
  | VNull, VNull => true
  | VBool x, VBool y => Bool.eqb x y
  | VNum x, VNum y => Z.eqb x y
  | VStr x, VStr y => String.eqb x y
  | VArr x, VArr y =>
      (fix go (x y : list value) : bool :=
         match x, y with
         | [], [] => true
         | p :: x', q :: y' => value_eqb p q && go x' y'
         | _, _ => false
         end) x y
  | VObj x, VObj y =>
      (fix go (x y : list (string * value)) : bool :=
         match x, y with
         | [], [] => true
         | p :: x', q :: y' =>
             String.eqb (fst p) (fst q) && value_eqb (snd p) (snd q) && go x' y'
         | _, _ => false
         end) x y
  | _, _ => false
  end.

(** ToBoolean. *)
Definition truthy (v : value) : bool :=
  match v with
  | VUndefined | VNull => false
  | VBool b => b
  | VNum z => negb (Z.eqb z 0)
  | VStr s => negb (String.eqb s "")
  | VArr _ | VObj _ => true
  end.

(** [a || b]. *)
Definition js_or (a b : value) : value := if truthy a then a else b.

(** Own-property test, [o[k]] and [o[k] = v]. *)
Fixpoint obj_has (o : obj) (k : string) : bool :=
  match o with
  | [] => false
  | (k', _) :: r => if String.eqb k' k then true else obj_has r k
  end.

Fixpoint obj_get (o : obj) (k : string) : value :=
  match o with
  | [] => VUndefined
  | (k', v) :: r => if String.eqb k' k then v else obj_get r k
  end.

Fixpoint obj_set (o : obj) (k : string) (v : value) : obj :=
  match o with
  | [] => [(k, v)]
  | (k', v') :: r =>
      if String.eqb k' k then (k', v) :: r else (k', v') :: obj_set r k v
  end.

Fixpoint obj_delete (o : obj) (k : string) : obj :=
  match o with
  | [] => []
  | (k', v') :: r =>
      if String.eqb k' k then r else (k', v') :: obj_delete r k
  end.

Definition obj_keys (o : obj) : list string := map fst o.

(** [{...a, ...b}] and [Object.assign(a, b)]: the properties of [b] are
    assigned onto [a] in the order of [b]. *)
Definition spread (a b : obj) : obj :=
  fold_left (fun acc kv => obj_set acc (fst kv) (snd kv)) b a.

(** Property read on an arbitrary value, [v[k]] for a string key; reading
    from a primitive yields [undefined] here (own properties only). *)
Definition get_prop (v : value) (k : string) : value :=
  match v with
  | VObj o => obj_get o k
  | _ => VUndefined
  end.

(* ------------------------------------------------------------------ *)
(** ** Strings *)
(* ------------------------------------------------------------------ *)

(** [s.split(sep)] for a one-character separator. *)
Fixpoint split_aux (sep : ascii) (s : string) (cur : string) : list string :=
  match s with
  | EmptyString => [cur]
  | String c r =>
      if Ascii.eqb c sep then cur :: split_aux sep r ""
      else split_aux sep r (cur ++ String c "")
  end.

Definition split (sep : ascii) (s : string) : list string :=
  split_aux sep s "".

(** [a.pop()] read as an expression: the last element. *)
Definition last_str (l : list string) : string := last l "".

(** [s.startsWith(p)]. *)
Definition startsWith (s p : string) : bool := String.prefix p s.

(** [s.substring(n)]. *)
Definition substring_from (n : nat) (s : string) : string :=
  String.substring n (String.length s - n) s.

Fixpoint join (sep : string) (l : list string) : string :=
  match l with
  | [] => ""
  | [x] => x
  | x :: r => x ++ sep ++ join sep r
  end.

(** Number to string, for integers. *)
Definition Z_to_string (z : Z) : string := NilZero.string_of_int (Z.to_int z).

(** Default order of [Array.prototype.sort] on strings: code units,
    lexicographically. *)
Fixpoint str_leb (a b : string) : bool :=
  match a, b with
  | EmptyString, _ => true
  | String _ _, EmptyString => false
  | String x a', String y b' =>
      if (nat_of_ascii x <? nat_of_ascii y)%nat then true
      else if (nat_of_ascii y <? nat_of_ascii x)%nat then false
      else str_leb a' b'
  end.

Fixpoint insert_sorted (x : string) (l : list string) : list string :=
  match l with
  | [] => [x]
  | y :: r => if str_leb x y then x :: y :: r else y :: insert_sorted x r
  end.

(** [keys.sort()]. *)
Definition sort_strings (l : list string) : list string :=
  fold_right insert_sorted [] l.

(** ToString of a value used as a property key, [o[v]]. *)
Fixpoint to_key (v : value) : string :=
  match v with
  | VUndefined => "undefined"
  | VNull => "null"
  | VBool true => "true"
  | VBool false => "false"
  | VNum z => Z_to_string z
  | VStr s => s
  | VArr l =>
      join "," (map (fun x => match x with
                              | VUndefined | VNull => ""
                              | _ => to_key x
                              end) l)
  | VObj _ => "[object Object]"
  end.

(** [Object.entries(v)]. *)
Definition entries (v : value) : obj :=
  match v with
  | VObj o => o
  | VArr l => combine (map (fun i => Z_to_string (Z.of_nat i)) (seq 0 (List.length l))) l
  | VStr s =>
      combine (map (fun i => Z_to_string (Z.of_nat i)) (seq 0 (String.length s)))
              (map (fun c => VStr (String c "")) (list_ascii_of_string s))
  | _ => []
  end.

(** [x[k]] where [x] may be [null] or [undefined]: [None] is the
    TypeError. *)
Definition read (x : value) (k : string) : option value :=
  match x with
  | VUndefined | VNull => None
  | _ => Some (get_prop x k)
  end.

(** [Array.isArray(v) ? v : [v]]. *)
Definition as_array (v : value) : list value :=
  match v with
  | VArr l => l
  | _ => [v]
  end.

(* ================================================================== *)
(** * JSON.stringify and JSON.parse *)
(* ================================================================== *)

Module JSON.

(** The double quote. *)
Definition dquote : ascii := "034"%char.

Definition hex_digit (n : nat) : ascii :=
  nth n (list_ascii_of_string "0123456789abcdef") "0"%char.

(** QuoteJSONString on one code unit. *)
Definition quote_char (c : ascii) : string :=
  let n := nat_of_ascii c in
  if (n =? 34)%nat then String "\"%char (String dquote "")
  else if (n =? 92)%nat then "\\"
  else if (n =? 8)%nat then "\b"
  else if (n =? 9)%nat then "\t"
  else if (n =? 10)%nat then "\n"
  else if (n =? 12)%nat then "\f"
  else if (n =? 13)%nat then "\r"
  else if (n <? 32)%nat then
    "\u00" ++ String (hex_digit (n / 16)) (String (hex_digit (n mod 16)) "")
  else String c "".

Fixpoint quote_body (s : string) : string :=
  match s with
  | EmptyString => ""
  | String c r => quote_char c ++ quote_body r
  end.

Definition quote (s : string) : string :=
  String dquote (quote_body s ++ String dquote "").

(** The members of an object, given the serialization of each of its own
    properties: for every key of [K], in the order of [K], the property
    is emitted unless it is absent or serializes to [undefined]. *)
Fixpoint members (K : list string) (ser : list (string * option string))
  : list string :=
  match K with
  | [] => []
  | k :: K' =>
      match find (fun p => String.eqb (fst p) k) ser with
      | Some (_, Some s) => (quote k ++ ":" ++ s) :: members K' ser
      | _ => members K' ser
      end
  end.

(** SerializeJSONProperty.  [K] is the property list of an array
    replacer; without one an object enumerates its own keys.  The result
    is [None] where JavaScript yields [undefined]. *)
Fixpoint serialize (K : option (list string)) (v : value) : option string :=
  match v with
  | VUndefined => None
  | VNull => Some "null"
  | VBool true => Some "true"
  | VBool false => Some "false"
  | VNum z => Some (Z_to_string z)
  | VStr s => Some (quote s)
  | VArr l =>
      Some ("[" ++
            join "," ((fix go (l : list value) : list string :=
                         match l with
                         | [] => []
                         | x :: r =>
                             match serialize K x with
                             | Some s => s
                             | None => "null"
                             end :: go r
                         end) l)
            ++ "]")
  | VObj o =>
      let ser := (fix go (o : list (string * value))
                    : list (string * option string) :=
                    match o with
                    | [] => []
                    | kv :: r => (fst kv, serialize K (snd kv)) :: go r
                    end) o in
      let keys := match K with Some ks => ks | None => map fst o end in
      Some ("{" ++ join "," (members keys ser) ++ "}")
  end.

(** [JSON.stringify(v)]. *)
Definition stringify (v : value) : option string := serialize None v.

(** [JSON.stringify(v, keys)] with an array of strings as replacer. *)
Definition stringify_with (keys : list string) (v : value) : option string :=
  serialize (Some (nodup string_dec keys)) v.

(* ---------------------------------------------------------------- *)
(** ** Parser *)

Definition is_ws (c : ascii) : bool :=
  let n := nat_of_ascii c in
  ((n =? 32) || (n =? 9) || (n =? 10) || (n =? 13))%nat.

Fixpoint skip_ws (l : list ascii) : list ascii :=
  match l with
  | c :: r => if is_ws c then skip_ws r else l
  | [] => []
  end.

Definition digit_val (c : ascii) : option Z :=
  let n := nat_of_ascii c in
  if ((48 <=? n) && (n <=? 57))%nat then Some (Z.of_nat (n - 48)) else None.

Definition hex_val (c : ascii) : option nat :=
  let n := nat_of_ascii c in
  if ((48 <=? n) && (n <=? 57))%nat then Some (n - 48)
  else if ((97 <=? n) && (n <=? 102))%nat then Some (n - 87)
  else if ((65 <=? n) && (n <=? 70))%nat then Some (n - 55)
  else None.

Fixpoint parse_digits (l : list ascii) (acc : Z) : Z * list ascii :=
  match l with
  | c :: r =>
      match digit_val c with
      | Some d => parse_digits r (acc * 10 + d)
      | None => (acc, l)
      end
  | [] => (acc, [])
  end.

(** An integer literal; a fraction or an exponent is outside the model
    and rejected. *)
Definition parse_int (l : list ascii) : option (Z * list ascii) :=
  let after (z : Z) (r : list ascii) :=
    match r with
    | c :: _ =>
        if (Ascii.eqb c "."%char || Ascii.eqb c "e"%char
            || Ascii.eqb c "E"%char)%bool
        then None else Some (z, r)
    | [] => Some (z, r)
    end in
  let unsigned (l : list ascii) :=
    match l with
    | c :: r =>
        match digit_val c with
        | Some 0%Z =>
            match r with
            | c' :: _ =>
                match digit_val c' with Some _ => None | None => Some (0%Z, r) end
            | [] => Some (0%Z, r)
            end
        | Some d => Some (parse_digits r d)
        | None => None
        end
    | [] => None
    end in
  match l with
  | "-"%char :: r =>
      match unsigned r with
      | Some (z, r') => after (- z)%Z r'
      | None => None
      end
  | _ =>
      match unsigned l with
      | Some (z, r') => after z r'
      | None => None
      end
  end.

(** The characters of a string literal after its opening quote. *)
Fixpoint parse_string (l : list ascii) (acc : string)
  : option (string * list ascii) :=
  match l with
  | [] => None
  | c :: r =>
      if Ascii.eqb c dquote then Some (acc, r)
      else if Ascii.eqb c "\"%char then
        match r with
        | e :: r' =>
            let lit (x : nat) := parse_string r' (acc ++ String (ascii_of_nat x) "") in
            if Ascii.eqb e dquote then lit 34%nat
            else if Ascii.eqb e "\"%char then lit 92%nat
            else if Ascii.eqb e "/"%char then lit 47%nat
            else if Ascii.eqb e "b"%char then lit 8%nat
            else if Ascii.eqb e "f"%char then lit 12%nat
            else if Ascii.eqb e "n"%char then lit 10%nat
            else if Ascii.eqb e "r"%char then lit 13%nat
            else if Ascii.eqb e "t"%char then lit 9%nat
            else if Ascii.eqb e "u"%char then
              match r' with
              | h1 :: h2 :: h3 :: h4 :: r'' =>
                  match hex_val h1, hex_val h2, hex_val h3, hex_val h4 with
                  | Some 0%nat, Some 0%nat, Some a, Some b =>
                      parse_string r'' (acc ++ String (ascii_of_nat (16 * a + b)) "")
                  | _, _, _, _ => None
                  end
              | _ => None
              end
            else None
        | [] => None
        end
      else if (nat_of_ascii c <? 32)%nat then None
      else parse_string r (acc ++ String c "")
  end.

Definition strip_prefix (p : string) (l : list ascii) : option (list ascii) :=
  let pl := list_ascii_of_string p in
  if list_eq_dec ascii_dec (firstn (List.length pl) l) pl
  then Some (skipn (List.length pl) l) else None.

(** What the recursive descent is parsing: a value, the rest of an
    array after its opening bracket, or the rest of an object. *)
Inductive mode : Type :=
| PValue
| PElems (acc : list value)
| PMembers (acc : obj).

Fixpoint parse (fuel : nat) (m : mode) (l : list ascii)
  : option (value * list ascii) :=
  match fuel with
  | O => None
  | S fuel' =>
      match m with
      | PValue =>
          match skip_ws l with
          | [] => None
          | c :: r =>
              if Ascii.eqb c "{"%char then
                match skip_ws r with
                | c' :: r' =>
                    if Ascii.eqb c' "}"%char then Some (VObj [], r')
                    else parse fuel' (PMembers []) (c' :: r')
                | [] => None
                end
              else if Ascii.eqb c "["%char then
                match skip_ws r with
                | c' :: r' =>
                    if Ascii.eqb c' "]"%char then Some (VArr [], r')
                    else parse fuel' (PElems []) (c' :: r')
                | [] => None
                end
              else if Ascii.eqb c dquote then
                match parse_string r "" with
                | Some (s, r') => Some (VStr s, r')
                | None => None
                end
              else if Ascii.eqb c "t"%char then
                option_map (fun r' => (VBool true, r')) (strip_prefix "true" (c :: r))
              else if Ascii.eqb c "f"%char then
                option_map (fun r' => (VBool false, r')) (strip_prefix "false" (c :: r))
              else if Ascii.eqb c "n"%char then
                option_map (fun r' => (VNull, r')) (strip_prefix "null" (c :: r))
              else
                match parse_int (c :: r) with
                | Some (z, r') => Some (VNum z, r')
                | None => None
                end
          end
      | PElems acc =>
          match parse fuel' PValue l with
          | Some (v, r) =>
              match skip_ws r with
              | c :: r' =>
                  if Ascii.eqb c ","%char then parse fuel' (PElems (acc ++ [v])%list) r'
                  else if Ascii.eqb c "]"%char then Some (VArr (acc ++ [v])%list, r')
                  else None
              | [] => None
              end
          | None => None
          end
      | PMembers acc =>
          match skip_ws l with
          | c :: r =>
              if Ascii.eqb c dquote then
                match parse_string r "" with
                | Some (k, r1) =>
                    match skip_ws r1 with
                    | c1 :: r2 =>
                        if Ascii.eqb c1 ":"%char then
                          match parse fuel' PValue r2 with
                          | Some (v, r3) =>
                              match skip_ws r3 with
                              | c3 :: r4 =>
                                  if Ascii.eqb c3 ","%char
                                  then parse fuel' (PMembers (obj_set acc k v)) r4
                                  else if Ascii.eqb c3 "}"%char
                                  then Some (VObj (obj_set acc k v), r4)
                                  else None
                              | [] => None
                              end
                          | None => None
                          end
                        else None
                    | [] => None
                    end
                | None => None
                end
              else None
          | [] => None
          end
      end
  end.

(** [JSON.parse(s)]; [None] is the SyntaxError. *)
Definition parse_text (s : string) : option value :=
  let l := list_ascii_of_string s in
  match parse (2 * List.length l + 2) PValue l with
  | Some (v, r) => match skip_ws r with [] => Some v | _ => None end
  | None => None
  end.

End JSON.


(* ================================================================== *)
(** * Text watermark codec ([TextWatermarkStrategy], channel 'spaces') *)
(* ================================================================== *)

Module Watermark.

(** A JavaScript string as the list of its UTF-16 code units. *)
Definition text := list N.

Definition regularSpace : N := 32.
Definition noBreakSpace : N := 160.
Definition zeroWidthSpace : N := 8203.

(** A binary string over ['0'] ([false]) and ['1'] ([true]). *)
Definition binary := list bool.

Record options := { useZeroWidth : bool }.

Definition text_of_string (s : string) : text :=
  map N_of_ascii (list_ascii_of_string s).

Definition string_of_text (t : text) : string :=
  string_of_list_ascii (map ascii_of_N t).

(** [n.toString(2)]. *)
Fixpoint pos_digits (p : positive) (acc : binary) : binary :=
  match p with
  | xH => true :: acc
  | xO p' => pos_digits p' (false :: acc)
  | xI p' => pos_digits p' (true :: acc)
  end.

Definition toString2 (n : N) : binary :=
  match n with
  | N0 => [false]
  | Npos p => pos_digits p []
  end.

(** [s.padStart(len, '0')] and [s.padEnd(len, '0')]. *)
Definition padStart (len : nat) (s : binary) : binary :=
  (repeat false (len - List.length s) ++ s)%list.

Definition padEnd (len : nat) (s : binary) : binary :=
  (s ++ repeat false (len - List.length s))%list.

(** [parseInt(s, 2)]. *)
Definition parseInt2 (s : binary) : N :=
  fold_left (fun acc (b : bool) => (2 * acc + if b then 1 else 0)%N) s 0%N.

Fixpoint _textToBinary (t : text) : binary :=
  match t with
  | [] => []
  | charCode :: r => (padStart 8 (toString2 charCode) ++ _textToBinary r)%list
  end.

(** The loop [for (i = 0; i < paddedBinary.length; i += 8)]: one code
    unit for each group of eight digits (a shorter last group cannot
    occur after the padding). *)
Fixpoint decode_groups (s : binary) : text :=
  match s with
  | b0 :: b1 :: b2 :: b3 :: b4 :: b5 :: b6 :: b7 :: r =>
      parseInt2 [b0; b1; b2; b3; b4; b5; b6; b7] :: decode_groups r
  | [] => []
  | _ => [parseInt2 s]
  end.

Definition _binaryToText (s : binary) : text :=
  let n := List.length s in
  decode_groups (padEnd (((n + 7) / 8) * 8) s).

(** The positions of the ASCII spaces of [t], counted from [i]. *)
Fixpoint spaces_from (i : nat) (t : text) : list nat :=
  match t with
  | [] => []
  | c :: r =>
      if N.eqb c regularSpace then i :: spaces_from (S i) r
      else spaces_from (S i) r
  end.

Definition replacement (o : options) (bit : bool) : text :=
  if bit then
    if useZeroWidth o then [zeroWidthSpace; regularSpace] else [noBreakSpace]
  else [regularSpace].

(** The embedding loop.  [indices] holds [spacesIndices[i..]]: the
    entries before [i] are not read again, and the later ones are
    shifted by the change of length. *)
Fixpoint embed_loop (o : options) (payloadBinary : binary)
    (indices : list nat) (result : text) : text :=
  match payloadBinary, indices with
  | bit :: bits, spaceIndex :: rest =>
      let r := replacement o bit in
      let result' :=
        (firstn spaceIndex result ++ r ++ skipn (spaceIndex + 1) result)%list in
      let lengthDiff := List.length r - 1 in
      let rest' :=
        if (lengthDiff =? 0)%nat then rest
        else map (fun j => j + lengthDiff) rest in
      embed_loop o bits rest' result'
  | _, _ => result
  end.

(** [None]: 'Text has insufficient spaces to embed the payload'. *)
Definition _embedWithSpaces (t : text) (payloadBinary : binary) (o : options)
  : option text :=
  let spacesIndices := spaces_from 0 t in
  if (List.length spacesIndices <? List.length payloadBinary)%nat then None
  else Some (embed_loop o payloadBinary spacesIndices t).

(** The extraction loop; [prev] is [text[i-1]] when [i > 0]. *)
Fixpoint extract_loop (prev : option N) (t : text) : binary :=
  match t with
  | [] => []
  | c :: r =>
      if N.eqb c regularSpace then
        match prev with
        | Some p => if N.eqb p zeroWidthSpace then true :: extract_loop (Some c) r
                    else false :: extract_loop (Some c) r
        | None => false :: extract_loop (Some c) r
        end
      else if N.eqb c noBreakSpace then true :: extract_loop (Some c) r
      else extract_loop (Some c) r
  end.

(** [None] is [null]. *)
Definition _extractFromSpaces (t : text) (o : options) : option binary :=
  let binaryPayload := extract_loop None t in
  if (List.length binaryPayload <? 16)%nat then None else Some binaryPayload.

(** [embed(text, payload, options)] with [options.strategy] absent or
    ['spaces'].  [None]: an exception. *)
Definition embed (t : text) (payload : value) (o : options) : option text :=
  match JSON.stringify payload with
  | Some payloadStr =>
      _embedWithSpaces t (_textToBinary (text_of_string payloadStr)) o
  | None => None
  end.

(** [extract(text, options)] with [options.strategy] absent or
    ['spaces']; the result is the parsed payload or [null]. *)
Definition extract (t : text) (o : options) : value :=
  match _extractFromSpaces t o with
  | None => VNull
  | Some [] => VNull
  | Some binaryPayload =>
      match JSON.parse_text (string_of_text (_binaryToText binaryPayload)) with
      | Some v => v
      | None => VNull
      end
  end.

End Watermark.

(* ================================================================== *)
(** * Relationship graph ([ResourceGraph]) *)
(* ================================================================== *)

(** A JavaScript [Map] with string keys, in insertion order. *)
Module JMap.
Section JMap.
Context {A : Type}.

Fixpoint get (m : list (string * A)) (k : string) : option A :=
  match m with
  | [] => None
  | (k', v) :: r => if String.eqb k' k then Some v else get r k
  end.

Definition has (m : list (string * A)) (k : string) : bool :=
  match get m k with Some _ => true | None => false end.

Fixpoint set (m : list (string * A)) (k : string) (v : A)
  : list (string * A) :=
  match m with
  | [] => [(k, v)]
  | (k', v') :: r =>
      if String.eqb k' k then (k', v) :: r else (k', v') :: set r k v
  end.

Fixpoint delete (m : list (string * A)) (k : string) : list (string * A) :=
  match m with
  | [] => []
  | (k', v') :: r =>
      if String.eqb k' k then r else (k', v') :: delete r k
  end.
End JMap.
End JMap.

(** [a.findIndex(p)]; [None] is [-1]. *)
Fixpoint findIndex {A : Type} (p : A -> bool) (l : list A) : option nat :=
  match l with
  | [] => None
  | x :: r => if p x then Some 0%nat else option_map S (findIndex p r)
  end.

(** [a[i] = x] for an index within the array. *)
Fixpoint replace_at {A : Type} (i : nat) (x : A) (l : list A) : list A :=
  match l, i with
  | [], _ => []
  | _ :: r, O => x :: r
  | y :: r, S i' => y :: replace_at i' x r
  end.

Module Graph.

Definition RELATIONSHIP_TYPES : list string :=
  [ "contains"; "isPartOf"; "hasComponent"; "isComponentOf";
    "wasDerivedFrom"; "wasRevisionOf"; "wasQuotedFrom"; "wasInfluencedBy";
    "wasGeneratedBy"; "used"; "wasAttributedTo"; "wasAssociatedWith";
    "dependsOn"; "requires"; "uses"; "supports";
    "precedes"; "follows"; "replaces";
    "trainedOn"; "fineTunedFrom"; "generates"; "analyzes" ].

Definition RESOURCE := "DigitalResource".
Definition MODEL := "AIModel".
Definition AGENT := "Agent".
Definition PERSON := "Person".
Definition ORGANIZATION := "Organization".
Definition SOFTWARE := "Software".
Definition ACTIVITY := "Activity".

Record ResourceGraph := mkGraph {
  nodes : list (string * obj);   (* Map of DID -> node *)
  edges : list obj;
  provData : value;              (* null until the first projection *)
  modified : bool
}.

(** [new ResourceGraph()]. *)
Definition empty : ResourceGraph :=
  {| nodes := []; edges := []; provData := VNull; modified := false |}.

(** [this.nodes.has(x)] for an arbitrary value: the keys are strings. *)
Definition has_node (g : ResourceGraph) (x : value) : bool :=
  match x with
  | VStr s => JMap.has (nodes g) s
  | _ => false
  end.

(** [addNode(did, metadata)]; [now1], [now2] are the readings of the
    clock in evaluation order.  [None]: 'DID is required'. *)
Definition addNode (now1 now2 : string) (did : string) (metadata : obj)
    (g : ResourceGraph) : option ResourceGraph :=
  if String.eqb did "" then None
  else
    let node :=
      match JMap.get (nodes g) did with
      | Some existingNode =>
          obj_set (spread existingNode metadata) "updated" (VStr now1)
      | None =>
          spread
            [ ("did", VStr did);
              ("type", js_or (obj_get metadata "type") (VStr RESOURCE));
              ("label", js_or (obj_get metadata "label")
                          (VStr (last_str (split ":" did))));
              ("created", VStr now1);
              ("updated", VStr now2) ]
            metadata
      end in
    Some {| nodes := JMap.set (nodes g) did node;
            edges := edges g;
            provData := provData g;
            modified := true |}.

Definition edge_is (fromDID toDID relationshipType : string) (edge : obj)
  : bool :=
  value_eqb (obj_get edge "from") (VStr fromDID)
  && value_eqb (obj_get edge "to") (VStr toDID)
  && value_eqb (obj_get edge "type") (VStr relationshipType).

(** [addEdge(fromDID, toDID, relationshipType, metadata)].  [None]: a
    missing end point or an invalid relationship type. *)
Definition addEdge (now1 now2 : string) (fromDID toDID relationshipType : string)
    (metadata : obj) (g : ResourceGraph) : option ResourceGraph :=
  if negb (JMap.has (nodes g) fromDID) then None
  else if negb (JMap.has (nodes g) toDID) then None
  else if negb (existsb (String.eqb relationshipType) RELATIONSHIP_TYPES)
  then None
  else
    let existingEdgeIndex :=
      findIndex (edge_is fromDID toDID relationshipType) (edges g) in
    let edge :=
      spread [ ("from", VStr fromDID); ("to", VStr toDID);
               ("type", VStr relationshipType); ("created", VStr now1) ]
             metadata in
    let edges' :=
      match existingEdgeIndex with
      | Some i =>
          replace_at i
            (obj_set (spread (nth i (edges g) []) edge) "updated" (VStr now2))
            (edges g)
      | None => (edges g ++ [edge])%list
      end in
    Some {| nodes := nodes g;
            edges := edges';
            provData := provData g;
            modified := true |}.

(** [removeNode(did)]; an absent node leaves the graph as it is. *)
Definition removeNode (did : string) (g : ResourceGraph) : ResourceGraph :=
  if negb (JMap.has (nodes g) did) then g
  else
    {| nodes := JMap.delete (nodes g) did;
       edges := filter (fun edge =>
                          negb (value_eqb (obj_get edge "from") (VStr did))
                          && negb (value_eqb (obj_get edge "to") (VStr did)))
                       (edges g);
       provData := provData g;
       modified := true |}.

(** [removeEdge(fromDID, toDID, relationshipType = null)]. *)
Definition removeEdge (fromDID toDID : string) (relationshipType : option string)
    (g : ResourceGraph) : ResourceGraph :=
  let initialCount := List.length (edges g) in
  let typed :=
    match relationshipType with
    | Some t => if String.eqb t "" then None else Some t
    | None => None
    end in
  let edges' :=
    match typed with
    | Some t => filter (fun edge => negb (edge_is fromDID toDID t edge)) (edges g)
    | None =>
        filter (fun edge =>
                  negb (value_eqb (obj_get edge "from") (VStr fromDID)
                        && value_eqb (obj_get edge "to") (VStr toDID)))
               (edges g)
    end in
  {| nodes := nodes g;
     edges := edges';
     provData := provData g;
     modified := negb (List.length edges' =? initialCount)%nat |}.

(** [getEdges(did, 'outgoing')], for the value [did] the traversal holds. *)
Definition getEdges_outgoing (g : ResourceGraph) (did : value) : list obj :=
  if negb (has_node g did) then []
  else filter (fun edge => value_eqb (obj_get edge "from") did) (edges g).

(* ---------------------------------------------------------------- *)
(** ** findPaths *)

(** The three objects the search mutates: the [visited] set, the
    current [path] and the [paths] found so far. *)
Record search := mkSearch {
  visited : list value;
  path : list value;
  paths : list (list value)
}.

Definition set_has (s : list value) (x : value) : bool :=
  existsb (value_eqb x) s.

Definition set_add (s : list value) (x : value) : list value :=
  if set_has s x then s else (s ++ [x])%list.

Definition set_delete (s : list value) (x : value) : list value :=
  filter (fun y => negb (value_eqb x y)) s.

(** [relationshipTypes.includes(edge.type)]. *)
Definition type_allowed (relationshipTypes : option (list string))
    (edge : obj) : bool :=
  match relationshipTypes with
  | None => true
  | Some ts => existsb (fun t => value_eqb (obj_get edge "type") (VStr t)) ts
  end.

(** [_dfs], by recursion on the number of levels left: [levels] is
    [depth + 1], so that [depth < 0] is [levels = 0]. *)
Fixpoint dfs_levels (g : ResourceGraph) (target : value)
    (relationshipTypes : option (list string))
    (levels : nat) (current : value) (st : search) : search :=
  match levels with
  | O => st
  | S levels' =>
      let st1 := {| visited := set_add (visited st) current;
                    path := (path st ++ [current])%list;
                    paths := paths st |} in
      let st2 :=
        if value_eqb current target then
          {| visited := visited st1;
             path := path st1;
             paths := (paths st1 ++ [path st1])%list |}
        else
          fold_left
            (fun (s : search) (edge : obj) =>
               if negb (set_has (visited s) (obj_get edge "to"))
                  && type_allowed relationshipTypes edge
               then dfs_levels g target relationshipTypes levels'
                      (obj_get edge "to") s
               else s)
            (getEdges_outgoing g current) st1 in
      {| visited := set_delete (visited st2) current;
         path := removelast (path st2);
         paths := paths st2 |}
  end.

Definition _dfs (g : ResourceGraph) (current target : value) (st : search)
    (depth : Z) (relationshipTypes : option (list string)) : search :=
  dfs_levels g target relationshipTypes (Z.to_nat (depth + 1)) current st.

(** [findPaths(startDID, endDID, options)]: [maxDepth] and
    [relationshipTypes] are the fields of [options], [None] when absent. *)
Definition findPaths (g : ResourceGraph) (startDID endDID : string)
    (maxDepth : option Z) (relationshipTypes : option (list string))
  : list (list value) :=
  let maxDepth :=
    match maxDepth with
    | Some d => if Z.eqb d 0 then 5%Z else d
    | None => 5%Z
    end in
  if negb (JMap.has (nodes g) startDID) || negb (JMap.has (nodes g) endDID)
  then []
  else
    paths (_dfs g (VStr startDID) (VStr endDID)
             {| visited := []; path := []; paths := [] |}
             maxDepth relationshipTypes).

(* ---------------------------------------------------------------- *)
(** ** PROV projection *)

(** The document under construction: [prov.entity], [prov.activity] and
    [prov.agent]. *)
Record prov_maps := mkProv {
  entity : obj;
  activity : obj;
  agent : obj
}.

Definition prov_context : value :=
  VObj [ ("prov", VStr "http://www.w3.org/ns/prov#");
         ("xsd", VStr "http://www.w3.org/2001/XMLSchema#");
         ("rdfs", VStr "http://www.w3.org/2000/01/rdf-schema#");
         ("asset", VStr "https://w3id.org/asset/") ].

Definition prov_document (p : prov_maps) : value :=
  VObj [ ("@context", prov_context);
         ("entity", VObj (entity p));
         ("activity", VObj (activity p));
         ("agent", VObj (agent p)) ].

Definition is_type (node : obj) (t : string) : bool :=
  value_eqb (obj_get node "type") (VStr t).

(** The first loop of [toPROV]: one entry for each node.  (For the
    identifier [__proto__] the assignment [prov.entity[did] = ...] sets
    the prototype of the map and adds no entry; the statements on the
    projection of the nodes are for graphs without such a node.) *)
Definition project_node (p : prov_maps) (entry : string * obj) : prov_maps :=
  let (did, node) := entry in
  if is_type node ACTIVITY then
    {| entity := entity p;
       activity :=
         obj_set (activity p) did
           (VObj [ ("prov:startedAtTime",
                     js_or (obj_get node "startTime") (obj_get node "created"));
                   ("prov:endedAtTime",
                     js_or (obj_get node "endTime") (obj_get node "updated"));
                   ("rdfs:label", js_or (obj_get node "label") (VStr did)) ]);
       agent := agent p |}
  else if is_type node AGENT || is_type node PERSON
          || is_type node ORGANIZATION || is_type node SOFTWARE then
    {| entity := entity p;
       activity := activity p;
       agent :=
         obj_set (agent p) did
           (VObj [ ("prov:type", obj_get node "type");
                   ("rdfs:label", js_or (obj_get node "label") (VStr did)) ]) |}
  else
    {| entity :=
         obj_set (entity p) did
           (VObj [ ("prov:type", obj_get node "type");
                   ("rdfs:label", js_or (obj_get node "label") (VStr did));
                   ("prov:generatedAtTime", obj_get node "created") ]);
       activity := activity p;
       agent := agent p |}.

(** [m[subject][key] = x]. *)
Definition set_rel (m : obj) (subject : value) (key : string) (x : value)
  : obj :=
  obj_set m (to_key subject)
    (VObj (obj_set (match obj_get m (to_key subject) with
                    | VObj e => e
                    | _ => []
                    end) key x)).

(** [if (!m[subject][key]) m[subject][key] = []; m[subject][key].push(x)]. *)
Definition push_rel (m : obj) (subject : value) (key : string) (x : value)
  : obj :=
  set_rel m subject key
    (VArr (match get_prop (obj_get m (to_key subject)) key with
           | VArr l => (l ++ [x])%list
           | _ => [x]
           end)).

(** [!m[x]]. *)
Definition missing (m : obj) (x : value) : bool :=
  negb (truthy (obj_get m (to_key x))).

(** The second loop of [toPROV]: one relationship. *)
Definition project_edge (g : ResourceGraph) (p : prov_maps) (edge : obj)
  : prov_maps :=
  let e_type := obj_get edge "type" in
  let e_from := obj_get edge "from" in
  let e_to := obj_get edge "to" in
  let case t := value_eqb e_type (VStr t) in
  if case "wasDerivedFrom" || case "wasRevisionOf" || case "wasQuotedFrom"
     || case "wasInfluencedBy" then
    if missing (entity p) e_to then p
    else {| entity := push_rel (entity p) e_to "prov:wasDerivedFrom" e_from;
            activity := activity p; agent := agent p |}
  else if case "wasGeneratedBy" then
    if missing (entity p) e_from || missing (activity p) e_to then p
    else {| entity := set_rel (entity p) e_from "prov:wasGeneratedBy" e_to;
            activity := activity p; agent := agent p |}
  else if case "used" then
    if missing (activity p) e_from || missing (entity p) e_to then p
    else {| entity := entity p;
            activity := push_rel (activity p) e_from "prov:used" e_to;
            agent := agent p |}
  else if case "wasAttributedTo" then
    if missing (entity p) e_from || missing (agent p) e_to then p
    else {| entity := set_rel (entity p) e_from "prov:wasAttributedTo" e_to;
            activity := activity p; agent := agent p |}
  else if case "wasAssociatedWith" then
    if missing (activity p) e_from || missing (agent p) e_to then p
    else {| entity := entity p;
            activity :=
              set_rel (activity p) e_from "prov:wasAssociatedWith" e_to;
            agent := agent p |}
  else
    let fromType :=
      match e_from with
      | VStr s => match JMap.get (nodes g) s with
                  | Some node => obj_get node "type"
                  | None => VUndefined
                  end
      | _ => VUndefined
      end in
    if value_eqb fromType (VStr RESOURCE) || value_eqb fromType (VStr MODEL)
    then
      if missing (entity p) e_from then p
      else {| entity :=
                push_rel (entity p) e_from ("asset:" ++ to_key e_type) e_to;
              activity := activity p; agent := agent p |}
    else p.

(** The document [toPROV] builds from the nodes and the edges. *)
Definition project (g : ResourceGraph) : value :=
  let p0 := {| entity := []; activity := []; agent := [] |} in
  let p1 := fold_left project_node (nodes g) p0 in
  prov_document (fold_left (project_edge g) (edges g) p1).

(** [toPROV()]: the document returned and the graph afterwards. *)
Definition toPROV (g : ResourceGraph) : value * ResourceGraph :=
  if negb (modified g) && truthy (provData g) then (provData g, g)
  else
    let prov := project g in
    (prov, {| nodes := nodes g; edges := edges g;
              provData := prov; modified := false |}).

(* ---------------------------------------------------------------- *)
(** ** Import of a PROV document *)

(** The graph under construction and the number of clock readings made
    so far; [clock n] is the [n]-th reading.  The right operand of [||] is
    evaluated, and the clock read, only when the left one is falsy. *)
Definition import := option (ResourceGraph * nat).

Definition addNode_i (clock : nat -> string) (did : string) (metadata : obj)
    (s : import) : import :=
  match s with
  | Some (g, n) =>
      match addNode (clock n) (clock (S n)) did metadata g with
      | Some g' => Some (g', S (S n))
      | None => None
      end
  | None => None
  end.

Definition addEdge_i (clock : nat -> string)
    (fromDID toDID relationshipType : string) (s : import) : import :=
  match s with
  | Some (g, n) =>
      match addEdge (clock n) (clock (S n)) fromDID toDID relationshipType [] g with
      | Some g' => Some (g', S (S n))
      | None => None
      end
  | None => None
  end.

(** [addEdge] guarded by [graph.nodes.has(x)] on the end point taken from
    the document. *)
Definition link_from (clock : nat -> string) (did : string)
    (relationshipType : string) (s : import) (source : value) : import :=
  match s, source with
  | Some (g, _), VStr src =>
      if JMap.has (nodes g) src then addEdge_i clock src did relationshipType s
      else s
  | _, _ => s
  end.

Definition link_to (clock : nat -> string) (did : string)
    (relationshipType : string) (s : import) (target : value) : import :=
  match s, target with
  | Some (g, _), VStr tgt =>
      if JMap.has (nodes g) tgt then addEdge_i clock did tgt relationshipType s
      else s
  | _, _ => s
  end.

Definition import_entity (clock : nat -> string) (s : import)
    (entry : string * value) : import :=
  let (did, entity) := entry in
  match s, read entity "prov:type", read entity "rdfs:label",
        read entity "prov:generatedAtTime" with
  | Some (g, n), Some type, Some label, Some created =>
      addNode_i clock did
        [ ("type", js_or type (VStr RESOURCE));
          ("label", js_or label (VStr (last_str (split ":" did))));
          ("created", js_or created (VStr (clock n))) ]
        (Some (g, if truthy created then n else S n))
  | _, _, _, _ => None
  end.

Definition import_activity (clock : nat -> string) (s : import)
    (entry : string * value) : import :=
  let (did, activity) := entry in
  match s, read activity "rdfs:label", read activity "prov:startedAtTime",
        read activity "prov:endedAtTime" with
  | Some (g, n), Some label, Some started, Some ended =>
      let created := js_or started (VStr (clock n)) in
      let updated := js_or ended created in
      addNode_i clock did
        [ ("type", VStr ACTIVITY);
          ("label", js_or label (VStr (last_str (split ":" did))));
          ("created", created);
          ("updated", updated);
          ("startTime", started);
          ("endTime", ended) ]
        (Some (g, if truthy started then n else S n))
  | _, _, _, _ => None
  end.

Definition import_agent (clock : nat -> string) (s : import)
    (entry : string * value) : import :=
  let (did, agent) := entry in
  match s, read agent "prov:type", read agent "rdfs:label" with
  | Some _, Some type, Some label =>
      addNode_i clock did
        [ ("type", js_or type (VStr AGENT));
          ("label", js_or label (VStr (last_str (split ":" did)))) ]
        s
  | _, _, _ => None
  end.

(** The relationships of one entity. *)
Definition import_entity_relations (clock : nat -> string) (s : import)
    (entry : string * value) : import :=
  let (did, entity) := entry in
  let derived := get_prop entity "prov:wasDerivedFrom" in
  let s1 :=
    if truthy derived
    then fold_left (link_from clock did "wasDerivedFrom") (as_array derived) s
    else s in
  let generated := get_prop entity "prov:wasGeneratedBy" in
  let s2 := if truthy generated
            then link_to clock did "wasGeneratedBy" s1 generated else s1 in
  let attributed := get_prop entity "prov:wasAttributedTo" in
  let s3 := if truthy attributed
            then link_to clock did "wasAttributedTo" s2 attributed else s2 in
  fold_left
    (fun (s : import) (kv : string * value) =>
       let (key, value) := kv in
       if startsWith key "asset:" then
         fold_left (link_to clock did (substring_from 6 key)) (as_array value) s
       else s)
    (entries entity) s3.

(** The relationships of one activity. *)
Definition import_activity_relations (clock : nat -> string) (s : import)
    (entry : string * value) : import :=
  let (did, activity) := entry in
  let used := get_prop activity "prov:used" in
  let s1 :=
    if truthy used
    then fold_left (link_to clock did "used") (as_array used) s
    else s in
  let associated := get_prop activity "prov:wasAssociatedWith" in
  if truthy associated
  then link_to clock did "wasAssociatedWith" s1 associated else s1.

(** [ResourceGraph.fromPROV(prov)].  [None]: an exception. *)
Definition fromPROV (clock : nat -> string) (prov : value)
  : option ResourceGraph :=
  match read prov "entity", read prov "activity", read prov "agent" with
  | Some ents, Some acts, Some agts =>
      let when (v : value) (f : import -> import) (s : import) :=
        if truthy v then f s else s in
      let s0 : import := Some (empty, 0%nat) in
      let s1 := when ents (fun s => fold_left (import_entity clock) (entries ents) s) s0 in
      let s2 := when acts (fun s => fold_left (import_activity clock) (entries acts) s) s1 in
      let s3 := when agts (fun s => fold_left (import_agent clock) (entries agts) s) s2 in
      let s4 := when ents (fun s => fold_left (import_entity_relations clock) (entries ents) s) s3 in
      let s5 := when acts (fun s => fold_left (import_activity_relations clock) (entries acts) s) s4 in
      option_map fst s5
  | _, _, _ => None
  end.

End Graph.

(* ================================================================== *)
(** * Hierarchical metadata ([HierarchicalMetadataManager]) *)
(* ================================================================== *)

Module Metadata.

(** METADATA_STANDARDS *)
Definition DID := "did".
Definition C2PA := "c2pa".
Definition MODEL_CARD := "modelCard".
Definition DATA_SHEET := "dataSheet".
Definition PROV := "prov".
Definition MPEG21_REL := "mpeg21Rel".
Definition GENERAL := "general".

(** SERIALIZATION_FORMATS *)
Definition JSON_LD := "jsonld".
Definition CBOR := "cbor".
Definition TLV := "tlv".
Definition JSON_FORMAT := "json".
Definition XML := "xml".

(** A [MetadataLayer]; [updated] is [this.updated.toISOString()].  The
    subclass of a layer is fixed by the slot that holds it. *)
Record MetadataLayer := mkLayer {
  type : string;
  data : obj;
  updated : string
}.

(** [get(field, defaultValue)], the dot path already split. *)
Fixpoint get_path (parts : list string) (v : value) (defaultValue : value)
  : value :=
  match parts with
  | [] => match v with VUndefined => defaultValue | _ => v end
  | part :: rest =>
      match v with
      | VObj _ | VArr _ => get_path rest (obj_get (entries v) part) defaultValue
      | _ => defaultValue
      end
  end.

Definition get (l : MetadataLayer) (field : string) (defaultValue : value)
  : value :=
  get_path (split "."%char field) (VObj (data l)) defaultValue.

(** [getData()] and [toC2PAManifest()]: [{ ...this.data }]. *)
Definition getData (l : MetadataLayer) : value := VObj (spread [] (data l)).
Definition toC2PAManifest (l : MetadataLayer) : value :=
  VObj (spread [] (data l)).

(** [[...v]] for the values the model iterates; [None]: not iterable. *)
Definition iterate (v : value) : option (list value) :=
  match v with
  | VArr l => Some l
  | VStr s => Some (map (fun c => VStr (String c "")) (list_ascii_of_string s))
  | _ => None
  end.

Definition toDIDDocument (l : MetadataLayer) : option obj :=
  match iterate (get l "context" (VArr [])) with
  | Some ctx =>
      Some [ ("@context", VArr (VStr "https://www.w3.org/ns/did/v1" :: ctx));
             ("id", get l "id" VNull);
             ("controller", get l "controller" VNull);
             ("verificationMethod", get l "verificationMethod" (VArr []));
             ("authentication", get l "authentication" (VArr []));
             ("service", get l "service" (VArr []));
             ("created", get l "created" VNull);
             ("updated", get l "updated" (VStr (updated l))) ]
  | None => None
  end.

Definition toPROVJSON (l : MetadataLayer) : value :=
  VObj [ ("prefix", get l "prefix" (VObj []));
         ("entity", get l "entity" (VObj []));
         ("activity", get l "activity" (VObj []));
         ("agent", get l "agent" (VObj []));
         ("wasGeneratedBy", get l "wasGeneratedBy" (VObj []));
         ("used", get l "used" (VObj []));
         ("wasAttributedTo", get l "wasAttributedTo" (VObj []));
         ("wasDerivedFrom", get l "wasDerivedFrom" (VObj []));
         ("wasAssociatedWith", get l "wasAssociatedWith" (VObj [])) ].

(** The manager: [this.options.defaultFormat] and [this.layers], an
    object whose properties hold a layer or [null] ([None]). *)
Record HierarchicalMetadataManager := mkManager {
  defaultFormat : string;
  layers : list (string * option MetadataLayer)
}.

(** [new HierarchicalMetadataManager()]. *)
Definition new_manager : HierarchicalMetadataManager :=
  {| defaultFormat := JSON_LD;
     layers := [ (DID, None); (C2PA, None); (MODEL_CARD, None);
                 (DATA_SHEET, None); (PROV, None); (MPEG21_REL, None);
                 (GENERAL, None) ] |}.

(** [this.layers[tag]] as a truthy layer, if any. *)
Definition layer_at (m : HierarchicalMetadataManager) (tag : string)
  : option MetadataLayer :=
  match JMap.get (layers m) tag with
  | Some (Some l) => Some l
  | _ => None
  end.

Definition set_layer (m : HierarchicalMetadataManager) (tag : string)
    (l : MetadataLayer) : HierarchicalMetadataManager :=
  {| defaultFormat := defaultFormat m;
     layers := JMap.set (layers m) tag (Some l) |}.

(** The setters; [now] is the reading of the clock in the constructor of
    the layer. *)
Definition setIdentificationLayer (now : string) (didData : obj)
    (m : HierarchicalMetadataManager) :=
  set_layer m DID {| type := DID; data := didData; updated := now |}.

Definition setProvenanceLayer (now : string) (provenanceData : obj)
    (m : HierarchicalMetadataManager) :=
  set_layer m C2PA {| type := C2PA; data := provenanceData; updated := now |}.

Definition setCharacteristicsLayer (now : string) (resourceType : string)
    (characteristicsData : obj) (m : HierarchicalMetadataManager) :=
  let standard :=
    if String.eqb resourceType "ai-model" then MODEL_CARD
    else if String.eqb resourceType "dataset" then DATA_SHEET
    else GENERAL in
  set_layer m standard
    {| type := standard;
       data := spread [("resourceType", VStr resourceType)] characteristicsData;
       updated := now |}.

Definition setLineageLayer (now : string) (lineageData : obj)
    (m : HierarchicalMetadataManager) :=
  set_layer m PROV {| type := PROV; data := lineageData; updated := now |}.

Definition setRightsLayer (now : string) (rightsData : obj)
    (m : HierarchicalMetadataManager) :=
  set_layer m MPEG21_REL
    {| type := MPEG21_REL; data := rightsData; updated := now |}.

(** [_serialize(metadata, format)].  [None]: an exception. *)
Definition _serialize (metadata : value) (format : string) : option value :=
  if String.eqb format JSON_LD then Some metadata
  else if String.eqb format JSON_FORMAT then
    match JSON.stringify metadata with
    | Some s => JSON.parse_text s
    | None => None
    end
  else None.

(** One iteration of the loop over the requested layers. *)
Definition add_layer (m : HierarchicalMetadataManager)
    (selective : option obj) (layer : string) : option obj :=
  match selective, layer_at m layer with
  | Some sel, Some l =>
      if String.eqb layer DID then
        option_map (spread sel) (toDIDDocument l)
      else if String.eqb layer C2PA then
        Some (obj_set sel "provenance" (toC2PAManifest l))
      else if String.eqb layer MODEL_CARD then
        Some (obj_set sel "modelCard" (getData l))
      else if String.eqb layer DATA_SHEET then
        Some (obj_set sel "dataSheet" (getData l))
      else if String.eqb layer PROV then
        Some (obj_set sel "lineage" (toPROVJSON l))
      else if String.eqb layer MPEG21_REL then
        Some (obj_set sel "rights" (getData l))
      else if String.eqb layer GENERAL then
        Some (obj_set sel "characteristics" (getData l))
      else Some sel
  | _, _ => selective
  end.

(** [createSelectiveView(layers, format)]; [format] is [None] when the
    argument is omitted. *)
Definition createSelectiveView (m : HierarchicalMetadataManager)
    (requested : list string) (format : option string) : option value :=
  let format := match format with Some f => f | None => defaultFormat m end in
  let selective :=
    [ ("@context", VArr [VStr "https://www.w3.org/ns/did/v1"]) ] in
  let selective :=
    match layer_at m DID with
    | Some idLayer => obj_set selective "id" (get idLayer "id" VNull)
    | None => selective
    end in
  match fold_left (add_layer m) requested (Some selective) with
  | Some sel => _serialize (VObj sel) format
  | None => None
  end.

End Metadata.

(* ================================================================== *)
(** * Node library functions used by the identifier core *)
(* ================================================================== *)

(** [crypto.createHash('sha256')] (FIPS 180-4) over a list of bytes. *)
Module SHA256.
Open Scope Z_scope.

Definition w32 (x : Z) : Z := x mod 4294967296.
Definition add32 (x y : Z) : Z := w32 (x + y).
Definition rotr (n x : Z) : Z :=
  Z.lor (Z.shiftr x n) (w32 (Z.shiftl x (32 - n))).
Definition not32 (x : Z) : Z := Z.lxor x 4294967295.

Definition Ch (x y z : Z) : Z := Z.lxor (Z.land x y) (Z.land (not32 x) z).
Definition Maj (x y z : Z) : Z :=
  Z.lxor (Z.lxor (Z.land x y) (Z.land x z)) (Z.land y z).
Definition Sigma0 (x : Z) : Z :=
  Z.lxor (Z.lxor (rotr 2 x) (rotr 13 x)) (rotr 22 x).
Definition Sigma1 (x : Z) : Z :=
  Z.lxor (Z.lxor (rotr 6 x) (rotr 11 x)) (rotr 25 x).
Definition sigma0 (x : Z) : Z :=
  Z.lxor (Z.lxor (rotr 7 x) (rotr 18 x)) (Z.shiftr x 3).
Definition sigma1 (x : Z) : Z :=
  Z.lxor (Z.lxor (rotr 17 x) (rotr 19 x)) (Z.shiftr x 10).

Definition K : list Z :=
  [ 1116352408; 1899447441; 3049323471; 3921009573; 961987163; 1508970993;
    2453635748; 2870763221; 3624381080; 310598401; 607225278; 1426881987;
    1925078388; 2162078206; 2614888103; 3248222580; 3835390401; 4022224774;
    264347078; 604807628; 770255983; 1249150122; 1555081692; 1996064986;
    2554220882; 2821834349; 2952996808; 3210313671; 3336571891; 3584528711;
    113926993; 338241895; 666307205; 773529912; 1294757372; 1396182291;
    1695183700; 1986661051; 2177026350; 2456956037; 2730485921; 2820302411;
    3259730800; 3345764771; 3516065817; 3600352804; 4094571909; 275423344;
    430227734; 506948616; 659060556; 883997877; 958139571; 1322822218;
    1537002063; 1747873779; 1955562222; 2024104815; 2227730452; 2361852424;
    2428436474; 2756734187; 3204031479; 3329325298 ].

Definition H0 : list Z :=
  [ 1779033703; 3144134277; 1013904242; 2773480762;
    1359893119; 2600822924; 528734635; 1541459225 ].

(** Padding: the bit 1, zeros, and the length in bits on 64 bits. *)
Definition be_bytes (n : nat) (x : Z) : list Z :=
  map (fun i => (Z.shiftr x (8 * Z.of_nat i)) mod 256) (rev (seq 0 n)).

Definition pad (msg : list Z) : list Z :=
  let len := Z.of_nat (List.length msg) in
  let zeros := Z.to_nat ((55 - len) mod 64) in
  (msg ++ [128] ++ repeat 0 zeros ++ be_bytes 8 (8 * len))%list.

Fixpoint words (bytes : list Z) : list Z :=
  match bytes with
  | a :: b :: c :: d :: r =>
      (a * 16777216 + b * 65536 + c * 256 + d) :: words r
  | _ => []
  end.

(** The message schedule, most recent word first. *)
Fixpoint schedule (n : nat) (w : list Z) : list Z :=
  match n with
  | O => w
  | S n' =>
      let x := add32 (add32 (sigma1 (nth 1 w 0)) (nth 6 w 0))
                     (add32 (sigma0 (nth 14 w 0)) (nth 15 w 0)) in
      schedule n' (x :: w)
  end.

Definition round (h : list Z) (kw : Z * Z) : list Z :=
  match h with
  | [a; b; c; d; e; f; g; hh] =>
      let t1 := add32 (add32 (add32 hh (Sigma1 e)) (Ch e f g))
                      (add32 (fst kw) (snd kw)) in
      let t2 := add32 (Sigma0 a) (Maj a b c) in
      [add32 t1 t2; a; b; c; add32 d t1; e; f; g]
  | _ => h
  end.

Definition compress (h : list Z) (block : list Z) : list Z :=
  let w := rev (schedule 48 (rev block)) in
  map (fun p => add32 (fst p) (snd p))
      (combine h (fold_left round (combine K w) h)).

Fixpoint blocks (n : nat) (ws : list Z) (h : list Z) : list Z :=
  match n with
  | O => h
  | S n' => blocks n' (skipn 16 ws) (compress h (firstn 16 ws))
  end.

Definition digest (msg : list Z) : list Z :=
  let ws := words (pad msg) in
  flat_map (be_bytes 4) (blocks (List.length ws / 16) ws H0).

End SHA256.

(** [Buffer] conversions. *)
Module Buffer.

Definition hex_digits := "0123456789abcdef".

Definition nth_char (alphabet : string) (n : nat) : ascii :=
  nth n (list_ascii_of_string alphabet) "0"%char.

(** [buf.toString('hex')]. *)
Fixpoint to_hex (bytes : list Z) : string :=
  match bytes with
  | [] => ""
  | b :: r =>
      String (nth_char hex_digits (Z.to_nat (b / 16)))
        (String (nth_char hex_digits (Z.to_nat (b mod 16))) (to_hex r))
  end.

(** [Buffer.from(s, 'hex')]: decoding stops at the first pair that is
    not made of two hexadecimal digits. *)
Fixpoint from_hex_list (l : list ascii) : list Z :=
  match l with
  | a :: b :: r =>
      match JSON.hex_val a, JSON.hex_val b with
      | Some x, Some y => Z.of_nat (16 * x + y) :: from_hex_list r
      | _, _ => []
      end
  | _ => []
  end.

Definition from_hex (s : string) : list Z :=
  from_hex_list (list_ascii_of_string s).

(** [Buffer.from(s)] for a string of code units below 256: UTF-8. *)
Fixpoint utf8 (s : string) : list Z :=
  match s with
  | EmptyString => []
  | String c r =>
      let n := Z.of_nat (nat_of_ascii c) in
      if (n <? 128)%Z then n :: utf8 r
      else (192 + n / 64)%Z :: (128 + n mod 64)%Z :: utf8 r
  end.

Definition base64_alphabet :=
  "ABCDEFGHIJKLMNOPQRSTUVWXYZabcdefghijklmnopqrstuvwxyz0123456789+/".

Definition b64 (n : Z) : ascii := nth_char base64_alphabet (Z.to_nat n).

(** [buf.toString('base64')]. *)
Fixpoint to_base64 (bytes : list Z) : string :=
  match bytes with
  | [] => ""
  | [a] =>
      String (b64 (a / 4)) (String (b64 ((a mod 4) * 16)) "==")
  | [a; b] =>
      String (b64 (a / 4))
        (String (b64 ((a mod 4) * 16 + b / 16))
           (String (b64 ((b mod 16) * 4)) "="))
  | a :: b :: c :: r =>
      String (b64 (a / 4))
        (String (b64 ((a mod 4) * 16 + b / 16))
           (String (b64 ((b mod 16) * 4 + c / 64))
              (String (b64 (c mod 64)) (to_base64 r))))
  end%Z.

(** The value of a character of the base64 or base64url alphabet. *)
Definition unbase64 (c : ascii) : option Z :=
  let n := Z.of_nat (nat_of_ascii c) in
  (if (65 <=? n) && (n <=? 90) then Some (n - 65)
   else if (97 <=? n) && (n <=? 122) then Some (n - 71)
   else if (48 <=? n) && (n <=? 57) then Some (n + 4)
   else if (n =? 43) || (n =? 45) then Some 62
   else if (n =? 47) || (n =? 95) then Some 63
   else None)%Z.

(** The legal characters before the first ['=']. *)
Fixpoint sextets (l : list ascii) : list Z :=
  match l with
  | [] => []
  | c :: r =>
      if Ascii.eqb c "="%char then []
      else match unbase64 c with
           | Some v => v :: sextets r
           | None => sextets r
           end
  end.

Fixpoint from_sextets (l : list Z) : list Z :=
  match l with
  | a :: b :: c :: d :: r =>
      (a * 4 + b / 16) :: ((b mod 16) * 16 + c / 4) :: ((c mod 4) * 64 + d)
      :: from_sextets r
  | [a; b; c] => [a * 4 + b / 16; (b mod 16) * 16 + c / 4]
  | [a; b] => [a * 4 + b / 16]
  | _ => []
  end%Z.

(** [Buffer.from(s, 'base64')]. *)
Definition from_base64 (s : string) : list Z :=
  from_sextets (sextets (list_ascii_of_string s)).

End Buffer.

(* ================================================================== *)
(** * Identifier core ([DIDFactory]) *)
(* ================================================================== *)

Module DID.

(** RESOURCE_TYPES *)
Definition TEXT := "text".
Definition IMAGE := "image".
Definition AUDIO := "audio".
Definition VIDEO := "video".
Definition AI_MODEL := "ai-model".
Definition DATASET := "dataset".
Definition CODE := "code".
Definition GENERIC := "generic".

(** COMPRESSION_FORMATS *)
Definition NONE := "none".
Definition BASE58 := "base58".
Definition BASE64URL := "base64url".
Definition HEX := "hex".
Definition TLV := "tlv".

(** [this.options] of the factory. *)
Record factory := mkFactory {
  defaultMethod : string;
  defaultCompression : string;
  methodMappings : list (string * string)
}.

(** [new DIDFactory()]. *)
Definition new_factory : factory :=
  {| defaultMethod := "asset";
     defaultCompression := BASE64URL;
     methodMappings :=
       [ (TEXT, "asset"); (IMAGE, "asset"); (AUDIO, "asset");
         (VIDEO, "asset"); (AI_MODEL, "asset"); (DATASET, "asset");
         (CODE, "asset"); (GENERIC, "asset") ] |}.

Definition sha256_hex (s : string) : string :=
  Buffer.to_hex (SHA256.digest (Buffer.utf8 s)).

(** [Object.keys(resource)] for an object or an array. *)
Definition keys_of (resource : value) : list string :=
  map fst (entries resource).

(** The serialization [_generateHash] feeds to the hash for an object:
    [JSON.stringify(resource, Object.keys(resource).sort())]. *)
Definition canonical (resource : value) : option string :=
  JSON.stringify_with (sort_strings (keys_of resource)) resource.

(** [_generateHash(resource)] for a string or an object (a [Buffer] is
    hashed as it is and is not modelled).  [None]: an exception. *)
Definition _generateHash (resource : value) : option string :=
  match resource with
  | VStr s => Some (sha256_hex s)
  | VObj _ | VArr _ => option_map sha256_hex (canonical resource)
  | _ => None
  end.

(** [_generateUniqueId(resource, resourceType, specificProps)]. *)
Definition _generateUniqueId (resource : value) (resourceType : string)
    (specificProps : obj) : option string :=
  let prop k := obj_get specificProps k in
  if String.eqb resourceType AI_MODEL then
    let modelMetadata :=
      spread [ ("architecture", js_or (prop "architecture") (VStr ""));
               ("parametersSize", js_or (prop "parametersSize") (VStr ""));
               ("trainingDatasetRef",
                 js_or (prop "trainingDatasetRef") (VStr "")) ]
             specificProps in
    _generateHash
      (VObj (obj_set (spread [] modelMetadata) "resourceType" (VStr resourceType)))
  else if String.eqb resourceType DATASET then
    let datasetMetadata :=
      spread [ ("structure", js_or (prop "structure") (VStr ""));
               ("sampleCount", js_or (prop "sampleCount") (VStr ""));
               ("categories", js_or (prop "categories") (VArr [])) ]
             specificProps in
    _generateHash
      (VObj (obj_set (spread [] datasetMetadata) "resourceType" (VStr resourceType)))
  else if String.eqb resourceType CODE then
    let codeMetadata :=
      spread [ ("language", js_or (prop "language") (VStr ""));
               ("repository", js_or (prop "repository") (VStr ""));
               ("path", js_or (prop "path") (VStr "")) ]
             specificProps in
    _generateHash
      (VObj (obj_set (spread [] codeMetadata) "resourceType" (VStr resourceType)))
  else
    match resource with
    | VStr _ => _generateHash resource
    | _ =>
        _generateHash
          (VObj (spread [ ("resource", resource);
                          ("resourceType", VStr resourceType) ]
                        specificProps))
    end.

Definition replace_char (a b : ascii) (s : string) : string :=
  string_of_list_ascii
    (map (fun c => if Ascii.eqb c a then b else c) (list_ascii_of_string s)).

Definition remove_char (a : ascii) (s : string) : string :=
  string_of_list_ascii
    (filter (fun c => negb (Ascii.eqb c a)) (list_ascii_of_string s)).

(** [_compressIdentifier(id, format)].  [None]: 'Unsupported compression
    format'. *)
Definition _compressIdentifier (id : string) (format : string)
  : option string :=
  if String.eqb format NONE then Some id
  else if String.eqb format BASE58 then Some (String.substring 0 32 id)
  else if String.eqb format BASE64URL then
    Some (remove_char "="%char
            (replace_char "/"%char "_"%char
               (replace_char "+"%char "-"%char
                  (Buffer.to_base64 (Buffer.from_hex id)))))
  else if String.eqb format HEX then Some id
  else if String.eqb format TLV then Some (String.substring 0 32 id)
  else None.

(** The fields of [options] read by [generateDID]; [None] when absent. *)
Record did_options := mkOptions {
  method : option string;
  compression : option string;
  specificProps : option obj;
  owner : option string
}.

Definition or_default (x : option string) (d : string) : string :=
  match x with
  | Some s => if String.eqb s "" then d else s
  | None => d
  end.

(** [generateDID(resource, resourceType, options)]. *)
Definition generateDID (f : factory) (resource : value)
    (resourceType : string) (options : did_options) : option string :=
  let method :=
    or_default (method options)
      (or_default (JMap.get (methodMappings f) resourceType)
         (defaultMethod f)) in
  let compression := or_default (compression options) (defaultCompression f) in
  let specificProps :=
    match specificProps options with Some p => p | None => [] end in
  match _generateUniqueId resource resourceType specificProps with
  | Some uniqueId =>
      match _compressIdentifier uniqueId compression with
      | Some compressedId =>
          let did :=
            "did:" ++ method ++ ":" ++ resourceType ++ ":" ++ compressedId in
          match owner options with
          | Some o =>
              if String.eqb o "" then Some did
              else Some (did ++ ":" ++ String.substring 0 8 (sha256_hex o))
          | None => Some did
          end
      | None => None
      end
  | None => None
  end.

(** The object [decompressDID] returns; [owner] is [null] when the
    identifier has no fifth segment. *)
Record components := mkComponents {
  c_method : string;
  c_resourceType : string;
  c_identifier : string;
  c_owner : option string
}.

Fixpoint pad4 (fuel : nat) (s : string) : string :=
  match fuel with
  | O => s
  | S fuel' =>
      if (String.length s mod 4 =? 0)%nat then s else pad4 fuel' (s ++ "=")
  end.

(** [decompressDID(did)].  [None]: 'Invalid DID format'. *)
Definition decompressDID (did : string) : option components :=
  let parts := split ":"%char did in
  if (List.length parts <? 4)%nat || negb (String.eqb (nth 0 parts "") "did")
  then None
  else
    let compressedId := nth 3 parts "" in
    let format := BASE64URL in
    let decompressedId :=
      if String.eqb format BASE64URL then
        let padded := pad4 3 compressedId in
        Buffer.to_hex
          (Buffer.from_base64
             (replace_char "_"%char "/"%char
                (replace_char "-"%char "+"%char padded)))
      else compressedId in
    Some {| c_method := nth 1 parts "";
            c_resourceType := nth 2 parts "";
            c_identifier := decompressedId;
            c_owner := if (4 <? List.length parts)%nat
                       then Some (nth 4 parts "") else None |}.

End DID.

(* ================================================================== *)
(** * Specification-side notions *)
(* ================================================================== *)

Module WatermarkSpec.
Import Watermark.

(** The number of candidate positions of the spaces channel. *)
Definition count_spaces (t : text) : nat :=
  List.length (filter (fun c => N.eqb c regularSpace) t).

(** A carrier without U+00A0 and U+200B of its own. *)
Definition plain (t : text) : Prop :=
  Forall (fun c => c <> noBreakSpace /\ c <> zeroWidthSpace) t.

(** [only_spaces_rewritten t out]: [out] is [t] where every code unit
    stands unchanged, in order, except that an ASCII space may have been
    replaced by U+00A0 or by U+200B U+0020. *)
Inductive only_spaces_rewritten : text -> text -> Prop :=
| osr_nil : only_spaces_rewritten [] []
| osr_same c t out :
    only_spaces_rewritten t out ->
    only_spaces_rewritten (c :: t) (c :: out)
| osr_nbsp t out :
    only_spaces_rewritten t out ->
    only_spaces_rewritten (regularSpace :: t) (noBreakSpace :: out)
| osr_zwsp t out :
    only_spaces_rewritten t out ->
    only_spaces_rewritten (regularSpace :: t)
      (zeroWidthSpace :: regularSpace :: out).

(** The embedding as prose has it: walk the text, and at the [i]-th
    space put the replacement for the [i]-th bit, while bits remain. *)
Fixpoint embed_spec (o : options) (bits : binary) (t : text) : text :=
  match t with
  | [] => []
  | c :: r =>
      if N.eqb c regularSpace then
        match bits with
        | [] => c :: embed_spec o [] r
        | b :: bits' => (replacement o b ++ embed_spec o bits' r)%list
        end
      else c :: embed_spec o bits r
  end.

(** The eight binary digits of a code unit below 256, most significant
    first. *)
Definition bits_of_ascii (a : ascii) : binary :=
  let (b0, b1, b2, b3, b4, b5, b6, b7) := a in [b7; b6; b5; b4; b3; b2; b1; b0].

End WatermarkSpec.

Module GraphSpec.
Import Graph.

(** A call on the interface of a graph.  The arguments named [now] are the
    readings of the clock made by the call. *)
Inductive call : Type :=
| AddNode (now1 now2 did : string) (metadata : obj)
| AddEdge (now1 now2 fromDID toDID relationshipType : string) (metadata : obj)
| RemoveNode (did : string)
| RemoveEdge (fromDID toDID : string) (relationshipType : option string)
| ToPROV.

(** The graph after a call; a call that throws leaves it as it was. *)
Definition perform (g : ResourceGraph) (c : call) : ResourceGraph :=
  match c with
  | AddNode now1 now2 did metadata =>
      match addNode now1 now2 did metadata g with
      | Some g' => g'
      | None => g
      end
  | AddEdge now1 now2 fromDID toDID relationshipType metadata =>
      match addEdge now1 now2 fromDID toDID relationshipType metadata g with
      | Some g' => g'
      | None => g
      end
  | RemoveNode did => removeNode did g
  | RemoveEdge fromDID toDID relationshipType =>
      removeEdge fromDID toDID relationshipType g
  | ToPROV => snd (toPROV g)
  end.

Definition run (cs : list call) (g : ResourceGraph) : ResourceGraph :=
  fold_left perform cs g.

(** The states of a graph: what a sequence of calls makes of a new one. *)
Definition reachable (g : ResourceGraph) : Prop :=
  exists cs, g = run cs empty.

(** The tuple that identifies an edge. *)
Definition edge_key (edge : obj) : value * value * value :=
  (obj_get edge "from", obj_get edge "to", obj_get edge "type").

Definition edges_unique (g : ResourceGraph) : Prop :=
  NoDup (map edge_key (edges g)).

(** Edge metadata that does not redefine the end points or the type of the
    edge it is passed for: an object (distinct keys) whose [from], [to] and
    [type], where present, are the arguments of the call. *)
Definition names_same_edge (metadata : obj)
    (fromDID toDID relationshipType : string) : Prop :=
  NoDup (obj_keys metadata)
  /\ (obj_has metadata "from" = true -> obj_get metadata "from" = VStr fromDID)
  /\ (obj_has metadata "to" = true -> obj_get metadata "to" = VStr toDID)
  /\ (obj_has metadata "type" = true ->
      obj_get metadata "type" = VStr relationshipType).

Definition call_names_same_edge (c : call) : Prop :=
  match c with
  | AddEdge _ _ fromDID toDID relationshipType metadata =>
      names_same_edge metadata fromDID toDID relationshipType
  | _ => True
  end.

(* ---------------------------------------------------------------- *)
(** ** The projection, relationship by relationship *)

(** The map of the document a relationship is written to. *)
Inductive slot : Type := InEntity | InActivity.

(** What one edge adds to the document: a [payload] pushed onto the array
    ([push]) or assigned to ([push = false]) the property [field] of the
    [subject] in the map [slot]. *)
Record contribution := mkContribution {
  c_slot : slot;
  c_subject : value;
  c_field : string;
  c_push : bool;
  c_payload : value
}.

(** The branch [project_edge] takes for an edge, read off the same tests. *)
Definition contribution_of (g : ResourceGraph) (p : prov_maps) (edge : obj)
  : option contribution :=
  let e_type := obj_get edge "type" in
  let e_from := obj_get edge "from" in
  let e_to := obj_get edge "to" in
  let case t := value_eqb e_type (VStr t) in
  if case "wasDerivedFrom" || case "wasRevisionOf" || case "wasQuotedFrom"
     || case "wasInfluencedBy" then
    if missing (entity p) e_to then None
    else Some (mkContribution InEntity e_to "prov:wasDerivedFrom" true e_from)
  else if case "wasGeneratedBy" then
    if missing (entity p) e_from || missing (activity p) e_to then None
    else Some (mkContribution InEntity e_from "prov:wasGeneratedBy" false e_to)
  else if case "used" then
    if missing (activity p) e_from || missing (entity p) e_to then None
    else Some (mkContribution InActivity e_from "prov:used" true e_to)
  else if case "wasAttributedTo" then
    if missing (entity p) e_from || missing (agent p) e_to then None
    else Some (mkContribution InEntity e_from "prov:wasAttributedTo" false e_to)
  else if case "wasAssociatedWith" then
    if missing (activity p) e_from || missing (agent p) e_to then None
    else Some (mkContribution InActivity e_from "prov:wasAssociatedWith" false
                 e_to)
  else
    let fromType :=
      match e_from with
      | VStr s => match JMap.get (nodes g) s with
                  | Some node => obj_get node "type"
                  | None => VUndefined
                  end
      | _ => VUndefined
      end in
    if value_eqb fromType (VStr RESOURCE) || value_eqb fromType (VStr MODEL)
    then
      if missing (entity p) e_from then None
      else Some (mkContribution InEntity e_from ("asset:" ++ to_key e_type)
                   true e_to)
    else None.

(** The new value of a property that held [current]. *)
Definition updated_value (current : value) (c : contribution) : value :=
  if c_push c then
    VArr (match current with
          | VArr l => (l ++ [c_payload c])%list
          | _ => [c_payload c]
          end)
  else c_payload c.

(** The effect of a contribution on one map of the document. *)
Definition apply_to (s : slot) (m : obj) (c : contribution) : obj :=
  let here :=
    match s, c_slot c with
    | InEntity, InEntity | InActivity, InActivity => true
    | _, _ => false
    end in
  if here then
    set_rel m (c_subject c) (c_field c)
      (updated_value (get_prop (obj_get m (to_key (c_subject c))) (c_field c)) c)
  else m.

Definition apply_contribution (p : prov_maps) (c : contribution) : prov_maps :=
  {| entity := apply_to InEntity (entity p) c;
     activity := apply_to InActivity (activity p) c;
     agent := agent p |}.

(** A contribution to the property [field] of [subject] in the map [s]. *)
Definition targets (s : slot) (subject field : string) (c : contribution)
  : bool :=
  match s, c_slot c with
  | InEntity, InEntity | InActivity, InActivity =>
      String.eqb (to_key (c_subject c)) subject && String.eqb (c_field c) field
  | _, _ => false
  end.

(** The maps after the first loop of [toPROV]. *)
Definition base_maps (g : ResourceGraph) : prov_maps :=
  fold_left project_node (nodes g)
    {| entity := []; activity := []; agent := [] |}.

(** The maps after both loops. *)
Definition final_maps (g : ResourceGraph) : prov_maps :=
  fold_left (project_edge g) (edges g) (base_maps g).

(* ---------------------------------------------------------------- *)
(** ** Graphs that the PROV document represents in full *)

Definition is_derivation (edge : obj) : bool :=
  let case t := value_eqb (obj_get edge "type") (VStr t) in
  case "wasDerivedFrom" || case "wasRevisionOf" || case "wasQuotedFrom"
  || case "wasInfluencedBy".

(** An edge joins two nodes of the graph under a type of the vocabulary. *)
Definition edge_wellformed (g : ResourceGraph) (edge : obj) : Prop :=
  exists s t ty,
    edge_key edge = (VStr s, VStr t, VStr ty)
    /\ JMap.has (nodes g) s = true
    /\ JMap.has (nodes g) t = true
    /\ In ty RELATIONSHIP_TYPES.

(** A node has a type and its two timestamps. *)
Definition node_complete (node : obj) : Prop :=
  truthy (obj_get node "type") = true
  /\ truthy (obj_get node "created") = true
  /\ truthy (obj_get node "updated") = true.

(** [prov_faithful g]: the nodes have distinct, non-empty identifiers, a
    type and timestamps; the edges join nodes of the graph under types of
    the vocabulary, with distinct (source, target, type); no ordered
    pair of nodes is joined by two edges of the derivation family
    (wasDerivedFrom, wasRevisionOf, wasQuotedFrom, wasInfluencedBy); and
    no node has the identifier [__proto__], which the maps of the
    document, plain objects keyed by identifier, cannot hold. *)
Record prov_faithful (g : ResourceGraph) : Prop := {
  pf_keys : NoDup (map fst (nodes g));
  pf_nonempty : JMap.has (nodes g) "" = false;
  pf_nodes : Forall (fun entry => node_complete (snd entry)) (nodes g);
  pf_edges : Forall (edge_wellformed g) (edges g);
  pf_unique : edges_unique g;
  pf_derivations :
    NoDup (map (fun edge => (obj_get edge "from", obj_get edge "to"))
               (filter is_derivation (edges g)));
  pf_plain : JMap.has (nodes g) "__proto__" = false
}.


(** The search state between two calls: the current path has no repeated
    node, [visited] holds exactly the nodes of the path, and the paths
    found so far are simple. *)
Definition search_ok (st : search) : Prop :=
  NoDup (path st)
  /\ (forall x, set_has (visited st) x = true <-> In x (path st))
  /\ Forall (@NoDup value) (paths st).

(** What a call leaves behind: the path and the visited set as they were,
    and only simple paths. *)
Definition search_restored (st st' : search) : Prop :=
  path st' = path st
  /\ (forall x, set_has (visited st') x = set_has (visited st) x)
  /\ Forall (@NoDup value) (paths st').

End GraphSpec.

(* ---------------------------------------------------------------- *)
(** ** The PROV document, relationship by relationship *)

Module ProvSpec.
Import Graph GraphSpec.

(** Two documents under construction hold the same subjects. *)
Definition same_presence (p q : prov_maps) : Prop :=
  (forall x, missing (entity p) x = missing (entity q) x)
  /\ (forall x, missing (activity p) x = missing (activity q) x)
  /\ (forall x, missing (agent p) x = missing (agent q) x).

(** The contributions of the edges of a graph, in the order of the edges;
    the tests on the document are made on the maps of the first loop. *)
Definition contributions_over (g : ResourceGraph) (p : prov_maps)
    (es : list obj) : list contribution :=
  flat_map (fun edge => match contribution_of g p edge with
                        | Some c => [c]
                        | None => []
                        end) es.

Definition contributions (g : ResourceGraph) : list contribution :=
  contributions_over g (base_maps g) (edges g).

Definition slot_map (s : slot) (p : prov_maps) : obj :=
  match s with
  | InEntity => entity p
  | InActivity => activity p
  end.

(** The map of the document a node goes to, and its entry there. *)
Inductive category : Type := CEntity | CActivity | CAgent.

Definition category_eqb (a b : category) : bool :=
  match a, b with
  | CEntity, CEntity | CActivity, CActivity | CAgent, CAgent => true
  | _, _ => false
  end.

Definition classify (did : string) (node : obj) : category * value :=
  if is_type node ACTIVITY then
    (CActivity,
     VObj [ ("prov:startedAtTime",
              js_or (obj_get node "startTime") (obj_get node "created"));
            ("prov:endedAtTime",
              js_or (obj_get node "endTime") (obj_get node "updated"));
            ("rdfs:label", js_or (obj_get node "label") (VStr did)) ])
  else if is_type node AGENT || is_type node PERSON
          || is_type node ORGANIZATION || is_type node SOFTWARE then
    (CAgent,
     VObj [ ("prov:type", obj_get node "type");
            ("rdfs:label", js_or (obj_get node "label") (VStr did)) ])
  else
    (CEntity,
     VObj [ ("prov:type", obj_get node "type");
            ("rdfs:label", js_or (obj_get node "label") (VStr did));
            ("prov:generatedAtTime", obj_get node "created") ]).

(** The entries of the nodes of one category, in the order of the nodes. *)
Definition of_category (c : category) (l : list (string * obj)) : obj :=
  flat_map (fun entry =>
              if category_eqb c (fst (classify (fst entry) (snd entry)))
              then [(fst entry, snd (classify (fst entry) (snd entry)))]
              else []) l.

(** The type of the node [s], read off the maps of the first loop. *)
Definition type_in (b : prov_maps) (s : string) : value :=
  if obj_has (activity b) s then VStr ACTIVITY
  else if obj_has (agent b) s then get_prop (obj_get (agent b) s) "prov:type"
  else if obj_has (entity b) s then get_prop (obj_get (entity b) s) "prov:type"
  else VUndefined.

Definition node_type (g : ResourceGraph) (s : string) : value :=
  match JMap.get (nodes g) s with
  | Some node => obj_get node "type"
  | None => VUndefined
  end.

(** The properties the first loop of [toPROV] writes. *)
Definition base_fields : list string :=
  [ "prov:type"; "rdfs:label"; "prov:generatedAtTime";
    "prov:startedAtTime"; "prov:endedAtTime" ].

(** [grown be pe]: the entry [pe] of the document is the entry [be] of the
    first loop, with what that loop wrote left as it was. *)
Definition grown (be pe : string * value) : Prop :=
  fst pe = fst be
  /\ exists E0 E,
       snd be = VObj E0 /\ snd pe = VObj E
       /\ NoDup (obj_keys E)
       /\ forall f, In f base_fields -> obj_get E f = obj_get E0 f.

(** [be] is the entry of a complete node of category [c]. *)
Definition entry_of (c : category) (be : string * value) : Prop :=
  fst be <> ""
  /\ exists node, node_complete node /\ classify (fst be) node = (c, snd be).

(** The node [kn] has the entry [be] in the map of [c]. *)
Definition imported (c : category) (be : string * value) (kn : string * obj)
  : Prop :=
  fst kn = fst be /\ classify (fst kn) (snd kn) = (c, snd be).

(** *** The relationships read off a document *)

(** The identity of an edge as [addEdge] sees it. *)
Definition link : Type := (value * value * value)%type.

Definition link_eqb (a b : link) : bool :=
  value_eqb (fst (fst b)) (fst (fst a))
  && value_eqb (snd (fst b)) (snd (fst a))
  && value_eqb (snd b) (snd a).

(** The identities of the edges after [addEdge] on [k]. *)
Definition add_link (ks : list link) (k : link) : list link :=
  if existsb (link_eqb k) ks then ks else (ks ++ [k])%list.

Definition edge_of (k : link) : obj :=
  [ ("from", fst (fst k)); ("to", snd (fst k)); ("type", snd k) ].

(** The end points and the type [fromPROV] passes to [addEdge] for a
    relationship of the document. *)
Definition link_of (c : contribution) : link :=
  if String.eqb (c_field c) "prov:wasDerivedFrom" then
    (c_payload c, c_subject c, VStr "wasDerivedFrom")
  else if String.eqb (c_field c) "prov:wasGeneratedBy" then
    (c_subject c, c_payload c, VStr "wasGeneratedBy")
  else if String.eqb (c_field c) "prov:wasAttributedTo" then
    (c_subject c, c_payload c, VStr "wasAttributedTo")
  else if String.eqb (c_field c) "prov:used" then
    (c_subject c, c_payload c, VStr "used")
  else if String.eqb (c_field c) "prov:wasAssociatedWith" then
    (c_subject c, c_payload c, VStr "wasAssociatedWith")
  else (c_subject c, c_payload c, VStr (substring_from 6 (c_field c))).

(** The relationships of one entity of the document, in the order in which
    [fromPROV] reads them. *)
Definition entity_readoff (entry : string * value) : list contribution :=
  let (did, e) := entry in
  let derived := get_prop e "prov:wasDerivedFrom" in
  let generated := get_prop e "prov:wasGeneratedBy" in
  let attributed := get_prop e "prov:wasAttributedTo" in
  ((if truthy derived
    then map (mkContribution InEntity (VStr did) "prov:wasDerivedFrom" true)
             (as_array derived)
    else [])
   ++ (if truthy generated
       then [mkContribution InEntity (VStr did) "prov:wasGeneratedBy" false
               generated]
       else [])
   ++ (if truthy attributed
       then [mkContribution InEntity (VStr did) "prov:wasAttributedTo" false
               attributed]
       else [])
   ++ flat_map (fun kv =>
                  if startsWith (fst kv) "asset:"
                  then map (mkContribution InEntity (VStr did) (fst kv) true)
                           (as_array (snd kv))
                  else [])
               (entries e))%list.

(** The relationships of one activity. *)
Definition activity_readoff (entry : string * value) : list contribution :=
  let (did, a) := entry in
  let used := get_prop a "prov:used" in
  let associated := get_prop a "prov:wasAssociatedWith" in
  ((if truthy used
    then map (mkContribution InActivity (VStr did) "prov:used" true)
             (as_array used)
    else [])
   ++ (if truthy associated
       then [mkContribution InActivity (VStr did) "prov:wasAssociatedWith"
               false associated]
       else []))%list.

Definition readoff (p : prov_maps) : list contribution :=
  (flat_map entity_readoff (entity p)
   ++ flat_map activity_readoff (activity p))%list.

(** A call of [addEdge] that goes through on the nodes [ns]. *)
Definition link_ok (ns : list (string * obj)) (k : link) : Prop :=
  exists s t ty,
    k = (VStr s, VStr t, VStr ty)
    /\ JMap.has ns s = true /\ JMap.has ns t = true
    /\ existsb (String.eqb ty) RELATIONSHIP_TYPES = true.

(** [links_run f ks]: the part [f] of [fromPROV] makes the calls [ks] of
    [addEdge], and nothing else. *)
Definition links_run (f : import -> import) (ks : list link) : Prop :=
  forall (g0 : ResourceGraph) (n0 : nat),
    Forall (link_ok (nodes g0)) ks ->
    exists g1 n1,
      f (Some (g0, n0)) = Some (g1, n1)
      /\ nodes g1 = nodes g0 /\ provData g1 = provData g0
      /\ map edge_key (edges g1)
         = fold_left add_link ks (map edge_key (edges g0)).

(** The relationship types [toPROV] gives a PROV property of their own. *)
Definition handled (ty : string) : bool :=
  existsb (String.eqb ty)
    [ "wasDerivedFrom"; "wasRevisionOf"; "wasQuotedFrom"; "wasInfluencedBy";
      "wasGeneratedBy"; "used"; "wasAttributedTo"; "wasAssociatedWith" ].

(** The relationships [toPROV] writes for a graph whose edges join nodes of
    the graph: the subject and the payload are identifiers of nodes, and the
    tests of the branch taken hold. *)
Inductive relation_of (g : ResourceGraph) : contribution -> Prop :=
| rel_derived s t :
    JMap.has (nodes g) s = true ->
    missing (entity (base_maps g)) (VStr t) = false ->
    relation_of g
      (mkContribution InEntity (VStr t) "prov:wasDerivedFrom" true (VStr s))
| rel_generated s t :
    missing (entity (base_maps g)) (VStr s) = false ->
    missing (activity (base_maps g)) (VStr t) = false ->
    relation_of g
      (mkContribution InEntity (VStr s) "prov:wasGeneratedBy" false (VStr t))
| rel_used s t :
    missing (activity (base_maps g)) (VStr s) = false ->
    missing (entity (base_maps g)) (VStr t) = false ->
    relation_of g (mkContribution InActivity (VStr s) "prov:used" true (VStr t))
| rel_attributed s t :
    missing (entity (base_maps g)) (VStr s) = false ->
    missing (agent (base_maps g)) (VStr t) = false ->
    relation_of g
      (mkContribution InEntity (VStr s) "prov:wasAttributedTo" false (VStr t))
| rel_associated s t :
    missing (activity (base_maps g)) (VStr s) = false ->
    missing (agent (base_maps g)) (VStr t) = false ->
    relation_of g
      (mkContribution InActivity (VStr s) "prov:wasAssociatedWith" false
         (VStr t))
| rel_custom s t ty :
    existsb (String.eqb ty) RELATIONSHIP_TYPES = true ->
    handled ty = false ->
    value_eqb (node_type g s) (VStr RESOURCE)
    || value_eqb (node_type g s) (VStr MODEL) = true ->
    missing (entity (base_maps g)) (VStr s) = false ->
    JMap.has (nodes g) t = true ->
    relation_of g
      (mkContribution InEntity (VStr s) ("asset:" ++ ty) true (VStr t)).

(** What is left of the relationships written to one property: all of
    them for an array, the last one for a property that is assigned. *)
Definition compress (cs : list contribution) : list contribution :=
  match cs with
  | [] => []
  | c :: r => if c_push c then cs else [last r c]
  end.

(** A graph with an entity of each kind of relationship: two resources,
    an activity and a person. *)
Definition sample_calls : list call :=
  [ AddNode "t0" "t0" "did:a" [("label", VStr "A")];
    AddNode "t1" "t1" "did:b" [];
    AddNode "t2" "t2" "did:run" [("type", VStr ACTIVITY)];
    AddNode "t3" "t3" "did:bob" [("type", VStr PERSON)];
    AddEdge "t4" "t4" "did:b" "did:a" "wasDerivedFrom" [];
    AddEdge "t5" "t5" "did:a" "did:run" "wasGeneratedBy" [];
    AddEdge "t6" "t6" "did:run" "did:b" "used" [];
    AddEdge "t7" "t7" "did:a" "did:bob" "wasAttributedTo" [];
    AddEdge "t8" "t8" "did:run" "did:bob" "wasAssociatedWith" [];
    AddEdge "t9" "t9" "did:a" "did:b" "dependsOn" [] ].

Definition sample_graph : ResourceGraph := run sample_calls empty.

(** Two resources joined by two relationships of the derivation family. *)
Definition revised_calls : list call :=
  [ AddNode "t0" "t0" "did:a" [];
    AddNode "t1" "t1" "did:b" [];
    AddEdge "t2" "t2" "did:a" "did:b" "wasDerivedFrom" [];
    AddEdge "t3" "t3" "did:a" "did:b" "wasRevisionOf" [] ].

Definition revised_graph : ResourceGraph := run revised_calls empty.

End ProvSpec.


Module CanonicalSpec.

(** [same_pairs a b]: [b] holds the key-value pairs of [a], listed in a
    possibly different key order, in the object itself and in every
    object nested in it; arrays keep their order. *)
Inductive same_pairs : value -> value -> Prop :=
| sp_undefined : same_pairs VUndefined VUndefined
| sp_null : same_pairs VNull VNull
| sp_bool b : same_pairs (VBool b) (VBool b)
| sp_num z : same_pairs (VNum z) (VNum z)
| sp_str s : same_pairs (VStr s) (VStr s)
| sp_arr l1 l2 :
    Forall2 same_pairs l1 l2 ->
    same_pairs (VArr l1) (VArr l2)
| sp_obj o1 o1' o2 :
    NoDup (obj_keys o1) ->
    Permutation o1 o1' ->
    Forall2 (fun p q => fst p = fst q /\ same_pairs (snd p) (snd q)) o1' o2 ->
    same_pairs (VObj o1) (VObj o2).

(** [same_props a b]: [a] and [b] have the same properties when read key
    by key, at every level. *)
Inductive same_props : value -> value -> Prop :=
| sr_undefined : same_props VUndefined VUndefined
| sr_null : same_props VNull VNull
| sr_bool b : same_props (VBool b) (VBool b)
| sr_num z : same_props (VNum z) (VNum z)
| sr_str s : same_props (VStr s) (VStr s)
| sr_arr l1 l2 :
    Forall2 same_props l1 l2 ->
    same_props (VArr l1) (VArr l2)
| sr_obj o1 o2 :
    (forall k, obj_has o1 k = obj_has o2 k) ->
    (forall k, same_props (obj_get o1 k) (obj_get o2 k)) ->
    same_props (VObj o1) (VObj o2).

(** The serialization of each own property of an object. *)
Definition ser_of (K : option (list string)) (o : obj)
  : list (string * option string) :=
  map (fun kv => (fst kv, JSON.serialize K (snd kv))) o.

End CanonicalSpec.

(** Test strings are written with an apostrophe for the double quote. *)
Definition dq (s : string) : string :=
  DID.replace_char "'"%char JSON.dquote s.

(* ================================================================== *)
(** * Verification of a text watermark ([WatermarkStrategy.verify]) *)
(* ================================================================== *)

Module Verify.
Import Watermark.

(** [typeof v === 'object']. *)
Definition is_object (v : value) : bool :=
  match v with
  | VObj _ | VArr _ | VNull => true
  | _ => false
  end.

(** [a !== b] for a value [a] that [JSON.parse] has just built: an object
    or an array of [a] is a new one, identical to nothing else; the other
    values compare by content. *)
Definition differs (a b : value) : bool :=
  match a with
  | VObj _ | VArr _ => true
  | _ => negb (value_eqb a b)
  end.

(** [expected[k] && extracted[k] !== expected[k]].  [None]: the
    TypeError of a property read on [null]. *)
Definition field_mismatch (extracted expected : value) (k : string)
  : option bool :=
  match read expected k with
  | None => None
  | Some e =>
      if truthy e then
        match read extracted k with
        | None => None
        | Some x => Some (differs x e)
        end
      else Some false
  end.

(** [_comparePayloads(extracted, expected)], for an [extracted] that comes
    from [extract]. *)
Definition _comparePayloads (extracted expected : value) : option bool :=
  if is_object expected && is_object extracted then
    match field_mismatch extracted expected "did" with
    | None => None
    | Some true => Some false
    | Some false =>
        match field_mismatch extracted expected "metadataHash" with
        | None => None
        | Some true => Some false
        | Some false => Some true
        end
    end
  else Some (negb (differs extracted expected)).

(** [verify(text, expectedPayload, options)] of the text strategy, on the
    spaces channel. *)
Definition verify (t : text) (expectedPayload : value) (o : options)
  : option bool :=
  let extractedPayload := extract t o in
  if negb (truthy extractedPayload) then Some false
  else if negb (truthy expectedPayload) then Some true
  else _comparePayloads extractedPayload expectedPayload.


(** The candidate marks of the spaces channel: U+0020 and U+00A0. *)
Definition count_marks (t : text) : nat :=
  List.length
    (filter (fun c => N.eqb c regularSpace || N.eqb c noBreakSpace) t).

End Verify.

(* ================================================================== *)
(** * Queries on the relationship graph *)
(* ================================================================== *)

Module GraphQuery.
Import Graph.

(** [getNode(did)]: a copy of the node, or [null]. *)
Definition getNode (g : ResourceGraph) (did : value) : value :=
  match did with
  | VStr s =>
      match JMap.get (nodes g) s with
      | Some node => VObj (spread [] node)
      | None => VNull
      end
  | _ => VNull
  end.

(** [getEdges(did, direction)]. *)
Definition getEdges (g : ResourceGraph) (did : value) (direction : string)
  : list obj :=
  if negb (has_node g did) then []
  else if String.eqb direction "outgoing" then
    filter (fun edge => value_eqb (obj_get edge "from") did) (edges g)
  else if String.eqb direction "incoming" then
    filter (fun edge => value_eqb (obj_get edge "to") did) (edges g)
  else
    filter (fun edge => value_eqb (obj_get edge "from") did
                        || value_eqb (obj_get edge "to") did) (edges g).

(** [getConnectedNodes(did, direction, relationshipType)];
    [relationshipType] is [None] when the argument is omitted. *)
Definition getConnectedNodes (g : ResourceGraph) (did : value)
    (direction : string) (relationshipType : option string) : list value :=
  let edges := getEdges g did direction in
  let filteredEdges :=
    match relationshipType with
    | Some t =>
        if String.eqb t "" then edges
        else filter (fun edge => value_eqb (obj_get edge "type") (VStr t)) edges
    | None => edges
    end in
  map (fun edge =>
         let outgoing := value_eqb (obj_get edge "from") did in
         let connectedDID :=
           if outgoing then obj_get edge "to" else obj_get edge "from" in
         VObj [ ("node", getNode g connectedDID);
                ("relationship",
                  VObj [ ("type", obj_get edge "type");
                         ("direction",
                           VStr (if outgoing then "outgoing" else "incoming"));
                         ("metadata", VObj (spread [] edge)) ]) ])
      filteredEdges.

(** The end of an edge a related resource is read from. *)
Definition far_end (direction : string) (edge : obj) : value :=
  if String.eqb direction "outgoing" then obj_get edge "to"
  else obj_get edge "from".

Definition near_end (direction : string) (edge : obj) : value :=
  if String.eqb direction "outgoing" then obj_get edge "from"
  else obj_get edge "to".

(** [relationshipTypes.includes(edge.type)]. *)
Definition includes_type (relationshipTypes : list string) (edge : obj) : bool :=
  existsb (fun t => value_eqb (obj_get edge "type") (VStr t)) relationshipTypes.

(** The entry of a related resource.  [None]: the TypeError of
    [relationship.type] when [edges.find] finds nothing. *)
Definition related_entry (g : ResourceGraph) (direction : string)
    (edges : list obj) (relatedDID : value) : option value :=
  match find (fun e => value_eqb (far_end direction e) relatedDID) edges with
  | Some relationship =>
      Some (VObj [ ("did", relatedDID);
                   ("node", getNode g relatedDID);
                   ("relationship",
                     VObj [ ("type", obj_get relationship "type");
                            ("metadata", VObj (spread [] relationship)) ]) ])
  | None => None
  end.

(** [xs.map(f)] for an [f] that can throw. *)
Fixpoint map_opt {A B : Type} (f : A -> option B) (l : list A)
  : option (list B) :=
  match l with
  | [] => Some []
  | x :: r =>
      match f x, map_opt f r with
      | Some y, Some ys => Some (y :: ys)
      | _, _ => None
      end
  end.

(** The loop 'Add unique transitive results'. *)
Definition add_transitive (result : list value) (transitiveResult : value)
  : list value :=
  if existsb (fun r => value_eqb (get_prop r "did")
                         (get_prop transitiveResult "did")) result
  then result
  else (result
        ++ [VObj (obj_set (spread [] (entries transitiveResult))
                    "transitive" (VBool true))])%list.

(** [_findRelatedResources], by recursion on [maxDepth] after the default
    ([levels] is [maxDepth]: the test [maxDepth <= 0] is [levels = 0], and
    the recursive call passes [maxDepth - 1], which is at least 1 there and
    so is not replaced by the default).  [None]: an exception. *)
Fixpoint related_levels (g : ResourceGraph) (direction : string)
    (relationshipTypes : list string) (transitive : bool)
    (levels : nat) (did : value) : option (list value) :=
  if negb (has_node g did) then Some []
  else
    match levels with
    | O => Some []
    | S levels' =>
        let edges :=
          filter (fun edge => value_eqb (near_end direction edge) did
                              && includes_type relationshipTypes edge)
                 (edges g) in
        let relatedDIDs := map (far_end direction) edges in
        match map_opt (related_entry g direction edges) relatedDIDs with
        | None => None
        | Some result =>
            if transitive && (1 <? levels)%nat then
              match map_opt (related_levels g direction relationshipTypes
                               transitive levels') relatedDIDs with
              | None => None
              | Some deeper =>
                  Some (fold_left add_transitive (List.concat deeper) result)
              end
            else Some result
        end
    end.

(** [_findRelatedResources(did, direction, relationshipTypes, options)];
    [maxDepth] is [options.maxDepth] ([None] when absent) and [transitive]
    the truth value of [options.transitive]. *)
Definition _findRelatedResources (g : ResourceGraph) (did : value)
    (direction : string) (relationshipTypes : list string)
    (maxDepth : option Z) (transitive : bool) : option (list value) :=
  let maxDepth :=
    match maxDepth with
    | Some d => if Z.eqb d 0 then 1%Z else d
    | None => 1%Z
    end in
  related_levels g direction relationshipTypes transitive
    (Z.to_nat maxDepth) did.

Definition findDerivedResources (g : ResourceGraph) (did : string)
    (maxDepth : option Z) (transitive : bool) : option (list value) :=
  _findRelatedResources g (VStr did) "outgoing"
    [ "wasDerivedFrom"; "wasRevisionOf"; "wasQuotedFrom"; "wasInfluencedBy";
      "fineTunedFrom" ] maxDepth transitive.

Definition findDependencies (g : ResourceGraph) (did : string)
    (maxDepth : option Z) (transitive : bool) : option (list value) :=
  _findRelatedResources g (VStr did) "outgoing"
    [ "dependsOn"; "requires"; "uses"; "trainedOn" ] maxDepth transitive.

Definition findComponents (g : ResourceGraph) (did : string)
    (maxDepth : option Z) (transitive : bool) : option (list value) :=
  _findRelatedResources g (VStr did) "outgoing"
    [ "contains"; "hasComponent" ] maxDepth transitive.

End GraphQuery.

(* ================================================================== *)
(** * The JSON form of the relationship graph *)
(* ================================================================== *)

Module GraphJSON.
Import Graph.

(** [toJSON()]. *)
Definition toJSON (g : ResourceGraph) : value :=
  VObj [ ("nodes", VArr (map (fun entry => VObj (snd entry)) (nodes g)));
         ("edges", VArr (map VObj (edges g))) ].

(** [addEdge] with its metadata, in the import state. *)
Definition addEdge_m (clock : nat -> string)
    (fromDID toDID relationshipType : string) (metadata : obj) (s : import)
  : import :=
  match s with
  | Some (g, n) =>
      match addEdge (clock n) (clock (S n)) fromDID toDID relationshipType
              metadata g with
      | Some g' => Some (g', S (S n))
      | None => None
      end
  | None => None
  end.

(** [graph.addNode(node.did, node)].  [None]: an exception, or a [did]
    that is truthy and not a string (a key the node map of the model does
    not have). *)
Definition import_node (clock : nat -> string) (s : import) (node : value)
  : import :=
  match read node "did" with
  | Some (VStr did) => addNode_i clock did (entries node) s
  | _ => None
  end.

(** The body of the loop over [json.edges]. *)
Definition import_edge (clock : nat -> string) (s : import) (edge : value)
  : import :=
  match s, read edge "from" with
  | Some (g, _), Some e_from =>
      if has_node g e_from && has_node g (get_prop edge "to") then
        match e_from, get_prop edge "to", get_prop edge "type" with
        | VStr f, VStr t, VStr ty => addEdge_m clock f t ty (entries edge) s
        | _, _, _ => None
        end
      else s
  | _, _ => None
  end.

(** [for (const x of v)] over an array or a string; [None]: not
    iterable. *)
Definition for_of {S : Type} (body : option S -> value -> option S)
    (v : value) (s : option S) : option S :=
  match Metadata.iterate v with
  | Some l => fold_left body l s
  | None => None
  end.

(** [ResourceGraph.fromJSON(json)]. *)
Definition fromJSON (clock : nat -> string) (json : value)
  : option ResourceGraph :=
  match read json "nodes" with
  | None => None
  | Some ns =>
      let s0 : import := Some (empty, 0%nat) in
      let s1 := if truthy ns then for_of (import_node clock) ns s0 else s0 in
      let es := get_prop json "edges" in
      let s2 := if truthy es then for_of (import_edge clock) es s1 else s1 in
      option_map fst s2
  end.

End GraphJSON.

(* ================================================================== *)
(** * Properties of graphs, stated *)
(* ================================================================== *)

Module GraphProps.
Import Graph GraphSpec.

(** Node metadata that does not redefine the identifier of the node it is
    passed for. *)
Definition names_same_node (metadata : obj) (did : string) : Prop :=
  NoDup (obj_keys metadata)
  /\ (obj_has metadata "did" = true -> obj_get metadata "did" = VStr did).

(** A call whose metadata names the node or the edge of the call. *)
Definition call_plain (c : call) : Prop :=
  match c with
  | AddNode _ _ did metadata => names_same_node metadata did
  | AddEdge _ _ fromDID toDID relationshipType metadata =>
      names_same_edge metadata fromDID toDID relationshipType
  | _ => True
  end.

(** The keys of [o] begin with [p]. *)
Definition keys_begin (p : list string) (o : obj) : Prop :=
  exists rest, obj_keys o = (p ++ rest)%list.

(** A node as [addNode] builds it under the key [did]. *)
Definition node_shape (entry : string * obj) : Prop :=
  NoDup (obj_keys (snd entry))
  /\ keys_begin ["did"; "type"; "label"; "created"; "updated"] (snd entry)
  /\ obj_get (snd entry) "did" = VStr (fst entry).

(** An edge as [addEdge] builds it. *)
Definition edge_shape (edge : obj) : Prop :=
  NoDup (obj_keys edge)
  /\ keys_begin ["from"; "to"; "type"; "created"] edge.

(** What the calls of the interface keep true of a graph. *)
Record well_built (g : ResourceGraph) : Prop := {
  wb_keys : NoDup (map fst (nodes g));
  wb_nonempty : JMap.has (nodes g) "" = false;
  wb_nodes : Forall node_shape (nodes g);
  wb_edges : Forall (edge_wellformed g) (edges g);
  wb_shapes : Forall edge_shape (edges g);
  wb_unique : edges_unique g
}.

(** [walk g ts p]: each node of [p] is joined to the next one by an edge
    of [g] from the first to the second, of a type that [ts] allows. *)
Fixpoint walk (g : ResourceGraph) (ts : option (list string))
    (p : list value) : Prop :=
  match p with
  | x :: (y :: _) as r =>
      (exists edge, In edge (edges g)
                    /\ obj_get edge "from" = x /\ obj_get edge "to" = y
                    /\ type_allowed ts edge = true)
      /\ walk g ts r
  | _ => True
  end.

(** [options.maxDepth || 5]: the greatest number of edges of a path. *)
Definition max_edges (maxDepth : option Z) : Z :=
  match maxDepth with
  | Some d => if Z.eqb d 0 then 5%Z else d
  | None => 5%Z
  end.

(** What [_dfs] does with one outgoing edge of the current node. *)
Definition explore (g : ResourceGraph) (target : value)
    (ts : option (list string)) (levels : nat) (s : search) (edge : obj)
  : search :=
  if negb (set_has (visited s) (obj_get edge "to")) && type_allowed ts edge
  then dfs_levels g target ts levels (obj_get edge "to") s
  else s.

(** [route g ts start target p]: [p] leads from [start] to [target] along
    edges of [g] of the types [ts], and every node on it but possibly the
    last is a node of [g]. *)
Definition route (g : ResourceGraph) (ts : option (list string))
    (start target : value) (p : list value) : Prop :=
  (exists rest, p = start :: rest)
  /\ last p start = target
  /\ walk g ts p
  /\ Forall (fun x => has_node g x = true) (removelast p).

(** [options.maxDepth || 1]: the depth of a search for related
    resources. *)
Definition max_levels (maxDepth : option Z) : Z :=
  match maxDepth with
  | Some d => if Z.eqb d 0 then 1%Z else d
  | None => 1%Z
  end.

(** [linked g direction ts n x y]: [y] is reached from [x] by following
    at least one and at most [n] edges of the types [ts] in the given
    direction. *)
Inductive linked (g : ResourceGraph) (direction : string)
    (ts : list string) : nat -> value -> value -> Prop :=
| linked_step n x y edge :
    In edge (edges g) ->
    GraphQuery.near_end direction edge = x ->
    GraphQuery.far_end direction edge = y ->
    GraphQuery.includes_type ts edge = true ->
    linked g direction ts (S n) x y
| linked_more n x y z edge :
    In edge (edges g) ->
    GraphQuery.near_end direction edge = x ->
    GraphQuery.far_end direction edge = y ->
    GraphQuery.includes_type ts edge = true ->
    linked g direction ts n y z ->
    linked g direction ts (S n) x z.

(** An entry of the result of [_findRelatedResources] for the resource
    [y]: direct, or marked as transitive. *)
Definition related_to (g : ResourceGraph) (y : value) (entry : value) : Prop :=
  exists relationship,
    entry = VObj [ ("did", y); ("node", GraphQuery.getNode g y);
                   ("relationship", relationship) ]
    \/ entry = VObj [ ("did", y); ("node", GraphQuery.getNode g y);
                      ("relationship", relationship);
                      ("transitive", VBool true) ].

End GraphProps.

(* ================================================================== *)
(** * The cache of the PROV projection *)
(* ================================================================== *)

Module CacheSpec.
Import Graph GraphSpec.

(** A call other than [removeEdge]. *)
Definition keeps_flag (c : call) : bool :=
  match c with
  | RemoveEdge _ _ _ => false
  | _ => true
  end.

(** The cached document, when [toPROV] would return it, is the projection
    of the graph as it is. *)
Definition cache_current (g : ResourceGraph) : Prop :=
  modified g = false -> truthy (provData g) = true -> provData g = project g.

End CacheSpec.

(* ================================================================== *)
(** * Identifiers, stated *)
(* ================================================================== *)

Module DIDSpec.
Import DID.

(** The method and the compression [generateDID] settles on, and the
    owner tag it appends. *)
Definition method_of (f : factory) (resourceType : string)
    (options : did_options) : string :=
  or_default (method options)
    (or_default (JMap.get (methodMappings f) resourceType) (defaultMethod f)).

Definition compression_of (f : factory) (options : did_options) : string :=
  or_default (compression options) (defaultCompression f).

Definition owner_tag (options : did_options) : option string :=
  match owner options with
  | Some o =>
      if String.eqb o "" then None
      else Some (String.substring 0 8 (sha256_hex o))
  | None => None
  end.

(** A string without a colon. *)
Definition no_colon (s : string) : bool :=
  forallb (fun c => negb (Ascii.eqb c ":"%char)) (list_ascii_of_string s).

(** A byte. *)
Definition byte (b : Z) : Prop := (0 <= b < 256)%Z.

(** The six-bit groups of a byte string, as [toString('base64')] cuts
    them. *)
Fixpoint to_sextets (bytes : list Z) : list Z :=
  match bytes with
  | [] => []
  | [a] => [a / 4; (a mod 4) * 16]
  | [a; b] => [a / 4; (a mod 4) * 16 + b / 16; (b mod 16) * 4]
  | a :: b :: c :: r =>
      a / 4 :: (a mod 4) * 16 + b / 16 :: (b mod 16) * 4 + c / 64 :: c mod 64
      :: to_sextets r
  end%Z.

(** The two replacements of [_compressIdentifier] and the two of
    [decompressDID], on one character. *)
Definition to_url (c : ascii) : ascii :=
  let c := if Ascii.eqb c "+"%char then "-"%char else c in
  if Ascii.eqb c "/"%char then "_"%char else c.

Definition of_url (c : ascii) : ascii :=
  let c := if Ascii.eqb c "-"%char then "+"%char else c in
  if Ascii.eqb c "_"%char then "/"%char else c.

End DIDSpec.

(* ================================================================== *)
(** * Selective views, stated *)
(* ================================================================== *)

Module ViewSpec.
Import Metadata.

(** The layers a selective view discloses on request, each with the key
    it is written under. *)
Definition layer_keys : list (string * string) :=
  [ (C2PA, "provenance"); (MODEL_CARD, "modelCard");
    (DATA_SHEET, "dataSheet"); (PROV, "lineage");
    (MPEG21_REL, "rights"); (GENERAL, "characteristics") ].

(** What is written for the layer [l] held under [tag]. *)
Definition disclosed (tag : string) (l : MetadataLayer) : value :=
  if String.eqb tag C2PA then toC2PAManifest l
  else if String.eqb tag PROV then toPROVJSON l
  else getData l.

(** The format a call settles on. *)
Definition format_of (m : HierarchicalMetadataManager) (format : option string)
  : string :=
  match format with Some f => f | None => defaultFormat m end.

End ViewSpec.

(* ================================================================== *)
(** * Writing a field of a layer ([MetadataLayer.set]) *)
(* ================================================================== *)

Module LayerOps.
Import Metadata.

(** The loop of [set] and the final assignment, on the object [current],
    for a path without the segment [__proto__]: a part that does not hold
    an object is given a new one.  [None]: the path crosses an array, and
    a named property written on an array is outside the values of the
    model. *)
Fixpoint set_path (parts : list string) (lastPart : string) (value : value)
    (current : obj) : option obj :=
  match parts with
  | [] => Some (obj_set current lastPart value)
  | part :: rest =>
      match obj_get current part with
      | VArr _ => None
      | VObj o =>
          option_map (fun o' => obj_set current part (VObj o'))
            (set_path rest lastPart value o)
      | _ =>
          option_map (fun o' => obj_set current part (VObj o'))
            (set_path rest lastPart value [])
      end
  end.

(** [set(field, value)].  [None]: the path crosses an array, or it has
    the segment [__proto__], on which the loop walks into the prototype
    of the object and the assignment is made there, or sets the
    prototype: the values of the model hold neither. *)
Definition set (now : string) (field : string) (value : value)
    (l : MetadataLayer) : option MetadataLayer :=
  let parts := split "."%char field in
  if existsb (String.eqb "__proto__") parts then None
  else
    option_map (fun d => {| type := type l; data := d; updated := now |})
      (set_path (removelast parts) (last parts "") value (data l)).

End LayerOps.

(* ================================================================== *)
(** * DID documents ([generateDIDDocument], [IdentificationLayer.validate]) *)
(* ================================================================== *)

Module DIDDocument.
Import Metadata.

(** [generateDIDDocument(did, metadata, services, verificationMethods)]
    for a metadata object and two arrays; [now1] and [now2] are the
    readings of the clock, made when [metadata.created] and
    [metadata.updated] are falsy.  [None]: 'Invalid DID format', or the
    TypeError of [verificationMethods[0].id]. *)
Definition generateDIDDocument (now1 now2 : string) (did : string)
    (metadata : obj) (services verificationMethods : list value)
  : option obj :=
  let didParts := split ":"%char did in
  if (List.length didParts <? 4)%nat
     || negb (String.eqb (nth 0 didParts "") "did")
  then None
  else
    let resourceType := nth 2 didParts "" in
    let didDocument :=
      [ ("@context",
          VArr [ VStr "https://www.w3.org/ns/did/v1";
                 VStr "https://w3id.org/security/suites/ed25519-2020/v1";
                 VStr "https://w3id.org/asset-schema/v1" ]);
        ("id", VStr did);
        ("controller", js_or (obj_get metadata "controller") (VStr did));
        ("created", js_or (obj_get metadata "created") (VStr now1));
        ("updated", js_or (obj_get metadata "updated") (VStr now2));
        ("resourceType", VStr resourceType) ] in
    let withMethods :=
      match verificationMethods with
      | [] => Some didDocument
      | first :: _ =>
          match read first "id" with
          | Some id =>
              Some (obj_set
                      (obj_set didDocument "verificationMethod"
                         (VArr verificationMethods))
                      "authentication" (VArr [id]))
          | None => None
          end
      end in
    match withMethods with
    | None => None
    | Some didDocument =>
        let didDocument :=
          match services with
          | [] => didDocument
          | _ => obj_set didDocument "service" (VArr services)
          end in
        Some (match metadata with
              | [] => didDocument
              | _ =>
                  obj_set didDocument "metadata"
                    (VObj (obj_set (spread [] metadata) "resourceType"
                             (VStr resourceType)))
              end)
    end.

(** [IdentificationLayer.validate()]. *)
Definition validate (l : MetadataLayer) : bool :=
  let did := get l "id" VNull in
  if negb (truthy did)
     || match did with
        | VStr s => negb (startsWith s "did:")
        | _ => true
        end
  then false
  else if negb (truthy (get l "controller" VNull)) then false
  else true.

End DIDDocument.

(* ================================================================== *)
(** * The watermarking engine, for text *)
(* ================================================================== *)

Module Engine.
Import Watermark.

(** The fields of [options] read by [_createPayload]; [undefined] when
    absent. *)
Record payload_options := { issuer : value; expirationDate : value }.

(** [_createPayload(did, metadata, options)]; [now] is the reading of the
    clock.  [None]: an exception. *)
Definition _createPayload (now : string) (did metadata : value)
    (po : payload_options) : option value :=
  let payload := [ ("did", did); ("timestamp", VStr now) ] in
  let hashed :=
    if truthy metadata then
      match (match metadata with
             | VStr s => Some s
             | _ => JSON.stringify metadata
             end) with
      | Some metadataString =>
          Some (obj_set payload "metadataHash"
                  (VStr (DID.sha256_hex metadataString)))
      | None => None
      end
    else Some payload in
  match hashed with
  | None => None
  | Some payload =>
      let payload :=
        if truthy (issuer po) then obj_set payload "issuer" (issuer po)
        else payload in
      Some (VObj (if truthy (expirationDate po)
                  then obj_set payload "expirationDate" (expirationDate po)
                  else payload))
  end.

(** [engine.embed('text', resource, did, metadata, options)] on the
    spaces channel. *)
Definition embed (now : string) (resource : text) (did metadata : value)
    (po : payload_options) (o : options) : option text :=
  match _createPayload now did metadata po with
  | Some payload => Watermark.embed resource payload o
  | None => None
  end.

(** [engine.verify('text', resource, did, options)]: the object
    [{ isValid, payload }].  [None]: an exception. *)
Definition verify (resource : text) (did : value) (o : options)
  : option value :=
  let expectedPayload := if truthy did then VObj [("did", did)] else VNull in
  let extractedPayload := extract resource o in
  if truthy extractedPayload then
    if negb (truthy expectedPayload) then
      Some (VObj [("isValid", VBool true); ("payload", extractedPayload)])
    else
      match Verify._comparePayloads extractedPayload expectedPayload with
      | Some isValid =>
          Some (VObj [("isValid", VBool isValid); ("payload", extractedPayload)])
      | None => None
      end
  else Some (VObj [("isValid", extractedPayload); ("payload", extractedPayload)]).

End Engine.

(* ================================================================== *)
(** * The JSON form of the metadata manager *)
(* ================================================================== *)

Module ManagerJSON.
Import Metadata.

(** [MetadataLayer.toJSON()]. *)
Definition layer_toJSON (l : MetadataLayer) : value :=
  VObj [ ("type", VStr (type l)); ("data", VObj (data l));
         ("updated", VStr (updated l)) ].

(** [HierarchicalMetadataManager.toJSON()]. *)
Definition toJSON (m : HierarchicalMetadataManager) : value :=
  VObj (fold_left
          (fun (result : obj) (entry : string * option MetadataLayer) =>
             match snd entry with
             | Some layer => obj_set result (fst entry) (layer_toJSON layer)
             | None => result
             end)
          (layers m) []).

(** The data a layer is constructed with: an object, or the default of
    the constructor for [undefined].  [None]: another value, which the
    record of a layer does not hold. *)
Definition layer_data (d : value) : option obj :=
  match d with
  | VObj o => Some o
  | VUndefined => Some []
  | _ => None
  end.

(** One iteration of the import loop; the state is the manager and the
    number of clock readings made so far. *)
Definition import_layer (clock : nat -> string)
    (s : option (HierarchicalMetadataManager * nat))
    (entry : string * value) : option (HierarchicalMetadataManager * nat) :=
  match s with
  | None => None
  | Some (m, n) =>
      let (standard, layerData) := entry in
      if negb (truthy layerData) then s
      else
        let d := get_prop layerData "data" in
        if String.eqb standard DID then
          option_map (fun o => (setIdentificationLayer (clock n) o m, S n))
            (layer_data d)
        else if String.eqb standard C2PA then
          option_map (fun o => (setProvenanceLayer (clock n) o m, S n))
            (layer_data d)
        else if String.eqb standard MODEL_CARD then
          Some (setCharacteristicsLayer (clock n) "ai-model" (entries d) m, S n)
        else if String.eqb standard DATA_SHEET then
          Some (setCharacteristicsLayer (clock n) "dataset" (entries d) m, S n)
        else if String.eqb standard PROV then
          option_map (fun o => (setLineageLayer (clock n) o m, S n))
            (layer_data d)
        else if String.eqb standard MPEG21_REL then
          option_map (fun o => (setRightsLayer (clock n) o m, S n))
            (layer_data d)
        else if String.eqb standard GENERAL then
          Some (setCharacteristicsLayer (clock n) "general" (entries d) m, S n)
        else s
  end.

(** [manager.fromJSON(json)].  [None]: the TypeError of
    [Object.entries] on [null] or [undefined], or a layer whose data is
    neither an object nor [undefined]. *)
Definition fromJSON (clock : nat -> string) (json : value)
    (m : HierarchicalMetadataManager) : option HierarchicalMetadataManager :=
  let cleared :=
    {| defaultFormat := defaultFormat m;
       layers := map (fun entry => (fst entry, None)) (layers m) |} in
  match json with
  | VUndefined | VNull => None
  | _ =>
      option_map fst
        (fold_left (import_layer clock) (entries json) (Some (cleared, 0%nat)))
  end.

(** The tags of the three characteristics layers. *)
Definition is_characteristics (tag : string) : bool :=
  String.eqb tag MODEL_CARD || String.eqb tag DATA_SHEET
  || String.eqb tag GENERAL.

(** A layer as the setter of [tag] stores it. *)
Definition layer_ok (tag : string) (l : MetadataLayer) : Prop :=
  type l = tag
  /\ (is_characteristics tag = true ->
      NoDup (obj_keys (data l))
      /\ GraphProps.keys_begin ["resourceType"] (data l)).

(** A manager whose slots are those of the constructor, each empty or
    holding a layer as its setter stores it. *)
Definition manager_ok (m : HierarchicalMetadataManager) : Prop :=
  map fst (layers m) = map fst (layers new_manager)
  /\ Forall (fun entry => match snd entry with
                          | Some l => layer_ok (fst entry) l
                          | None => True
                          end) (layers m).

(** Two slots hold the same layer, up to the time of the update. *)
Definition same_slot (a b : string * option MetadataLayer) : Prop :=
  fst a = fst b
  /\ match snd a, snd b with
     | Some l, Some l' => type l = type l' /\ data l = data l'
     | None, None => True
     | _, _ => False
     end.

End ManagerJSON.

(* ================================================================== *)
(** * Properties *)
(* ================================================================== *)

(* ------------------------------------------------------------------ *)
(** ** Values and objects *)
(* ------------------------------------------------------------------ *)

Lemma value_eqb_refl (v : value) : value_eqb v v = true.
Proof.
  induction v using value_ind_nested; simpl; auto.
  - apply Bool.eqb_reflx.
  - apply Z.eqb_refl.
  - apply String.eqb_refl.
  - induction H as [|x r Hx _ IH]; [reflexivity|]. rewrite Hx, IH. reflexivity.
  - induction H as [|x r Hx _ IH]; [reflexivity|].
    rewrite String.eqb_refl, Hx, IH. reflexivity.
Qed.

Lemma value_eqb_eq (a b : value) : value_eqb a b = true <-> a = b.
Proof.
  split; [|intros <-; apply value_eqb_refl].
  revert b. induction a using value_ind_nested; intros w; destruct w; simpl;
    try discriminate; try reflexivity.
  - intros E. apply Bool.eqb_prop in E. congruence.
  - intros E. apply Z.eqb_eq in E. congruence.
  - intros E. apply String.eqb_eq in E. congruence.
  - intros E. f_equal. revert l0 E.
    induction H as [|x r Hx _ IH]; intros [|y r'] E; try discriminate; [reflexivity|].
    apply andb_true_iff in E as [E1 E2].
    f_equal; [apply Hx, E1|apply IH, E2].
  - intros E. f_equal. revert l0 E.
    induction H as [|x r Hx _ IH]; intros [|y r'] E; try discriminate; [reflexivity|].
    apply andb_true_iff in E as [E12 E3]. apply andb_true_iff in E12 as [E1 E2].
    apply String.eqb_eq in E1. apply Hx in E2.
    destruct x, y; simpl in *; subst. f_equal. apply IH, E3.
Qed.

Lemma value_eqb_neq (a b : value) : value_eqb a b = false <-> a <> b.
Proof.
  split.
  - intros E H. apply value_eqb_eq in H. congruence.
  - intros H. destruct (value_eqb a b) eqn:E; [|reflexivity].
    apply value_eqb_eq in E. contradiction.
Qed.

Lemma value_eqb_sym (a b : value) : value_eqb a b = value_eqb b a.
Proof.
  destruct (value_eqb a b) eqn:E.
  - apply value_eqb_eq in E. subst. symmetry. apply value_eqb_refl.
  - symmetry. apply value_eqb_neq. apply value_eqb_neq in E. congruence.
Qed.

Lemma value_eqb_str (v : value) (s : string) :
  value_eqb v (VStr s) = true <-> v = VStr s.
Proof. apply value_eqb_eq. Qed.

Lemma obj_get_set_same (o : obj) (k : string) (v : value) :
  obj_get (obj_set o k v) k = v.
Proof.
  induction o as [|[k' v'] r IH]; simpl.
  - rewrite String.eqb_refl. reflexivity.
  - destruct (String.eqb_spec k' k); simpl.
    + subst. rewrite String.eqb_refl. reflexivity.
    + destruct (String.eqb_spec k' k); [contradiction|]. exact IH.
Qed.

Lemma obj_get_set_other (o : obj) (k k' : string) (v : value) :
  k <> k' -> obj_get (obj_set o k v) k' = obj_get o k'.
Proof.
  intros Hne. induction o as [|[k0 v0] r IH]; simpl.
  - destruct (String.eqb_spec k k'); [contradiction|reflexivity].
  - destruct (String.eqb_spec k0 k); simpl.
    + subst. destruct (String.eqb_spec k k'); [contradiction|reflexivity].
    + destruct (String.eqb_spec k0 k'); [reflexivity|exact IH].
Qed.

Lemma obj_has_set_same (o : obj) (k : string) (v : value) :
  obj_has (obj_set o k v) k = true.
Proof.
  induction o as [|[k' v'] r IH]; simpl.
  - rewrite String.eqb_refl. reflexivity.
  - destruct (String.eqb_spec k' k); simpl.
    + subst. rewrite String.eqb_refl. reflexivity.
    + destruct (String.eqb_spec k' k); [contradiction|]. exact IH.
Qed.

Lemma obj_has_set_other (o : obj) (k k' : string) (v : value) :
  k <> k' -> obj_has (obj_set o k v) k' = obj_has o k'.
Proof.
  intros Hne. induction o as [|[k0 v0] r IH]; simpl.
  - destruct (String.eqb_spec k k'); [contradiction|reflexivity].
  - destruct (String.eqb_spec k0 k); simpl.
    + subst. destruct (String.eqb_spec k k'); [contradiction|reflexivity].
    + destruct (String.eqb_spec k0 k'); [reflexivity|exact IH].
Qed.

Lemma obj_has_in (o : obj) (k : string) :
  obj_has o k = true <-> In k (obj_keys o).
Proof.
  induction o as [|[k' v'] r IH]; simpl.
  - split; [discriminate|tauto].
  - destruct (String.eqb_spec k' k).
    + split; auto.
    + rewrite IH. split; [auto|]. intros [E|E]; [contradiction|exact E].
Qed.

Lemma obj_get_absent (o : obj) (k : string) :
  obj_has o k = false -> obj_get o k = VUndefined.
Proof.
  induction o as [|[k' v'] r IH]; simpl; [reflexivity|].
  destruct (String.eqb k' k); [discriminate|exact IH].
Qed.

Lemma obj_keys_set (o : obj) (k : string) (v : value) :
  obj_keys (obj_set o k v)
  = if obj_has o k then obj_keys o else (obj_keys o ++ [k])%list.
Proof.
  induction o as [|[k' v'] r IH]; simpl; [reflexivity|].
  destruct (String.eqb_spec k' k); simpl; [reflexivity|].
  rewrite IH. destruct (obj_has r k); reflexivity.
Qed.

(** A property of [{...a, ...b}] comes from [b] when [b] has it (the last
    one, should [b] list it twice) and from [a] otherwise. *)
Lemma obj_get_spread (b : obj) :
  forall (a : obj) (k : string),
    obj_get (spread a b) k
    = if obj_has b k then obj_get (rev b) k else obj_get a k.
Proof.
  unfold spread.
  induction b as [|[kb vb] r IH]; intros a k; simpl; [reflexivity|].
  rewrite IH.
  assert (Hrev : forall (x : obj) (y : string * value),
             obj_get (x ++ [y])%list k
             = if obj_has x k then obj_get x k
               else if String.eqb (fst y) k then snd y else VUndefined).
  { induction x as [|[kx vx] x IHx]; intros [ky vy]; simpl; [reflexivity|].
    destruct (String.eqb kx k); [reflexivity|apply IHx]. }
  rewrite Hrev. simpl.
  assert (Hh : obj_has (rev r) k = obj_has r k).
  { destruct (obj_has r k) eqn:E.
    - apply obj_has_in. unfold obj_keys. rewrite map_rev, <- in_rev.
      apply obj_has_in, E.
    - destruct (obj_has (rev r) k) eqn:E'; [|reflexivity].
      apply obj_has_in in E'. unfold obj_keys in E'.
      rewrite map_rev, <- in_rev in E'. apply obj_has_in in E'. congruence. }
  rewrite Hh.
  destruct (obj_has r k); [destruct (String.eqb kb k); reflexivity|].
  destruct (String.eqb_spec kb k).
  - subst. apply obj_get_set_same.
  - apply obj_get_set_other; assumption.
Qed.

Lemma obj_get_rev_nodup (o : obj) (k : string) :
  NoDup (obj_keys o) -> obj_get (rev o) k = obj_get o k.
Proof.
  induction o as [|[k' v'] r IH]; intros Hnd; [reflexivity|].
  inversion Hnd as [|? ? Hnotin Hnd']; subst. simpl.
  assert (Happ : forall (x : obj) (y : string * value),
             obj_get (x ++ [y])%list k
             = if obj_has x k then obj_get x k
               else if String.eqb (fst y) k then snd y else VUndefined).
  { induction x as [|[kx vx] x IHx]; intros [ky vy]; simpl; [reflexivity|].
    destruct (String.eqb kx k); [reflexivity|apply IHx]. }
  rewrite Happ. simpl.
  destruct (String.eqb_spec k' k).
  - subst. destruct (obj_has (rev r) k) eqn:E; [|reflexivity].
    exfalso. apply Hnotin. apply obj_has_in in E. unfold obj_keys in E.
    rewrite map_rev, <- in_rev in E. exact E.
  - destruct (obj_has (rev r) k) eqn:E.
    + apply IH, Hnd'.
    + rewrite <- (IH Hnd'). symmetry. apply obj_get_absent, E.
Qed.

(** For an object with distinct keys. *)
Lemma obj_get_spread_nodup (a b : obj) (k : string) :
  NoDup (obj_keys b) ->
  obj_get (spread a b) k = if obj_has b k then obj_get b k else obj_get a k.
Proof. intros H. rewrite obj_get_spread, obj_get_rev_nodup by exact H. reflexivity. Qed.

Lemma obj_get_spread_absent (a b : obj) (k : string) :
  obj_has b k = false -> obj_get (spread a b) k = obj_get a k.
Proof. intros H. rewrite obj_get_spread, H. reflexivity. Qed.

Lemma obj_has_spread (b : obj) :
  forall (a : obj) (k : string),
    obj_has (spread a b) k = obj_has a k || obj_has b k.
Proof.
  unfold spread.
  induction b as [|[kb vb] r IH]; intros a k; simpl.
  - rewrite orb_false_r. reflexivity.
  - rewrite IH. destruct (String.eqb_spec kb k).
    + subst. rewrite obj_has_set_same, orb_true_r. reflexivity.
    + rewrite obj_has_set_other by assumption. reflexivity.
Qed.

(* ------------------------------------------------------------------ *)
(** ** Maps *)
(* ------------------------------------------------------------------ *)

Section JMapFacts.
Context {A : Type}.
Implicit Types (m : list (string * A)) (k : string) (v : A).

Lemma jmap_get_set_same m k v : JMap.get (JMap.set m k v) k = Some v.
Proof.
  induction m as [|[k' v'] r IH]; simpl.
  - rewrite String.eqb_refl. reflexivity.
  - destruct (String.eqb_spec k' k); simpl.
    + subst. rewrite String.eqb_refl. reflexivity.
    + destruct (String.eqb_spec k' k); [contradiction|]. exact IH.
Qed.

Lemma jmap_get_set_other m k k' v :
  k <> k' -> JMap.get (JMap.set m k v) k' = JMap.get m k'.
Proof.
  intros Hne. induction m as [|[k0 v0] r IH]; simpl.
  - destruct (String.eqb_spec k k'); [contradiction|reflexivity].
  - destruct (String.eqb_spec k0 k); simpl.
    + subst. destruct (String.eqb_spec k k'); [contradiction|reflexivity].
    + destruct (String.eqb_spec k0 k'); [reflexivity|exact IH].
Qed.

Lemma jmap_has_set m k k' v :
  JMap.has (JMap.set m k v) k' = String.eqb k k' || JMap.has m k'.
Proof.
  unfold JMap.has. destruct (String.eqb_spec k k').
  - subst. rewrite jmap_get_set_same. reflexivity.
  - rewrite jmap_get_set_other by assumption. reflexivity.
Qed.

Lemma jmap_set_length_present m k v :
  JMap.has m k = true -> List.length (JMap.set m k v) = List.length m.
Proof.
  unfold JMap.has. induction m as [|[k' v'] r IH]; simpl; [discriminate|].
  destruct (String.eqb k' k); simpl; [reflexivity|].
  intros H. rewrite IH by exact H. reflexivity.
Qed.

Lemma jmap_keys_set m k v :
  map fst (JMap.set m k v)
  = if JMap.has m k then map fst m else (map fst m ++ [k])%list.
Proof.
  unfold JMap.has. induction m as [|[k' v'] r IH]; simpl; [reflexivity|].
  destruct (String.eqb_spec k' k); simpl; [reflexivity|].
  rewrite IH. destruct (JMap.get r k); reflexivity.
Qed.

Lemma jmap_has_in m k : JMap.has m k = true <-> In k (map fst m).
Proof.
  unfold JMap.has. induction m as [|[k' v'] r IH]; simpl.
  - split; [discriminate|tauto].
  - destruct (String.eqb_spec k' k).
    + split; auto.
    + rewrite IH. split; [auto|]. intros [E|E]; [contradiction|exact E].
Qed.

End JMapFacts.

Example json_t1 :
  JSON.stringify (VObj [("b", VNum 1); ("a", VArr [VStr (dq "x'y"); VUndefined; VNull])])
  = Some (dq "{'b':1,'a':['x\'y',null,null]}").
Proof. reflexivity. Qed.

Example json_t2 :
  JSON.parse_text (dq "{'b': 1, 'a':['x\'y',null, -12 ], 'c':{ } } ")
  = Some (VObj [("b", VNum 1); ("a", VArr [VStr (dq "x'y"); VNull; VNum (-12)]); ("c", VObj [])]).
Proof. vm_compute. reflexivity. Qed.

Example json_t3 :
  JSON.parse_text (String "{" (String "}" (String (ascii_of_nat 0) ""))) = None.
Proof. vm_compute. reflexivity. Qed.

Example json_t4 :
  JSON.stringify_with ["a";"b"]
    (VObj [("b", VObj [("z", VNum 1); ("a", VNum 3)]); ("a", VNum 2)])
  = Some (dq "{'a':2,'b':{'a':3}}").
Proof. vm_compute. reflexivity. Qed.

Example wm_t1 :
  Watermark.extract
    (match Watermark.embed (repeat 32%N 16) (VObj []) {| Watermark.useZeroWidth := false |} with
     | Some t => t | None => [] end) {| Watermark.useZeroWidth := false |} = VObj [].
Proof. vm_compute. reflexivity. Qed.
Example wm_t2 :
  Watermark.extract
    (match Watermark.embed (repeat 32%N 17) (VObj []) {| Watermark.useZeroWidth := true |} with
     | Some t => t | None => [] end) {| Watermark.useZeroWidth := true |} = VNull.
Proof. vm_compute. reflexivity. Qed.
Example wm_t3 :
  Watermark.embed (Watermark.text_of_string "a b c d e f g h i j k l m n o p q") (VObj []) {| Watermark.useZeroWidth := true |}
  = Some [97; 32; 98; 8203; 32; 99; 8203; 32; 100; 8203; 32; 101; 8203; 32; 102; 32; 103; 8203; 32; 104; 8203; 32; 105; 32; 106; 8203; 32; 107; 8203; 32; 108; 8203; 32; 109; 8203; 32; 110; 8203; 32; 111; 32; 112; 8203; 32; 113]%N.
Proof. vm_compute. reflexivity. Qed.

Example sha_abc : Buffer.to_hex (SHA256.digest (Buffer.utf8 "abc"))
  = "ba7816bf8f01cfea414140de5dae2223b00361a396177a9cb410ff61f20015ad".
Proof. vm_compute. reflexivity. Qed.
Example sha_empty : Buffer.to_hex (SHA256.digest [])
  = "e3b0c44298fc1c149afbf4c8996fb92427ae41e4649b934ca495991b7852b855".
Proof. vm_compute. reflexivity. Qed.
Example sha_long : Buffer.to_hex (SHA256.digest (repeat 97%Z 100))
  = "2816597888e4a0d3a36b82b83316ab32680eb8f00f8cd3b904d681246d285a0e".
Proof. vm_compute. reflexivity. Qed.
Example b64_hello : Buffer.to_base64 (SHA256.digest (Buffer.utf8 "hello"))
  = "LPJNul+wow4m6DsqxbninhsWHlwfp0JecwQzYpOLmCQ=".
Proof. vm_compute. reflexivity. Qed.
Example b64_rt : Buffer.from_base64 (Buffer.to_base64 (SHA256.digest (Buffer.utf8 "hello")))
  = SHA256.digest (Buffer.utf8 "hello").
Proof. vm_compute. reflexivity. Qed.

Example did_t1 :
  DID.generateDID DID.new_factory (VStr "hello") "text"
    (DID.mkOptions None None None (Some "owner-1"))
  = Some "did:asset:text:LPJNul-wow4m6DsqxbninhsWHlwfp0JecwQzYpOLmCQ:391887cb".
Proof. vm_compute. reflexivity. Qed.
Example did_t2 :
  option_map DID.c_identifier (DID.decompressDID "did:asset:text:LPJNul-wow4m6DsqxbninhsWHlwfp0JecwQzYpOLmCQ:391887cb")
  = Some "2cf24dba5fb0a30e26e83b2ac5b9e29e1b161e5c1fa7425e73043362938b9824".
Proof. vm_compute. reflexivity. Qed.
Example did_t3 :
  DID.canonical (VObj [("b", VNum 1); ("a", VNum 2)]) = Some (dq "{'a':2,'b':1}").
Proof. vm_compute. reflexivity. Qed.

(* ================================================================== *)
(** ** Watermark codec, spaces channel *)
(* ================================================================== *)

Section WatermarkFacts.
Import Watermark WatermarkSpec.

Variable o : options.

Lemma spaces_from_shift (t : text) (i d : nat) :
  map (fun j => j + d)%nat (spaces_from i t) = spaces_from (i + d) t.
Proof.
  revert i. induction t as [|c r IH]; intros i; simpl; [reflexivity|].
  destruct (N.eqb c regularSpace); simpl; rewrite (IH (S i)); reflexivity.
Qed.

Lemma replacement_length (b : bool) :
  (1 <= List.length (replacement o b))%nat.
Proof. unfold replacement. destruct b, (useZeroWidth o); simpl; lia. Qed.

Lemma embed_spec_nil (t : text) : embed_spec o [] t = t.
Proof.
  induction t as [|c r IH]; simpl; [reflexivity|].
  destruct (N.eqb c regularSpace); rewrite IH; reflexivity.
Qed.

(** The index loop of the source computes [embed_spec]. *)
Lemma embed_loop_spec (t : text) :
  forall (bits : binary) (pre : text),
    embed_loop o bits (spaces_from (List.length pre) t) (pre ++ t)%list
    = (pre ++ embed_spec o bits t)%list.
Proof.
  induction t as [|c r IH]; intros bits pre.
  - simpl. destruct bits; reflexivity.
  - simpl. destruct (N.eqb c regularSpace) eqn:Hc.
    + destruct bits as [|b bits'].
      * simpl. rewrite embed_spec_nil. reflexivity.
      * cbn [embed_loop].
        rewrite firstn_app, firstn_all, Nat.sub_diag, firstn_O, app_nil_r.
        replace (List.length pre + 1)%nat with (List.length pre + 1 + 0)%nat by lia.
        rewrite <- Nat.add_assoc.
        rewrite (skipn_app (List.length pre + (1 + 0))).
        rewrite skipn_all2 by lia.
        replace (List.length pre + (1 + 0) - List.length pre)%nat with 1%nat by lia.
        cbn [skipn app].
        pose proof (replacement_length b) as Hlen.
        assert (Hrest :
          (if (List.length (replacement o b) - 1 =? 0)%nat
           then spaces_from (S (List.length pre)) r
           else map (fun j => (j + (List.length (replacement o b) - 1))%nat)
                    (spaces_from (S (List.length pre)) r))
          = spaces_from (List.length (pre ++ replacement o b)%list) r).
        { rewrite length_app.
          destruct (Nat.eqb_spec (List.length (replacement o b) - 1) 0) as [E|E].
          - f_equal. lia.
          - rewrite spaces_from_shift. f_equal. lia. }
        rewrite Hrest.
        rewrite (app_assoc pre (replacement o b) r).
        rewrite IH. rewrite <- app_assoc. reflexivity.
    + change (c :: r) with ([c] ++ r)%list.
      rewrite app_assoc.
      replace (S (List.length pre)) with (List.length (pre ++ [c])%list)
        by (rewrite length_app; simpl; lia).
      rewrite IH. rewrite <- app_assoc. reflexivity.
Qed.

Lemma _embedWithSpaces_spec (t : text) (bits : binary) (out : text) :
  _embedWithSpaces t bits o = Some out -> out = embed_spec o bits t.
Proof.
  unfold _embedWithSpaces.
  destruct (List.length (spaces_from 0 t) <? List.length bits)%nat; [discriminate|].
  intros H. injection H as <-.
  apply (embed_loop_spec t bits []).
Qed.

Lemma spaces_from_length (t : text) (i : nat) :
  List.length (spaces_from i t) = count_spaces t.
Proof.
  revert i. unfold count_spaces.
  induction t as [|c r IH]; intros i; simpl; [reflexivity|].
  destruct (N.eqb c regularSpace); simpl; rewrite IH; reflexivity.
Qed.

Lemma _embedWithSpaces_defined (t : text) (bits : binary) :
  (List.length bits <= count_spaces t)%nat ->
  _embedWithSpaces t bits o = Some (embed_spec o bits t).
Proof.
  intros Hcap. unfold _embedWithSpaces.
  rewrite spaces_from_length.
  destruct (Nat.ltb_spec (count_spaces t) (List.length bits)); [lia|].
  f_equal. apply (embed_loop_spec t bits []).
Qed.

Lemma only_spaces_rewritten_refl (t : text) : only_spaces_rewritten t t.
Proof. induction t; constructor; assumption. Qed.

Lemma embed_spec_frame (t : text) :
  forall bits, only_spaces_rewritten t (embed_spec o bits t).
Proof.
  induction t as [|c r IH]; intros bits; simpl.
  - constructor.
  - destruct (N.eqb c regularSpace) eqn:Hc.
    + apply N.eqb_eq in Hc. subst c.
      destruct bits as [|b bits'].
      * apply osr_same, IH.
      * unfold replacement. destruct b; [destruct (useZeroWidth o)|]; simpl.
        -- apply osr_zwsp, IH.
        -- apply osr_nbsp, IH.
        -- apply osr_same, IH.
    + apply osr_same, IH.
Qed.

(** What the extraction loop reads back from an embedding into a plain
    carrier: the embedded bits, then a 0 for every space left over. *)
Lemma extract_embed_spec (t : text) :
  forall (bits : binary) (prev : option N),
    plain t ->
    prev <> Some zeroWidthSpace ->
    extract_loop prev (embed_spec o bits t)
    = (firstn (count_spaces t) bits
       ++ repeat false (count_spaces t - List.length bits))%list.
Proof.
  unfold count_spaces.
  induction t as [|c r IH]; intros bits prev Hplain Hprev.
  - reflexivity.
  - inversion Hplain as [|? ? [Hnb Hzw] Hr]; subst.
    assert (Hc' : Some c <> Some zeroWidthSpace) by congruence.
    cbn [embed_spec filter].
    destruct (N.eqb c regularSpace) eqn:Hc.
    + apply N.eqb_eq in Hc. subst c.
      destruct bits as [|b bits'].
      * assert (E : extract_loop prev (regularSpace :: embed_spec o [] r)
                    = false :: extract_loop (Some regularSpace) (embed_spec o [] r)).
        { cbn [extract_loop]. rewrite N.eqb_refl.
          destruct prev as [p|]; [|reflexivity].
          destruct (N.eqb_spec p zeroWidthSpace); [congruence|reflexivity]. }
        rewrite E, (IH [] (Some regularSpace) Hr Hc').
        rewrite firstn_nil. simpl. rewrite Nat.sub_0_r. reflexivity.
      * assert (E : extract_loop prev (replacement o b ++ embed_spec o bits' r)%list
                    = b :: extract_loop (Some regularSpace) (embed_spec o bits' r)
                    \/ extract_loop prev (replacement o b ++ embed_spec o bits' r)%list
                    = b :: extract_loop (Some noBreakSpace) (embed_spec o bits' r)).
        { unfold replacement. destruct b; [destruct (useZeroWidth o)|].
          - left. reflexivity.
          - right. reflexivity.
          - left. cbn [app extract_loop]. rewrite N.eqb_refl.
            destruct prev as [p|]; [|reflexivity].
            destruct (N.eqb_spec p zeroWidthSpace); [congruence|reflexivity]. }
        destruct E as [E|E]; rewrite E;
          rewrite IH by (assumption || discriminate); reflexivity.
    + cbn [extract_loop]. rewrite Hc.
      destruct (N.eqb_spec c noBreakSpace); [contradiction|].
      apply IH; assumption.
Qed.

End WatermarkFacts.

(** *** Binary strings *)

Section BinaryFacts.
Import Watermark WatermarkSpec.

Lemma charcode_digits (a : ascii) :
  padStart 8 (toString2 (N_of_ascii a)) = bits_of_ascii a.
Proof. destruct a as [[] [] [] [] [] [] [] []]; reflexivity. Qed.

Lemma parseInt2_bits (a : ascii) : parseInt2 (bits_of_ascii a) = N_of_ascii a.
Proof. destruct a as [[] [] [] [] [] [] [] []]; reflexivity. Qed.

Lemma _textToBinary_length (s : string) :
  List.length (_textToBinary (text_of_string s)) = (8 * String.length s)%nat.
Proof.
  unfold text_of_string.
  induction s as [|a r IH]; [reflexivity|].
  cbn [list_ascii_of_string map _textToBinary String.length].
  rewrite length_app, IH, charcode_digits.
  destruct a. simpl. lia.
Qed.

Lemma decode_groups_textToBinary (s : string) :
  decode_groups (_textToBinary (text_of_string s)) = text_of_string s.
Proof.
  unfold text_of_string.
  induction s as [|a r IH]; [reflexivity|].
  cbn [list_ascii_of_string map _textToBinary].
  rewrite charcode_digits.
  rewrite <- (parseInt2_bits a).
  destruct a as [b0 b1 b2 b3 b4 b5 b6 b7].
  cbn [bits_of_ascii app decode_groups].
  rewrite IH. reflexivity.
Qed.


Lemma _binaryToText_textToBinary (s : string) :
  _binaryToText (_textToBinary (text_of_string s)) = text_of_string s.
Proof.
  unfold _binaryToText, padEnd.
  rewrite _textToBinary_length.
  replace ((8 * String.length s + 7) / 8 * 8 - 8 * String.length s)%nat with 0%nat.
  - simpl. rewrite app_nil_r. apply decode_groups_textToBinary.
  - replace (8 * String.length s + 7)%nat with (7 + String.length s * 8)%nat by lia.
    rewrite Nat.div_add by lia. simpl. lia.
Qed.

End BinaryFacts.


(** *** The payload of an [embed] call *)



Lemma embed_defined (t : Watermark.text) (payload : value)
    (o : Watermark.options) (s : string) :
  JSON.stringify payload = Some s ->
  (8 * String.length s <= WatermarkSpec.count_spaces t)%nat ->
  Watermark.embed t payload o
  = Some (WatermarkSpec.embed_spec o
            (Watermark._textToBinary (Watermark.text_of_string s)) t).
Proof.
  intros Hs Hcap. unfold Watermark.embed. rewrite Hs.
  apply _embedWithSpaces_defined. rewrite _textToBinary_length. exact Hcap.
Qed.

(** C8.  With enough spaces for the payload bits, [embed] on the spaces
    channel returns a text that differs from its input only at ASCII
    spaces: every other code unit of the input stands unchanged and in the
    same order in the output, and each space is either kept or replaced by
    U+00A0 or by U+200B U+0020. *)
Theorem C8_embed_alters_only_spaces (t : Watermark.text) (payload : value)
    (o : Watermark.options) (s : string) :
  JSON.stringify payload = Some s ->
  (8 * String.length s <= WatermarkSpec.count_spaces t)%nat ->
  exists out,
    Watermark.embed t payload o = Some out
    /\ WatermarkSpec.only_spaces_rewritten t out.
Proof.
  intros Hs Hcap. eexists. split.
  - apply (embed_defined t payload o s Hs Hcap).
  - apply embed_spec_frame.
Qed.

Lemma C8_witness :
  JSON.stringify (VObj []) = Some "{}"
  /\ (8 * String.length "{}"
      <= WatermarkSpec.count_spaces
           (Watermark.text_of_string "a b c d e f g h i j k l m n o p q r"))%nat
  /\ exists out,
      Watermark.embed
        (Watermark.text_of_string "a b c d e f g h i j k l m n o p q r")
        (VObj []) {| Watermark.useZeroWidth := true |} = Some out
      /\ WatermarkSpec.only_spaces_rewritten
           (Watermark.text_of_string "a b c d e f g h i j k l m n o p q r") out.
Proof.
  split; [reflexivity|]. split; [vm_compute; lia|].
  apply (C8_embed_alters_only_spaces _ (VObj []) _ "{}").
  - reflexivity.
  - vm_compute. lia.
Defined.




(* ================================================================== *)
(** ** Relationship graph *)
(* ================================================================== *)

Section GraphFacts.
Import Graph GraphSpec.

Lemma run_invariant (P : ResourceGraph -> Prop) :
  (forall g c, P g -> P (perform g c)) ->
  forall cs g, P g -> P (run cs g).
Proof.
  intros Hstep cs. unfold run.
  induction cs as [|c cs IH]; intros g Hg; simpl; [exact Hg|].
  apply IH, Hstep, Hg.
Qed.

Lemma reachable_invariant (P : ResourceGraph -> Prop) :
  P empty ->
  (forall g c, P g -> P (perform g c)) ->
  forall g, reachable g -> P g.
Proof.
  intros H0 Hstep g [cs ->]. apply run_invariant; assumption.
Qed.

Lemma jmap_has_delete {A : Type} (m : list (string * A)) (k k' : string) :
  JMap.has (JMap.delete m k) k' = true -> JMap.has m k' = true.
Proof.
  unfold JMap.has. induction m as [|[k0 v0] r IH]; simpl; [discriminate|].
  destruct (String.eqb_spec k0 k); simpl.
  - destruct (String.eqb k0 k'); auto.
  - destruct (String.eqb k0 k'); auto.
Qed.

(** No node of a graph is keyed by the empty string. *)
Lemma reachable_keys_nonempty (g : ResourceGraph) :
  reachable g -> JMap.has (nodes g) "" = false.
Proof.
  revert g.
  apply (reachable_invariant (fun g => JMap.has (nodes g) "" = false));
    [reflexivity|].
  intros g c Hg. destruct c; simpl.
  - unfold addNode. destruct (String.eqb_spec did ""); [exact Hg|].
    simpl. rewrite jmap_has_set, Hg.
    destruct (String.eqb_spec did ""); [contradiction|reflexivity].
  - unfold addEdge.
    destruct (negb (JMap.has (nodes g) fromDID)); [exact Hg|].
    destruct (negb (JMap.has (nodes g) toDID)); [exact Hg|].
    destruct (negb (existsb (String.eqb relationshipType) RELATIONSHIP_TYPES));
      exact Hg.
  - unfold removeNode. destruct (negb (JMap.has (nodes g) did)); [exact Hg|].
    simpl. destruct (JMap.has (JMap.delete (nodes g) did) "") eqn:E; [|reflexivity].
    apply jmap_has_delete in E. congruence.
  - exact Hg.
  - unfold toPROV.
    destruct (negb (modified g) && truthy (provData g)); exact Hg.
Qed.

End GraphFacts.

(** C10.  [addNode] with an identifier the graph already holds adds no
    node: the nodes keep their number and their keys, the fields of the
    metadata are merged over the fields of the existing node, [created] is
    kept when the metadata has no [created] key, and [updated] is set to
    the time of the call.  The other nodes and the edges stay as they
    were.  (The metadata is an object: its keys are distinct.) *)
Theorem C10_addNode_existing (g : Graph.ResourceGraph)
    (now1 now2 did : string) (metadata existing : obj) :
  GraphSpec.reachable g ->
  NoDup (obj_keys metadata) ->
  JMap.get (Graph.nodes g) did = Some existing ->
  exists g' node',
    Graph.addNode now1 now2 did metadata g = Some g'
    /\ List.length (Graph.nodes g') = List.length (Graph.nodes g)
    /\ map fst (Graph.nodes g') = map fst (Graph.nodes g)
    /\ JMap.get (Graph.nodes g') did = Some node'
    /\ (forall k, k <> "updated" ->
          obj_get node' k
          = if obj_has metadata k then obj_get metadata k
            else obj_get existing k)
    /\ (obj_has metadata "created" = false ->
          obj_get node' "created" = obj_get existing "created")
    /\ obj_get node' "updated" = VStr now1
    /\ (forall d, d <> did ->
          JMap.get (Graph.nodes g') d = JMap.get (Graph.nodes g) d)
    /\ Graph.edges g' = Graph.edges g.
Proof.
  intros Hreach Hnd Hget.
  assert (Hhas : JMap.has (Graph.nodes g) did = true)
    by (unfold JMap.has; rewrite Hget; reflexivity).
  assert (Hne : did <> "").
  { intros ->. rewrite (reachable_keys_nonempty g Hreach) in Hhas. discriminate. }
  unfold Graph.addNode.
  destruct (String.eqb_spec did ""); [contradiction|].
  rewrite Hget.
  eexists. eexists. split; [reflexivity|]. cbn [Graph.nodes Graph.edges].
  assert (Hmerge : forall k, k <> "updated" ->
            obj_get (obj_set (spread existing metadata) "updated" (VStr now1)) k
            = if obj_has metadata k then obj_get metadata k
              else obj_get existing k).
  { intros k Hk. rewrite obj_get_set_other by congruence.
    apply obj_get_spread_nodup, Hnd. }
  split; [apply jmap_set_length_present, Hhas|].
  split; [rewrite jmap_keys_set, Hhas; reflexivity|].
  split; [apply jmap_get_set_same|].
  split; [exact Hmerge|].
  split; [intros Hc; rewrite Hmerge by discriminate; rewrite Hc; reflexivity|].
  split; [apply obj_get_set_same|].
  split; [intros d Hd; apply jmap_get_set_other; congruence|reflexivity].
Qed.

Lemma C10_witness :
  let g := GraphSpec.run
             [GraphSpec.AddNode "2024-01-01T00:00:00.000Z" "2024-01-01T00:00:00.001Z"
                "did:asset:text:abc" [("label", VStr "first")]]
             Graph.empty in
  exists g' node',
    Graph.addNode "2024-02-02T00:00:00.000Z" "2024-02-02T00:00:00.001Z"
      "did:asset:text:abc" [("label", VStr "second")] g = Some g'
    /\ List.length (Graph.nodes g') = 1%nat
    /\ JMap.get (Graph.nodes g') "did:asset:text:abc" = Some node'
    /\ obj_get node' "label" = VStr "second"
    /\ obj_get node' "created" = VStr "2024-01-01T00:00:00.000Z"
    /\ obj_get node' "updated" = VStr "2024-02-02T00:00:00.000Z".
Proof.
  cbv zeta.
  destruct (C10_addNode_existing
              (GraphSpec.run
                 [GraphSpec.AddNode "2024-01-01T00:00:00.000Z" "2024-01-01T00:00:00.001Z"
                    "did:asset:text:abc" [("label", VStr "first")]]
                 Graph.empty)
              "2024-02-02T00:00:00.000Z" "2024-02-02T00:00:00.001Z"
              "did:asset:text:abc" [("label", VStr "second")]
              [("did", VStr "did:asset:text:abc"); ("type", VStr "DigitalResource");
               ("label", VStr "first"); ("created", VStr "2024-01-01T00:00:00.000Z");
               ("updated", VStr "2024-01-01T00:00:00.001Z")])
    as (g' & node' & Hadd & Hlen & _ & Hget & Hmerge & Hcreated & Hupdated & _).
  - eexists. reflexivity.
  - repeat constructor; simpl; tauto.
  - reflexivity.
  - exists g', node'. split; [exact Hadd|]. split; [exact Hlen|].
    split; [exact Hget|]. split; [apply (Hmerge "label"); discriminate|].
    split; [apply Hcreated; reflexivity|exact Hupdated].
Defined.

(** C5, where the code departs from it.  After a projection has been
    cached, a change to the graph followed by a [removeEdge] that removes
    nothing clears the [modified] flag, and the next [toPROV] returns the
    cached document of the earlier state instead of the projection of the
    current one. *)
Theorem C5_stale_projection_after_removeEdge :
  let t := "2024-01-01T00:00:00.000Z" in
  let before := GraphSpec.run [GraphSpec.AddNode t t "did:asset:text:a" []] Graph.empty in
  let g :=
    GraphSpec.run
      [ GraphSpec.AddNode t t "did:asset:text:a" [];
        GraphSpec.ToPROV;
        GraphSpec.AddNode t t "did:asset:text:b" [];
        GraphSpec.RemoveEdge "did:asset:text:a" "did:asset:text:b" None ]
      Graph.empty in
  map fst (Graph.nodes g) = ["did:asset:text:a"; "did:asset:text:b"]
  /\ fst (Graph.toPROV g) = Graph.project before
  /\ fst (Graph.toPROV g) <> Graph.project g
  /\ get_prop (get_prop (fst (Graph.toPROV g)) "entity") "did:asset:text:b"
     = VUndefined
  /\ get_prop (get_prop (Graph.project g) "entity") "did:asset:text:b"
     <> VUndefined.
Proof.
  cbv zeta. repeat split; vm_compute; try reflexivity; discriminate.
Qed.

(** When the flag is set the projection is computed afresh. *)
Lemma toPROV_modified (g : Graph.ResourceGraph) :
  Graph.modified g = true -> fst (Graph.toPROV g) = Graph.project g.
Proof. intros H. unfold Graph.toPROV. rewrite H. reflexivity. Qed.

(* ------------------------------------------------------------------ *)
(** *** Edge identity *)

Section EdgeFacts.
Import Graph GraphSpec.

Lemma findIndex_some {A : Type} (p : A -> bool) (l : list A) (i : nat) :
  findIndex p l = Some i ->
  exists x, nth_error l i = Some x /\ p x = true.
Proof.
  revert i. induction l as [|y r IH]; intros i; simpl; [discriminate|].
  destruct (p y) eqn:Hy.
  - intros E. injection E as <-. exists y. split; [reflexivity|exact Hy].
  - destruct (findIndex p r) as [j|]; simpl; [|discriminate].
    intros E. injection E as <-. apply (IH j). reflexivity.
Qed.

Lemma findIndex_none {A : Type} (p : A -> bool) (l : list A) :
  findIndex p l = None -> forall x, In x l -> p x = false.
Proof.
  induction l as [|y r IH]; simpl; [tauto|].
  destruct (p y) eqn:Hy; [discriminate|].
  destruct (findIndex p r); simpl; [discriminate|].
  intros _ x [<-|Hx]; [exact Hy|apply IH; [reflexivity|exact Hx]].
Qed.

Lemma findIndex_exists {A : Type} (p : A -> bool) (l : list A) (x : A) :
  In x l -> p x = true -> exists i, findIndex p l = Some i.
Proof.
  intros Hin Hp. destruct (findIndex p l) as [i|] eqn:E; [eauto|].
  rewrite (findIndex_none p l E x Hin) in Hp. discriminate.
Qed.

Lemma replace_at_length {A : Type} (i : nat) (x : A) (l : list A) :
  List.length (replace_at i x l) = List.length l.
Proof.
  revert i. induction l as [|y r IH]; intros [|i]; simpl; auto.
Qed.

Lemma replace_at_map {A B : Type} (f : A -> B) (i : nat) (x y : A) (l : list A) :
  nth_error l i = Some y -> f x = f y ->
  map f (replace_at i x l) = map f l.
Proof.
  revert i. induction l as [|z r IH]; intros [|i]; simpl; try discriminate.
  - intros E Hf. injection E as ->. rewrite Hf. reflexivity.
  - intros E Hf. rewrite (IH i E Hf). reflexivity.
Qed.

Lemma replace_at_in {A : Type} (i : nat) (x y : A) (l : list A) :
  nth_error l i = Some y -> In x (replace_at i x l).
Proof.
  revert i. induction l as [|z r IH]; intros [|i]; simpl; try discriminate.
  - intros _. left. reflexivity.
  - intros E. right. apply (IH i E).
Qed.

Lemma edge_is_key (s t ty : string) (e : obj) :
  edge_is s t ty e = true <-> edge_key e = (VStr s, VStr t, VStr ty).
Proof.
  unfold edge_is, edge_key. rewrite !andb_true_iff, !value_eqb_eq.
  split; [intros [[-> ->] ->]; reflexivity|].
  intros E. injection E as -> -> ->. auto.
Qed.

Lemma spread_keys_nodup (b : obj) :
  forall a, NoDup (obj_keys a) -> NoDup (obj_keys (spread a b)).
Proof.
  unfold spread. induction b as [|[k v] r IH]; intros a Ha; simpl; [exact Ha|].
  apply IH. rewrite obj_keys_set. destruct (obj_has a k) eqn:E; [exact Ha|].
  apply NoDup_app; [exact Ha|repeat constructor; simpl; tauto|].
  intros x Hx [<-|[]]. apply obj_has_in in Hx. congruence.
Qed.

(** The object literal of [addEdge], for metadata that names the same
    edge, has the arguments as its identity. *)
Lemma new_edge_key (now1 s t ty : string) (metadata : obj) :
  names_same_edge metadata s t ty ->
  edge_key (spread [ ("from", VStr s); ("to", VStr t);
                     ("type", VStr ty); ("created", VStr now1) ] metadata)
  = (VStr s, VStr t, VStr ty).
Proof.
  intros (Hnd & Hf & Ht & Hty). unfold edge_key.
  rewrite !obj_get_spread_nodup by exact Hnd.
  destruct (obj_has metadata "from"); [rewrite Hf by reflexivity|];
  destruct (obj_has metadata "to"); [rewrite Ht by reflexivity| |rewrite Ht by reflexivity|];
  destruct (obj_has metadata "type"); try rewrite Hty by reflexivity; reflexivity.
Qed.

Lemma new_edge_nodup (now1 s t ty : string) (metadata : obj) :
  NoDup (obj_keys (spread [ ("from", VStr s); ("to", VStr t);
                            ("type", VStr ty); ("created", VStr now1) ]
                          metadata)).
Proof.
  apply spread_keys_nodup. simpl.
  repeat (constructor; [simpl; intuition discriminate|]). constructor.
Qed.

(** The merged edge of the update branch keeps that identity. *)
Lemma merged_edge_key (now1 now2 s t ty : string) (metadata old : obj) :
  names_same_edge metadata s t ty ->
  edge_key
    (obj_set
       (spread old
          (spread [ ("from", VStr s); ("to", VStr t);
                    ("type", VStr ty); ("created", VStr now1) ] metadata))
       "updated" (VStr now2))
  = (VStr s, VStr t, VStr ty).
Proof.
  intros Hm. pose proof (new_edge_key now1 s t ty metadata Hm) as Hk.
  unfold edge_key in *.
  rewrite !obj_get_set_other by discriminate.
  rewrite (obj_get_spread_nodup old _ "from") by apply new_edge_nodup.
  rewrite (obj_get_spread_nodup old _ "to") by apply new_edge_nodup.
  rewrite (obj_get_spread_nodup old _ "type") by apply new_edge_nodup.
  rewrite !obj_has_spread. cbn [obj_has String.eqb Ascii.eqb Bool.eqb orb].
  exact Hk.
Qed.

End EdgeFacts.

Section AddEdgeFacts.
Import Graph GraphSpec.

Lemma addEdge_inv (now1 now2 s t ty : string) (metadata : obj)
    (g g1 : ResourceGraph) :
  addEdge now1 now2 s t ty metadata g = Some g1 ->
  JMap.has (nodes g) s = true
  /\ JMap.has (nodes g) t = true
  /\ existsb (String.eqb ty) RELATIONSHIP_TYPES = true
  /\ nodes g1 = nodes g
  /\ edges g1
     = match findIndex (edge_is s t ty) (edges g) with
       | Some i =>
           replace_at i
             (obj_set
                (spread (nth i (edges g) [])
                   (spread [ ("from", VStr s); ("to", VStr t);
                             ("type", VStr ty); ("created", VStr now1) ]
                           metadata))
                "updated" (VStr now2))
             (edges g)
       | None =>
           (edges g
            ++ [spread [ ("from", VStr s); ("to", VStr t);
                         ("type", VStr ty); ("created", VStr now1) ]
                       metadata])%list
       end.
Proof.
  unfold addEdge.
  destruct (JMap.has (nodes g) s); [|discriminate].
  destruct (JMap.has (nodes g) t); [|discriminate].
  destruct (existsb (String.eqb ty) RELATIONSHIP_TYPES); [|discriminate].
  simpl. intros E. injection E as <-. simpl. auto.
Qed.

(** After a call whose metadata names the same edge, the graph holds an
    edge with the identity of the call. *)
Lemma addEdge_present (now1 now2 s t ty : string) (metadata : obj)
    (g g1 : ResourceGraph) :
  names_same_edge metadata s t ty ->
  addEdge now1 now2 s t ty metadata g = Some g1 ->
  exists i, findIndex (edge_is s t ty) (edges g1) = Some i.
Proof.
  intros Hm Hadd.
  destruct (addEdge_inv _ _ _ _ _ _ _ _ Hadd) as (_ & _ & _ & _ & He).
  destruct (findIndex (edge_is s t ty) (edges g)) as [i|] eqn:Hi.
  - destruct (findIndex_some _ _ _ Hi) as (old & Hold & _).
    eapply findIndex_exists.
    + rewrite He. eapply replace_at_in, Hold.
    + apply edge_is_key, merged_edge_key, Hm.
  - eapply findIndex_exists.
    + rewrite He. apply in_or_app. right. left. reflexivity.
    + apply edge_is_key, new_edge_key, Hm.
Qed.

Lemma nth_error_nth_default {A : Type} (l : list A) (i : nat) (x d : A) :
  nth_error l i = Some x -> nth i l d = x.
Proof.
  revert i. induction l as [|y r IH]; intros [|i]; simpl; try discriminate.
  - intros E. injection E. auto.
  - apply IH.
Qed.

Lemma addEdge_unique (now1 now2 s t ty : string) (metadata : obj)
    (g g1 : ResourceGraph) :
  names_same_edge metadata s t ty ->
  edges_unique g ->
  addEdge now1 now2 s t ty metadata g = Some g1 ->
  edges_unique g1.
Proof.
  unfold edges_unique. intros Hm Hu Hadd.
  destruct (addEdge_inv _ _ _ _ _ _ _ _ Hadd) as (_ & _ & _ & _ & He).
  rewrite He. clear He.
  destruct (findIndex (edge_is s t ty) (edges g)) as [i|] eqn:Hi.
  - destruct (findIndex_some _ _ _ Hi) as (old & Hold & Hkey).
    rewrite (replace_at_map edge_key i _ old); [exact Hu|exact Hold|].
    rewrite merged_edge_key by exact Hm.
    symmetry. apply edge_is_key, Hkey.
  - rewrite map_app. simpl. rewrite new_edge_key by exact Hm.
    apply NoDup_app; [exact Hu|repeat constructor; simpl; tauto|].
    intros k Hk [<-|[]].
    apply in_map_iff in Hk as (e & Hek & Hin).
    apply edge_is_key in Hek.
    rewrite (findIndex_none _ _ Hi e Hin) in Hek. discriminate.
Qed.

(** Removing edges keeps the identities of the others distinct. *)
Lemma filter_edges_unique (keep : obj -> bool) (es : list obj) :
  NoDup (map edge_key es) -> NoDup (map edge_key (filter keep es)).
Proof.
  intros Hu. induction es as [|e es IH]; simpl; [constructor|].
  simpl in Hu. inversion Hu as [|? ? Hfresh Hrest]; subst.
  destruct (keep e); simpl; [|exact (IH Hrest)].
  constructor; [|exact (IH Hrest)].
  intros Hin. apply Hfresh.
  apply in_map_iff in Hin as (e' & Hk & Hin).
  apply filter_In in Hin as [Hin _].
  apply in_map_iff. exists e'. split; assumption.
Qed.

Lemma perform_unique (g : ResourceGraph) (c : call) :
  call_names_same_edge c -> edges_unique g -> edges_unique (perform g c).
Proof.
  intros Hc Hu. destruct c; simpl in *.
  - unfold addNode. destruct (String.eqb did ""); exact Hu.
  - destruct (addEdge now1 now2 fromDID toDID relationshipType metadata g)
      as [g1|] eqn:E; [|exact Hu].
    eapply addEdge_unique; eassumption.
  - unfold removeNode. destruct (negb (JMap.has (nodes g) did)); [exact Hu|].
    unfold edges_unique. simpl. apply filter_edges_unique, Hu.
  - unfold removeEdge, edges_unique. simpl.
    destruct relationshipType as [ty|]; [destruct (String.eqb ty "")|];
      apply filter_edges_unique, Hu.
  - unfold toPROV.
    destruct (negb (modified g) && truthy (provData g)); exact Hu.
Qed.

Lemma run_unique (cs : list call) :
  forall g, Forall call_names_same_edge cs -> edges_unique g ->
            edges_unique (run cs g).
Proof.
  unfold run. induction cs as [|c cs IH]; intros g Hcs Hu; simpl; [exact Hu|].
  inversion Hcs; subst. apply IH; [assumption|]. apply perform_unique; assumption.
Qed.

End AddEdgeFacts.

(** C7, as the code has it.  [addEdge] spreads its metadata over the
    fields of the edge, so the statement holds for metadata that does not
    redefine [from], [to] or [type].  After a call with such metadata, a
    second call with the same (source, target, type), whatever its
    metadata, succeeds, leaves the number of edges unchanged and replaces
    the existing edge by the merge of that edge with the fields of the
    call: the properties of the second metadata win, the other properties
    of the existing edge are kept.  And a graph built by calls whose
    [addEdge] metadata is of that kind never holds two edges with the same
    (source, target, type). *)
Theorem C7_addEdge_merges_duplicate :
  (forall (g g1 : Graph.ResourceGraph) (now1 now2 now3 now4 s t ty : string)
          (m1 m2 : obj),
      GraphSpec.names_same_edge m1 s t ty ->
      NoDup (obj_keys m2) ->
      Graph.addEdge now1 now2 s t ty m1 g = Some g1 ->
      exists g2 i old merged,
        Graph.addEdge now3 now4 s t ty m2 g1 = Some g2
        /\ List.length (Graph.edges g2) = List.length (Graph.edges g1)
        /\ nth_error (Graph.edges g1) i = Some old
        /\ Graph.edge_is s t ty old = true
        /\ Graph.edges g2 = replace_at i merged (Graph.edges g1)
        /\ (forall k, obj_has m2 k = true -> k <> "updated" ->
              obj_get merged k = obj_get m2 k)
        /\ (forall k, obj_has m2 k = false ->
              ~ In k ["from"; "to"; "type"; "created"; "updated"] ->
              obj_get merged k = obj_get old k))
  /\ (forall cs : list GraphSpec.call,
        Forall GraphSpec.call_names_same_edge cs ->
        GraphSpec.edges_unique (GraphSpec.run cs Graph.empty)).
Proof.
  split.
  - intros g g1 now1 now2 now3 now4 s t ty m1 m2 Hm1 Hnd2 Hadd1.
    destruct (addEdge_present _ _ _ _ _ _ _ _ Hm1 Hadd1) as [i Hi].
    destruct (findIndex_some _ _ _ Hi) as (old & Hold & Hkey).
    destruct (addEdge_inv _ _ _ _ _ _ _ _ Hadd1) as (Hs & Ht & Hty & Hn & _).
    exists {| Graph.nodes := Graph.nodes g1;
              Graph.edges :=
                replace_at i
                  (obj_set
                     (spread old
                        (spread [ ("from", VStr s); ("to", VStr t);
                                  ("type", VStr ty); ("created", VStr now3) ]
                                m2))
                     "updated" (VStr now4))
                  (Graph.edges g1);
              Graph.provData := Graph.provData g1;
              Graph.modified := true |}.
    exists i, old. eexists. cbn [Graph.edges].
    split.
    { unfold Graph.addEdge. rewrite Hn, Hs, Ht, Hty, Hi. cbn [negb].
      do 5 f_equal. apply nth_error_nth_default, Hold. }
    split; [apply replace_at_length|].
    split; [exact Hold|]. split; [exact Hkey|]. split; [reflexivity|].
    split.
    + intros k Hk Hku. rewrite obj_get_set_other by congruence.
      rewrite obj_get_spread_nodup by apply new_edge_nodup.
      rewrite obj_has_spread, Hk, orb_true_r.
      rewrite obj_get_spread_nodup by exact Hnd2. rewrite Hk. reflexivity.
    + intros k Hk Hnot. simpl in Hnot.
      rewrite obj_get_set_other by (intros <-; tauto).
      rewrite obj_get_spread_nodup by apply new_edge_nodup.
      rewrite obj_has_spread, Hk, orb_false_r.
      cbn [obj_has].
      destruct (String.eqb_spec "from" k); [tauto|].
      destruct (String.eqb_spec "to" k); [tauto|].
      destruct (String.eqb_spec "type" k); [tauto|].
      destruct (String.eqb_spec "created" k); [tauto|reflexivity].
  - intros cs Hcs. apply run_unique; [exact Hcs|]. constructor.
Qed.

Lemma C7_witness :
  let t := "2024-01-01T00:00:00.000Z" in
  let g := GraphSpec.run
             [ GraphSpec.AddNode t t "did:asset:dataset:a" [("type", VStr "Dataset")];
               GraphSpec.AddNode t t "did:asset:ai-model:b" [("type", VStr "AIModel")] ]
             Graph.empty in
  let cs := [ GraphSpec.AddNode t t "did:asset:dataset:a" [];
              GraphSpec.AddNode t t "did:asset:ai-model:b" [];
              GraphSpec.AddEdge t t "did:asset:dataset:a" "did:asset:ai-model:b"
                "trainedOn" [("weight", VNum 1)];
              GraphSpec.AddEdge t t "did:asset:dataset:a" "did:asset:ai-model:b"
                "trainedOn" [("weight", VNum 2)] ] in
  (exists g1 g2,
      Graph.addEdge t t "did:asset:dataset:a" "did:asset:ai-model:b" "used"
        [("role", VStr "input")] g = Some g1
      /\ Graph.addEdge t t "did:asset:dataset:a" "did:asset:ai-model:b" "used"
           [("note", VStr "again")] g1 = Some g2
      /\ List.length (Graph.edges g2) = List.length (Graph.edges g1))
  /\ GraphSpec.edges_unique (GraphSpec.run cs Graph.empty).
Proof.
  cbv zeta.
  assert (Hm : forall k (v : value) s t ty,
             k <> "from" -> k <> "to" -> k <> "type" ->
             GraphSpec.names_same_edge [(k, v)] s t ty).
  { intros k v s t ty H1 H2 H3. unfold GraphSpec.names_same_edge. simpl.
    split; [repeat constructor; simpl; tauto|].
    destruct (String.eqb_spec k "from"); [contradiction|].
    destruct (String.eqb_spec k "to"); [contradiction|].
    destruct (String.eqb_spec k "type"); [contradiction|].
    repeat split; discriminate. }
  destruct C7_addEdge_merges_duplicate as [Htwice Hinv].
  split.
  - assert (Hm1 : GraphSpec.names_same_edge [("role", VStr "input")]
                    "did:asset:dataset:a" "did:asset:ai-model:b" "used")
      by (apply Hm; discriminate).
    assert (Hnd2 : NoDup (obj_keys [("note", VStr "again")]))
      by (constructor; [simpl; tauto|constructor]).
    destruct (Htwice
                (GraphSpec.run
                   [ GraphSpec.AddNode "2024-01-01T00:00:00.000Z" "2024-01-01T00:00:00.000Z"
                       "did:asset:dataset:a" [("type", VStr "Dataset")];
                     GraphSpec.AddNode "2024-01-01T00:00:00.000Z" "2024-01-01T00:00:00.000Z"
                       "did:asset:ai-model:b" [("type", VStr "AIModel")] ]
                   Graph.empty)
                _ "2024-01-01T00:00:00.000Z" "2024-01-01T00:00:00.000Z"
                "2024-01-01T00:00:00.000Z" "2024-01-01T00:00:00.000Z"
                "did:asset:dataset:a" "did:asset:ai-model:b" "used"
                [("role", VStr "input")] [("note", VStr "again")]
                Hm1 Hnd2 eq_refl)
      as (g2 & i & old & merged & Hadd2 & Hlen & _).
    eexists. exists g2. split; [reflexivity|].
    split; [exact Hadd2|exact Hlen].
  - apply Hinv.
    repeat (apply Forall_cons; [first [exact I | apply Hm; discriminate]|]).
    apply Forall_nil.
Defined.

(** C7 as stated fails: metadata with a [type] key redefines the type of
    the stored edge, the second call does not find the edge of the first,
    and the graph ends with two edges of the same source, target and
    type. *)
Lemma C7_counterexample :
  let t := "2024-01-01T00:00:00.000Z" in
  let g := GraphSpec.run
             [ GraphSpec.AddNode t t "did:asset:dataset:a" [];
               GraphSpec.AddNode t t "did:asset:ai-model:b" [] ]
             Graph.empty in
  exists g1 g2,
    Graph.addEdge t t "did:asset:dataset:a" "did:asset:ai-model:b" "used"
      [("type", VStr "uses")] g = Some g1
    /\ Graph.addEdge t t "did:asset:dataset:a" "did:asset:ai-model:b" "used"
         [("type", VStr "uses")] g1 = Some g2
    /\ List.length (Graph.edges g1) = 1%nat
    /\ List.length (Graph.edges g2) = 2%nat
    /\ map GraphSpec.edge_key (Graph.edges g2)
       = [ (VStr "did:asset:dataset:a", VStr "did:asset:ai-model:b", VStr "uses");
           (VStr "did:asset:dataset:a", VStr "did:asset:ai-model:b", VStr "uses") ]
    /\ ~ GraphSpec.edges_unique g2.
Proof.
  cbv zeta. eexists. eexists.
  split; [vm_compute; reflexivity|].
  split; [vm_compute; reflexivity|].
  split; [reflexivity|]. split; [reflexivity|]. split; [reflexivity|].
  unfold GraphSpec.edges_unique. cbn. intros H.
  inversion H as [|? ? Hnotin _]; subst. apply Hnotin. left. reflexivity.
Qed.

(* ------------------------------------------------------------------ *)
(** *** Path search *)

Section SearchFacts.
Import Graph GraphSpec.

Variable g : ResourceGraph.
Variable target : value.
Variable relationshipTypes : option (list string).

(** [_dfs] satisfies the recursion of the source: it returns at once when
    [depth < 0] and otherwise calls itself with [depth - 1]. *)
Lemma _dfs_equation (current : value) (st : search) (depth : Z) :
  _dfs g current target st depth relationshipTypes
  = if (depth <? 0)%Z then st
    else
      let st1 := {| visited := set_add (visited st) current;
                    path := (path st ++ [current])%list;
                    paths := paths st |} in
      let st2 :=
        if value_eqb current target then
          {| visited := visited st1;
             path := path st1;
             paths := (paths st1 ++ [path st1])%list |}
        else
          fold_left
            (fun (s : search) (edge : obj) =>
               if negb (set_has (visited s) (obj_get edge "to"))
                  && type_allowed relationshipTypes edge
               then _dfs g (obj_get edge "to") target s (depth - 1)
                      relationshipTypes
               else s)
            (getEdges_outgoing g current) st1 in
      {| visited := set_delete (visited st2) current;
         path := removelast (path st2);
         paths := paths st2 |}.
Proof.
  unfold _dfs. destruct (Z.ltb_spec depth 0) as [Hneg|Hpos].
  - replace (Z.to_nat (depth + 1)) with 0%nat by lia. reflexivity.
  - replace (Z.to_nat (depth + 1)) with (S (Z.to_nat (depth - 1 + 1))) by lia.
    reflexivity.
Qed.

Lemma set_has_in (s : list value) (x : value) :
  set_has s x = true <-> In x s.
Proof.
  unfold set_has. rewrite existsb_exists. split.
  - intros (y & Hy & E). apply value_eqb_eq in E. subst. exact Hy.
  - intros H. exists x. split; [exact H|apply value_eqb_refl].
Qed.

Lemma set_has_app (s1 s2 : list value) (x : value) :
  set_has (s1 ++ s2)%list x = set_has s1 x || set_has s2 x.
Proof. unfold set_has. apply existsb_app. Qed.

Lemma set_has_add (s : list value) (x y : value) :
  set_has (set_add s x) y = value_eqb x y || set_has s y.
Proof.
  unfold set_add. destruct (set_has s x) eqn:E.
  - destruct (value_eqb x y) eqn:Exy; [|reflexivity].
    apply value_eqb_eq in Exy. subst. exact E.
  - rewrite set_has_app. simpl. rewrite orb_false_r, (value_eqb_sym y x).
    apply orb_comm.
Qed.

Lemma set_has_delete (s : list value) (x y : value) :
  set_has (set_delete s x) y = negb (value_eqb x y) && set_has s y.
Proof.
  unfold set_delete, set_has.
  induction s as [|z r IH]; simpl; [rewrite andb_false_r; reflexivity|].
  destruct (value_eqb x z) eqn:Exz; simpl.
  - rewrite IH. apply value_eqb_eq in Exz. subst z.
    rewrite (value_eqb_sym y x).
    destruct (value_eqb x y); reflexivity.
  - rewrite IH.
    destruct (value_eqb y z) eqn:Eyz; simpl.
    + apply value_eqb_eq in Eyz. subst z. rewrite Exz. reflexivity.
    + reflexivity.
Qed.

Lemma fold_left_invariant {S E : Type} (J : S -> Prop) (f : S -> E -> S)
    (l : list E) :
  (forall s e, In e l -> J s -> J (f s e)) ->
  forall s, J s -> J (fold_left f l s).
Proof.
  induction l as [|e r IH]; intros Hstep s Hs; simpl; [exact Hs|].
  apply IH.
  - intros s' e' Hin. apply Hstep. right. exact Hin.
  - apply Hstep; [left; reflexivity|exact Hs].
Qed.

Lemma dfs_levels_restores (levels : nat) :
  forall (current : value) (st : search),
    search_ok st ->
    set_has (visited st) current = false ->
    search_restored st (dfs_levels g target relationshipTypes levels current st).
Proof.
  induction levels as [|n IH]; intros current st (Hnd & Hvis & Hps) Hfresh.
  - simpl. repeat split; auto.
  - cbn [dfs_levels].
    set (st1 := {| visited := set_add (visited st) current;
                   path := (path st ++ [current])%list;
                   paths := paths st |}).
    assert (Hnotin : ~ In current (path st)).
    { intros H. apply Hvis in H. congruence. }
    assert (Hnd1 : NoDup (path st ++ [current])%list).
    { apply NoDup_app; [exact Hnd|repeat constructor; simpl; tauto|].
      intros x Hx [<-|[]]. contradiction. }
    assert (Hvis1 : forall x, set_has (set_add (visited st) current) x = true
                              <-> In x (path st ++ [current])%list).
    { intros x. rewrite set_has_add, orb_true_iff, value_eqb_eq, in_app_iff, Hvis.
      simpl. intuition. }
    assert (Hback : forall v,
               (forall x, set_has v x = set_has (set_add (visited st) current) x) ->
               forall x, set_has (set_delete v current) x = set_has (visited st) x).
    { intros v Hv x. rewrite set_has_delete, Hv, set_has_add.
      destruct (value_eqb current x) eqn:E; simpl; [|reflexivity].
      apply value_eqb_eq in E. subst x. symmetry. exact Hfresh. }
    destruct (value_eqb current target).
    + cbn [visited path paths]. unfold search_restored. cbn [visited path paths].
      split; [apply removelast_last|].
      split; [apply Hback; reflexivity|].
      apply Forall_app. split; [exact Hps|]. constructor; [exact Hnd1|constructor].
    + set (J := fun s : search =>
                  path s = path st1
                  /\ (forall x, set_has (visited s) x = set_has (visited st1) x)
                  /\ Forall (@NoDup value) (paths s)).
      assert (HJ : J (fold_left
                        (fun (s : search) (edge : obj) =>
                           if negb (set_has (visited s) (obj_get edge "to"))
                              && type_allowed relationshipTypes edge
                           then dfs_levels g target relationshipTypes n
                                  (obj_get edge "to") s
                           else s)
                        (getEdges_outgoing g current) st1)).
      { apply fold_left_invariant.
        - intros s e _ (Hp & Hv & Hf).
          destruct (negb (set_has (visited s) (obj_get e "to"))
                    && type_allowed relationshipTypes e) eqn:Hc;
            [|repeat split; assumption].
          apply andb_true_iff in Hc as [Hc _]. apply negb_true_iff in Hc.
          destruct (IH (obj_get e "to") s) as (Hp' & Hv' & Hf').
          + unfold search_ok. rewrite Hp. cbn [path st1].
            split; [exact Hnd1|]. split; [|exact Hf].
            intros x. rewrite Hv. cbn [visited st1]. apply Hvis1.
          + exact Hc.
          + unfold J. rewrite Hp'. split; [exact Hp|].
            split; [|exact Hf']. intros x. rewrite Hv'. apply Hv.
        - unfold J. repeat split; auto. }
      destruct HJ as (Hp & Hv & Hf).
      unfold search_restored. cbn [visited path paths].
      rewrite Hp. cbn [path st1].
      split; [apply removelast_last|].
      split; [apply Hback; exact Hv|exact Hf].
Qed.

End SearchFacts.

(** C6.  [findPaths] is a total function: for every graph, cyclic or not,
    every pair of identifiers and every [maxDepth] the search returns (the
    recursion of [_dfs] is on [depth], see [_dfs_equation]), and no node
    occurs twice in a path it returns. *)
Theorem C6_findPaths_simple (g : Graph.ResourceGraph) (startDID endDID : string)
    (maxDepth : option Z) (relationshipTypes : option (list string)) :
  exists found,
    Graph.findPaths g startDID endDID maxDepth relationshipTypes = found
    /\ Forall (@NoDup value) found.
Proof.
  eexists. split; [reflexivity|].
  unfold Graph.findPaths.
  destruct (negb (JMap.has (Graph.nodes g) startDID)
            || negb (JMap.has (Graph.nodes g) endDID)); [constructor|].
  unfold Graph._dfs.
  apply (dfs_levels_restores g (VStr endDID) relationshipTypes).
  - repeat split; simpl; try constructor; try discriminate; tauto.
  - reflexivity.
Qed.

Example findPaths_cycle :
  let t := "2024-01-01T00:00:00.000Z" in
  let g := GraphSpec.run
    [ GraphSpec.AddNode t t "A" []; GraphSpec.AddNode t t "B" [];
      GraphSpec.AddNode t t "C" [];
      GraphSpec.AddEdge t t "A" "B" "used" [];
      GraphSpec.AddEdge t t "B" "A" "uses" [];
      GraphSpec.AddEdge t t "B" "C" "wasGeneratedBy" [];
      GraphSpec.AddEdge t t "A" "C" "contains" [] ] Graph.empty in
  Graph.findPaths g "A" "C" (Some 5%Z) None
  = [[VStr "A"; VStr "B"; VStr "C"]; [VStr "A"; VStr "C"]].
Proof. vm_compute. reflexivity. Qed.

(* ================================================================== *)
(** ** Hierarchical metadata *)
(* ================================================================== *)

Lemma add_layer_provenance (m : Metadata.HierarchicalMetadataManager)
    (l : Metadata.MetadataLayer) (sel : obj) :
  Metadata.layer_at m Metadata.C2PA = Some l ->
  Metadata.add_layer m (Some sel) Metadata.C2PA
  = Some (obj_set sel "provenance" (Metadata.toC2PAManifest l)).
Proof. intros H. unfold Metadata.add_layer. rewrite H. reflexivity. Qed.

Lemma add_layer_rights (m : Metadata.HierarchicalMetadataManager)
    (l : Metadata.MetadataLayer) (sel : obj) :
  Metadata.layer_at m Metadata.MPEG21_REL = Some l ->
  Metadata.add_layer m (Some sel) Metadata.MPEG21_REL
  = Some (obj_set sel "rights" (Metadata.getData l)).
Proof. intros H. unfold Metadata.add_layer. rewrite H. reflexivity. Qed.

(** C9.  For a manager that holds the identity, provenance and rights
    layers (whatever else it holds, in particular when all five layers are
    set), the selective view of the provenance and rights tags in the
    default JSON-LD format is the object made of [@context], the [id] of
    the identity layer, the provenance data under [provenance] and the
    rights data under [rights], and of nothing else: no other layer
    appears, neither as a value nor as [null]. *)
Theorem C9_selective_view_provenance_rights
    (m : Metadata.HierarchicalMetadataManager)
    (idLayer provLayer rightsLayer : Metadata.MetadataLayer)
    (format : option string) :
  Metadata.layer_at m Metadata.DID = Some idLayer ->
  Metadata.layer_at m Metadata.C2PA = Some provLayer ->
  Metadata.layer_at m Metadata.MPEG21_REL = Some rightsLayer ->
  match format with Some f => f | None => Metadata.defaultFormat m end
  = Metadata.JSON_LD ->
  Metadata.createSelectiveView m [Metadata.C2PA; Metadata.MPEG21_REL] format
  = Some (VObj [ ("@context", VArr [VStr "https://www.w3.org/ns/did/v1"]);
                 ("id", Metadata.get idLayer "id" VNull);
                 ("provenance", Metadata.toC2PAManifest provLayer);
                 ("rights", Metadata.getData rightsLayer) ])
  /\ Metadata.createSelectiveView m [Metadata.MPEG21_REL; Metadata.C2PA] format
     = Some (VObj [ ("@context", VArr [VStr "https://www.w3.org/ns/did/v1"]);
                    ("id", Metadata.get idLayer "id" VNull);
                    ("rights", Metadata.getData rightsLayer);
                    ("provenance", Metadata.toC2PAManifest provLayer) ]).
Proof.
  intros Hid Hprov Hrights Hfmt.
  unfold Metadata.createSelectiveView. rewrite Hfmt, Hid.
  cbn [fold_left].
  rewrite !(add_layer_provenance m provLayer) by exact Hprov.
  rewrite !(add_layer_rights m rightsLayer) by exact Hrights.
  rewrite !(add_layer_provenance m provLayer) by exact Hprov.
  split; reflexivity.
Qed.

Lemma C9_witness :
  let now := "2024-01-01T00:00:00.000Z" in
  let m :=
    Metadata.setRightsLayer now [("license", VObj [("type", VStr "MIT")])]
      (Metadata.setLineageLayer now [("entity", VObj [("e1", VObj [])])]
         (Metadata.setCharacteristicsLayer now "ai-model"
            [("modelName", VStr "m"); ("modelDescription", VStr "d")]
            (Metadata.setProvenanceLayer now [("claim", VObj [("generator", VStr "x")])]
               (Metadata.setIdentificationLayer now
                  [("id", VStr "did:asset:ai-model:abc");
                   ("controller", VStr "did:asset:ai-model:abc")]
                  Metadata.new_manager)))) in
  Metadata.createSelectiveView m [Metadata.C2PA; Metadata.MPEG21_REL] None
  = Some (VObj [ ("@context", VArr [VStr "https://www.w3.org/ns/did/v1"]);
                 ("id", VStr "did:asset:ai-model:abc");
                 ("provenance", VObj [("claim", VObj [("generator", VStr "x")])]);
                 ("rights", VObj [("license", VObj [("type", VStr "MIT")])]) ]).
Proof.
  cbv zeta.
  refine (proj1 (C9_selective_view_provenance_rights _
                   (Metadata.mkLayer Metadata.DID
                      [("id", VStr "did:asset:ai-model:abc");
                       ("controller", VStr "did:asset:ai-model:abc")]
                      "2024-01-01T00:00:00.000Z")
                   (Metadata.mkLayer Metadata.C2PA
                      [("claim", VObj [("generator", VStr "x")])]
                      "2024-01-01T00:00:00.000Z")
                   (Metadata.mkLayer Metadata.MPEG21_REL
                      [("license", VObj [("type", VStr "MIT")])]
                      "2024-01-01T00:00:00.000Z")
                   None _ _ _ _)); reflexivity.
Defined.

(* ================================================================== *)
(** ** Canonical serialization and identifiers *)
(* ================================================================== *)

Section SerializeFacts.
Import CanonicalSpec.

Lemma serialize_obj (K : option (list string)) (o : obj) :
  JSON.serialize K (VObj o)
  = Some ("{" ++ join ","
                   (JSON.members
                      (match K with Some ks => ks | None => map fst o end)
                      (ser_of K o))
              ++ "}").
Proof.
  reflexivity.
Qed.

Lemma serialize_arr (K : option (list string)) (l : list value) :
  JSON.serialize K (VArr l)
  = Some ("[" ++ join ","
                   (map (fun x => match JSON.serialize K x with
                                  | Some s => s
                                  | None => "null"
                                  end) l)
              ++ "]").
Proof.
  reflexivity.
Qed.

Lemma find_ser (K : option (list string)) (o : obj) (k : string) :
  find (fun p => String.eqb (fst p) k) (ser_of K o)
  = if obj_has o k then Some (k, JSON.serialize K (obj_get o k)) else None.
Proof.
  unfold ser_of. induction o as [|[k' v] r IH]; [reflexivity|].
  cbn [map find fst snd obj_has obj_get].
  destruct (String.eqb_spec k' k); [subst; reflexivity|exact IH].
Qed.

Lemma members_ext (K : list string) (s1 s2 : list (string * option string)) :
  (forall k, find (fun p => String.eqb (fst p) k) s1
             = find (fun p => String.eqb (fst p) k) s2) ->
  JSON.members K s1 = JSON.members K s2.
Proof.
  intros H. induction K as [|k K IH]; [reflexivity|].
  cbn [JSON.members]. rewrite H, IH. reflexivity.
Qed.

Lemma obj_get_in (o : obj) (k : string) :
  obj_has o k = true -> In (k, obj_get o k) o.
Proof.
  induction o as [|[k' v] r IH]; simpl; [discriminate|].
  destruct (String.eqb_spec k' k); [subst; auto|auto].
Qed.

(** Under a property list, the serialization reads an object key by key:
    objects with the same properties serialize to the same string. *)
Lemma serialize_same_props (K : list string) (a : value) :
  forall b, same_props a b ->
            JSON.serialize (Some K) a = JSON.serialize (Some K) b.
Proof.
  induction a as [| | | | |l IH|o IH] using value_ind_nested;
    intros w Hw; inversion Hw; subst; try reflexivity.
  - rewrite !serialize_arr. do 4 f_equal.
    match goal with H : Forall2 _ _ _ |- _ => revert H end.
    generalize dependent l2. 
    induction IH as [|x r Hx _ IHr]; intros l2 _ H2; inversion H2; subst;
      [reflexivity|].
    cbn [map]. f_equal.
    + rewrite (Hx y) by assumption. reflexivity.
    + apply IHr; [constructor; assumption|assumption].
  - rewrite !serialize_obj. do 4 f_equal.
    apply members_ext. intros k. rewrite !find_ser.
    match goal with H : forall k, obj_has _ k = obj_has _ k |- _ =>
      rewrite <- (H k) end.
    destruct (obj_has o k) eqn:Hk; [|reflexivity].
    do 2 f_equal.
    rewrite Forall_forall in IH.
    apply (IH (k, obj_get o k) (obj_get_in o k Hk)). cbn [snd].
    match goal with H : forall k, same_props _ _ |- _ => apply H end.
Qed.

Lemma same_props_refl (v : value) : same_props v v.
Proof.
  induction v as [| | | | |l IH|o IH] using value_ind_nested; try constructor.
  - induction IH; constructor; assumption.
  - reflexivity.
  - intros k. destruct (obj_has o k) eqn:Hk.
    + rewrite Forall_forall in IH.
      apply (IH (k, obj_get o k) (obj_get_in o k Hk)).
    + rewrite obj_get_absent by exact Hk. constructor.
Qed.

Lemma obj_get_nodup_in (o : obj) (k : string) (v : value) :
  NoDup (obj_keys o) -> In (k, v) o -> obj_get o k = v.
Proof.
  induction o as [|[k' v'] r IH]; simpl; [tauto|].
  intros Hnd Hin. inversion Hnd as [|? ? Hnotin Hr]; subst.
  destruct Hin as [E|Hin].
  - injection E as -> ->. rewrite String.eqb_refl. reflexivity.
  - destruct (String.eqb_spec k' k).
    + subst. exfalso. apply Hnotin. apply in_map_iff. exists (k, v). auto.
    + apply IH; assumption.
Qed.

Lemma Forall2_in_l {A B : Type} (R : A -> B -> Prop) (l1 : list A) (l2 : list B)
    (x : A) :
  Forall2 R l1 l2 -> In x l1 -> exists y, In y l2 /\ R x y.
Proof.
  induction 1 as [|a b r1 r2 Hab _ IH]; simpl; [tauto|].
  intros [<-|Hin]; [eauto|].
  destruct (IH Hin) as (y & Hy & Hr). eauto.
Qed.

Lemma Forall2_keys (o1 o2 : obj) (R : value -> value -> Prop) :
  Forall2 (fun p q => fst p = fst q /\ R (snd p) (snd q)) o1 o2 ->
  obj_keys o1 = obj_keys o2.
Proof.
  induction 1 as [|p q r1 r2 [Hk _] _ IH]; simpl; [reflexivity|].
  rewrite Hk, IH. reflexivity.
Qed.

Lemma perm_keys_has (o o' : obj) (k : string) :
  Permutation o o' -> obj_has o k = obj_has o' k.
Proof.
  intros HP.
  destruct (obj_has o k) eqn:E1, (obj_has o' k) eqn:E2; try reflexivity; exfalso.
  - apply obj_has_in in E1.
    assert (H : In k (obj_keys o'))
      by (eapply Permutation_in; [apply Permutation_map; exact HP|exact E1]).
    apply obj_has_in in H. congruence.
  - apply obj_has_in in E2.
    assert (H : In k (obj_keys o))
      by (eapply Permutation_in;
            [apply Permutation_map, Permutation_sym; exact HP|exact E2]).
    apply obj_has_in in H. congruence.
Qed.

Lemma keys_has (o o' : obj) (k : string) :
  obj_keys o = obj_keys o' -> obj_has o k = obj_has o' k.
Proof.
  intros HK.
  destruct (obj_has o k) eqn:E1, (obj_has o' k) eqn:E2; try reflexivity; exfalso.
  - apply obj_has_in in E1. rewrite HK in E1. apply obj_has_in in E1. congruence.
  - apply obj_has_in in E2. rewrite <- HK in E2. apply obj_has_in in E2. congruence.
Qed.

(** The same pairs in another order are the same properties. *)
Lemma same_pairs_props (a : value) :
  forall b, same_pairs a b -> same_props a b.
Proof.
  induction a as [| | | | |l IH|o IH] using value_ind_nested;
    intros w Hw;
    inversion Hw as [ | | | | | l1 l2 HF | o1 o1' o2 HN HP HF ]; subst;
    try constructor.
  - clear Hw. revert l2 HF.
    induction IH as [|x r Hx _ IHr]; intros l2 HF; inversion HF; subst;
      constructor; auto.
  - intros k. rewrite (perm_keys_has o o1' k HP).
    apply keys_has. apply (Forall2_keys _ _ _ HF).
  - intros k.
    pose proof (Forall2_keys _ _ _ HF) as Hkeys.
    assert (Hhas : obj_has o k = obj_has o2 k).
    { rewrite (perm_keys_has o o1' k HP). apply keys_has, Hkeys. }
    destruct (obj_has o k) eqn:E1.
    + pose proof (obj_get_in o k E1) as Hin.
      pose proof (Permutation_in _ HP Hin) as Hin'.
      destruct (Forall2_in_l _ _ _ _ HF Hin') as ([k' v'] & Hin2 & Hk & Hv).
      simpl in Hk, Hv. subst k'.
      assert (HN2 : NoDup (obj_keys o2)).
      { rewrite <- Hkeys. unfold obj_keys.
        eapply Permutation_NoDup; [apply Permutation_map; exact HP|exact HN]. }
      rewrite (obj_get_nodup_in o2 k v' HN2 Hin2).
      rewrite Forall_forall in IH. apply (IH _ Hin). exact Hv.
    + rewrite (obj_get_absent o k E1).
      rewrite (obj_get_absent o2 k) by congruence. constructor.
Qed.

End SerializeFacts.

(** *** Sorting of keys *)

Lemma str_leb_total (a : string) : forall b, str_leb a b = true \/ str_leb b a = true.
Proof.
  induction a as [|x a IH]; intros [|y b]; simpl; auto.
  destruct (Nat.ltb_spec (nat_of_ascii x) (nat_of_ascii y)); [auto|].
  destruct (Nat.ltb_spec (nat_of_ascii y) (nat_of_ascii x)); [auto|].
  apply IH.
Qed.

Lemma str_leb_antisym (a : string) :
  forall b, str_leb a b = true -> str_leb b a = true -> a = b.
Proof.
  induction a as [|x a IH]; intros [|y b]; simpl; try discriminate; auto.
  destruct (Nat.ltb_spec (nat_of_ascii x) (nat_of_ascii y));
    destruct (Nat.ltb_spec (nat_of_ascii y) (nat_of_ascii x));
    try discriminate; try lia.
  intros H1 H2. f_equal; [|apply IH; assumption].
  assert (E : nat_of_ascii x = nat_of_ascii y) by lia.
  rewrite <- (ascii_nat_embedding x), <- (ascii_nat_embedding y), E. reflexivity.
Qed.

Lemma str_leb_trans (a : string) :
  forall b c, str_leb a b = true -> str_leb b c = true -> str_leb a c = true.
Proof.
  induction a as [|x a IH]; intros [|y b] [|z c]; simpl; try discriminate; auto.
  destruct (Nat.ltb_spec (nat_of_ascii x) (nat_of_ascii y));
    destruct (Nat.ltb_spec (nat_of_ascii y) (nat_of_ascii x));
    destruct (Nat.ltb_spec (nat_of_ascii y) (nat_of_ascii z));
    destruct (Nat.ltb_spec (nat_of_ascii z) (nat_of_ascii y));
    destruct (Nat.ltb_spec (nat_of_ascii x) (nat_of_ascii z));
    destruct (Nat.ltb_spec (nat_of_ascii z) (nat_of_ascii x));
    try discriminate; try lia; auto.
  apply IH.
Qed.

Lemma insert_sorted_comm (x y : string) (l : list string) :
  insert_sorted x (insert_sorted y l) = insert_sorted y (insert_sorted x l).
Proof.
  induction l as [|z l IH]; simpl.
  - destruct (str_leb x y) eqn:Hxy, (str_leb y x) eqn:Hyx; try reflexivity.
    + rewrite (str_leb_antisym x y Hxy Hyx). reflexivity.
    + destruct (str_leb_total x y); congruence.
  - destruct (str_leb y z) eqn:Hyz, (str_leb x z) eqn:Hxz; simpl.
    + destruct (str_leb x y) eqn:Hxy, (str_leb y x) eqn:Hyx;
        rewrite ?Hyz, ?Hxz; try reflexivity.
      * rewrite (str_leb_antisym x y Hxy Hyx). reflexivity.
      * destruct (str_leb_total x y); congruence.
    + destruct (str_leb x y) eqn:Hxy.
      * rewrite (str_leb_trans x y z Hxy Hyz) in Hxz. discriminate.
      * rewrite Hxz, Hyz. reflexivity.
    + destruct (str_leb y x) eqn:Hyx.
      * rewrite (str_leb_trans y x z Hyx Hxz) in Hyz. discriminate.
      * rewrite Hxz, Hyz. reflexivity.
    + rewrite Hxz, Hyz, IH. reflexivity.
Qed.

(** Sorting the same keys gives the same list, whatever their order. *)
Lemma sort_strings_perm (l l' : list string) :
  Permutation l l' -> sort_strings l = sort_strings l'.
Proof.
  unfold sort_strings.
  induction 1 as [|x l l' _ IH|x y l|l l' l'' _ IH1 _ IH2]; simpl.
  - reflexivity.
  - rewrite IH. reflexivity.
  - apply insert_sorted_comm.
  - congruence.
Qed.

Section CanonicalFacts.
Import CanonicalSpec.

Lemma same_pairs_keys_perm (a b : obj) :
  same_pairs (VObj a) (VObj b) -> Permutation (obj_keys a) (obj_keys b).
Proof.
  intros H. inversion H as [ | | | | | | o1 o1' o2 HN HP HF ]; subst.
  rewrite <- (Forall2_keys _ _ _ HF). apply Permutation_map, HP.
Qed.

(** Objects with the same properties and keys that sort alike have the
    same canonical serialization. *)
Lemma canonical_same_props (a b : obj) :
  same_props (VObj a) (VObj b) ->
  Permutation (obj_keys a) (obj_keys b) ->
  DID.canonical (VObj a) = DID.canonical (VObj b).
Proof.
  intros Hp Hk. unfold DID.canonical, JSON.stringify_with, DID.keys_of.
  cbn [entries]. fold (obj_keys a) (obj_keys b).
  rewrite (sort_strings_perm _ _ Hk).
  apply serialize_same_props, Hp.
Qed.

Lemma spread_keys_congr (p a1 a2 : obj) :
  obj_keys a1 = obj_keys a2 -> obj_keys (spread a1 p) = obj_keys (spread a2 p).
Proof.
  unfold spread. revert a1 a2.
  induction p as [|[k v] r IH]; intros a1 a2 H; simpl; [exact H|].
  apply IH. rewrite !obj_keys_set, (keys_has a1 a2 k H), H. reflexivity.
Qed.

(** The object hashed for a resource that is not a string. *)
Lemma wrapped_resource_canonical (a b : obj) (resourceType : string)
    (props : obj) :
  same_pairs (VObj a) (VObj b) ->
  DID.canonical
    (VObj (spread [("resource", VObj a); ("resourceType", VStr resourceType)] props))
  = DID.canonical
      (VObj (spread [("resource", VObj b); ("resourceType", VStr resourceType)] props)).
Proof.
  intros H.
  assert (Hkeys :
    obj_keys (spread [("resource", VObj a); ("resourceType", VStr resourceType)] props)
    = obj_keys (spread [("resource", VObj b); ("resourceType", VStr resourceType)] props))
    by (apply spread_keys_congr; reflexivity).
  apply canonical_same_props; [|rewrite Hkeys; apply Permutation_refl].
  constructor.
  - intros k. apply keys_has, Hkeys.
  - intros k. rewrite !obj_get_spread.
    destruct (obj_has props k); [apply same_props_refl|].
    cbn [obj_get].
    destruct (String.eqb "resource" k); [apply same_pairs_props, H|].
    apply same_props_refl.
Qed.

End CanonicalFacts.

(** C2.  Two attribute objects with the same key-value pairs, listed in
    different key orders in the objects themselves or in objects nested in
    them, have the same canonical serialization
    [JSON.stringify(o, Object.keys(o).sort())], hence the same SHA-256
    digest from [_generateHash], and [generateDID] derives the same
    identifier from them. *)
Theorem C2_key_order_independent (a b : obj) :
  CanonicalSpec.same_pairs (VObj a) (VObj b) ->
  DID.canonical (VObj a) = DID.canonical (VObj b)
  /\ DID._generateHash (VObj a) = DID._generateHash (VObj b)
  /\ (forall (f : DID.factory) (resourceType : string) (options : DID.did_options),
        DID.generateDID f (VObj a) resourceType options
        = DID.generateDID f (VObj b) resourceType options).
Proof.
  intros H.
  assert (Hc : DID.canonical (VObj a) = DID.canonical (VObj b)).
  { apply canonical_same_props.
    - apply same_pairs_props, H.
    - apply same_pairs_keys_perm, H. }
  split; [exact Hc|]. split.
  - unfold DID._generateHash. rewrite Hc. reflexivity.
  - intros f resourceType options. unfold DID.generateDID.
    assert (Hid : forall props,
               DID._generateUniqueId (VObj a) resourceType props
               = DID._generateUniqueId (VObj b) resourceType props).
    { intros props. unfold DID._generateUniqueId.
      destruct (String.eqb resourceType DID.AI_MODEL); [reflexivity|].
      destruct (String.eqb resourceType DID.DATASET); [reflexivity|].
      destruct (String.eqb resourceType DID.CODE); [reflexivity|].
      unfold DID._generateHash.
      rewrite (wrapped_resource_canonical a b resourceType props H).
      reflexivity. }
    rewrite Hid. reflexivity.
Qed.

Lemma C2_witness :
  let a := [("b", VNum 1); ("a", VObj [("y", VStr "q"); ("x", VNull)])] in
  let b := [("a", VObj [("x", VNull); ("y", VStr "q")]); ("b", VNum 1)] in
  CanonicalSpec.same_pairs (VObj a) (VObj b)
  /\ DID.canonical (VObj a) = DID.canonical (VObj b)
  /\ DID._generateHash (VObj a) = DID._generateHash (VObj b).
Proof.
  cbv zeta.
  assert (H : CanonicalSpec.same_pairs
                (VObj [("b", VNum 1); ("a", VObj [("y", VStr "q"); ("x", VNull)])])
                (VObj [("a", VObj [("x", VNull); ("y", VStr "q")]); ("b", VNum 1)])).
  { eapply CanonicalSpec.sp_obj.
    - repeat (constructor; [simpl; intuition discriminate|]). constructor.
    - apply perm_swap.
    - constructor; [split; [reflexivity|]|].
      + eapply CanonicalSpec.sp_obj.
        * repeat (constructor; [simpl; intuition discriminate|]). constructor.
        * apply perm_swap.
        * repeat constructor.
      + repeat constructor. }
  split; [exact H|].
  destruct (C2_key_order_independent _ _ H) as (Hc & Hh & _).
  split; [exact Hc|exact Hh].
Defined.

Example canonical_bytes :
  DID.canonical (VObj [("b", VNum 1); ("a", VNum 2)]) = Some (dq "{'a':2,'b':1}")
  /\ DID.canonical (VObj [("a", VNum 2); ("b", VNum 1)]) = Some (dq "{'a':2,'b':1}")
  /\ DID._generateHash (VObj [("b", VNum 1); ("a", VNum 2)])
     = Some "d3626ac30a87e6f7a6428233b3c68299976865fa5508e4267c5415c76af7a772".
Proof. repeat split; vm_compute; reflexivity. Qed.

(** C3, where the code departs from it.  For the text "hello" the digest
    is 2cf24dba...9824.  Under the default base64url compression
    [decompressDID] gives back the method, the resource type, the digest
    and the owner tag.  Under [hex] the identifier carries the digest
    itself, but [decompressDID] decodes it as base64 and returns 48 bytes
    that are not the digest; under [base58] [_compressIdentifier] keeps
    only the first 32 hexadecimal digits, so the digest is lost. *)
Theorem C3_decompress_not_inverse_for_hex_base58 :
  let digest := "2cf24dba5fb0a30e26e83b2ac5b9e29e1b161e5c1fa7425e73043362938b9824" in
  let opts c := DID.mkOptions None c None (Some "owner-1") in
  DID._generateHash (VStr "hello") = Some digest
  /\ DID.generateDID DID.new_factory (VStr "hello") "text" (opts None)
     = Some "did:asset:text:LPJNul-wow4m6DsqxbninhsWHlwfp0JecwQzYpOLmCQ:391887cb"
  /\ DID.decompressDID
       "did:asset:text:LPJNul-wow4m6DsqxbninhsWHlwfp0JecwQzYpOLmCQ:391887cb"
     = Some (DID.mkComponents "asset" "text" digest (Some "391887cb"))
  /\ DID.generateDID DID.new_factory (VStr "hello") "text" (opts (Some DID.HEX))
     = Some ("did:asset:text:" ++ digest ++ ":391887cb")
  /\ DID.decompressDID ("did:asset:text:" ++ digest ++ ":391887cb")
     = Some (DID.mkComponents "asset" "text"
               ("d9c7f6e1d6dae5f6f46b7d1edba7bcddbd9a7396fd7b6f5e"
                ++ "d5bd7ad5ee5cd5f6bbe36e5eef7d38df7eb6f77f1bf7cdb8")
               (Some "391887cb"))
  /\ DID.generateDID DID.new_factory (VStr "hello") "text" (opts (Some DID.BASE58))
     = Some "did:asset:text:2cf24dba5fb0a30e26e83b2ac5b9e29e:391887cb"
  /\ option_map DID.c_identifier
       (DID.decompressDID "did:asset:text:2cf24dba5fb0a30e26e83b2ac5b9e29e:391887cb")
     <> Some digest.
Proof.
  cbv zeta. repeat split; vm_compute; try reflexivity; discriminate.
Qed.

(* ------------------------------------------------------------------ *)
(** *** The PROV projection and its import *)

Section ProjectionFacts.
Import Graph GraphSpec.

Lemma push_rel_updated (m : obj) (subject : value) (key : string) (x : value)
    (c : contribution) :
  c_push c = true -> c_payload c = x ->
  push_rel m subject key x
  = set_rel m subject key
      (updated_value (get_prop (obj_get m (to_key subject)) key) c).
Proof.
  intros Hp Hx. unfold push_rel, updated_value. rewrite Hp, Hx. reflexivity.
Qed.

(** [project_edge] does what the contribution of the edge says. *)
Lemma project_edge_contribution (g : ResourceGraph) (p : prov_maps) (edge : obj) :
  project_edge g p edge
  = match contribution_of g p edge with
    | Some c => apply_contribution p c
    | None => p
    end.
Proof.
  unfold project_edge, contribution_of.
  repeat match goal with
         | |- context [if ?b then _ else _] => destruct b
         end;
    try reflexivity; destruct p; reflexivity.
Qed.

End ProjectionFacts.

Section ContributionFacts.
Import Graph GraphSpec ProvSpec.

Lemma same_presence_refl (p : prov_maps) : same_presence p p.
Proof. repeat split. Qed.

Lemma contribution_of_presence (g : ResourceGraph) (p q : prov_maps) (edge : obj) :
  same_presence p q -> contribution_of g p edge = contribution_of g q edge.
Proof.
  intros (He & Ha & Hg). unfold contribution_of.
  rewrite !He, !Ha, !Hg. reflexivity.
Qed.

Lemma contribution_subject_present (g : ResourceGraph) (p : prov_maps)
    (edge : obj) (c : contribution) :
  contribution_of g p edge = Some c ->
  missing (slot_map (c_slot c) p) (c_subject c) = false.
Proof.
  unfold contribution_of.
  repeat match goal with
         | |- context [if ?b then _ else _] => destruct b eqn:?
         end;
    try discriminate; intros E; injection E as <-; cbn [c_slot c_subject slot_map];
    repeat match goal with
           | H : _ || _ = false |- _ => apply orb_false_iff in H as [? ?]
           end;
    assumption.
Qed.

Lemma missing_set_rel (m : obj) (subject : value) (key : string) (v x : value) :
  missing m subject = false ->
  missing (set_rel m subject key v) x = missing m x.
Proof.
  unfold missing, set_rel. intros Hs.
  destruct (String.eqb_spec (to_key subject) (to_key x)) as [E|E].
  - rewrite <- E, obj_get_set_same. simpl. exact (eq_sym Hs).
  - rewrite obj_get_set_other by exact E. reflexivity.
Qed.

Lemma apply_presence (g : ResourceGraph) (p : prov_maps) (edge : obj)
    (c : contribution) :
  contribution_of g p edge = Some c ->
  same_presence (apply_contribution p c) p.
Proof.
  intros Hc. pose proof (contribution_subject_present g p edge c Hc) as Hs.
  unfold same_presence, apply_contribution, apply_to. cbn [entity activity agent].
  destruct (c_slot c); cbn [slot_map] in Hs; repeat split; intros x;
    try reflexivity; apply missing_set_rel, Hs.
Qed.

Lemma same_presence_trans (p q r : prov_maps) :
  same_presence p q -> same_presence q r -> same_presence p r.
Proof.
  intros (A1 & A2 & A3) (B1 & B2 & B3).
  repeat split; intros x; congruence.
Qed.

(** The second loop of [toPROV] applies the contributions one by one. *)
Lemma fold_project_edge (g : ResourceGraph) (p0 : prov_maps) (es : list obj) :
  forall p, same_presence p p0 ->
    fold_left (project_edge g) es p
    = fold_left apply_contribution (contributions_over g p0 es) p.
Proof.
  induction es as [|e es IH]; intros p Hp; [reflexivity|].
  cbn [fold_left contributions_over flat_map].
  rewrite project_edge_contribution.
  rewrite (contribution_of_presence g p p0 e Hp).
  destruct (contribution_of g p0 e) as [c|] eqn:Hc.
  - cbn [app fold_left]. apply IH.
    eapply same_presence_trans; [|exact Hp].
    eapply apply_presence. rewrite (contribution_of_presence g p p0 e Hp). exact Hc.
  - cbn [app]. apply IH, Hp.
Qed.

Lemma final_maps_contributions (g : ResourceGraph) :
  final_maps g = fold_left apply_contribution (contributions g) (base_maps g).
Proof. apply fold_project_edge, same_presence_refl. Qed.

Lemma fold_apply_slots (cs : list contribution) :
  forall p,
    fold_left apply_contribution cs p
    = {| entity := fold_left (apply_to InEntity) cs (entity p);
         activity := fold_left (apply_to InActivity) cs (activity p);
         agent := agent p |}.
Proof.
  induction cs as [|c cs IH]; intros p; [destruct p; reflexivity|].
  cbn [fold_left]. rewrite IH. reflexivity.
Qed.

End ContributionFacts.

Section LookupFacts.
Import Graph GraphSpec ProvSpec.

Lemma targets_other_slot (s : slot) (k field : string) (c : contribution) :
  c_slot c <> s -> targets s k field c = false.
Proof. unfold targets. destruct s, (c_slot c); congruence. Qed.

(** One contribution, seen from the object of the subject [k]. *)
Lemma apply_to_lookup (s : slot) (m : obj) (c : contribution) (k : string)
    (E0 : obj) :
  obj_get m k = VObj E0 ->
  exists E,
    obj_get (apply_to s m c) k = VObj E
    /\ (forall field,
          obj_get E field
          = if targets s k field c then updated_value (obj_get E0 field) c
            else obj_get E0 field)
    /\ (forall field,
          obj_has E field = obj_has E0 field || targets s k field c).
Proof.
  intros Hk. unfold apply_to, targets.
  destruct s, (c_slot c);
    try (exists E0; split; [exact Hk|];
         split; intros field; [reflexivity|rewrite orb_false_r; reflexivity]).
  all: unfold set_rel;
    destruct (String.eqb_spec (to_key (c_subject c)) k) as [E|E].
  all: try (exists E0; rewrite obj_get_set_other by exact E;
            split; [exact Hk|];
            split; intros field; [reflexivity|rewrite orb_false_r; reflexivity]).
  all: rewrite E, Hk, obj_get_set_same; cbn [get_prop];
    eexists; split; [reflexivity|];
    split; intros field; cbn [andb];
    destruct (String.eqb_spec (c_field c) field) as [F|F].
  all: try (subst field; rewrite ?obj_get_set_same, ?obj_has_set_same,
            ?orb_true_r; reflexivity).
  all: rewrite ?obj_get_set_other, ?obj_has_set_other, ?orb_false_r by exact F;
    reflexivity.
Qed.

(** The contributions in sequence: each property of the object of [k] is
    the fold of the contributions that target it. *)
Lemma fold_apply_lookup (s : slot) (cs : list contribution) :
  forall (m : obj) (k : string) (E0 : obj),
    obj_get m k = VObj E0 ->
    exists E,
      obj_get (fold_left (apply_to s) cs m) k = VObj E
      /\ (forall field,
            obj_get E field
            = fold_left updated_value (filter (targets s k field) cs)
                (obj_get E0 field))
      /\ (forall field,
            obj_has E field
            = obj_has E0 field || existsb (targets s k field) cs).
Proof.
  induction cs as [|c cs IH]; intros m k E0 Hk.
  - exists E0. split; [exact Hk|]. split; intros field; cbn;
      [reflexivity|rewrite orb_false_r; reflexivity].
  - destruct (apply_to_lookup s m c k E0 Hk) as (E1 & H1 & Hg1 & Hh1).
    destruct (IH (apply_to s m c) k E1 H1) as (E & H2 & Hg2 & Hh2).
    exists E. split; [exact H2|]. split; intros field.
    + rewrite Hg2, Hg1. cbn [filter].
      destruct (targets s k field c); reflexivity.
    + rewrite Hh2, Hh1. cbn [existsb]. rewrite orb_assoc. reflexivity.
Qed.

Lemma missing_has (m : obj) (x : value) :
  missing m x = false -> obj_has m (to_key x) = true.
Proof.
  unfold missing. intros H. apply negb_false_iff in H.
  destruct (obj_has m (to_key x)) eqn:E; [reflexivity|].
  rewrite (obj_get_absent m _ E) in H. discriminate.
Qed.

Lemma apply_to_keys (s : slot) (m : obj) (c : contribution) :
  (c_slot c = s -> obj_has m (to_key (c_subject c)) = true) ->
  obj_keys (apply_to s m c) = obj_keys m.
Proof.
  unfold apply_to. intros H.
  destruct s, (c_slot c); try reflexivity;
    unfold set_rel; rewrite obj_keys_set, H by reflexivity; reflexivity.
Qed.

Lemma fold_apply_keys (s : slot) (cs : list contribution) :
  forall m,
    Forall (fun c => c_slot c = s -> obj_has m (to_key (c_subject c)) = true) cs ->
    obj_keys (fold_left (apply_to s) cs m) = obj_keys m.
Proof.
  induction cs as [|c cs IH]; intros m Hcs; [reflexivity|].
  inversion Hcs as [|? ? Hc Hrest]; subst. cbn [fold_left].
  pose proof (apply_to_keys s m c Hc) as Hk.
  rewrite IH, Hk; [reflexivity|].
  apply Forall_impl with (2 := Hrest). intros c' Hc' Hs.
  rewrite (keys_has _ m _ Hk). apply Hc', Hs.
Qed.

(** A subject no contribution writes keeps its entry. *)
Lemma fold_apply_absent (s : slot) (cs : list contribution) (k : string) :
  forall m,
    obj_has m k = false ->
    Forall (fun c => c_slot c = s -> obj_has m (to_key (c_subject c)) = true) cs ->
    obj_has (fold_left (apply_to s) cs m) k = false.
Proof.
  intros m Hk Hcs.
  rewrite (keys_has _ m k (fold_apply_keys s cs m Hcs)). exact Hk.
Qed.

End LookupFacts.

Section BaseMapFacts.
Import Graph GraphSpec ProvSpec.

Lemma obj_set_absent (o : obj) (k : string) (v : value) :
  obj_has o k = false -> obj_set o k v = (o ++ [(k, v)])%list.
Proof.
  induction o as [|[k' v'] r IH]; simpl; [reflexivity|].
  destruct (String.eqb k' k); [discriminate|].
  intros H. rewrite IH by exact H. reflexivity.
Qed.

Lemma project_node_classify (p : prov_maps) (did : string) (node : obj) :
  project_node p (did, node)
  = match classify did node with
    | (CEntity, v) => {| entity := obj_set (entity p) did v;
                         activity := activity p; agent := agent p |}
    | (CActivity, v) => {| entity := entity p;
                           activity := obj_set (activity p) did v;
                           agent := agent p |}
    | (CAgent, v) => {| entity := entity p; activity := activity p;
                        agent := obj_set (agent p) did v |}
    end.
Proof.
  unfold project_node, classify.
  destruct (is_type node ACTIVITY); [reflexivity|].
  destruct (is_type node AGENT || is_type node PERSON
            || is_type node ORGANIZATION || is_type node SOFTWARE);
    reflexivity.
Qed.

Lemma of_category_keys (c : category) (l : list (string * obj)) (k : string) :
  In k (obj_keys (of_category c l)) -> In k (map fst l).
Proof.
  unfold of_category, obj_keys. induction l as [|[k' n] r IH]; simpl; [tauto|].
  destruct (category_eqb c (fst (classify k' n))); simpl; tauto.
Qed.

(** The first loop of [toPROV], in closed form. *)
Lemma fold_project_node (l : list (string * obj)) :
  forall p,
    NoDup (map fst l) ->
    (forall k, In k (map fst l) ->
               obj_has (entity p) k = false /\ obj_has (activity p) k = false
               /\ obj_has (agent p) k = false) ->
    fold_left project_node l p
    = {| entity := (entity p ++ of_category CEntity l)%list;
         activity := (activity p ++ of_category CActivity l)%list;
         agent := (agent p ++ of_category CAgent l)%list |}.
Proof.
  induction l as [|[k n] r IH]; intros p Hnd Hfresh.
  - simpl. rewrite !app_nil_r. destruct p; reflexivity.
  - inversion Hnd as [|? ? Hnotin Hnd']; subst.
    destruct (Hfresh k (or_introl eq_refl)) as (He & Ha & Hg).
    cbn [fold_left]. rewrite project_node_classify.
    assert (Hrest : forall v k',
               In k' (map fst r) -> obj_has (obj_set v k VNull) k' = obj_has v k').
    { intros v k' Hin. apply obj_has_set_other. intros ->. contradiction. }
    unfold of_category. cbn [flat_map fst snd].
    destruct (classify k n) as [[| |] v] eqn:Hc; cbn [category_eqb fst snd app];
      rewrite IH; cbn [entity activity agent]; try exact Hnd'.
    all: try (intros k' Hin; destruct (Hfresh k' (or_intror Hin)) as (? & ? & ?);
              repeat split; try assumption;
              rewrite obj_has_set_other by (intros ->; contradiction);
              assumption).
    all: rewrite obj_set_absent by assumption; rewrite <- !app_assoc; reflexivity.
Qed.

Lemma base_maps_closed (g : ResourceGraph) :
  NoDup (map fst (nodes g)) ->
  base_maps g
  = {| entity := of_category CEntity (nodes g);
       activity := of_category CActivity (nodes g);
       agent := of_category CAgent (nodes g) |}.
Proof.
  intros Hnd. unfold base_maps. rewrite fold_project_node; [reflexivity|exact Hnd|].
  intros k _. repeat split.
Qed.

End BaseMapFacts.

Section CategoryFacts.
Import Graph GraphSpec ProvSpec.

Lemma of_category_app (c : category) (l1 l2 : list (string * obj)) :
  of_category c (l1 ++ l2) = (of_category c l1 ++ of_category c l2)%list.
Proof. apply flat_map_app. Qed.

Lemma category_eqb_eq (a b : category) : category_eqb a b = true <-> a = b.
Proof. destruct a, b; simpl; split; congruence. Qed.

(** Every node is in exactly one of the three maps. *)
Lemma of_category_perm (l : list (string * obj)) :
  Permutation (map fst l)
    (obj_keys (of_category CEntity l) ++ obj_keys (of_category CActivity l)
     ++ obj_keys (of_category CAgent l)).
Proof.
  unfold obj_keys. induction l as [|[k n] r IH]; [constructor|].
  unfold of_category in *. cbn [flat_map map fst snd].
  destruct (classify k n) as [[| |] v]; cbn [category_eqb fst snd app map].
  - constructor. exact IH.
  - apply Permutation_cons_app. exact IH.
  - rewrite app_assoc. apply Permutation_cons_app. rewrite <- app_assoc. exact IH.
Qed.

Lemma of_category_lookup (l : list (string * obj)) (k : string) (c : category) :
  NoDup (map fst l) ->
  match JMap.get l k with
  | Some node =>
      obj_has (of_category c l) k = category_eqb c (fst (classify k node))
      /\ (category_eqb c (fst (classify k node)) = true ->
          obj_get (of_category c l) k = snd (classify k node))
  | None => obj_has (of_category c l) k = false
  end.
Proof.
  induction l as [|[k' n] r IH]; intros Hnd; [reflexivity|].
  inversion Hnd as [|? ? Hnotin Hnd']; subst.
  unfold of_category in *. cbn [JMap.get flat_map fst snd].
  destruct (String.eqb_spec k' k) as [->|Hne].
  - assert (Hr : obj_has (flat_map
                   (fun entry =>
                      if category_eqb c (fst (classify (fst entry) (snd entry)))
                      then [(fst entry, snd (classify (fst entry) (snd entry)))]
                      else []) r) k = false).
    { destruct (obj_has _ k) eqn:E; [|reflexivity].
      apply obj_has_in in E. apply (of_category_keys c r k) in E. contradiction. }
    destruct (category_eqb c (fst (classify k n))); cbn [app obj_has obj_get].
    + rewrite String.eqb_refl. auto.
    + split; [exact Hr|discriminate].
  - specialize (IH Hnd').
    destruct (category_eqb c (fst (classify k' n))); cbn [app obj_has obj_get];
      [apply String.eqb_neq in Hne; rewrite Hne|]; exact IH.
Qed.

Lemma classify_type (did : string) (node : obj) :
  obj_get node "type"
  = match fst (classify did node) with
    | CActivity => VStr ACTIVITY
    | _ => get_prop (snd (classify did node)) "prov:type"
    end.
Proof.
  unfold classify, is_type.
  destruct (value_eqb (obj_get node "type") (VStr ACTIVITY)) eqn:E.
  - apply value_eqb_eq in E. exact E.
  - destruct (_ || _); reflexivity.
Qed.

(** The type of a node is that of its entry in the maps of the first loop. *)
Lemma node_type_base (g : ResourceGraph) (s : string) :
  NoDup (map fst (nodes g)) ->
  node_type g s = type_in (base_maps g) s.
Proof.
  intros Hnd. rewrite (base_maps_closed g Hnd).
  unfold node_type, type_in. cbn [entity activity agent].
  pose proof (of_category_lookup (nodes g) s CEntity Hnd) as He.
  pose proof (of_category_lookup (nodes g) s CActivity Hnd) as Ha.
  pose proof (of_category_lookup (nodes g) s CAgent Hnd) as Hg.
  destruct (JMap.get (nodes g) s) as [node|].
  - destruct He as [He1 He2], Ha as [Ha1 Ha2], Hg as [Hg1 Hg2].
    rewrite He1, Ha1, Hg1, (classify_type s node).
    destruct (fst (classify s node)); cbn [category_eqb];
      [rewrite He2|reflexivity|rewrite Hg2]; reflexivity.
  - rewrite He, Ha, Hg. reflexivity.
Qed.

Lemma has_node_base (g : ResourceGraph) (s : string) :
  NoDup (map fst (nodes g)) ->
  JMap.has (nodes g) s
  = obj_has (entity (base_maps g)) s || obj_has (activity (base_maps g)) s
    || obj_has (agent (base_maps g)) s.
Proof.
  intros Hnd. rewrite (base_maps_closed g Hnd). cbn [entity activity agent].
  pose proof (of_category_lookup (nodes g) s CEntity Hnd) as He.
  pose proof (of_category_lookup (nodes g) s CActivity Hnd) as Ha.
  pose proof (of_category_lookup (nodes g) s CAgent Hnd) as Hg.
  unfold JMap.has. destruct (JMap.get (nodes g) s) as [node|].
  - destruct He as [-> _], Ha as [-> _], Hg as [-> _].
    destruct (fst (classify s node)); reflexivity.
  - rewrite He, Ha, Hg. reflexivity.
Qed.

(** The contribution of an edge depends on the graph through the maps of
    the first loop only. *)
Lemma contribution_of_base (g1 g2 : ResourceGraph) (p : prov_maps) (edge : obj) :
  NoDup (map fst (nodes g1)) -> NoDup (map fst (nodes g2)) ->
  base_maps g1 = base_maps g2 ->
  contribution_of g1 p edge = contribution_of g2 p edge.
Proof.
  intros H1 H2 Hb. unfold contribution_of.
  assert (Ht : forall s, match JMap.get (nodes g1) s with
                         | Some node => obj_get node "type"
                         | None => VUndefined
                         end
                         = match JMap.get (nodes g2) s with
                           | Some node => obj_get node "type"
                           | None => VUndefined
                           end).
  { intros s. change (node_type g1 s = node_type g2 s).
    rewrite !node_type_base, Hb by assumption. reflexivity. }
  destruct (obj_get edge "from") as [| | | |s| |]; try reflexivity.
  rewrite Ht. reflexivity.
Qed.

End CategoryFacts.

Section ImportNodeFacts.
Import Graph GraphSpec ProvSpec.

Lemma jmap_set_absent {A : Type} (m : list (string * A)) (k : string) (v : A) :
  JMap.has m k = false -> JMap.set m k v = (m ++ [(k, v)])%list.
Proof.
  unfold JMap.has. induction m as [|[k' v'] r IH]; simpl; [reflexivity|].
  destruct (String.eqb k' k); [discriminate|].
  intros H. rewrite IH by exact H. reflexivity.
Qed.

Lemma jmap_get_absent {A : Type} (m : list (string * A)) (k : string) :
  JMap.has m k = false -> JMap.get m k = None.
Proof. unfold JMap.has. destruct (JMap.get m k); [discriminate|reflexivity]. Qed.

Lemma js_or_truthy (a b : value) : truthy a = true -> js_or a b = a.
Proof. unfold js_or. intros ->. reflexivity. Qed.

Lemma truthy_js_or (a b : value) : truthy b = true -> truthy (js_or a b) = true.
Proof. unfold js_or. destruct (truthy a) eqn:E; auto. Qed.

Lemma truthy_did (k : string) : k <> "" -> truthy (VStr k) = true.
Proof. intros H. simpl. apply String.eqb_neq in H. rewrite H. reflexivity. Qed.

(** A new node: [addNode] appends it. *)
Lemma addNode_new (now1 now2 did : string) (metadata : obj) (g : ResourceGraph) :
  did <> "" -> JMap.has (nodes g) did = false ->
  addNode now1 now2 did metadata g
  = Some {| nodes := (nodes g ++
                      [(did,
                        spread
                          [ ("did", VStr did);
                            ("type", js_or (obj_get metadata "type") (VStr RESOURCE));
                            ("label", js_or (obj_get metadata "label")
                                        (VStr (last_str (split ":" did))));
                            ("created", VStr now1);
                            ("updated", VStr now2) ]
                          metadata)])%list;
            edges := edges g; provData := provData g; modified := true |}.
Proof.
  intros Hne Habs. unfold addNode.
  apply String.eqb_neq in Hne. rewrite Hne.
  rewrite (jmap_get_absent _ _ Habs), (jmap_set_absent _ _ _ Habs). reflexivity.
Qed.

End ImportNodeFacts.

Section ImportEntityFacts.
Import Graph GraphSpec ProvSpec.
Variable clock : nat -> string.

Lemma import_entity_step (g0 : ResourceGraph) (n0 : nat) (be pe : string * value) :
  grown be pe -> entry_of CEntity be ->
  JMap.has (nodes g0) (fst be) = false ->
  exists g1 n1 node',
    import_entity clock (Some (g0, n0)) pe = Some (g1, n1)
    /\ nodes g1 = (nodes g0 ++ [(fst be, node')])%list
    /\ edges g1 = edges g0 /\ provData g1 = provData g0
    /\ classify (fst be) node' = (CEntity, snd be).
Proof.
  destruct be as [k bv], pe as [k' pv]. unfold grown, entry_of. cbn [fst snd].
  intros (-> & E0 & E & -> & -> & _ & Hbase) (Hne & node & (Ht & Hc & Hu) & Hcl) Habs.
  unfold classify in Hcl.
  destruct (is_type node ACTIVITY) eqn:T1; [discriminate|].
  destruct (is_type node AGENT || is_type node PERSON
            || is_type node ORGANIZATION || is_type node SOFTWARE) eqn:T2;
    [discriminate|].
  injection Hcl as <-.
  unfold import_entity. cbn [read get_prop].
  rewrite !Hbase by (simpl; tauto).
  cbn [obj_get String.eqb Ascii.eqb Bool.eqb].
  assert (HL : truthy (js_or (obj_get node "label") (VStr k)) = true)
    by apply truthy_js_or, truthy_did, Hne.
  rewrite ?(js_or_truthy (obj_get node "type")),
    ?(js_or_truthy (obj_get node "created")),
    ?(js_or_truthy (js_or (obj_get node "label") (VStr k))) by assumption.
  unfold addNode_i. rewrite addNode_new by assumption.
  do 3 eexists. split; [reflexivity|]. cbn [nodes edges provData].
  split; [reflexivity|]. split; [reflexivity|]. split; [reflexivity|].
  unfold is_type in *.
  unfold classify, is_type, spread.
  cbn [fold_left fst snd obj_set obj_get String.eqb Ascii.eqb Bool.eqb].
  rewrite T1, T2. rewrite ?(js_or_truthy (obj_get node "type")),
    ?(js_or_truthy (obj_get node "created")),
    ?(js_or_truthy (js_or (obj_get node "label") (VStr k))) by assumption. reflexivity.
Qed.

Lemma import_activity_step (g0 : ResourceGraph) (n0 : nat) (be pe : string * value) :
  grown be pe -> entry_of CActivity be ->
  JMap.has (nodes g0) (fst be) = false ->
  exists g1 n1 node',
    import_activity clock (Some (g0, n0)) pe = Some (g1, n1)
    /\ nodes g1 = (nodes g0 ++ [(fst be, node')])%list
    /\ edges g1 = edges g0 /\ provData g1 = provData g0
    /\ classify (fst be) node' = (CActivity, snd be).
Proof.
  destruct be as [k bv], pe as [k' pv]. unfold grown, entry_of. cbn [fst snd].
  intros (-> & E0 & E & -> & -> & _ & Hbase) (Hne & node & (Ht & Hc & Hu) & Hcl) Habs.
  unfold classify in Hcl.
  destruct (is_type node ACTIVITY) eqn:T1;
    [|destruct (is_type node AGENT || is_type node PERSON
                || is_type node ORGANIZATION || is_type node SOFTWARE);
      discriminate].
  injection Hcl as <-.
  unfold import_activity. cbn [read get_prop].
  rewrite !Hbase by (simpl; tauto).
  cbn [obj_get String.eqb Ascii.eqb Bool.eqb].
  set (started := js_or (obj_get node "startTime") (obj_get node "created")).
  set (ended := js_or (obj_get node "endTime") (obj_get node "updated")).
  set (label := js_or (obj_get node "label") (VStr k)).
  assert (HS : truthy started = true) by apply truthy_js_or, Hc.
  assert (HE : truthy ended = true) by apply truthy_js_or, Hu.
  assert (HL : truthy label = true) by apply truthy_js_or, truthy_did, Hne.
  rewrite ?(js_or_truthy started), ?(js_or_truthy ended), ?(js_or_truthy label)
    by assumption.
  unfold addNode_i. rewrite addNode_new by assumption.
  do 3 eexists. split; [reflexivity|]. cbn [nodes edges provData].
  split; [reflexivity|]. split; [reflexivity|]. split; [reflexivity|].
  unfold classify, is_type, spread.
  cbn [fold_left fst snd obj_set obj_get String.eqb Ascii.eqb Bool.eqb].
  rewrite value_eqb_refl.
  rewrite ?(js_or_truthy started), ?(js_or_truthy ended), ?(js_or_truthy label)
    by assumption.
  reflexivity.
Qed.

Lemma import_agent_step (g0 : ResourceGraph) (n0 : nat) (be pe : string * value) :
  grown be pe -> entry_of CAgent be ->
  JMap.has (nodes g0) (fst be) = false ->
  exists g1 n1 node',
    import_agent clock (Some (g0, n0)) pe = Some (g1, n1)
    /\ nodes g1 = (nodes g0 ++ [(fst be, node')])%list
    /\ edges g1 = edges g0 /\ provData g1 = provData g0
    /\ classify (fst be) node' = (CAgent, snd be).
Proof.
  destruct be as [k bv], pe as [k' pv]. unfold grown, entry_of. cbn [fst snd].
  intros (-> & E0 & E & -> & -> & _ & Hbase) (Hne & node & (Ht & Hc & Hu) & Hcl) Habs.
  unfold classify in Hcl.
  destruct (is_type node ACTIVITY) eqn:T1; [discriminate|].
  destruct (is_type node AGENT || is_type node PERSON
            || is_type node ORGANIZATION || is_type node SOFTWARE) eqn:T2;
    [|discriminate].
  injection Hcl as <-.
  unfold import_agent. cbn [read get_prop].
  rewrite !Hbase by (simpl; tauto).
  cbn [obj_get String.eqb Ascii.eqb Bool.eqb].
  set (label := js_or (obj_get node "label") (VStr k)).
  assert (HL : truthy label = true) by apply truthy_js_or, truthy_did, Hne.
  rewrite ?(js_or_truthy (obj_get node "type")), ?(js_or_truthy label)
    by assumption.
  unfold addNode_i. rewrite addNode_new by assumption.
  do 3 eexists. split; [reflexivity|]. cbn [nodes edges provData].
  split; [reflexivity|]. split; [reflexivity|]. split; [reflexivity|].
  unfold is_type in *.
  unfold classify, is_type, spread.
  cbn [fold_left fst snd obj_set obj_get String.eqb Ascii.eqb Bool.eqb].
  rewrite T1, T2.
  rewrite ?(js_or_truthy (obj_get node "type")), ?(js_or_truthy label)
    by assumption.
  reflexivity.
Qed.

End ImportEntityFacts.

Section ImportLoopFacts.
Import Graph GraphSpec ProvSpec.
Variable step : import -> string * value -> import.
Variable c : category.
Hypothesis step_spec :
  forall (g0 : ResourceGraph) (n0 : nat) (be pe : string * value),
    grown be pe -> entry_of c be ->
    JMap.has (nodes g0) (fst be) = false ->
    exists g1 n1 node',
      step (Some (g0, n0)) pe = Some (g1, n1)
      /\ nodes g1 = (nodes g0 ++ [(fst be, node')])%list
      /\ edges g1 = edges g0 /\ provData g1 = provData g0
      /\ classify (fst be) node' = (c, snd be).

(** One loop of [fromPROV] over a map: a node for each entry. *)
Lemma import_loop (Bl : obj) :
  forall (Pl : obj) (g0 : ResourceGraph) (n0 : nat),
    Forall2 grown Bl Pl -> Forall (entry_of c) Bl ->
    NoDup (obj_keys Bl) ->
    (forall k, In k (obj_keys Bl) -> JMap.has (nodes g0) k = false) ->
    exists g1 n1 Nl,
      fold_left step Pl (Some (g0, n0)) = Some (g1, n1)
      /\ nodes g1 = (nodes g0 ++ Nl)%list
      /\ edges g1 = edges g0 /\ provData g1 = provData g0
      /\ Forall2 (imported c) Bl Nl.
Proof.
  induction Bl as [|be Bl IH]; intros Pl g0 n0 Hg Hok Hnd Hfresh.
  - inversion Hg; subst. exists g0, n0, []. rewrite app_nil_r.
    repeat split; constructor.
  - inversion Hg as [|? pe ? Pl' Hg1 Hg2]; subst.
    inversion Hok as [|? ? Hok1 Hok2]; subst.
    inversion Hnd as [|? ? Hnotin Hnd']; subst.
    destruct (step_spec g0 n0 be pe Hg1 Hok1) as (g1 & n1 & node' & Hs & Hn & He & Hp & Hc).
    { apply Hfresh. left. reflexivity. }
    destruct (IH Pl' g1 n1 Hg2 Hok2 Hnd') as (g2 & n2 & Nl & Hs2 & Hn2 & He2 & Hp2 & Hi).
    { intros k Hk. rewrite Hn.
      destruct (JMap.has (nodes g0 ++ [(fst be, node')]) k) eqn:E; [|reflexivity].
      apply jmap_has_in in E. rewrite map_app in E. apply in_app_or in E.
      destruct E as [E|[E|[]]].
      - apply jmap_has_in in E. rewrite Hfresh in E; [discriminate|right; exact Hk].
      - cbn [fst] in E. subst k. contradiction. }
    exists g2, n2, ((fst be, node') :: Nl). cbn [fold_left]. rewrite Hs.
    split; [exact Hs2|]. split; [rewrite Hn2, Hn, <- app_assoc; reflexivity|].
    split; [congruence|]. split; [congruence|].
    constructor; [split; [reflexivity|exact Hc]|exact Hi].
Qed.

End ImportLoopFacts.

Section LinkFacts.
Import Graph GraphSpec ProvSpec.
Variable clock : nat -> string.

Lemma existsb_none {A : Type} (p : A -> bool) (l : list A) :
  (forall x, In x l -> p x = false) -> existsb p l = false.
Proof.
  intros H. destruct (existsb p l) eqn:E; [|reflexivity].
  apply existsb_exists in E as (x & Hin & Hp). rewrite (H x Hin) in Hp. discriminate.
Qed.

Lemma existsb_edge_keys (s t ty : string) (es : list obj) :
  existsb (link_eqb (VStr s, VStr t, VStr ty)) (map edge_key es)
  = existsb (edge_is s t ty) es.
Proof. induction es as [|e es IH]; simpl; [reflexivity|]. rewrite IH. reflexivity. Qed.

Lemma names_same_edge_nil (s t ty : string) : names_same_edge [] s t ty.
Proof. repeat split; try discriminate. constructor. Qed.

(** [addEdge] without metadata, seen on the identities of the edges. *)
Lemma addEdge_i_links (s t ty : string) (g0 : ResourceGraph) (n0 : nat) :
  link_ok (nodes g0) (VStr s, VStr t, VStr ty) ->
  exists g1 n1,
    addEdge_i clock s t ty (Some (g0, n0)) = Some (g1, n1)
    /\ nodes g1 = nodes g0 /\ provData g1 = provData g0
    /\ map edge_key (edges g1)
       = add_link (map edge_key (edges g0)) (VStr s, VStr t, VStr ty).
Proof.
  intros (s' & t' & ty' & E & Hs & Ht & Hty). injection E as <- <- <-.
  unfold addEdge_i.
  destruct (addEdge (clock n0) (clock (S n0)) s t ty [] g0) as [g1|] eqn:Hadd.
  2:{ unfold addEdge in Hadd. rewrite Hs, Ht, Hty in Hadd. discriminate. }
  destruct (addEdge_inv _ _ _ _ _ _ _ _ Hadd) as (_ & _ & _ & Hn & He).
  exists g1, (S (S n0)). split; [reflexivity|]. split; [exact Hn|].
  split.
  { unfold addEdge in Hadd. rewrite Hs, Ht, Hty in Hadd. cbn in Hadd.
    injection Hadd as <-. reflexivity. }
  unfold add_link. rewrite existsb_edge_keys, He.
  pose proof (names_same_edge_nil s t ty) as Hm.
  destruct (findIndex (edge_is s t ty) (edges g0)) as [i|] eqn:Hi.
  - destruct (findIndex_some _ _ _ Hi) as (old & Hold & Hkey).
    assert (Hex : existsb (edge_is s t ty) (edges g0) = true).
    { apply existsb_exists. exists old. split; [|exact Hkey].
      eapply nth_error_In, Hold. }
    rewrite Hex.
    apply (replace_at_map edge_key i _ old); [exact Hold|].
    rewrite merged_edge_key by exact Hm.
    symmetry. apply edge_is_key, Hkey.
  - rewrite (existsb_none _ _ (findIndex_none _ _ Hi)).
    rewrite map_app. cbn [map]. rewrite new_edge_key by exact Hm. reflexivity.
Qed.

Lemma links_run_id : links_run (fun s => s) [].
Proof. intros g0 n0 _. exists g0, n0. repeat split. Qed.

Lemma links_run_seq (f h : import -> import) (k1 k2 : list link) :
  links_run f k1 -> links_run h k2 ->
  links_run (fun s => h (f s)) (k1 ++ k2).
Proof.
  intros Hf Hh g0 n0 Hok. apply Forall_app in Hok as [H1 H2].
  destruct (Hf g0 n0 H1) as (g1 & n1 & E1 & N1 & P1 & K1).
  destruct (Hh g1 n1) as (g2 & n2 & E2 & N2 & P2 & K2).
  { rewrite N1. exact H2. }
  exists g2, n2. rewrite E1. split; [exact E2|].
  split; [congruence|]. split; [congruence|].
  rewrite K2, K1, fold_left_app. reflexivity.
Qed.

Lemma links_run_when (b : bool) (f : import -> import) (ks : list link) :
  links_run f ks ->
  links_run (fun s => if b then f s else s) (if b then ks else []).
Proof. destruct b; [auto|intros _; apply links_run_id]. Qed.

Lemma links_run_fold {A : Type} (f : import -> A -> import)
    (h : A -> list link) (l : list A) :
  (forall x, In x l -> links_run (fun s => f s x) (h x)) ->
  links_run (fun s => fold_left f l s) (flat_map h l).
Proof.
  induction l as [|x l IH]; intros H; [apply links_run_id|].
  cbn [fold_left flat_map].
  apply (links_run_seq (fun s => f s x) (fun s => fold_left f l s)).
  - apply H. left. reflexivity.
  - apply IH. intros y Hy. apply H. right. exact Hy.
Qed.

Lemma links_run_each {A : Type} (f : import -> A -> import)
    (h : A -> link) (l : list A) :
  (forall x, links_run (fun s => f s x) [h x]) ->
  links_run (fun s => fold_left f l s) (map h l).
Proof.
  intros H. replace (map h l) with (flat_map (fun x => [h x]) l).
  - apply links_run_fold. intros x _. apply H.
  - induction l as [|x l IH]; [reflexivity|]. cbn. rewrite IH. reflexivity.
Qed.

Lemma link_to_run (did ty : string) (x : value) :
  links_run (fun s => link_to clock did ty s x) [(VStr did, x, VStr ty)].
Proof.
  intros g0 n0 Hok. inversion Hok as [|? ? H1 _]; subst.
  pose proof H1 as (s & t & ty' & E & Hs & Ht & Hty). injection E as <- -> <-.
  unfold link_to. rewrite Ht. cbn [fold_left].
  apply addEdge_i_links, H1.
Qed.

Lemma link_from_run (did ty : string) (x : value) :
  links_run (fun s => link_from clock did ty s x) [(x, VStr did, VStr ty)].
Proof.
  intros g0 n0 Hok. inversion Hok as [|? ? H1 _]; subst.
  pose proof H1 as (s & t & ty' & E & Hs & Ht & Hty). injection E as -> <- <-.
  unfold link_from. rewrite Hs. cbn [fold_left].
  apply addEdge_i_links, H1.
Qed.

End LinkFacts.

Section ImportRelationFacts.
Import Graph GraphSpec ProvSpec.
Variable clock : nat -> string.

Lemma asset_key_fields (key : string) :
  startsWith key "asset:" = true ->
  String.eqb key "prov:wasDerivedFrom" = false
  /\ String.eqb key "prov:wasGeneratedBy" = false
  /\ String.eqb key "prov:wasAttributedTo" = false
  /\ String.eqb key "prov:used" = false
  /\ String.eqb key "prov:wasAssociatedWith" = false.
Proof.
  unfold startsWith. destruct key as [|a key]; [discriminate|]. cbn [prefix].
  destruct (ascii_dec "a" a) as [<-|]; [|discriminate].
  intros _. repeat split.
Qed.

Lemma link_of_asset (did key : string) (x : value) :
  startsWith key "asset:" = true ->
  link_of (mkContribution InEntity (VStr did) key true x)
  = (VStr did, x, VStr (substring_from 6 key)).
Proof.
  intros H. destruct (asset_key_fields key H) as (H1 & H2 & H3 & H4 & H5).
  unfold link_of. cbn [c_field c_subject c_payload].
  rewrite H1, H2, H3, H4, H5. reflexivity.
Qed.

Lemma import_entity_relations_run (entry : string * value) :
  links_run (fun s => import_entity_relations clock s entry)
    (map link_of (entity_readoff entry)).
Proof.
  destruct entry as [did e]. unfold import_entity_relations, entity_readoff.
  rewrite !map_app.
  set (derived := get_prop e "prov:wasDerivedFrom").
  set (generated := get_prop e "prov:wasGeneratedBy").
  set (attributed := get_prop e "prov:wasAttributedTo").
  apply (links_run_seq
           (fun s => if truthy derived
                     then fold_left (link_from clock did "wasDerivedFrom")
                            (as_array derived) s
                     else s)
           (fun s1 =>
              fold_left
                (fun (s : import) (kv : string * value) =>
                   let (key, value) := kv in
                   if startsWith key "asset:" then
                     fold_left (link_to clock did (substring_from 6 key))
                       (as_array value) s
                   else s)
                (entries e)
                (if truthy attributed
                 then link_to clock did "wasAttributedTo"
                        (if truthy generated
                         then link_to clock did "wasGeneratedBy" s1 generated
                         else s1) attributed
                 else (if truthy generated
                       then link_to clock did "wasGeneratedBy" s1 generated
                       else s1)))).
  { destruct (truthy derived); [|apply links_run_id].
    rewrite map_map. apply links_run_each. intros x.
    apply link_from_run. }
  apply (links_run_seq
           (fun s => if truthy generated
                     then link_to clock did "wasGeneratedBy" s generated
                     else s)
           (fun s2 =>
              fold_left
                (fun (s : import) (kv : string * value) =>
                   let (key, value) := kv in
                   if startsWith key "asset:" then
                     fold_left (link_to clock did (substring_from 6 key))
                       (as_array value) s
                   else s)
                (entries e)
                (if truthy attributed
                 then link_to clock did "wasAttributedTo" s2 attributed
                 else s2))).
  { destruct (truthy generated); [|apply links_run_id].
    apply link_to_run. }
  apply (links_run_seq
           (fun s => if truthy attributed
                     then link_to clock did "wasAttributedTo" s attributed
                     else s)
           (fun s3 =>
              fold_left
                (fun (s : import) (kv : string * value) =>
                   let (key, value) := kv in
                   if startsWith key "asset:" then
                     fold_left (link_to clock did (substring_from 6 key))
                       (as_array value) s
                   else s)
                (entries e) s3)).
  { destruct (truthy attributed); [|apply links_run_id].
    apply link_to_run. }
  replace (map link_of
             (flat_map
                (fun kv =>
                   if startsWith (fst kv) "asset:"
                   then map (mkContribution InEntity (VStr did) (fst kv) true)
                          (as_array (snd kv))
                   else [])
                (entries e)))
    with (flat_map
            (fun kv : string * value =>
               if startsWith (fst kv) "asset:"
               then map (fun x => (VStr did, x, VStr (substring_from 6 (fst kv))))
                      (as_array (snd kv))
               else [])
            (entries e)).
  - apply links_run_fold. intros [key v] _. cbn [fst snd].
    destruct (startsWith key "asset:"); [|apply links_run_id].
    apply links_run_each. intros x. apply link_to_run.
  - induction (entries e) as [|[key v] r IH]; [reflexivity|].
    cbn [flat_map fst snd]. rewrite map_app, IH.
    destruct (startsWith key "asset:") eqn:Hk; [|reflexivity].
    rewrite map_map.
    rewrite (map_ext _ _ (fun x => link_of_asset did key x Hk)). reflexivity.
Qed.

Lemma import_activity_relations_run (entry : string * value) :
  links_run (fun s => import_activity_relations clock s entry)
    (map link_of (activity_readoff entry)).
Proof.
  destruct entry as [did a]. unfold import_activity_relations, activity_readoff.
  rewrite !map_app.
  set (used := get_prop a "prov:used").
  set (associated := get_prop a "prov:wasAssociatedWith").
  apply (links_run_seq
           (fun s => if truthy used
                     then fold_left (link_to clock did "used") (as_array used) s
                     else s)
           (fun s1 => if truthy associated
                      then link_to clock did "wasAssociatedWith" s1 associated
                      else s1)).
  - destruct (truthy used); [|apply links_run_id].
    rewrite map_map. apply links_run_each. intros x. apply link_to_run.
  - destruct (truthy associated); [|apply links_run_id].
    apply link_to_run.
Qed.

(** The two relationship loops of [fromPROV] make the calls read off the
    document, in order. *)
Lemma import_relations_run (p : prov_maps) :
  links_run
    (fun s =>
       fold_left (import_activity_relations clock) (activity p)
         (fold_left (import_entity_relations clock) (entity p) s))
    (map link_of (readoff p)).
Proof.
  unfold readoff. rewrite map_app.
  apply (links_run_seq
           (fun s => fold_left (import_entity_relations clock) (entity p) s)
           (fun s => fold_left (import_activity_relations clock) (activity p) s)).
  - replace (map link_of (flat_map entity_readoff (entity p)))
      with (flat_map (fun entry => map link_of (entity_readoff entry)) (entity p)).
    + apply links_run_fold. intros x _. apply import_entity_relations_run.
    + induction (entity p) as [|x r IH]; [reflexivity|].
      cbn [flat_map]. rewrite map_app, IH. reflexivity.
  - replace (map link_of (flat_map activity_readoff (activity p)))
      with (flat_map (fun entry => map link_of (activity_readoff entry)) (activity p)).
    + apply links_run_fold. intros x _. apply import_activity_relations_run.
    + induction (activity p) as [|x r IH]; [reflexivity|].
      cbn [flat_map]. rewrite map_app, IH. reflexivity.
Qed.

End ImportRelationFacts.

Section ReprojectionFacts.
Import Graph GraphSpec ProvSpec.

Lemma contribution_of_key (g : ResourceGraph) (p : prov_maps) (edge : obj) :
  contribution_of g p edge = contribution_of g p (edge_of (edge_key edge)).
Proof. reflexivity. Qed.

Lemma contributions_over_keys (g : ResourceGraph) (p : prov_maps) (es : list obj) :
  contributions_over g p es
  = flat_map (fun k => match contribution_of g p (edge_of k) with
                       | Some c => [c]
                       | None => []
                       end) (map edge_key es).
Proof.
  unfold contributions_over. induction es as [|e es IH]; [reflexivity|].
  cbn [flat_map map]. rewrite IH, (contribution_of_key g p e). reflexivity.
Qed.

Lemma link_eqb_eq (a b : link) : link_eqb a b = true <-> a = b.
Proof.
  destruct a as [[a1 a2] a3], b as [[b1 b2] b3]. unfold link_eqb. cbn [fst snd].
  rewrite !andb_true_iff, !value_eqb_eq. split.
  - intros [[-> ->] ->]. reflexivity.
  - intros E. injection E as -> -> ->. auto.
Qed.

Lemma existsb_link_in (k : link) (ks : list link) :
  existsb (link_eqb k) ks = true <-> In k ks.
Proof.
  rewrite existsb_exists. split.
  - intros (x & Hin & E). apply link_eqb_eq in E. subst. exact Hin.
  - intros Hin. exists k. split; [exact Hin|apply link_eqb_eq; reflexivity].
Qed.

Lemma existsb_link_filter (q : link -> bool) (k : link) (ks : list link) :
  q k = true ->
  existsb (link_eqb k) (filter q ks) = existsb (link_eqb k) ks.
Proof.
  intros Hq. apply eq_true_iff_eq. rewrite !existsb_link_in, filter_In. tauto.
Qed.

(** Selecting among the edges after the calls is selecting among the
    calls. *)
Lemma add_link_filter (q : link -> bool) (ks : list link) :
  forall acc,
    filter q (fold_left add_link ks acc)
    = fold_left add_link (filter q ks) (filter q acc).
Proof.
  induction ks as [|k ks IH]; intros acc; [reflexivity|].
  cbn [fold_left filter]. rewrite IH. unfold add_link at 2.
  destruct (q k) eqn:Hq.
  - cbn [fold_left]. f_equal. unfold add_link.
    rewrite (existsb_link_filter q k acc Hq).
    destruct (existsb (link_eqb k) acc); [reflexivity|].
    rewrite filter_app. cbn [filter]. rewrite Hq. reflexivity.
  - f_equal. destruct (existsb (link_eqb k) acc); [reflexivity|].
    rewrite filter_app. cbn [filter]. rewrite Hq. apply app_nil_r.
Qed.

Lemma add_link_distinct (ks : list link) :
  forall acc, NoDup (acc ++ ks) -> fold_left add_link ks acc = (acc ++ ks)%list.
Proof.
  induction ks as [|k ks IH]; intros acc Hnd; [symmetry; apply app_nil_r|].
  cbn [fold_left]. unfold add_link.
  assert (Hk : existsb (link_eqb k) acc = false).
  { destruct (existsb (link_eqb k) acc) eqn:E; [|reflexivity].
    apply existsb_link_in in E. apply NoDup_remove_2 in Hnd.
    exfalso. apply Hnd. apply in_or_app. left. exact E. }
  rewrite Hk, IH; rewrite <- app_assoc; [reflexivity|exact Hnd].
Qed.

Variable co : link -> option contribution.

Lemma filter_flat_map_option (tg : contribution -> bool) (ks : list link) :
  filter tg (flat_map (fun k => match co k with Some c => [c] | None => [] end) ks)
  = flat_map (fun k => match co k with Some c => [c] | None => [] end)
      (filter (fun k => match co k with Some c => tg c | None => false end) ks).
Proof.
  induction ks as [|k ks IH]; [reflexivity|].
  cbn [flat_map filter]. rewrite filter_app, IH.
  destruct (co k) as [c|] eqn:E; cbn [filter app]; [|reflexivity].
  destruct (tg c); cbn [flat_map app]; [rewrite E|]; reflexivity.
Qed.

Lemma link_of_distinct (l : list contribution) :
  Forall (fun c => co (link_of c) = Some c) l ->
  NoDup l -> NoDup (map link_of l).
Proof.
  induction l as [|c l IH]; intros Hco Hnd; [constructor|].
  inversion Hnd as [|? ? Hnotin Hnd']; subst.
  inversion Hco as [|? ? Hc Hco']; subst.
  cbn [map]. constructor; [|apply IH; assumption].
  intros Hin. apply in_map_iff in Hin as (d & E & Hd).
  assert (Hd' : co (link_of d) = Some d)
    by (rewrite Forall_forall in Hco'; apply Hco', Hd).
  rewrite E, Hc in Hd'. injection Hd' as ->. contradiction.
Qed.

Lemma flat_map_link_of (l : list contribution) :
  Forall (fun c => co (link_of c) = Some c) l ->
  flat_map (fun k => match co k with Some c => [c] | None => [] end)
    (map link_of l) = l.
Proof.
  induction 1 as [|c l Hc _ IH]; [reflexivity|].
  cbn [map flat_map]. rewrite Hc, IH. reflexivity.
Qed.

(** The relationships of the re-imported graph that bear on one property
    are those read off the document for it. *)
Lemma reproject_filter (tg : contribution -> bool) (cs : list contribution) :
  Forall (fun c => co (link_of c) = Some c) cs ->
  NoDup (filter tg cs) ->
  filter tg
    (flat_map (fun k => match co k with Some c => [c] | None => [] end)
       (fold_left add_link (map link_of cs) []))
  = filter tg cs.
Proof.
  intros Hco Hnd.
  rewrite filter_flat_map_option, add_link_filter. cbn [filter].
  assert (Hsel : filter (fun k => match co k with Some c => tg c | None => false end)
                   (map link_of cs)
                 = map link_of (filter tg cs)).
  { clear Hnd. induction Hco as [|c cs Hc _ IH]; [reflexivity|].
    cbn [map filter]. rewrite Hc, IH. destruct (tg c); reflexivity. }
  rewrite Hsel.
  assert (Hsub : Forall (fun c => co (link_of c) = Some c) (filter tg cs)).
  { apply Forall_forall. intros c Hc. apply filter_In in Hc as [Hc _].
    revert c Hc. apply Forall_forall, Hco. }
  rewrite add_link_distinct by (apply link_of_distinct; assumption).
  apply flat_map_link_of, Hsub.
Qed.

End ReprojectionFacts.

Section RelationFacts.
Import Graph GraphSpec ProvSpec.

Lemma in_types (ty : string) :
  In ty RELATIONSHIP_TYPES -> existsb (String.eqb ty) RELATIONSHIP_TYPES = true.
Proof.
  intros H. apply existsb_exists. exists ty. split; [exact H|apply String.eqb_refl].
Qed.

(** What an edge between nodes of the graph contributes. *)
Lemma contribution_relation (g : ResourceGraph) (edge : obj) (c : contribution) :
  edge_wellformed g edge ->
  contribution_of g (base_maps g) edge = Some c ->
  relation_of g c.
Proof.
  intros (s & t & ty & Hk & Hs & Ht & Hty). apply in_types in Hty.
  unfold edge_key in Hk. injection Hk as Hfrom Hto Htype.
  unfold contribution_of. rewrite Hfrom, Hto, Htype.
  change (match JMap.get (nodes g) s with
          | Some node => obj_get node "type"
          | None => VUndefined
          end) with (node_type g s).
  cbn [value_eqb].
  repeat match goal with
         | |- context [String.eqb ty ?x] =>
             destruct (String.eqb ty x) eqn:?; cbn [orb]
         end.
  all: repeat match goal with
              | |- context [if ?b then _ else _] => destruct b eqn:?
              end; try discriminate.
  all: intros E; injection E as <-.
  all: repeat match goal with
              | H : _ || _ = false |- _ => apply orb_false_iff in H as [? ?]
              end.
  all: try (constructor; assumption).
  constructor; try assumption.
  unfold handled. cbn [existsb].
  repeat match goal with H : String.eqb ty _ = false |- _ => rewrite H; clear H end.
  reflexivity.
Qed.

Lemma contributions_relation (g : ResourceGraph) (es : list obj) (c : contribution) :
  Forall (edge_wellformed g) es ->
  In c (contributions_over g (base_maps g) es) ->
  relation_of g c.
Proof.
  intros Hes Hin. apply in_flat_map in Hin as (e & He & Hc).
  rewrite Forall_forall in Hes.
  destruct (contribution_of g (base_maps g) e) as [c'|] eqn:E; [|contradiction].
  destruct Hc as [<-|[]]. eapply contribution_relation; [apply Hes, He|exact E].
Qed.

Lemma substring_all (s : string) : substring 0 (String.length s) s = s.
Proof. induction s as [|a s IH]; [reflexivity|]. cbn. rewrite IH. reflexivity. Qed.

Lemma substring_from_asset (ty : string) : substring_from 6 ("asset:" ++ ty) = ty.
Proof. unfold substring_from. cbn. rewrite Nat.sub_0_r. apply substring_all. Qed.

Lemma link_of_custom (s t : value) (ty : string) :
  link_of (mkContribution InEntity s ("asset:" ++ ty) true t) = (s, t, VStr ty).
Proof.
  unfold link_of.
  cbn [c_field c_subject c_payload append String.eqb Ascii.eqb Bool.eqb andb].
  change (String "a" (String "s" (String "s" (String "e" (String "t" (String ":" ty))))))
    with ("asset:" ++ ty).
  rewrite substring_from_asset. reflexivity.
Qed.

End RelationFacts.

Section RelationLinkFacts.
Import Graph GraphSpec ProvSpec.
Variable g : ResourceGraph.
Hypothesis keys_distinct : NoDup (map fst (nodes g)).

Lemma present_has_node (s : string) :
  missing (entity (base_maps g)) (VStr s) = false
  \/ missing (activity (base_maps g)) (VStr s) = false
  \/ missing (agent (base_maps g)) (VStr s) = false ->
  JMap.has (nodes g) s = true.
Proof.
  rewrite (has_node_base g s keys_distinct).
  intros [H|[H|H]]; apply missing_has in H; cbn [to_key] in H; rewrite H;
    rewrite ?orb_true_r; reflexivity.
Qed.

Lemma handled_false (ty : string) :
  handled ty = false ->
  String.eqb ty "wasDerivedFrom" = false /\ String.eqb ty "wasRevisionOf" = false
  /\ String.eqb ty "wasQuotedFrom" = false /\ String.eqb ty "wasInfluencedBy" = false
  /\ String.eqb ty "wasGeneratedBy" = false /\ String.eqb ty "used" = false
  /\ String.eqb ty "wasAttributedTo" = false
  /\ String.eqb ty "wasAssociatedWith" = false.
Proof.
  unfold handled. cbn [existsb]. rewrite !orb_false_iff. tauto.
Qed.

(** Each relationship of the document is imported as an edge that
    contributes that relationship. *)
Lemma relation_link (c : contribution) :
  relation_of g c ->
  contribution_of g (base_maps g) (edge_of (link_of c)) = Some c
  /\ link_ok (nodes g) (link_of c).
Proof.
  intros [s t Hs Ht|s t Hs Ht|s t Hs Ht|s t Hs Ht|s t Hs Ht|s t ty Hty Hh Hn Hs Ht].
  1-5: split;
    [unfold contribution_of; cbn; rewrite ?Hs, ?Ht; reflexivity
    |exists s, t; eexists; split; [reflexivity|];
     split; [|split; [|reflexivity]];
     first [assumption | apply present_has_node; tauto]].
  rewrite link_of_custom. split.
  - destruct (handled_false ty Hh) as (H1 & H2 & H3 & H4 & H5 & H6 & H7 & H8).
    unfold contribution_of, edge_of.
    cbn [fst snd obj_get String.eqb Ascii.eqb Bool.eqb andb value_eqb].
    rewrite H1, H2, H3, H4, H5, H6, H7, H8. cbn [orb].
    change (match JMap.get (nodes g) s with
            | Some node => obj_get node "type"
            | None => VUndefined
            end) with (node_type g s).
    rewrite Hn, Hs. reflexivity.
  - exists s, t, ty. split; [reflexivity|].
    split; [apply present_has_node; tauto|]. split; assumption.
Qed.

End RelationLinkFacts.

Section DistinctFacts.
Import Graph GraphSpec ProvSpec.
Variable g : ResourceGraph.

(** A pushed relationship identifies the edge it comes from: by its end
    points within the derivation family, by its identity otherwise. *)
Lemma contribution_edge (edge : obj) (c : contribution) :
  edge_wellformed g edge ->
  contribution_of g (base_maps g) edge = Some c ->
  c_push c = true ->
  (is_derivation edge = true /\ c_field c = "prov:wasDerivedFrom"
   /\ (obj_get edge "from", obj_get edge "to") = (c_payload c, c_subject c))
  \/ (is_derivation edge = false /\ c_field c <> "prov:wasDerivedFrom"
      /\ edge_key edge = link_of c).
Proof.
  intros (s & t & ty & Hk & Hs & Ht & Hty).
  unfold edge_key in Hk. injection Hk as Hfrom Hto Htype.
  unfold contribution_of, is_derivation, edge_key. rewrite Hfrom, Hto, Htype.
  cbn [value_eqb].
  repeat match goal with
         | |- context [String.eqb ty ?x] =>
             destruct (String.eqb ty x) eqn:?; cbn [orb]
         end.
  all: repeat match goal with
              | |- context [if ?b then _ else _] => destruct b eqn:?
              end; try discriminate.
  all: intros E; injection E as <-; cbn [c_push c_field c_payload c_subject];
    try discriminate; intros _.
  all: try (left; repeat split; reflexivity).
  - right. split; [reflexivity|]. split; [discriminate|].
    match goal with H : String.eqb ty "used" = true |- _ =>
      apply String.eqb_eq in H; subst ty end.
    reflexivity.
  - right. split; [reflexivity|]. split; [discriminate|].
    symmetry. exact (link_of_custom (VStr s) (VStr t) ty).
Qed.

Lemma push_contributions_distinct (es : list obj) :
  Forall (edge_wellformed g) es ->
  NoDup (map edge_key es) ->
  NoDup (map (fun edge => (obj_get edge "from", obj_get edge "to"))
           (filter is_derivation es)) ->
  NoDup (filter c_push (contributions_over g (base_maps g) es)).
Proof.
  induction es as [|e es IH]; intros Hwf Hkeys Hpairs; [constructor|].
  inversion Hwf as [|? ? He Hes]; subst.
  inversion Hkeys as [|? ? Hnew Hkeys']; subst.
  assert (Hpairs' : NoDup (map (fun edge => (obj_get edge "from", obj_get edge "to"))
                             (filter is_derivation es))).
  { cbn [filter] in Hpairs. destruct (is_derivation e); [|exact Hpairs].
    inversion Hpairs; assumption. }
  specialize (IH Hes Hkeys' Hpairs').
  unfold contributions_over in *. cbn [flat_map].
  destruct (contribution_of g (base_maps g) e) as [c|] eqn:Hc; [|exact IH].
  cbn [app filter]. destruct (c_push c) eqn:Hp; [|exact IH].
  constructor; [|exact IH].
  intros Hin. apply filter_In in Hin as [Hin _].
  apply in_flat_map in Hin as (e' & He' & Hc').
  destruct (contribution_of g (base_maps g) e') as [c'|] eqn:Hc''; [|contradiction].
  destruct Hc' as [->|[]].
  rewrite Forall_forall in Hes.
  destruct (contribution_edge e c He Hc Hp) as [(D1 & F1 & P1)|(D1 & F1 & K1)];
    destruct (contribution_edge e' c (Hes e' He') Hc'' Hp)
      as [(D2 & F2 & P2)|(D2 & F2 & K2)];
    try contradiction.
  - cbn [filter] in Hpairs. rewrite D1 in Hpairs. cbn [map] in Hpairs.
    inversion Hpairs as [|? ? Hn _]; subst. apply Hn.
    rewrite P1, <- P2.
    apply (in_map (fun edge => (obj_get edge "from", obj_get edge "to"))).
    apply filter_In. split; assumption.
  - apply Hnew. rewrite K1, <- K2. apply in_map, He'.
Qed.

End DistinctFacts.

Section ReadoffFacts.
Import Graph GraphSpec ProvSpec.

Lemma fold_pushed (cs : list contribution) :
  forall (c : contribution) (v : value),
    Forall (fun c => c_push c = true) (c :: cs) ->
    fold_left updated_value (c :: cs) v
    = VArr ((match v with VArr l => l | _ => [] end) ++ map c_payload (c :: cs)).
Proof.
  induction cs as [|d cs IH]; intros c v Hp.
  - inversion Hp as [|? ? Hc _]; subst. cbn. unfold updated_value. rewrite Hc.
    destruct v; reflexivity.
  - inversion Hp as [|? ? Hc Hp']; subst.
    change (fold_left updated_value (c :: d :: cs) v)
      with (fold_left updated_value (d :: cs) (updated_value v c)).
    rewrite (IH d _ Hp'). unfold updated_value at 1. rewrite Hc.
    cbn [map]. f_equal. destruct v; cbn [app]; rewrite <- ?app_assoc; reflexivity.
Qed.

Lemma last_cons_any {A : Type} (l : list A) :
  forall x d d', last (x :: l) d = last (x :: l) d'.
Proof.
  induction l as [|y l IH]; intros x d d'; [reflexivity|].
  change (last (y :: l) d = last (y :: l) d'). apply IH.
Qed.

Lemma last_in_cons {A : Type} (l : list A) :
  forall d, In (last l d) (d :: l).
Proof.
  induction l as [|a l IH]; intros d; [left; reflexivity|].
  destruct l as [|b l]; [right; left; reflexivity|].
  change (In (last (b :: l) d) (d :: a :: b :: l)).
  destruct (IH d) as [E|Hin]; [left; exact E|right; right; exact Hin].
Qed.

Lemma fold_assigned (cs : list contribution) :
  forall (c : contribution) (v : value),
    Forall (fun c => c_push c = false) (c :: cs) ->
    fold_left updated_value (c :: cs) v = c_payload (last cs c).
Proof.
  induction cs as [|d cs IH]; intros c v Hp.
  - inversion Hp as [|? ? Hc _]; subst. cbn. unfold updated_value. rewrite Hc.
    reflexivity.
  - inversion Hp as [|? ? Hc Hp']; subst.
    change (fold_left updated_value (c :: d :: cs) v)
      with (fold_left updated_value (d :: cs) (updated_value v c)).
    rewrite (IH d _ Hp'). f_equal.
    destruct cs as [|e cs]; [reflexivity|].
    change (last (e :: cs) d = last (e :: cs) c). apply last_cons_any.
Qed.

(** Folding what is left gives the same value. *)
Lemma fold_compress (cs : list contribution) (v : value) :
  (forall c d, In c cs -> In d cs -> c_push c = c_push d) ->
  fold_left updated_value (compress cs) v = fold_left updated_value cs v.
Proof.
  destruct cs as [|c cs]; [reflexivity|]. intros Hu. unfold compress.
  destruct (c_push c) eqn:Hc; [reflexivity|].
  assert (Hall : Forall (fun d => c_push d = false) (c :: cs)).
  { apply Forall_forall. intros d Hd. rewrite <- Hc. apply Hu; [exact Hd|left; reflexivity]. }
  rewrite (fold_assigned cs c v Hall).
  cbn [fold_left]. unfold updated_value.
  rewrite Forall_forall in Hall. rewrite (Hall _ (last_in_cons cs c)). reflexivity.
Qed.

Lemma compress_in (cs : list contribution) (c : contribution) :
  In c (compress cs) -> In c cs.
Proof.
  destruct cs as [|d cs]; [tauto|]. unfold compress.
  destruct (c_push d); [tauto|]. intros [<-|[]]. apply last_in_cons.
Qed.

Lemma compress_nil (cs : list contribution) :
  existsb (fun _ => true) (compress cs) = existsb (fun _ => true) cs.
Proof.
  destruct cs as [|c cs]; [reflexivity|]. unfold compress.
  destruct (c_push c); reflexivity.
Qed.

Lemma existsb_filter_any {A : Type} (p : A -> bool) (l : list A) :
  existsb p l = existsb (fun _ => true) (filter p l).
Proof.
  induction l as [|x l IH]; [reflexivity|]. cbn [existsb filter].
  destruct (p x); [reflexivity|exact IH].
Qed.

Lemma filter_none {A : Type} (p : A -> bool) (l : list A) :
  (forall x, In x l -> p x = false) -> filter p l = [].
Proof.
  induction l as [|x l IH]; intros H; [reflexivity|].
  cbn [filter]. rewrite (H x) by (left; reflexivity).
  apply IH. intros y Hy. apply H. right. exact Hy.
Qed.

Lemma filter_all {A : Type} (p : A -> bool) (l : list A) :
  (forall x, In x l -> p x = true) -> filter p l = l.
Proof.
  induction l as [|x l IH]; intros H; [reflexivity|].
  cbn [filter]. rewrite (H x) by (left; reflexivity).
  f_equal. apply IH. intros y Hy. apply H. right. exact Hy.
Qed.

(** Selecting the relationships of one subject among those read off a
    map. *)
Lemma filter_subject_other (s : slot) (k f : string)
    (R : string * value -> list contribution) (m : obj) :
  (forall entry c, In c (R entry) -> c_slot c <> s) ->
  filter (targets s k f) (flat_map R m) = [].
Proof.
  intros HR. apply filter_none. intros c Hc.
  apply in_flat_map in Hc as (entry & _ & Hc).
  apply targets_other_slot. eapply HR, Hc.
Qed.

Lemma filter_subject (s : slot) (k f : string)
    (R : string * value -> list contribution) (m : obj) :
  (forall entry c, In c (R entry) -> c_subject c = VStr (fst entry)) ->
  NoDup (obj_keys m) ->
  filter (targets s k f) (flat_map R m)
  = if obj_has m k then filter (targets s k f) (R (k, obj_get m k)) else [].
Proof.
  intros HR. induction m as [|[k' v] m IH]; intros Hnd; [reflexivity|].
  inversion Hnd as [|? ? Hnotin Hnd']; subst.
  cbn [flat_map obj_has obj_get]. rewrite filter_app, (IH Hnd').
  destruct (String.eqb_spec k' k) as [->|Hne].
  - destruct (obj_has m k) eqn:E; [|apply app_nil_r].
    apply obj_has_in in E. contradiction.
  - rewrite filter_none; [reflexivity|].
    intros c Hc. unfold targets. rewrite (HR _ _ Hc). cbn [fst to_key].
    apply String.eqb_neq in Hne. rewrite Hne. destruct s, (c_slot c); reflexivity.
Qed.

Lemma entity_readoff_subject (entry : string * value) (c : contribution) :
  In c (entity_readoff entry) ->
  c_slot c = InEntity /\ c_subject c = VStr (fst entry).
Proof.
  destruct entry as [did e]. unfold entity_readoff. rewrite !in_app_iff.
  intros [H|[H|[H|H]]].
  - destruct (truthy _); [|contradiction].
    apply in_map_iff in H as (x & <- & _). split; reflexivity.
  - destruct (truthy _); [|contradiction]. destruct H as [<-|[]]. split; reflexivity.
  - destruct (truthy _); [|contradiction]. destruct H as [<-|[]]. split; reflexivity.
  - apply in_flat_map in H as (kv & _ & H).
    destruct (startsWith _ _); [|contradiction].
    apply in_map_iff in H as (x & <- & _). split; reflexivity.
Qed.

Lemma activity_readoff_subject (entry : string * value) (c : contribution) :
  In c (activity_readoff entry) ->
  c_slot c = InActivity /\ c_subject c = VStr (fst entry).
Proof.
  destruct entry as [did e]. unfold activity_readoff. rewrite !in_app_iff.
  intros [H|H].
  - destruct (truthy _); [|contradiction].
    apply in_map_iff in H as (x & <- & _). split; reflexivity.
  - destruct (truthy _); [|contradiction]. destruct H as [<-|[]]. split; reflexivity.
Qed.

(** The relationships read off the document for one property are those
    read off the entry of its subject. *)
Lemma filter_readoff_entity (p : prov_maps) (k f : string) :
  NoDup (obj_keys (entity p)) ->
  filter (targets InEntity k f) (readoff p)
  = if obj_has (entity p) k
    then filter (targets InEntity k f) (entity_readoff (k, obj_get (entity p) k))
    else [].
Proof.
  intros Hnd. unfold readoff. rewrite filter_app.
  rewrite (filter_subject_other InEntity k f activity_readoff).
  - rewrite app_nil_r. apply filter_subject; [|exact Hnd].
    intros entry c Hc. apply (entity_readoff_subject entry c Hc).
  - intros entry c Hc. destruct (activity_readoff_subject entry c Hc) as [-> _].
    discriminate.
Qed.

Lemma filter_readoff_activity (p : prov_maps) (k f : string) :
  NoDup (obj_keys (activity p)) ->
  filter (targets InActivity k f) (readoff p)
  = if obj_has (activity p) k
    then filter (targets InActivity k f)
           (activity_readoff (k, obj_get (activity p) k))
    else [].
Proof.
  intros Hnd. unfold readoff. rewrite filter_app.
  rewrite (filter_subject_other InActivity k f entity_readoff).
  - cbn [app]. apply filter_subject; [|exact Hnd].
    intros entry c Hc. apply (activity_readoff_subject entry c Hc).
  - intros entry c Hc. destruct (entity_readoff_subject entry c Hc) as [-> _].
    discriminate.
Qed.

End ReadoffFacts.

Section FieldFacts.
Import Graph GraphSpec ProvSpec.

Lemma targets_made (s : slot) (k f f' : string) (p : bool) (x : value) :
  targets s k f (mkContribution s (VStr k) f' p x) = String.eqb f' f.
Proof.
  unfold targets. cbn [c_slot c_subject c_field to_key].
  rewrite String.eqb_refl. destruct s; reflexivity.
Qed.

Lemma filter_made (s : slot) (k f f' : string) (p : bool) (xs : list value) :
  filter (targets s k f) (map (mkContribution s (VStr k) f' p) xs)
  = if String.eqb f' f then map (mkContribution s (VStr k) f' p) xs else [].
Proof.
  destruct (String.eqb f' f) eqn:E.
  - apply filter_all. intros c Hc. apply in_map_iff in Hc as (x & <- & _).
    rewrite targets_made. exact E.
  - apply filter_none. intros c Hc. apply in_map_iff in Hc as (x & <- & _).
    rewrite targets_made. exact E.
Qed.

(** The custom relationships read off an object, for one property. *)
Lemma filter_custom (k f : string) (E : obj) :
  NoDup (obj_keys E) ->
  filter (targets InEntity k f)
    (flat_map (fun kv =>
                 if startsWith (fst kv) "asset:"
                 then map (mkContribution InEntity (VStr k) (fst kv) true)
                        (as_array (snd kv))
                 else []) E)
  = if startsWith f "asset:" && obj_has E f
    then map (mkContribution InEntity (VStr k) f true) (as_array (obj_get E f))
    else [].
Proof.
  induction E as [|[key v] E IH]; intros Hnd.
  - cbn. rewrite andb_false_r. reflexivity.
  - inversion Hnd as [|? ? Hnotin Hnd']; subst.
    cbn [flat_map fst snd obj_has obj_get]. rewrite filter_app, (IH Hnd').
    destruct (String.eqb_spec key f) as [->|Hne].
    + assert (Habs : obj_has E f = false).
      { destruct (obj_has E f) eqn:X; [|reflexivity].
        apply obj_has_in in X. contradiction. }
      rewrite Habs, andb_false_r, app_nil_r, andb_true_r.
      destruct (startsWith f "asset:"); [|reflexivity].
      rewrite filter_made, String.eqb_refl. reflexivity.
    + destruct (startsWith key "asset:"); [|reflexivity].
      rewrite filter_made. apply String.eqb_neq in Hne. rewrite Hne. reflexivity.
Qed.

Lemma map_made_payload (s : slot) (k f : string) (p : bool)
    (cs : list contribution) :
  (forall c, In c cs -> c = mkContribution s (VStr k) f p (c_payload c)) ->
  map (mkContribution s (VStr k) f p) (map c_payload cs) = cs.
Proof.
  induction cs as [|c cs IH]; intros H; [reflexivity|].
  cbn [map]. rewrite <- (H c) by (left; reflexivity).
  f_equal. apply IH. intros d Hd. apply H. right. exact Hd.
Qed.

(** An array property, read back. *)
Lemma readback_pushed (s : slot) (k f : string) (cs : list contribution) :
  (forall c, In c cs -> c = mkContribution s (VStr k) f true (c_payload c)) ->
  cs <> [] ->
  exists l,
    fold_left updated_value cs VUndefined = VArr l
    /\ map (mkContribution s (VStr k) f true) l = compress cs.
Proof.
  intros H Hne. destruct cs as [|c cs]; [contradiction|].
  assert (Hp : Forall (fun c => c_push c = true) (c :: cs)).
  { apply Forall_forall. intros d Hd. rewrite (H d Hd). reflexivity. }
  rewrite (fold_pushed cs c VUndefined Hp). eexists. split; [reflexivity|].
  cbn [app]. rewrite (map_made_payload s k f true (c :: cs) H).
  unfold compress. inversion Hp as [|? ? Hc _]; subst. rewrite Hc. reflexivity.
Qed.

(** An assigned property, read back. *)
Lemma readback_assigned (s : slot) (k f : string) (cs : list contribution) :
  (forall c, In c cs -> c = mkContribution s (VStr k) f false (c_payload c)) ->
  cs <> [] ->
  [mkContribution s (VStr k) f false (fold_left updated_value cs VUndefined)]
  = compress cs
  /\ (Forall (fun c => truthy (c_payload c) = true) cs ->
      truthy (fold_left updated_value cs VUndefined) = true).
Proof.
  intros H Hne. destruct cs as [|c cs]; [contradiction|].
  assert (Hp : Forall (fun c => c_push c = false) (c :: cs)).
  { apply Forall_forall. intros d Hd. rewrite (H d Hd). reflexivity. }
  rewrite (fold_assigned cs c VUndefined Hp).
  pose proof (last_in_cons cs c) as Hl. split.
  - rewrite <- (H _ Hl). unfold compress.
    inversion Hp as [|? ? Hc _]; subst. rewrite Hc. reflexivity.
  - intros Ht. rewrite Forall_forall in Ht. apply Ht, Hl.
Qed.

End FieldFacts.

Section EntityReadoff.
Import Graph GraphSpec ProvSpec.
Variable g : ResourceGraph.
Variable k : string.
Variables E0 E : obj.
Variable cs : list contribution.
Hypothesis keys_distinct : NoDup (map fst (nodes g)).
Hypothesis keys_nonempty : JMap.has (nodes g) "" = false.
Hypothesis relations : forall c, In c cs -> relation_of g c.
Hypothesis base_only : forall f, obj_has E0 f = true -> In f base_fields.
Hypothesis E_keys : NoDup (obj_keys E).

Lemma payload_truthy (c : contribution) :
  relation_of g c -> truthy (c_payload c) = true.
Proof.
  assert (Hnode : forall s, JMap.has (nodes g) s = true -> truthy (VStr s) = true).
  { intros s Hs. apply truthy_did. intros ->. congruence. }
  intros [s t Hs Ht|s t Hs Ht|s t Hs Ht|s t Hs Ht|s t Hs Ht|s t ty Hty Hh Hn Hs Ht];
    cbn [c_payload]; apply Hnode.
  all: try assumption.
  all: apply (present_has_node g keys_distinct); tauto.
Qed.

Lemma base_absent (f : string) :
  ~ In f base_fields -> obj_has E0 f = false /\ obj_get E0 f = VUndefined.
Proof.
  intros Hf. assert (H : obj_has E0 f = false).
  { destruct (obj_has E0 f) eqn:X; [|reflexivity]. elim Hf. apply base_only, X. }
  split; [exact H|apply obj_get_absent, H].
Qed.

Lemma asset_not_base (f : string) :
  startsWith f "asset:" = true -> ~ In f base_fields.
Proof.
  unfold startsWith. destruct f as [|a f]; [discriminate|]. cbn [prefix].
  destruct (ascii_dec "a" a) as [<-|]; [|discriminate].
  intros _ H. cbn in H. intuition discriminate.
Qed.

Lemma startsWith_asset (ty : string) : startsWith ("asset:" ++ ty) "asset:" = true.
Proof.
  unfold startsWith. apply prefix_correct. destruct ty; reflexivity.
Qed.

Section InEntity.
Hypothesis E_get :
  forall f, obj_get E f
            = fold_left updated_value (filter (targets InEntity k f) cs)
                (obj_get E0 f).
Hypothesis E_has :
  forall f, obj_has E f = obj_has E0 f || existsb (targets InEntity k f) cs.

(** The shape of the relationships written to a property of an entity. *)
Lemma entity_target_shape (f : string) (c : contribution) :
  In c (filter (targets InEntity k f) cs) ->
  (f = "prov:wasDerivedFrom" \/ startsWith f "asset:" = true)
  /\ c = mkContribution InEntity (VStr k) f true (c_payload c)
  \/ (f = "prov:wasGeneratedBy" \/ f = "prov:wasAttributedTo")
     /\ c = mkContribution InEntity (VStr k) f false (c_payload c).
Proof.
  intros Hc. apply filter_In in Hc as [Hin Ht].
  destruct (relations c Hin)
    as [s t Hs Hp|s t Hs Hp|s t Hs Hp|s t Hs Hp|s t Hs Hp|s t ty Hty Hh Hn Hs Hp];
    unfold targets in Ht; cbn [c_slot c_subject c_field c_payload to_key] in Ht;
    try discriminate;
    apply andb_true_iff in Ht as [Hk Hf];
    apply String.eqb_eq in Hk; apply String.eqb_eq in Hf; subst.
  - left. split; [left; reflexivity|reflexivity].
  - right. split; [left; reflexivity|reflexivity].
  - right. split; [right; reflexivity|reflexivity].
  - left. split; [right; apply startsWith_asset|reflexivity].
Qed.

Lemma filter_when (tg : contribution -> bool) (b : bool) (l : list contribution) :
  filter tg (if b then l else []) = if b then filter tg l else [].
Proof. destruct b; reflexivity. Qed.

Lemma entity_readoff_filter (f : string) :
  filter (targets InEntity k f) (entity_readoff (k, VObj E))
  = ((if String.eqb "prov:wasDerivedFrom" f
      then if truthy (obj_get E "prov:wasDerivedFrom")
           then map (mkContribution InEntity (VStr k) "prov:wasDerivedFrom" true)
                  (as_array (obj_get E "prov:wasDerivedFrom"))
           else []
      else [])
     ++ (if String.eqb "prov:wasGeneratedBy" f
         then if truthy (obj_get E "prov:wasGeneratedBy")
              then [mkContribution InEntity (VStr k) "prov:wasGeneratedBy" false
                      (obj_get E "prov:wasGeneratedBy")]
              else []
         else [])
     ++ (if String.eqb "prov:wasAttributedTo" f
         then if truthy (obj_get E "prov:wasAttributedTo")
              then [mkContribution InEntity (VStr k) "prov:wasAttributedTo" false
                      (obj_get E "prov:wasAttributedTo")]
              else []
         else [])
     ++ (if startsWith f "asset:" && obj_has E f
         then map (mkContribution InEntity (VStr k) f true) (as_array (obj_get E f))
         else []))%list.
Proof.
  unfold entity_readoff. cbn [get_prop entries].
  rewrite !filter_app, (filter_custom k f E E_keys), !filter_when, filter_made.
  cbn [filter]. rewrite !targets_made.
  repeat match goal with
         | |- context [String.eqb ?a f] => destruct (String.eqb a f)
         end;
    repeat match goal with
           | |- context [truthy ?a] => destruct (truthy a)
           end; reflexivity.
Qed.

Lemma entity_field_readoff (f : string) :
  filter (targets InEntity k f) (entity_readoff (k, VObj E))
  = compress (filter (targets InEntity k f) cs).
Proof.
  rewrite entity_readoff_filter.
  pose proof (entity_target_shape f) as Hshape.
  pose proof (E_get f) as Hget. pose proof (E_has f) as Hhas.
  rewrite existsb_filter_any in Hhas.
  assert (Htruthy : Forall (fun c => truthy (c_payload c) = true)
                      (filter (targets InEntity k f) cs)).
  { apply Forall_forall. intros c Hc. apply filter_In in Hc as [Hc _].
    apply payload_truthy, relations, Hc. }
  set (Cs := filter (targets InEntity k f) cs) in *.
  destruct (startsWith f "asset:") eqn:Ha.
  - destruct (asset_key_fields f Ha) as (H1 & H2 & H3 & _).
    rewrite (String.eqb_sym _ f), H1, (String.eqb_sym _ f), H2,
      (String.eqb_sym _ f), H3.
    cbn [app andb].
    destruct (base_absent f (asset_not_base f Ha)) as [Hb1 Hb2].
    rewrite Hb1 in Hhas. rewrite Hb2 in Hget. cbn [orb] in Hhas.
    assert (Hpush : forall c, In c Cs ->
                      c = mkContribution InEntity (VStr k) f true (c_payload c)).
    { intros c Hc. destruct (Hshape c Hc) as [[_ E1]|[[->| ->] _]];
        [exact E1|discriminate|discriminate]. }
    destruct Cs as [|c0 r] eqn:HCs.
    + rewrite Hhas. reflexivity.
    + rewrite Hhas. cbn [existsb].
      destruct (readback_pushed InEntity k f (c0 :: r) Hpush) as (l & Hl & Hm);
        [discriminate|].
      rewrite Hget, Hl. cbn [as_array]. exact Hm.
  - cbn [andb]. rewrite app_nil_r.
    destruct (String.eqb_spec "prov:wasDerivedFrom" f) as [<-|N1].
    + cbn [String.eqb Ascii.eqb Bool.eqb andb app]. rewrite app_nil_r.
      destruct (base_absent "prov:wasDerivedFrom") as [Hb1 Hb2];
        [cbn; intuition discriminate|].
      rewrite Hb2 in Hget.
      assert (Hpush : forall c, In c Cs ->
                        c = mkContribution InEntity (VStr k) "prov:wasDerivedFrom"
                              true (c_payload c)).
      { intros c Hc. destruct (Hshape c Hc) as [[_ E1]|[[X|X] _]];
          [exact E1|discriminate|discriminate]. }
      destruct Cs as [|c0 r] eqn:HCs.
      * rewrite Hget. reflexivity.
      * destruct (readback_pushed InEntity k _ (c0 :: r) Hpush) as (l & Hl & Hm);
          [discriminate|].
        rewrite Hget, Hl. cbn [truthy as_array]. exact Hm.
    + cbn [app].
      destruct (String.eqb_spec "prov:wasGeneratedBy" f) as [<-|N2].
      * cbn [String.eqb Ascii.eqb Bool.eqb andb app]. rewrite app_nil_r.
        destruct (base_absent "prov:wasGeneratedBy") as [Hb1 Hb2];
          [cbn; intuition discriminate|].
        rewrite Hb2 in Hget.
        assert (Hset : forall c, In c Cs ->
                         c = mkContribution InEntity (VStr k) "prov:wasGeneratedBy"
                               false (c_payload c)).
        { intros c Hc. destruct (Hshape c Hc) as [[[X|X] _]|[_ E1]];
            [discriminate|discriminate|exact E1]. }
        destruct Cs as [|c0 r] eqn:HCs.
        -- rewrite Hget. reflexivity.
        -- destruct (readback_assigned InEntity k _ (c0 :: r) Hset) as (Hm & Ht);
             [discriminate|].
           rewrite Hget, (Ht Htruthy). exact Hm.
      * cbn [app].
        destruct (String.eqb_spec "prov:wasAttributedTo" f) as [<-|N3].
        -- destruct (base_absent "prov:wasAttributedTo") as [Hb1 Hb2];
             [cbn; intuition discriminate|].
           rewrite Hb2 in Hget.
           assert (Hset : forall c, In c Cs ->
                            c = mkContribution InEntity (VStr k)
                                  "prov:wasAttributedTo" false (c_payload c)).
           { intros c Hc. destruct (Hshape c Hc) as [[[X|X] _]|[_ E1]];
               [discriminate|discriminate|exact E1]. }
           destruct Cs as [|c0 r] eqn:HCs.
           ++ rewrite Hget. reflexivity.
           ++ destruct (readback_assigned InEntity k _ (c0 :: r) Hset) as (Hm & Ht);
                [discriminate|].
              rewrite Hget, (Ht Htruthy). exact Hm.
        -- destruct Cs as [|c0 r] eqn:HCs; [reflexivity|].
           exfalso.
           destruct (Hshape c0 (or_introl eq_refl)) as [[[X|X] _]|[[X|X] _]];
             congruence.
Qed.

End InEntity.

Section InActivity.
Hypothesis E_get :
  forall f, obj_get E f
            = fold_left updated_value (filter (targets InActivity k f) cs)
                (obj_get E0 f).

(** The shape of the relationships written to a property of an activity. *)
Lemma activity_target_shape (f : string) (c : contribution) :
  In c (filter (targets InActivity k f) cs) ->
  f = "prov:used"
  /\ c = mkContribution InActivity (VStr k) f true (c_payload c)
  \/ f = "prov:wasAssociatedWith"
     /\ c = mkContribution InActivity (VStr k) f false (c_payload c).
Proof.
  intros Hc. apply filter_In in Hc as [Hin Ht].
  destruct (relations c Hin)
    as [s t Hs Hp|s t Hs Hp|s t Hs Hp|s t Hs Hp|s t Hs Hp|s t ty Hty Hh Hn Hs Hp];
    unfold targets in Ht; cbn [c_slot c_subject c_field c_payload to_key] in Ht;
    try discriminate;
    apply andb_true_iff in Ht as [Hk Hf];
    apply String.eqb_eq in Hk; apply String.eqb_eq in Hf; subst.
  - left. split; reflexivity.
  - right. split; reflexivity.
Qed.

Lemma activity_readoff_filter (f : string) :
  filter (targets InActivity k f) (activity_readoff (k, VObj E))
  = ((if String.eqb "prov:used" f
      then if truthy (obj_get E "prov:used")
           then map (mkContribution InActivity (VStr k) "prov:used" true)
                  (as_array (obj_get E "prov:used"))
           else []
      else [])
     ++ (if String.eqb "prov:wasAssociatedWith" f
         then if truthy (obj_get E "prov:wasAssociatedWith")
              then [mkContribution InActivity (VStr k) "prov:wasAssociatedWith"
                      false (obj_get E "prov:wasAssociatedWith")]
              else []
         else []))%list.
Proof.
  unfold activity_readoff. cbn [get_prop].
  rewrite !filter_app, !filter_when, filter_made.
  cbn [filter]. rewrite !targets_made.
  repeat match goal with
         | |- context [String.eqb ?a f] => destruct (String.eqb a f)
         end;
    repeat match goal with
           | |- context [truthy ?a] => destruct (truthy a)
           end; reflexivity.
Qed.

Lemma activity_field_readoff (f : string) :
  filter (targets InActivity k f) (activity_readoff (k, VObj E))
  = compress (filter (targets InActivity k f) cs).
Proof.
  rewrite activity_readoff_filter.
  pose proof (activity_target_shape f) as Hshape.
  pose proof (E_get f) as Hget.
  assert (Htruthy : Forall (fun c => truthy (c_payload c) = true)
                      (filter (targets InActivity k f) cs)).
  { apply Forall_forall. intros c Hc. apply filter_In in Hc as [Hc _].
    apply payload_truthy, relations, Hc. }
  set (Cs := filter (targets InActivity k f) cs) in *.
  destruct (String.eqb_spec "prov:used" f) as [<-|N1].
  - cbn [String.eqb Ascii.eqb Bool.eqb andb app]. rewrite app_nil_r.
    destruct (base_absent "prov:used") as [Hb1 Hb2]; [cbn; intuition discriminate|].
    rewrite Hb2 in Hget.
    assert (Hpush : forall c, In c Cs ->
                      c = mkContribution InActivity (VStr k) "prov:used" true
                            (c_payload c)).
    { intros c Hc. destruct (Hshape c Hc) as [[_ E1]|[X _]];
        [exact E1|discriminate]. }
    destruct Cs as [|c0 r] eqn:HCs.
    + rewrite Hget. reflexivity.
    + destruct (readback_pushed InActivity k _ (c0 :: r) Hpush) as (l & Hl & Hm);
        [discriminate|].
      rewrite Hget, Hl. cbn [truthy as_array]. exact Hm.
  - cbn [app].
    destruct (String.eqb_spec "prov:wasAssociatedWith" f) as [<-|N2].
    + destruct (base_absent "prov:wasAssociatedWith") as [Hb1 Hb2];
        [cbn; intuition discriminate|].
      rewrite Hb2 in Hget.
      assert (Hset : forall c, In c Cs ->
                       c = mkContribution InActivity (VStr k)
                             "prov:wasAssociatedWith" false (c_payload c)).
      { intros c Hc. destruct (Hshape c Hc) as [[X _]|[_ E1]];
          [discriminate|exact E1]. }
      destruct Cs as [|c0 r] eqn:HCs.
      * rewrite Hget. reflexivity.
      * destruct (readback_assigned InActivity k _ (c0 :: r) Hset) as (Hm & Ht);
          [discriminate|].
        rewrite Hget, (Ht Htruthy). exact Hm.
    + destruct Cs as [|c0 r] eqn:HCs; [reflexivity|].
      exfalso.
      destruct (Hshape c0 (or_introl eq_refl)) as [[X _]|[X _]]; congruence.
Qed.

End InActivity.
End EntityReadoff.

Section GrownFacts.
Import Graph GraphSpec ProvSpec.

Lemma grown_keys (Bl m : obj) : Forall2 grown Bl m -> obj_keys m = obj_keys Bl.
Proof.
  induction 1 as [|be pe Bl m (Hk & _) _ IH]; [reflexivity|].
  unfold obj_keys in *. cbn [map]. rewrite Hk, IH. reflexivity.
Qed.

Lemma obj_set_keys_distinct (o : obj) (k : string) (v : value) :
  NoDup (obj_keys o) -> NoDup (obj_keys (obj_set o k v)).
Proof.
  intros Hnd. rewrite obj_keys_set. destruct (obj_has o k) eqn:E; [exact Hnd|].
  apply NoDup_app; [exact Hnd|repeat constructor; simpl; tauto|].
  intros x Hx [<-|[]]. apply obj_has_in in Hx. congruence.
Qed.

(** Writing a relationship leaves what the first loop wrote. *)
Lemma grown_set_rel (Bl m : obj) (subject : value) (field : string) (x : value) :
  ~ In field base_fields ->
  Forall2 grown Bl m ->
  obj_has m (to_key subject) = true ->
  Forall2 grown Bl (set_rel m subject field x).
Proof.
  intros Hf. unfold set_rel. set (k := to_key subject).
  induction 1 as [|be [kp vp] Bl m Hg Hrest IH]; [discriminate|].
  cbn [obj_has obj_get obj_set].
  destruct (String.eqb kp k) eqn:Ek.
  - intros _. constructor; [|exact Hrest].
    destruct Hg as (Hk & E0 & E & Hb & Hp & Hnd & Hbase).
    cbn [fst snd] in *. subst vp.
    split; [exact Hk|]. exists E0, (obj_set E field x).
    split; [exact Hb|]. split; [reflexivity|].
    split; [apply obj_set_keys_distinct, Hnd|].
    intros f Hin. rewrite obj_get_set_other; [apply Hbase, Hin|].
    intros ->. contradiction.
  - intros Hhas. constructor; [exact Hg|apply IH, Hhas].
Qed.

Lemma grown_fold (s : slot) (Bl : obj) (cs : list contribution) :
  forall m,
    Forall2 grown Bl m ->
    Forall (fun c => c_slot c = s ->
                     obj_has Bl (to_key (c_subject c)) = true
                     /\ ~ In (c_field c) base_fields) cs ->
    Forall2 grown Bl (fold_left (apply_to s) cs m).
Proof.
  induction cs as [|c cs IH]; intros m Hg Hcs; [exact Hg|].
  inversion Hcs as [|? ? Hc Hrest]; subst. cbn [fold_left].
  apply IH; [|exact Hrest].
  unfold apply_to.
  destruct s, (c_slot c); try exact Hg;
    destruct (Hc eq_refl) as [Hhas Hfield];
    (apply grown_set_rel; [exact Hfield|exact Hg|]);
    rewrite (keys_has m Bl _ (grown_keys Bl m Hg)); exact Hhas.
Qed.

Lemma grown_lookup (Bl m : obj) (k : string) :
  Forall2 grown Bl m ->
  obj_has m k = true ->
  exists E, obj_get m k = VObj E /\ NoDup (obj_keys E).
Proof.
  induction 1 as [|be [kp vp] Bl m Hg _ IH]; [discriminate|].
  cbn [obj_has obj_get]. destruct (String.eqb kp k); [|exact IH].
  intros _. destruct Hg as (_ & E0 & E & _ & Hp & Hnd & _).
  cbn [snd] in Hp. subst vp. exists E. split; [reflexivity|exact Hnd].
Qed.

Lemma entry_of_base (c : category) (be : string * value) :
  entry_of c be ->
  exists E0,
    snd be = VObj E0 /\ NoDup (obj_keys E0)
    /\ (forall f, obj_has E0 f = true -> In f base_fields).
Proof.
  intros (_ & node & _ & Hcl). unfold classify in Hcl.
  destruct (is_type node ACTIVITY);
    [|destruct (is_type node AGENT || is_type node PERSON
                || is_type node ORGANIZATION || is_type node SOFTWARE)];
    injection Hcl as _ <-; eexists; (split; [reflexivity|]);
    (split;
     [cbn [obj_keys map fst];
      repeat (constructor; [cbn [In]; intuition discriminate|]); constructor
     |intros f; cbn [obj_has base_fields In];
      repeat match goal with
             | |- context [String.eqb ?a f] =>
                 destruct (String.eqb_spec a f); [tauto|]
             end; discriminate]).
Qed.

Lemma grown_refl (c : category) (Bl : obj) :
  Forall (entry_of c) Bl -> Forall2 grown Bl Bl.
Proof.
  induction 1 as [|be Bl Hbe _ IH]; constructor; [|exact IH].
  destruct (entry_of_base c be Hbe) as (E0 & Hb & Hnd & _).
  split; [reflexivity|]. exists E0, E0. auto.
Qed.

Lemma base_lookup (c : category) (Bl : obj) (k : string) :
  Forall (entry_of c) Bl ->
  obj_has Bl k = true ->
  exists E0, obj_get Bl k = VObj E0
             /\ (forall f, obj_has E0 f = true -> In f base_fields).
Proof.
  induction 1 as [|[kb vb] Bl Hbe _ IH]; [discriminate|].
  cbn [obj_has obj_get]. destruct (String.eqb kb k); [|exact IH].
  intros _. destruct (entry_of_base c _ Hbe) as (E0 & Hb & _ & Hbase).
  cbn [snd] in Hb. subst vb. exists E0. auto.
Qed.

End GrownFacts.

Section FaithfulFacts.
Import Graph GraphSpec ProvSpec.
Variable g : ResourceGraph.
Hypothesis faithful : prov_faithful g.

Lemma base_entries (c : category) :
  Forall (entry_of c) (of_category c (nodes g)).
Proof.
  apply Forall_forall. intros [k v] Hin. unfold of_category in Hin.
  apply in_flat_map in Hin as ([k' n] & Hn & Hin). cbn [fst snd] in Hin.
  destruct (category_eqb c (fst (classify k' n))) eqn:Ec; [|contradiction].
  destruct Hin as [E|[]]. injection E as <- <-.
  apply category_eqb_eq in Ec. split; cbn [fst snd].
  - intros ->. pose proof (pf_nonempty g faithful) as H.
    assert (JMap.has (nodes g) "" = true)
      by (apply jmap_has_in, in_map_iff; exists ("", n); auto).
    congruence.
  - exists n. split.
    + pose proof (pf_nodes g faithful) as H. rewrite Forall_forall in H.
      apply (H _ Hn).
    + rewrite Ec. destruct (classify k' n); reflexivity.
Qed.

Lemma base_keys_distinct :
  NoDup (obj_keys (of_category CEntity (nodes g))
         ++ obj_keys (of_category CActivity (nodes g))
         ++ obj_keys (of_category CAgent (nodes g))).
Proof.
  eapply Permutation_NoDup; [apply of_category_perm|apply (pf_keys g faithful)].
Qed.

Lemma relations_all (c : contribution) :
  In c (contributions g) -> relation_of g c.
Proof. apply contributions_relation, (pf_edges g faithful). Qed.

Lemma relation_subject (c : contribution) :
  relation_of g c ->
  missing (slot_map (c_slot c) (base_maps g)) (c_subject c) = false.
Proof. intros []; assumption. Qed.

Lemma relation_field (c : contribution) :
  relation_of g c -> ~ In (c_field c) base_fields.
Proof.
  intros [s t Hs Ht|s t Hs Ht|s t Hs Ht|s t Hs Ht|s t Hs Ht|s t ty Hty Hh Hn Hs Ht];
    cbn [c_field]; cbn; intuition discriminate.
Qed.

Lemma final_entity :
  entity (final_maps g)
  = fold_left (apply_to InEntity) (contributions g) (entity (base_maps g)).
Proof. rewrite final_maps_contributions, fold_apply_slots. reflexivity. Qed.

Lemma final_activity :
  activity (final_maps g)
  = fold_left (apply_to InActivity) (contributions g) (activity (base_maps g)).
Proof. rewrite final_maps_contributions, fold_apply_slots. reflexivity. Qed.

Lemma final_agent : agent (final_maps g) = agent (base_maps g).
Proof. rewrite final_maps_contributions, fold_apply_slots. reflexivity. Qed.

Lemma contributions_grow (s : slot) :
  Forall (fun c => c_slot c = s ->
                   obj_has (slot_map s (base_maps g)) (to_key (c_subject c)) = true
                   /\ ~ In (c_field c) base_fields) (contributions g).
Proof.
  apply Forall_forall. intros c Hc Hs. pose proof (relations_all c Hc) as Hr.
  split; [|apply relation_field, Hr].
  apply missing_has. rewrite <- Hs. apply relation_subject, Hr.
Qed.

Lemma final_entity_grown :
  Forall2 grown (entity (base_maps g)) (entity (final_maps g)).
Proof.
  rewrite final_entity. apply grown_fold.
  - apply (grown_refl CEntity). rewrite (base_maps_closed g (pf_keys g faithful)).
    apply base_entries.
  - apply (contributions_grow InEntity).
Qed.

Lemma final_activity_grown :
  Forall2 grown (activity (base_maps g)) (activity (final_maps g)).
Proof.
  rewrite final_activity. apply grown_fold.
  - apply (grown_refl CActivity). rewrite (base_maps_closed g (pf_keys g faithful)).
    apply base_entries.
  - apply (contributions_grow InActivity).
Qed.

Lemma final_agent_grown :
  Forall2 grown (agent (base_maps g)) (agent (final_maps g)).
Proof.
  rewrite final_agent. apply (grown_refl CAgent).
  rewrite (base_maps_closed g (pf_keys g faithful)). apply base_entries.
Qed.

End FaithfulFacts.

Section FaithfulReadoff.
Import Graph GraphSpec ProvSpec.
Variable g : ResourceGraph.
Hypothesis faithful : prov_faithful g.

Lemma relation_push (c d : contribution) :
  relation_of g c -> relation_of g d ->
  c_field c = c_field d -> c_push c = c_push d.
Proof.
  intros [] []; cbn [c_field c_push]; intros E; try reflexivity;
    cbn in E; discriminate.
Qed.

Lemma target_field (s : slot) (k f : string) (c : contribution) :
  targets s k f c = true ->
  c_slot c = s /\ to_key (c_subject c) = k /\ c_field c = f.
Proof.
  unfold targets. destruct s, (c_slot c); try discriminate;
    intros H; apply andb_true_iff in H as [H1 H2];
    apply String.eqb_eq in H1; apply String.eqb_eq in H2; auto.
Qed.

Lemma target_uniform (s : slot) (k f : string) (c d : contribution) :
  In c (filter (targets s k f) (contributions g)) ->
  In d (filter (targets s k f) (contributions g)) ->
  c_push c = c_push d.
Proof.
  intros Hc Hd. apply filter_In in Hc as [Hc Tc]. apply filter_In in Hd as [Hd Td].
  apply relation_push; try (apply (relations_all g faithful); assumption).
  destruct (target_field _ _ _ _ Tc) as (_ & _ & ->).
  destruct (target_field _ _ _ _ Td) as (_ & _ & ->). reflexivity.
Qed.

Lemma final_keys_entity :
  obj_keys (entity (final_maps g)) = obj_keys (entity (base_maps g)).
Proof. apply grown_keys, final_entity_grown, faithful. Qed.

Lemma final_keys_activity :
  obj_keys (activity (final_maps g)) = obj_keys (activity (base_maps g)).
Proof. apply grown_keys, final_activity_grown, faithful. Qed.

Lemma base_keys_entity : NoDup (obj_keys (entity (base_maps g))).
Proof.
  pose proof (base_keys_distinct g faithful) as H.
  rewrite (base_maps_closed g (pf_keys g faithful)). cbn [entity].
  apply NoDup_app_remove_r in H. exact H.
Qed.

Lemma base_keys_activity : NoDup (obj_keys (activity (base_maps g))).
Proof.
  pose proof (base_keys_distinct g faithful) as H.
  rewrite (base_maps_closed g (pf_keys g faithful)). cbn [activity].
  apply NoDup_app_remove_l, NoDup_app_remove_r in H. exact H.
Qed.

Lemma absent_subject (s : slot) (k f : string) :
  obj_has (slot_map s (base_maps g)) k = false ->
  filter (targets s k f) (contributions g) = [].
Proof.
  intros Habs. apply filter_none. intros c Hc.
  destruct (targets s k f c) eqn:T; [|reflexivity].
  destruct (target_field _ _ _ _ T) as (Hs & Hk & _).
  pose proof (relation_subject g c (relations_all g faithful c Hc)) as Hm.
  apply missing_has in Hm. rewrite Hs, Hk in Hm. congruence.
Qed.

(** What [fromPROV] reads off the document for a property is what is
    left of the relationships [toPROV] wrote to it. *)
Lemma readoff_target (s : slot) (k f : string) :
  filter (targets s k f) (readoff (final_maps g))
  = compress (filter (targets s k f) (contributions g)).
Proof.
  destruct s.
  - rewrite filter_readoff_entity
      by (rewrite final_keys_entity; apply base_keys_entity).
    rewrite (keys_has _ _ k final_keys_entity).
    destruct (obj_has (entity (base_maps g)) k) eqn:Hk.
    + destruct (base_lookup CEntity (entity (base_maps g)) k) as (E0 & HE0 & Hbase);
        [rewrite (base_maps_closed g (pf_keys g faithful));
         apply base_entries, faithful|exact Hk|].
      destruct (fold_apply_lookup InEntity (contributions g) _ k E0 HE0)
        as (E & HE & Hget & Hhas).
      destruct (grown_lookup _ _ k (final_entity_grown g faithful)) as (E' & HE' & Hnd);
        [rewrite (keys_has _ _ k final_keys_entity); exact Hk|].
      rewrite <- final_entity in HE. rewrite HE in HE'. injection HE' as <-.
      rewrite HE.
      apply (entity_field_readoff g k E0 E (contributions g));
        try assumption;
        [apply (pf_keys g faithful)|apply (pf_nonempty g faithful)
        |apply (relations_all g faithful)].
    + rewrite (absent_subject InEntity k f Hk). reflexivity.
  - rewrite filter_readoff_activity
      by (rewrite final_keys_activity; apply base_keys_activity).
    rewrite (keys_has _ _ k final_keys_activity).
    destruct (obj_has (activity (base_maps g)) k) eqn:Hk.
    + destruct (base_lookup CActivity (activity (base_maps g)) k)
        as (E0 & HE0 & Hbase);
        [rewrite (base_maps_closed g (pf_keys g faithful));
         apply base_entries, faithful|exact Hk|].
      destruct (fold_apply_lookup InActivity (contributions g) _ k E0 HE0)
        as (E & HE & Hget & Hhas).
      rewrite <- final_activity in HE. rewrite HE.
      apply (activity_field_readoff g k E0 E (contributions g));
        try assumption;
        [apply (pf_keys g faithful)|apply (pf_nonempty g faithful)
        |apply (relations_all g faithful)].
    + rewrite (absent_subject InActivity k f Hk). reflexivity.
Qed.

Lemma readoff_relations (c : contribution) :
  In c (readoff (final_maps g)) -> relation_of g c.
Proof.
  intros Hc. apply (relations_all g faithful).
  assert (H : In c (filter (targets (c_slot c) (to_key (c_subject c)) (c_field c))
                      (contributions g))).
  { apply compress_in. rewrite <- readoff_target.
    apply filter_In. split; [exact Hc|].
    unfold targets. rewrite !String.eqb_refl. destruct (c_slot c); reflexivity. }
  apply filter_In in H as [H _]. exact H.
Qed.

Lemma filter_within {A : Type} (p q : A -> bool) (l : list A) :
  (forall x, In x l -> p x = true -> q x = true) ->
  filter p l = filter p (filter q l).
Proof.
  induction l as [|x l IH]; intros H; [reflexivity|].
  cbn [filter]. destruct (p x) eqn:Px.
  - rewrite (H x (or_introl eq_refl) Px). cbn [filter]. rewrite Px.
    f_equal. apply IH. intros y Hy. apply H. right. exact Hy.
  - destruct (q x); cbn [filter]; rewrite ?Px;
      apply IH; intros y Hy; apply H; right; exact Hy.
Qed.

Lemma readoff_distinct (s : slot) (k f : string) :
  NoDup (filter (targets s k f) (readoff (final_maps g))).
Proof.
  rewrite readoff_target.
  pose proof (target_uniform s k f) as Hu.
  destruct (filter (targets s k f) (contributions g)) as [|c r] eqn:E;
    [constructor|].
  unfold compress. destruct (c_push c) eqn:Hc; [|repeat constructor; simpl; tauto].
  rewrite <- E.
  rewrite (filter_within (targets s k f) c_push).
  - apply NoDup_filter.
    apply push_contributions_distinct;
      [apply (pf_edges g faithful)|apply (pf_unique g faithful)
      |apply (pf_derivations g faithful)].
  - intros x Hx Tx. rewrite <- Hc. apply Hu.
    + rewrite <- E. apply filter_In. split; assumption.
    + left. reflexivity.
Qed.


End FaithfulReadoff.

Section ImportFacts.
Import Graph GraphSpec ProvSpec.
Variable clock : nat -> string.

Lemma fromPROV_document (p : prov_maps) :
  fromPROV clock (prov_document p)
  = option_map fst
      (fold_left (import_activity_relations clock) (activity p)
         (fold_left (import_entity_relations clock) (entity p)
            (fold_left (import_agent clock) (agent p)
               (fold_left (import_activity clock) (activity p)
                  (fold_left (import_entity clock) (entity p)
                     (Some (empty, 0%nat))))))).
Proof. reflexivity. Qed.

Lemma project_final (g : ResourceGraph) : project g = prov_document (final_maps g).
Proof. reflexivity. Qed.

Lemma imported_category (c : category) (Bl : obj) (Nl : list (string * obj)) :
  Forall2 (imported c) Bl Nl ->
  of_category c Nl = Bl
  /\ (forall c', c' <> c -> of_category c' Nl = [])
  /\ map fst Nl = obj_keys Bl.
Proof.
  induction 1 as [|[kb vb] [kn n] Bl Nl (Hk & Hc) _ (IH1 & IH2 & IH3)].
  - repeat split.
  - cbn [fst snd] in Hk, Hc. subst kn. unfold of_category in *.
    cbn [flat_map fst snd map obj_keys]. rewrite Hc. cbn [fst snd].
    split; [|split].
    + assert (E : category_eqb c c = true) by (apply category_eqb_eq; reflexivity).
      rewrite E, IH1. reflexivity.
    + intros c' Hne. rewrite (IH2 c' Hne).
      destruct (category_eqb c' c) eqn:E; [|reflexivity].
      apply category_eqb_eq in E. contradiction.
    + unfold obj_keys in IH3. rewrite IH3. reflexivity.
Qed.

End ImportFacts.

Section ImportFaithful.
Import Graph GraphSpec ProvSpec.
Variable clock : nat -> string.
Variable g : ResourceGraph.
Hypothesis faithful : prov_faithful g.

(** The three node loops of [fromPROV] on the document of [g]. *)
Lemma import_nodes :
  exists g3 n3,
    fold_left (import_agent clock) (agent (final_maps g))
      (fold_left (import_activity clock) (activity (final_maps g))
         (fold_left (import_entity clock) (entity (final_maps g))
            (Some (empty, 0%nat))))
    = Some (g3, n3)
    /\ edges g3 = [] /\ provData g3 = VNull
    /\ NoDup (map fst (nodes g3))
    /\ base_maps g3 = base_maps g.
Proof.
  pose proof (pf_keys g faithful) as Hkeys.
  pose proof (base_keys_distinct g faithful) as Hnd.
  pose proof (base_maps_closed g Hkeys) as HB.
  assert (HE : entity (base_maps g) = of_category CEntity (nodes g))
    by (rewrite HB; reflexivity).
  assert (HA : activity (base_maps g) = of_category CActivity (nodes g))
    by (rewrite HB; reflexivity).
  assert (HG : agent (base_maps g) = of_category CAgent (nodes g))
    by (rewrite HB; reflexivity).
  rewrite <- HE, <- HA, <- HG in Hnd.
  destruct (import_loop (import_entity clock) CEntity (import_entity_step clock)
              (entity (base_maps g)) (entity (final_maps g)) empty 0%nat)
    as (g1 & n1 & Ne & S1 & N1 & E1 & P1 & I1).
  { apply final_entity_grown, faithful. }
  { rewrite HE. apply base_entries, faithful. }
  { apply NoDup_app_remove_r in Hnd. exact Hnd. }
  { reflexivity. }
  destruct (imported_category _ _ _ I1) as (C1 & O1 & K1).
  cbn [nodes empty app] in N1.
  destruct (import_loop (import_activity clock) CActivity (import_activity_step clock)
              (activity (base_maps g)) (activity (final_maps g)) g1 n1)
    as (g2 & n2 & Na & S2 & N2 & E2 & P2 & I2).
  { apply final_activity_grown, faithful. }
  { rewrite HA. apply base_entries, faithful. }
  { apply NoDup_app_remove_l, NoDup_app_remove_r in Hnd. exact Hnd. }
  { intros k Hk. destruct (JMap.has (nodes g1) k) eqn:X; [|reflexivity].
    apply jmap_has_in in X. rewrite N1, K1 in X.
    rewrite app_assoc in Hnd. apply NoDup_app_remove_r in Hnd.
    exfalso. revert X Hk. clear - Hnd.
    induction (obj_keys (entity (base_maps g))) as [|x l IH]; [tauto|].
    cbn [app] in Hnd. inversion Hnd as [|? ? Hx Hl]; subst.
    intros [->|X] Hk; [apply Hx, in_or_app; right; exact Hk|apply IH; assumption]. }
  destruct (imported_category _ _ _ I2) as (C2 & O2 & K2).
  destruct (import_loop (import_agent clock) CAgent (import_agent_step clock)
              (agent (base_maps g)) (agent (final_maps g)) g2 n2)
    as (g3 & n3 & Ng & S3 & N3 & E3 & P3 & I3).
  { apply final_agent_grown, faithful. }
  { rewrite HG. apply base_entries, faithful. }
  { apply NoDup_app_remove_l, NoDup_app_remove_l in Hnd. exact Hnd. }
  { intros k Hk. destruct (JMap.has (nodes g2) k) eqn:X; [|reflexivity].
    apply jmap_has_in in X. rewrite N2, N1, map_app, K1, K2 in X.
    rewrite app_assoc in Hnd.
    exfalso. revert X Hk. clear - Hnd.
    induction (obj_keys (entity (base_maps g)) ++ obj_keys (activity (base_maps g)))%list
      as [|x l IH]; [tauto|].
    cbn [app] in Hnd. inversion Hnd as [|? ? Hx Hl]; subst.
    intros [->|X] Hk; [apply Hx, in_or_app; right; exact Hk|apply IH; assumption]. }
  destruct (imported_category _ _ _ I3) as (C3 & O3 & K3).
  exists g3, n3. rewrite S1, S2. split; [exact S3|].
  split; [rewrite E3, E2, E1; reflexivity|].
  split; [rewrite P3, P2, P1; reflexivity|].
  assert (Hn : nodes g3 = (Ne ++ Na ++ Ng)%list)
    by (rewrite N3, N2, N1, <- app_assoc; reflexivity).
  assert (Hd : NoDup (map fst (nodes g3)))
    by (rewrite Hn, !map_app, K1, K2, K3; exact Hnd).
  split; [exact Hd|].
  rewrite (base_maps_closed g3 Hd), Hn, !of_category_app.
  rewrite C1, C2, C3.
  rewrite (O1 CActivity), (O1 CAgent), (O2 CEntity), (O2 CAgent),
    (O3 CEntity), (O3 CActivity) by discriminate.
  cbn [app]. rewrite !app_nil_r. destruct (base_maps g); reflexivity.
Qed.

End ImportFaithful.

Section RoundTrip.
Import Graph GraphSpec ProvSpec CanonicalSpec.
Variable clock : nat -> string.
Variable g : ResourceGraph.
Hypothesis faithful : prov_faithful g.

(** [fromPROV] on the document of [g]: a graph with the same maps after
    the first loop of [toPROV], and an edge for each relationship read off
    the document. *)
Lemma import_graph :
  exists g',
    fromPROV clock (project g) = Some g'
    /\ provData g' = VNull
    /\ NoDup (map fst (nodes g'))
    /\ base_maps g' = base_maps g
    /\ map edge_key (edges g')
       = fold_left add_link (map link_of (readoff (final_maps g))) [].
Proof.
  destruct (import_nodes clock g faithful) as (g3 & n3 & S3 & E3 & P3 & D3 & B3).
  destruct (import_relations_run clock (final_maps g) g3 n3)
    as (g' & n' & S' & N' & P' & K').
  { apply Forall_forall. intros l Hl. apply in_map_iff in Hl as (c & <- & Hc).
    pose proof (readoff_relations g faithful c Hc) as Hr.
    destruct (relation_link g (pf_keys g faithful) c Hr) as [_ (s & t & ty & E & Hs & Ht & Hty)].
    exists s, t, ty. split; [exact E|].
    rewrite !(has_node_base g3) by exact D3. rewrite B3.
    rewrite <- !(has_node_base g) by apply (pf_keys g faithful). auto. }
  exists g'. rewrite project_final, fromPROV_document, S3, S'.
  split; [reflexivity|]. split; [congruence|]. split; [rewrite N'; exact D3|].
  split; [unfold base_maps in *; rewrite N'; exact B3|].
  rewrite K', E3. reflexivity.
Qed.

Lemma contributions_present (h : ResourceGraph) (s : slot) :
  Forall (fun c => c_slot c = s ->
                   obj_has (slot_map s (base_maps h)) (to_key (c_subject c)) = true)
    (contributions h).
Proof.
  apply Forall_forall. intros c Hc Hs.
  apply in_flat_map in Hc as (e & _ & Hc).
  destruct (contribution_of h (base_maps h) e) as [c'|] eqn:E; [|contradiction].
  destruct Hc as [<-|[]]. apply missing_has. rewrite <- Hs.
  eapply contribution_subject_present, E.
Qed.

Lemma final_slot (h : ResourceGraph) (s : slot) :
  slot_map s (final_maps h)
  = fold_left (apply_to s) (contributions h) (slot_map s (base_maps h)).
Proof.
  rewrite final_maps_contributions, fold_apply_slots. destruct s; reflexivity.
Qed.

Lemma final_slot_keys (h : ResourceGraph) (s : slot) :
  obj_keys (slot_map s (final_maps h)) = obj_keys (slot_map s (base_maps h)).
Proof. rewrite final_slot. apply fold_apply_keys, contributions_present. Qed.

Variable g' : ResourceGraph.
Hypothesis keys' : NoDup (map fst (nodes g')).
Hypothesis base' : base_maps g' = base_maps g.
Hypothesis edges' :
  map edge_key (edges g')
  = fold_left add_link (map link_of (readoff (final_maps g))) [].

(** The relationships the re-imported graph writes to a property. *)
Lemma reproject_target (s : slot) (k f : string) :
  filter (targets s k f) (contributions g')
  = compress (filter (targets s k f) (contributions g)).
Proof.
  unfold contributions at 1. rewrite base'.
  assert (E : contributions_over g' (base_maps g) (edges g')
              = contributions_over g (base_maps g) (edges g')).
  { unfold contributions_over. apply flat_map_ext. intros e.
    rewrite (contribution_of_base g' g); auto. apply (pf_keys g faithful). }
  rewrite E, contributions_over_keys, edges'.
  rewrite (reproject_filter
             (fun l => contribution_of g (base_maps g) (edge_of l))).
  - apply readoff_target, faithful.
  - apply Forall_forall. intros c Hc.
    apply (relation_link g (pf_keys g faithful)), readoff_relations; assumption.
  - apply readoff_distinct, faithful.
Qed.

Lemma slot_same_props (s : slot) :
  same_props (VObj (slot_map s (final_maps g'))) (VObj (slot_map s (final_maps g))).
Proof.
  pose proof (final_slot_keys g' s) as K'. rewrite base' in K'.
  pose proof (final_slot_keys g s) as K.
  constructor; intros k.
  - rewrite (keys_has _ _ k K'), (keys_has _ _ k K). reflexivity.
  - destruct (obj_has (slot_map s (base_maps g)) k) eqn:Hk.
    + assert (HB : exists E0, obj_get (slot_map s (base_maps g)) k = VObj E0).
      { pose proof (base_maps_closed g (pf_keys g faithful)) as HB.
        destruct s; cbn [slot_map] in *.
        - destruct (base_lookup CEntity (entity (base_maps g)) k)
            as (E0 & H0 & _); [|exact Hk|eauto].
          rewrite HB. apply base_entries, faithful.
        - destruct (base_lookup CActivity (activity (base_maps g)) k)
            as (E0 & H0 & _); [|exact Hk|eauto].
          rewrite HB. apply base_entries, faithful. }
      destruct HB as (E0 & HE0).
      destruct (fold_apply_lookup s (contributions g) _ k E0 HE0)
        as (E & HE & Hget & Hhas).
      destruct (fold_apply_lookup s (contributions g') _ k E0 HE0)
        as (E' & HE' & Hget' & Hhas').
      rewrite <- final_slot in HE. rewrite <- base', <- final_slot in HE'.
      rewrite HE, HE'. constructor; intros f.
      * rewrite Hhas, Hhas'.
        rewrite (existsb_filter_any (targets s k f) (contributions g)),
          (existsb_filter_any (targets s k f) (contributions g')).
        rewrite reproject_target, compress_nil. reflexivity.
      * rewrite Hget, Hget', reproject_target, fold_compress;
          [apply same_props_refl|apply target_uniform, faithful].
    + rewrite !obj_get_absent; [constructor| |].
      * rewrite (keys_has _ _ k K). exact Hk.
      * rewrite (keys_has _ _ k K'). exact Hk.
Qed.

(** The re-imported graph projects to the same document, read property
    by property. *)
Lemma reproject_same_props : same_props (project g') (project g).
Proof.
  rewrite !project_final. unfold prov_document.
  pose proof (slot_same_props InEntity) as HE.
  pose proof (slot_same_props InActivity) as HA.
  cbn [slot_map] in HE, HA.
  assert (HG : agent (final_maps g') = agent (final_maps g)).
  { rewrite !final_maps_contributions, !fold_apply_slots. cbn [agent].
    rewrite base'. reflexivity. }
  rewrite HG.
  constructor; intros k; [reflexivity|].
  cbn [obj_get].
  repeat match goal with
         | |- context [String.eqb ?a k] => destruct (String.eqb a k)
         end; try assumption; apply same_props_refl.
Qed.

End RoundTrip.

(* ================================================================== *)
(** * C4: the PROV round trip *)
(* ================================================================== *)

(** C4 (as amended).  For a graph that the PROV document represents in
    full ([prov_faithful]: distinct non-empty identifiers, none of them
    [__proto__], nodes with a type and timestamps, edges between nodes of
    the graph with distinct identities, and at most one edge of the
    derivation family for an ordered pair of nodes) and whose cached
    document is not in use,
    [fromPROV] succeeds on the document [toPROV] returns, the graph it
    builds has the same identifiers, and that graph projects to a document
    with the same properties at every level. *)
Theorem C4_prov_roundtrip_faithful (clock : nat -> string)
    (g : Graph.ResourceGraph) :
  GraphSpec.prov_faithful g ->
  negb (Graph.modified g) && truthy (Graph.provData g) = false ->
  exists g',
    Graph.fromPROV clock (fst (Graph.toPROV g)) = Some g'
    /\ (forall k, JMap.has (Graph.nodes g') k = JMap.has (Graph.nodes g) k)
    /\ CanonicalSpec.same_props (fst (Graph.toPROV g')) (fst (Graph.toPROV g)).
Proof.
  intros Hf Hcache.
  destruct (import_graph clock g Hf) as (g' & Himp & Hp & Hk & Hb & He).
  exists g'. unfold Graph.toPROV. rewrite Hcache, Hp, andb_false_r. cbn [fst].
  split; [exact Himp|]. split.
  - intros k. rewrite (has_node_base g' k Hk), Hb.
    symmetry. apply has_node_base, (GraphSpec.pf_keys g Hf).
  - apply (reproject_same_props g Hf g' Hk Hb He).
Qed.


Lemma C4_witness :
  GraphSpec.prov_faithful ProvSpec.sample_graph
  /\ negb (Graph.modified ProvSpec.sample_graph)
     && truthy (Graph.provData ProvSpec.sample_graph) = false
  /\ exists g',
       Graph.fromPROV (fun _ => "now") (fst (Graph.toPROV ProvSpec.sample_graph))
       = Some g'
       /\ (forall k, JMap.has (Graph.nodes g') k
                     = JMap.has (Graph.nodes ProvSpec.sample_graph) k)
       /\ CanonicalSpec.same_props (fst (Graph.toPROV g'))
            (fst (Graph.toPROV ProvSpec.sample_graph)).
Proof.
  assert (Hf : GraphSpec.prov_faithful ProvSpec.sample_graph).
  { constructor.
    - vm_compute. repeat (constructor; [simpl; intuition discriminate|]). constructor.
    - reflexivity.
    - vm_compute. repeat constructor.
    - vm_compute.
      repeat (constructor;
              [eexists _, _, _; split; [reflexivity|];
               split; [reflexivity|]; split; [reflexivity|]; simpl; tauto|]).
      constructor.
    - vm_compute. repeat (constructor; [simpl; intuition discriminate|]). constructor.
    - vm_compute. repeat (constructor; [simpl; intuition discriminate|]). constructor.
    - reflexivity. }
  split; [exact Hf|]. split; [reflexivity|].
  apply (C4_prov_roundtrip_faithful (fun _ => "now") ProvSpec.sample_graph Hf).
  reflexivity.
Defined.

(** C4, counterexample.  Two resources joined by a wasDerivedFrom and a
    wasRevisionOf edge: the document lists the source twice under
    prov:wasDerivedFrom, [fromPROV] makes one edge of the two, and the
    document of the imported graph lists the source once. *)
Lemma C4_counterexample :
  exists g',
    Graph.fromPROV (fun _ => "now") (fst (Graph.toPROV ProvSpec.revised_graph))
    = Some g'
    /\ get_prop (get_prop (get_prop (fst (Graph.toPROV ProvSpec.revised_graph))
                             "entity") "did:b") "prov:wasDerivedFrom"
       = VArr [VStr "did:a"; VStr "did:a"]
    /\ get_prop (get_prop (get_prop (fst (Graph.toPROV g')) "entity") "did:b")
         "prov:wasDerivedFrom"
       = VArr [VStr "did:a"]
    /\ ~ CanonicalSpec.same_props (fst (Graph.toPROV g'))
           (fst (Graph.toPROV ProvSpec.revised_graph)).
Proof.
  eexists. split; [vm_compute; reflexivity|].
  split; [vm_compute; reflexivity|]. split; [vm_compute; reflexivity|].
  intros H.
  assert (Hl : forall a b k, CanonicalSpec.same_props a b ->
                 CanonicalSpec.same_props (get_prop a k) (get_prop b k)).
  { intros a b k Hs. destruct Hs; try constructor. cbn [get_prop]. auto. }
  apply (Hl _ _ "entity") in H. apply (Hl _ _ "did:b") in H.
  apply (Hl _ _ "prov:wasDerivedFrom") in H.
  vm_compute in H. inversion H as [| | | | |l1 l2 HF|]; subst.
  inversion HF as [|? ? ? ? _ HF']; subst. inversion HF'.
Qed.

(* ================================================================== *)
(** * Further properties of the code *)
(* ================================================================== *)

(** ** Text watermark: the codec and its verification *)

Section CodecFacts.
Import Watermark WatermarkSpec Verify.

Lemma text_of_small (t : text) :
  Forall (fun c => (c < 256)%N) t ->
  text_of_string (string_of_text t) = t.
Proof.
  unfold text_of_string, string_of_text. intros H.
  rewrite list_ascii_of_string_of_list_ascii, map_map.
  induction H as [|c r Hc _ IH]; [reflexivity|].
  cbn [map]. rewrite IH, N_ascii_embedding by exact Hc. reflexivity.
Qed.

Lemma extract_loop_length (t : text) :
  forall prev, List.length (extract_loop prev t) = count_marks t.
Proof.
  unfold count_marks. induction t as [|c r IH]; intros prev; [reflexivity|].
  cbn [extract_loop filter].
  destruct (N.eqb c regularSpace) eqn:Hs.
  - cbn [orb List.length].
    destruct prev as [p|]; [destruct (N.eqb p zeroWidthSpace)|];
      cbn [List.length]; rewrite IH; reflexivity.
  - cbn [orb]. destruct (N.eqb c noBreakSpace); cbn [List.length]; rewrite IH; reflexivity.
Qed.

Lemma embed_spec_length (o : options) (t : text) :
  forall bits,
    List.length (embed_spec o bits t)
    = (List.length t
       + if useZeroWidth o
         then List.length (filter (fun b : bool => b) (firstn (count_spaces t) bits))
         else 0)%nat.
Proof.
  unfold count_spaces.
  induction t as [|c r IH]; intros bits.
  - cbn. destruct (useZeroWidth o); reflexivity.
  - cbn [embed_spec filter]. destruct (N.eqb c regularSpace) eqn:Hc.
    + destruct bits as [|b bits'].
      * cbn [List.length]. rewrite IH, firstn_nil. rewrite firstn_nil. reflexivity.
      * rewrite length_app, IH. cbn [List.length firstn filter].
        unfold replacement. destruct b, (useZeroWidth o); cbn [List.length]; lia.
    + cbn [List.length]. rewrite IH. reflexivity.
Qed.



End CodecFacts.

(** X1.  [_binaryToText] undoes [_textToBinary] on every text whose code
    units are below 256 (the codec writes eight binary digits for each
    code unit). *)
Theorem binary_text_roundtrip (t : Watermark.text) :
  Forall (fun c => (c < 256)%N) t ->
  Watermark._binaryToText (Watermark._textToBinary t) = t.
Proof.
  intros H. rewrite <- (text_of_small t H) at 1.
  rewrite _binaryToText_textToBinary. apply text_of_small, H.
Qed.

Lemma binary_text_roundtrip_witness :
  Forall (fun c => (c < 256)%N) [123; 34; 233; 125]%N
  /\ Watermark._binaryToText (Watermark._textToBinary [123; 34; 233; 125]%N)
     = [123; 34; 233; 125]%N.
Proof.
  assert (H : Forall (fun c => (c < 256)%N) [123; 34; 233; 125]%N)
    by (repeat constructor).
  split; [exact H|]. apply (binary_text_roundtrip _ H).
Defined.

(** X2.  The spaces channel, bit for bit: embedding [bits] into a carrier
    that has no U+00A0 and no U+200B of its own and at least as many spaces
    as bits succeeds, and the extraction from the result reads the bits
    back followed by one 0 for each space left over ([null] when the
    carrier has fewer than 16 spaces). *)
Theorem spaces_codec_roundtrip (t : Watermark.text) (bits : Watermark.binary)
    (o : Watermark.options) :
  WatermarkSpec.plain t ->
  (List.length bits <= WatermarkSpec.count_spaces t)%nat ->
  exists out,
    Watermark._embedWithSpaces t bits o = Some out
    /\ Watermark._extractFromSpaces out o
       = if (WatermarkSpec.count_spaces t <? 16)%nat then None
         else Some (bits ++ repeat false
                              (WatermarkSpec.count_spaces t - List.length bits))%list.
Proof.
  intros Hplain Hcap. eexists. split.
  - apply _embedWithSpaces_defined, Hcap.
  - unfold Watermark._extractFromSpaces.
    rewrite (extract_embed_spec o t bits None Hplain) by discriminate.
    rewrite firstn_all2 by exact Hcap.
    rewrite length_app, repeat_length.
    replace (List.length bits + (WatermarkSpec.count_spaces t - List.length bits))%nat
      with (WatermarkSpec.count_spaces t) by lia.
    reflexivity.
Qed.

Lemma spaces_codec_roundtrip_witness :
  let t := Watermark.text_of_string "a b c d e f g h i j k l m n o p q r s" in
  let bits := [true; false; true; true] in
  let o := {| Watermark.useZeroWidth := true |} in
  WatermarkSpec.plain t
  /\ (List.length bits <= WatermarkSpec.count_spaces t)%nat
  /\ exists out,
       Watermark._embedWithSpaces t bits o = Some out
       /\ Watermark._extractFromSpaces out o
          = if (WatermarkSpec.count_spaces t <? 16)%nat then None
            else Some (bits ++ repeat false
                                 (WatermarkSpec.count_spaces t - List.length bits))%list.
Proof.
  cbv zeta.
  assert (Hplain : WatermarkSpec.plain
            (Watermark.text_of_string "a b c d e f g h i j k l m n o p q r s")).
  { vm_compute. repeat (constructor; [split; discriminate|]). constructor. }
  assert (Hcap : (List.length [true; false; true; true]
                  <= WatermarkSpec.count_spaces
                       (Watermark.text_of_string
                          "a b c d e f g h i j k l m n o p q r s"))%nat)
    by (vm_compute; lia).
  split; [exact Hplain|]. split; [exact Hcap|].
  apply (spaces_codec_roundtrip _ _ _ Hplain Hcap).
Defined.

(** X3.  The length of a watermarked text: [_embedWithSpaces] keeps the
    length of the text when a 1 is written as U+00A0, and lengthens it by
    one code unit for each 1 of the payload when a 1 is written as U+200B
    U+0020 ([useZeroWidth]). *)
Theorem embed_length (t : Watermark.text) (bits : Watermark.binary)
    (o : Watermark.options) (out : Watermark.text) :
  Watermark._embedWithSpaces t bits o = Some out ->
  List.length out
  = (List.length t
     + if Watermark.useZeroWidth o
       then List.length (filter (fun b : bool => b) bits)
       else 0)%nat.
Proof.
  intros H. pose proof (_embedWithSpaces_spec o t bits out H) as ->.
  rewrite embed_spec_length.
  unfold Watermark._embedWithSpaces in H. rewrite spaces_from_length in H.
  destruct (Nat.ltb_spec (WatermarkSpec.count_spaces t) (List.length bits));
    [discriminate|].
  rewrite firstn_all2 by assumption. reflexivity.
Qed.

Lemma embed_length_witness :
  let t := Watermark.text_of_string "to be or not to be" in
  let bits := [true; true; false; true] in
  let o := {| Watermark.useZeroWidth := true |} in
  exists out,
    Watermark._embedWithSpaces t bits o = Some out
    /\ List.length out = (List.length t + 3)%nat.
Proof.
  cbv zeta. eexists. split; [vm_compute; reflexivity|].
  apply (embed_length (Watermark.text_of_string "to be or not to be")
           [true; true; false; true] {| Watermark.useZeroWidth := true |}).
  vm_compute. reflexivity.
Defined.

(** X4.  A text with fewer than 16 marks (U+0020 or U+00A0) carries no
    watermark: [extract] returns [null] and [verify] returns [false],
    whatever payload is expected. *)
Theorem extract_short_carrier (t : Watermark.text) (o : Watermark.options)
    (expected : value) :
  (Verify.count_marks t < 16)%nat ->
  Watermark.extract t o = VNull
  /\ Verify.verify t expected o = Some false.
Proof.
  intros H.
  assert (E : Watermark.extract t o = VNull).
  { unfold Watermark.extract, Watermark._extractFromSpaces.
    rewrite extract_loop_length.
    destruct (Nat.ltb_spec (Verify.count_marks t) 16); [reflexivity|lia]. }
  split; [exact E|]. unfold Verify.verify. rewrite E. reflexivity.
Qed.

Lemma extract_short_carrier_witness :
  let t := Watermark.text_of_string "a short note with few spaces" in
  (Verify.count_marks t < 16)%nat
  /\ Watermark.extract t {| Watermark.useZeroWidth := false |} = VNull
  /\ Verify.verify t (VObj []) {| Watermark.useZeroWidth := false |} = Some false.
Proof.
  cbv zeta.
  assert (H : (Verify.count_marks
                 (Watermark.text_of_string "a short note with few spaces") < 16)%nat)
    by (vm_compute; lia).
  split; [exact H|].
  apply (extract_short_carrier _ {| Watermark.useZeroWidth := false |} (VObj []) H).
Defined.





(** ** Relationship graph: what the calls keep true *)

Section WellBuiltFacts.
Import Graph GraphSpec GraphProps.

Lemma keys_begin_set (p : list string) (o : obj) (k : string) (v : value) :
  keys_begin p o -> keys_begin p (obj_set o k v).
Proof.
  intros [rest H]. unfold keys_begin. rewrite obj_keys_set.
  destruct (obj_has o k); [eauto|].
  exists (rest ++ [k])%list. rewrite H, app_assoc. reflexivity.
Qed.

Lemma keys_begin_spread (p : list string) (b : obj) :
  forall a, keys_begin p a -> keys_begin p (spread a b).
Proof.
  unfold spread. induction b as [|[k v] r IH]; intros a Ha; [exact Ha|].
  cbn [fold_left fst snd]. apply IH, keys_begin_set, Ha.
Qed.

Lemma jmap_get_in {A : Type} (m : list (string * A)) (k : string) (v : A) :
  JMap.get m k = Some v -> In (k, v) m.
Proof.
  induction m as [|[k' v'] r IH]; simpl; [discriminate|].
  destruct (String.eqb_spec k' k) as [->|].
  - intros E. injection E as ->. left. reflexivity.
  - intros E. right. apply IH, E.
Qed.

Lemma jmap_set_all {A : Type} (P : string * A -> Prop) (m : list (string * A))
    (k : string) (v : A) :
  Forall P m -> P (k, v) -> Forall P (JMap.set m k v).
Proof.
  intros Hm Hv. induction Hm as [|[k' v'] r Hx Hr IH]; simpl.
  - constructor; [exact Hv|constructor].
  - destruct (String.eqb_spec k' k) as [->|]; constructor; assumption.
Qed.

Lemma jmap_delete_all {A : Type} (P : string * A -> Prop)
    (m : list (string * A)) (k : string) :
  Forall P m -> Forall P (JMap.delete m k).
Proof.
  induction 1 as [|[k' v'] r Hx Hr IH]; simpl; [constructor|].
  destruct (String.eqb k' k); [exact Hr|constructor; assumption].
Qed.

Lemma jmap_delete_keys {A : Type} (m : list (string * A)) (k : string) :
  NoDup (map fst m) ->
  NoDup (map fst (JMap.delete m k))
  /\ (forall k', JMap.has (JMap.delete m k) k'
                 = negb (String.eqb k k') && JMap.has m k').
Proof.
  unfold JMap.has. induction m as [|[k0 v0] r IH]; intros Hnd.
  - split; [constructor|]. intros k'. simpl. rewrite andb_false_r. reflexivity.
  - inversion Hnd as [|? ? Hnotin Hnd']; subst. destruct (IH Hnd') as [IH1 IH2].
    cbn [JMap.delete JMap.get]. destruct (String.eqb_spec k0 k) as [->|Hne].
    + split; [exact Hnd'|]. intros k'.
      destruct (String.eqb_spec k k') as [<-|]; cbn [negb andb]; [|reflexivity].
      destruct (JMap.get r k) eqn:E; [|reflexivity].
      exfalso. apply Hnotin. apply jmap_get_in in E.
      apply in_map_iff. exists (k, a). auto.
    + split.
      * cbn [map fst]. constructor; [|exact IH1].
        intros Hin. apply Hnotin.
        assert (Hh : JMap.has (JMap.delete r k) k0 = true)
          by (apply jmap_has_in; exact Hin).
        apply jmap_has_delete in Hh. apply jmap_has_in, Hh.
      * intros k'. cbn [JMap.get]. destruct (String.eqb_spec k0 k') as [<-|].
        -- apply String.eqb_neq in Hne. rewrite String.eqb_sym, Hne. reflexivity.
        -- apply IH2.
Qed.

Lemma replace_at_all {A : Type} (P : A -> Prop) (i : nat) (x : A) (l : list A) :
  Forall P l -> P x -> Forall P (replace_at i x l).
Proof.
  intros Hl Hx. revert i. induction Hl as [|y r Hy Hr IH]; intros [|i]; simpl;
    try constructor; auto.
Qed.

Lemma edge_wellformed_nodes (g g' : ResourceGraph) (edge : obj) :
  (forall k, JMap.has (nodes g) k = true -> JMap.has (nodes g') k = true) ->
  edge_wellformed g edge -> edge_wellformed g' edge.
Proof.
  intros H (s & t & ty & Hk & Hs & Ht & Hty). exists s, t, ty. auto.
Qed.

Lemma existsb_types (ty : string) :
  existsb (String.eqb ty) RELATIONSHIP_TYPES = true -> In ty RELATIONSHIP_TYPES.
Proof.
  intros H. apply existsb_exists in H as (x & Hx & E).
  apply String.eqb_eq in E. subst. exact Hx.
Qed.

(** The node [addNode] stores has the shape of a node. *)
Lemma addNode_shape (now1 now2 did : string) (metadata : obj)
    (g g1 : ResourceGraph) :
  names_same_node metadata did ->
  Forall node_shape (nodes g) ->
  addNode now1 now2 did metadata g = Some g1 ->
  Forall node_shape (nodes g1).
Proof.
  intros [Hnd Hdid] Hall. unfold addNode.
  destruct (String.eqb did ""); [discriminate|].
  intros E. injection E as <-. cbn [nodes].
  apply jmap_set_all; [exact Hall|].
  assert (Hd : forall a, obj_get a "did" = VStr did ->
                         obj_get (spread a metadata) "did" = VStr did).
  { intros a Ha. rewrite obj_get_spread_nodup by exact Hnd.
    destruct (obj_has metadata "did"); [apply Hdid; reflexivity|exact Ha]. }
  destruct (JMap.get (nodes g) did) as [existing|] eqn:Hget.
  - apply jmap_get_in in Hget. rewrite Forall_forall in Hall.
    destruct (Hall _ Hget) as (N1 & N2 & N3). cbn [fst snd] in *.
    split; [|split]; cbn [fst snd].
    + apply obj_set_keys_distinct, spread_keys_nodup, N1.
    + apply keys_begin_set, keys_begin_spread, N2.
    + rewrite obj_get_set_other by discriminate. apply Hd, N3.
  - split; [|split]; cbn [fst snd].
    + apply spread_keys_nodup. cbn.
      repeat (constructor; [cbn; intuition discriminate|]). constructor.
    + apply keys_begin_spread. exists []. reflexivity.
    + apply Hd. reflexivity.
Qed.

End WellBuiltFacts.

Section WellBuiltRun.
Import Graph GraphSpec GraphProps.

Lemma addNode_well_built (now1 now2 did : string) (metadata : obj)
    (g g1 : ResourceGraph) :
  names_same_node metadata did ->
  well_built g ->
  addNode now1 now2 did metadata g = Some g1 ->
  well_built g1.
Proof.
  intros Hm [WK WN WS WE WH WU] Hadd.
  pose proof (addNode_shape _ _ _ _ _ _ Hm WS Hadd) as S1.
  unfold addNode in Hadd. destruct (String.eqb_spec did "") as [|Hne]; [discriminate|].
  injection Hadd as <-. constructor; cbn [nodes edges]; try assumption.
  - rewrite jmap_keys_set. destruct (JMap.has (nodes g) did) eqn:Hh; [exact WK|].
    apply NoDup_app; [exact WK|repeat constructor; simpl; tauto|].
    intros x Hx [<-|[]]. apply jmap_has_in in Hx. congruence.
  - rewrite jmap_has_set, WN. apply String.eqb_neq in Hne. rewrite Hne. reflexivity.
  - apply Forall_impl with (2 := WE). intros e.
    apply edge_wellformed_nodes. intros k Hk. cbn [nodes].
    rewrite jmap_has_set, Hk. apply orb_true_r.
Qed.

Lemma addEdge_well_built (now1 now2 s t ty : string) (metadata : obj)
    (g g1 : ResourceGraph) :
  names_same_edge metadata s t ty ->
  well_built g ->
  addEdge now1 now2 s t ty metadata g = Some g1 ->
  well_built g1.
Proof.
  intros Hm [WK WN WS WE WH WU] Hadd.
  pose proof (addEdge_unique _ _ _ _ _ _ _ _ Hm WU Hadd) as U1.
  destruct (addEdge_inv _ _ _ _ _ _ _ _ Hadd) as (Hs & Ht & Hty & Hn & He).
  assert (Hwf : forall e, edge_key e = (VStr s, VStr t, VStr ty) ->
                          edge_wellformed g1 e).
  { intros e Hk. exists s, t, ty. rewrite Hn. split; [exact Hk|].
    split; [exact Hs|]. split; [exact Ht|apply existsb_types, Hty]. }
  assert (E1 : Forall (edge_wellformed g1) (edges g)).
  { apply Forall_impl with (2 := WE). intros e.
    apply edge_wellformed_nodes. intros k. rewrite Hn. auto. }
  constructor; try (rewrite Hn; assumption); try assumption.
  - rewrite He. destruct (findIndex (edge_is s t ty) (edges g)) as [i|].
    + apply replace_at_all; [exact E1|]. apply Hwf, merged_edge_key, Hm.
    + apply Forall_app. split; [exact E1|].
      constructor; [|constructor]. apply Hwf, new_edge_key, Hm.
  - rewrite He. destruct (findIndex (edge_is s t ty) (edges g)) as [i|] eqn:Hi.
    + destruct (findIndex_some _ _ _ Hi) as (old & Hold & _).
      apply nth_error_In in Hold as Hin. rewrite Forall_forall in WH.
      destruct (WH _ Hin) as [O1 O2].
      apply replace_at_all; [apply Forall_forall; exact WH|].
      match goal with
      | |- context [nth i (edges g) ?d] =>
          rewrite (nth_error_nth_default (edges g) i old d Hold)
      end.
      split.
      * apply obj_set_keys_distinct, spread_keys_nodup, O1.
      * apply keys_begin_set, keys_begin_spread, O2.
    + apply Forall_app. split; [exact WH|]. constructor; [|constructor]. split.
      * apply new_edge_nodup.
      * apply keys_begin_spread. exists []. reflexivity.
Qed.

Lemma filter_all_kept {A : Type} (P : A -> Prop) (keep : A -> bool) (l : list A) :
  Forall P l -> Forall P (filter keep l).
Proof.
  intros WH. apply Forall_forall. intros x Hx. apply filter_In in Hx as [Hx _].
  rewrite Forall_forall in WH. apply WH, Hx.
Qed.

Lemma removeNode_well_built (did : string) (g : ResourceGraph) :
  well_built g -> well_built (removeNode did g).
Proof.
  intros Hg. pose proof Hg as [WK WN WS WE WH WU]. unfold removeNode.
  destruct (JMap.has (nodes g) did) eqn:Hh; cbn [negb]; [|exact Hg].
  destruct (jmap_delete_keys (nodes g) did WK) as [K1 Hhas].
  constructor; cbn [nodes edges].
  - exact K1.
  - rewrite Hhas, WN. apply andb_false_r.
  - apply jmap_delete_all, WS.
  - apply Forall_forall. intros e He. apply filter_In in He as [He Hkeep].
    rewrite Forall_forall in WE. destruct (WE e He) as (s & t & ty & Hk & Hs & Ht & Hty).
    exists s, t, ty. cbn [nodes]. split; [exact Hk|].
    unfold edge_key in Hk. injection Hk as Hf Hto _.
    rewrite Hf, Hto in Hkeep. cbn [value_eqb] in Hkeep.
    apply andb_true_iff in Hkeep as [H1 H2].
    rewrite !Hhas, Hs, Ht.
    rewrite (String.eqb_sym did s), (String.eqb_sym did t), H1, H2. auto.
  - apply filter_all_kept, WH.
  - apply filter_edges_unique, WU.
Qed.

Lemma removeEdge_well_built (s t : string) (ty : option string)
    (g : ResourceGraph) :
  well_built g -> well_built (removeEdge s t ty g).
Proof.
  intros [WK WN WS WE WH WU]. unfold removeEdge.
  constructor; cbn [nodes edges]; try assumption.
  - destruct (match ty with
              | Some t0 => if String.eqb t0 "" then None else Some t0
              | None => None
              end); apply filter_all_kept;
      (apply Forall_impl with (2 := WE); intros e;
       apply edge_wellformed_nodes; auto).
  - destruct (match ty with
              | Some t0 => if String.eqb t0 "" then None else Some t0
              | None => None
              end); apply filter_all_kept, WH.
  - unfold edges_unique. cbn [edges].
    destruct (match ty with
              | Some t0 => if String.eqb t0 "" then None else Some t0
              | None => None
              end); apply filter_edges_unique, WU.
Qed.

Lemma toPROV_well_built (g : ResourceGraph) :
  well_built g -> well_built (snd (toPROV g)).
Proof.
  intros Hg. unfold toPROV.
  destruct (negb (modified g) && truthy (provData g)); [exact Hg|].
  destruct Hg as [WK WN WS WE WH WU]. constructor; assumption.
Qed.

Lemma empty_well_built : well_built empty.
Proof. constructor; cbn; try constructor. Qed.

Lemma perform_well_built (g : ResourceGraph) (c : call) :
  call_plain c -> well_built g -> well_built (perform g c).
Proof.
  intros Hc Hg. destruct c; cbn [perform call_plain] in *.
  - destruct (addNode now1 now2 did metadata g) as [g1|] eqn:E; [|exact Hg].
    eapply addNode_well_built; eassumption.
  - destruct (addEdge now1 now2 fromDID toDID relationshipType metadata g)
      as [g1|] eqn:E; [|exact Hg].
    eapply addEdge_well_built; eassumption.
  - apply removeNode_well_built, Hg.
  - apply removeEdge_well_built, Hg.
  - apply toPROV_well_built, Hg.
Qed.

Lemma run_well_built (cs : list call) :
  forall g, Forall call_plain cs -> well_built g -> well_built (run cs g).
Proof.
  unfold run. induction cs as [|c cs IH]; intros g Hcs Hg; [exact Hg|].
  inversion Hcs; subst. cbn [fold_left]. apply IH; [assumption|].
  apply perform_well_built; assumption.
Qed.

End WellBuiltRun.

(* ------------------------------------------------------------------ *)
(** ** Relationship graph: edges and the nodes they join *)

Section JoinedFacts.
Import Graph GraphSpec GraphProps.

Lemma jmap_has_delete_other {A : Type} (m : list (string * A)) (k k' : string) :
  k <> k' -> JMap.has (JMap.delete m k) k' = JMap.has m k'.
Proof.
  intros Hne. unfold JMap.has. induction m as [|[k0 v0] r IH]; [reflexivity|].
  cbn [JMap.delete JMap.get]. destruct (String.eqb_spec k0 k) as [->|].
  - destruct (String.eqb_spec k k'); [contradiction|reflexivity].
  - cbn [JMap.get]. destruct (String.eqb k0 k'); [reflexivity|exact IH].
Qed.

Lemma jmap_get_delete_other {A : Type} (m : list (string * A)) (k k' : string) :
  k <> k' -> JMap.get (JMap.delete m k) k' = JMap.get m k'.
Proof.
  intros Hne. induction m as [|[k0 v0] r IH]; [reflexivity|].
  cbn [JMap.delete JMap.get]. destruct (String.eqb_spec k0 k) as [->|].
  - destruct (String.eqb_spec k k'); [contradiction|reflexivity].
  - cbn [JMap.get]. destruct (String.eqb k0 k'); [reflexivity|exact IH].
Qed.

Lemma addNode_keeps_nodes (now1 now2 did : string) (metadata : obj)
    (g g1 : ResourceGraph) :
  addNode now1 now2 did metadata g = Some g1 ->
  edges g1 = edges g
  /\ forall k, JMap.has (nodes g) k = true -> JMap.has (nodes g1) k = true.
Proof.
  unfold addNode. destruct (String.eqb did ""); [discriminate|].
  intros E. injection E as <-. cbn [nodes edges]. split; [reflexivity|].
  intros k Hk. rewrite jmap_has_set, Hk. apply orb_true_r.
Qed.

Lemma addEdge_joined (now1 now2 s t ty : string) (metadata : obj)
    (g g1 : ResourceGraph) :
  names_same_edge metadata s t ty ->
  Forall (edge_wellformed g) (edges g) ->
  addEdge now1 now2 s t ty metadata g = Some g1 ->
  Forall (edge_wellformed g1) (edges g1).
Proof.
  intros Hm WE Hadd.
  destruct (addEdge_inv _ _ _ _ _ _ _ _ Hadd) as (Hs & Ht & Hty & Hn & He).
  assert (Hwf : forall e, edge_key e = (VStr s, VStr t, VStr ty) ->
                          edge_wellformed g1 e).
  { intros e Hk. exists s, t, ty. rewrite Hn. split; [exact Hk|].
    split; [exact Hs|]. split; [exact Ht|apply existsb_types, Hty]. }
  assert (E1 : Forall (edge_wellformed g1) (edges g)).
  { apply Forall_impl with (2 := WE). intros e.
    apply edge_wellformed_nodes. intros k. rewrite Hn. auto. }
  rewrite He. destruct (findIndex (edge_is s t ty) (edges g)) as [i|].
  - apply replace_at_all; [exact E1|]. apply Hwf, merged_edge_key, Hm.
  - apply Forall_app. split; [exact E1|].
    constructor; [|constructor]. apply Hwf, new_edge_key, Hm.
Qed.

Lemma removeNode_joined (did : string) (g : ResourceGraph) :
  Forall (edge_wellformed g) (edges g) ->
  Forall (edge_wellformed (removeNode did g)) (edges (removeNode did g)).
Proof.
  intros WE. unfold removeNode.
  destruct (JMap.has (nodes g) did) eqn:Hh; cbn [negb]; [|exact WE].
  cbn [nodes edges]. apply Forall_forall. intros e He.
  apply filter_In in He as [He Hkeep].
  rewrite Forall_forall in WE. destruct (WE e He) as (s & t & ty & Hk & Hs & Ht & Hty).
  exists s, t, ty. cbn [nodes]. split; [exact Hk|].
  unfold edge_key in Hk. injection Hk as Hf Hto _.
  rewrite Hf, Hto in Hkeep. cbn [value_eqb] in Hkeep.
  apply andb_true_iff in Hkeep as [H1 H2].
  apply negb_true_iff, String.eqb_neq in H1, H2.
  rewrite !jmap_has_delete_other by congruence. auto.
Qed.

Lemma perform_joined (g : ResourceGraph) (c : call) :
  call_names_same_edge c ->
  Forall (edge_wellformed g) (edges g) ->
  Forall (edge_wellformed (perform g c)) (edges (perform g c)).
Proof.
  intros Hc WE. destruct c; cbn [perform call_names_same_edge] in *.
  - destruct (addNode now1 now2 did metadata g) as [g1|] eqn:E; [|exact WE].
    destruct (addNode_keeps_nodes _ _ _ _ _ _ E) as [He Hn]. rewrite He.
    apply Forall_impl with (2 := WE). intros e. apply edge_wellformed_nodes, Hn.
  - destruct (addEdge now1 now2 fromDID toDID relationshipType metadata g)
      as [g1|] eqn:E; [|exact WE].
    eapply addEdge_joined; eassumption.
  - apply removeNode_joined, WE.
  - unfold removeEdge. cbn [edges].
    destruct (match relationshipType with
              | Some t0 => if String.eqb t0 "" then None else Some t0
              | None => None
              end); apply filter_all_kept;
      (apply Forall_impl with (2 := WE); intros e;
       apply edge_wellformed_nodes; auto).
  - unfold toPROV. destruct (negb (modified g) && truthy (provData g)); exact WE.
Qed.

Lemma run_joined (cs : list call) :
  forall g, Forall call_names_same_edge cs ->
            Forall (edge_wellformed g) (edges g) ->
            Forall (edge_wellformed (run cs g)) (edges (run cs g)).
Proof.
  unfold run. induction cs as [|c cs IH]; intros g Hcs Hg; [exact Hg|].
  inversion Hcs; subst. cbn [fold_left]. apply IH; [assumption|].
  apply perform_joined; assumption.
Qed.

Lemma joined_not_mentioned (g : ResourceGraph) (did : string) (e : obj) :
  Forall (edge_wellformed g) (edges g) ->
  JMap.has (nodes g) did = false ->
  In e (edges g) ->
  value_eqb (obj_get e "from") (VStr did) = false
  /\ value_eqb (obj_get e "to") (VStr did) = false.
Proof.
  intros WE Hh He. rewrite Forall_forall in WE.
  destruct (WE e He) as (s & t & ty & Hk & Hs & Ht & _).
  unfold edge_key in Hk. injection Hk as -> -> _. cbn [value_eqb].
  split; apply String.eqb_neq; intros ->; congruence.
Qed.

End JoinedFacts.

(** X9.  No edge dangles.  In a graph built from the empty one by calls
    whose edge metadata does not redefine [from], [to] or [type], every
    edge joins two nodes that the graph holds, under a relationship type
    of the vocabulary, whatever nodes and edges were removed on the
    way. *)
Theorem edges_join_nodes (cs : list GraphSpec.call) (edge : obj) :
  Forall GraphSpec.call_names_same_edge cs ->
  In edge (Graph.edges (GraphSpec.run cs Graph.empty)) ->
  exists s t ty,
    obj_get edge "from" = VStr s
    /\ obj_get edge "to" = VStr t
    /\ obj_get edge "type" = VStr ty
    /\ JMap.has (Graph.nodes (GraphSpec.run cs Graph.empty)) s = true
    /\ JMap.has (Graph.nodes (GraphSpec.run cs Graph.empty)) t = true
    /\ In ty Graph.RELATIONSHIP_TYPES.
Proof.
  intros Hcs Hin.
  pose proof (run_joined cs Graph.empty Hcs (Forall_nil _)) as H.
  rewrite Forall_forall in H.
  destruct (H edge Hin) as (s & t & ty & Hk & Hs & Ht & Hty).
  unfold GraphSpec.edge_key in Hk. injection Hk as Hf Hto Hy.
  exists s, t, ty. auto 7.
Qed.

Lemma edges_join_nodes_witness :
  let now := "2024-01-01T00:00:00.000Z" in
  let cs := [ GraphSpec.AddNode now now "did:asset:text:a" [];
              GraphSpec.AddNode now now "did:asset:text:b" [];
              GraphSpec.AddNode now now "did:asset:text:c" [];
              GraphSpec.AddEdge now now "did:asset:text:a" "did:asset:text:b"
                "contains" [("weight", VNum 1)];
              GraphSpec.AddEdge now now "did:asset:text:b" "did:asset:text:c"
                "uses" [];
              GraphSpec.RemoveNode "did:asset:text:c" ] in
  let edge := [ ("from", VStr "did:asset:text:a");
                ("to", VStr "did:asset:text:b");
                ("type", VStr "contains");
                ("created", VStr now);
                ("weight", VNum 1) ] in
  exists s t ty,
    obj_get edge "from" = VStr s
    /\ obj_get edge "to" = VStr t
    /\ obj_get edge "type" = VStr ty
    /\ JMap.has (Graph.nodes (GraphSpec.run cs Graph.empty)) s = true
    /\ JMap.has (Graph.nodes (GraphSpec.run cs Graph.empty)) t = true
    /\ In ty Graph.RELATIONSHIP_TYPES.
Proof.
  cbv zeta. apply edges_join_nodes.
  - repeat (constructor; [cbn; repeat split;
                          try (repeat constructor; cbn; intuition discriminate);
                          try discriminate|]).
    constructor.
  - vm_compute. left. reflexivity.
Defined.

(* ------------------------------------------------------------------ *)
(** ** Relationship graph: removal *)

Section RemovalFacts.
Import Graph GraphSpec GraphProps.

Lemma jmap_delete_absent {A : Type} (m : list (string * A)) (k : string) :
  JMap.has m k = false -> JMap.delete m k = m.
Proof.
  unfold JMap.has. induction m as [|[k0 v0] r IH]; [reflexivity|].
  cbn [JMap.get JMap.delete]. destruct (String.eqb k0 k); [discriminate|].
  intros H. rewrite IH by exact H. reflexivity.
Qed.

Lemma jmap_delete_set_absent {A : Type} (m : list (string * A)) (k : string)
    (v : A) :
  JMap.has m k = false -> JMap.delete (JMap.set m k v) k = m.
Proof.
  unfold JMap.has. induction m as [|[k0 v0] r IH].
  - intros _. cbn. rewrite String.eqb_refl. reflexivity.
  - cbn [JMap.get JMap.set]. destruct (String.eqb k0 k) eqn:E; [discriminate|].
    intros H. cbn [JMap.delete]. rewrite E, IH by exact H. reflexivity.
Qed.

Lemma jmap_has_delete_same {A : Type} (m : list (string * A)) (k : string) :
  NoDup (map fst m) -> JMap.has (JMap.delete m k) k = false.
Proof.
  intros H. destruct (jmap_delete_keys m k H) as [_ E].
  rewrite E, String.eqb_refl. reflexivity.
Qed.

Lemma perform_keys (g : ResourceGraph) (c : call) :
  NoDup (map fst (nodes g)) -> NoDup (map fst (nodes (perform g c))).
Proof.
  intros WK. destruct c; cbn [perform].
  - unfold addNode. destruct (String.eqb did ""); [exact WK|]. cbn [nodes].
    rewrite jmap_keys_set. destruct (JMap.has (nodes g) did) eqn:Hh; [exact WK|].
    apply NoDup_app; [exact WK|repeat constructor; simpl; tauto|].
    intros x Hx [<-|[]]. apply jmap_has_in in Hx. congruence.
  - destruct (addEdge now1 now2 fromDID toDID relationshipType metadata g)
      as [g1|] eqn:E; [|exact WK].
    destruct (addEdge_inv _ _ _ _ _ _ _ _ E) as (_ & _ & _ & Hn & _).
    rewrite Hn. exact WK.
  - unfold removeNode. destruct (negb (JMap.has (nodes g) did)); [exact WK|].
    cbn [nodes]. apply jmap_delete_keys, WK.
  - exact WK.
  - unfold toPROV. destruct (negb (modified g) && truthy (provData g)); exact WK.
Qed.

Lemma run_keys (cs : list call) :
  forall g, NoDup (map fst (nodes g)) -> NoDup (map fst (nodes (run cs g))).
Proof.
  apply (run_invariant (fun g => NoDup (map fst (nodes g)))).
  intros g c. apply perform_keys.
Qed.

Lemma filter_edge_is_new (s t ty : string) (es : list obj) :
  findIndex (edge_is s t ty) es = None ->
  filter (fun edge => negb (edge_is s t ty edge)) es = es.
Proof.
  intros H. apply filter_all. intros e He.
  rewrite (findIndex_none _ _ H e He). reflexivity.
Qed.

Lemma filter_replace_at {A : Type} (keep : A -> bool) (i : nat) (x old : A)
    (l : list A) :
  nth_error l i = Some old -> keep old = false -> keep x = false ->
  filter keep (replace_at i x l) = filter keep l.
Proof.
  revert i. induction l as [|y r IH]; intros [|i] Hn Ho Hx; cbn in *;
    try discriminate.
  - injection Hn as ->. rewrite Ho, Hx. reflexivity.
  - rewrite (IH i Hn Ho Hx). reflexivity.
Qed.

End RemovalFacts.

(** X10.  [removeNode] detaches the node.  In a graph built from the empty
    one by calls whose edge metadata does not redefine [from], [to] or
    [type], after [removeNode(did)] the graph has no node [did], its edges
    are exactly the former edges that neither start nor end at [did], and
    every other node is as it was. *)
Theorem removeNode_detaches (cs : list GraphSpec.call) (did : string) :
  Forall GraphSpec.call_names_same_edge cs ->
  let g := GraphSpec.run cs Graph.empty in
  let g' := Graph.removeNode did g in
  JMap.has (Graph.nodes g') did = false
  /\ (forall edge,
        In edge (Graph.edges g')
        <-> In edge (Graph.edges g)
            /\ obj_get edge "from" <> VStr did
            /\ obj_get edge "to" <> VStr did)
  /\ (forall k, k <> did ->
        JMap.get (Graph.nodes g') k = JMap.get (Graph.nodes g) k).
Proof.
  intros Hcs g g'.
  pose proof (run_joined cs Graph.empty Hcs (Forall_nil _)) as WE.
  pose proof (run_keys cs Graph.empty (NoDup_nil _)) as WK.
  fold g in WE, WK. subst g'. unfold Graph.removeNode.
  destruct (JMap.has (Graph.nodes g) did) eqn:Hh; cbn [negb Graph.nodes Graph.edges].
  - split; [apply jmap_has_delete_same, WK|]. split.
    + intros edge. rewrite filter_In, andb_true_iff, !negb_true_iff.
      rewrite !value_eqb_neq. tauto.
    + intros k Hk. apply jmap_get_delete_other. congruence.
  - split; [exact Hh|]. split; [|reflexivity].
    intros edge. split; [|tauto]. intros He. split; [exact He|].
    destruct (joined_not_mentioned g did edge WE Hh He) as [H1 H2].
    rewrite <- !value_eqb_neq. auto.
Qed.

Lemma removeNode_detaches_witness :
  let now := "2024-01-01T00:00:00.000Z" in
  let cs := [ GraphSpec.AddNode now now "did:asset:text:a" [];
              GraphSpec.AddNode now now "did:asset:text:b" [];
              GraphSpec.AddEdge now now "did:asset:text:a" "did:asset:text:b"
                "contains" [("weight", VNum 1)] ] in
  let g := GraphSpec.run cs Graph.empty in
  let g' := Graph.removeNode "did:asset:text:b" g in
  JMap.has (Graph.nodes g') "did:asset:text:b" = false
  /\ (forall edge,
        In edge (Graph.edges g')
        <-> In edge (Graph.edges g)
            /\ obj_get edge "from" <> VStr "did:asset:text:b"
            /\ obj_get edge "to" <> VStr "did:asset:text:b")
  /\ (forall k, k <> "did:asset:text:b" ->
        JMap.get (Graph.nodes g') k = JMap.get (Graph.nodes g) k).
Proof.
  cbv zeta. apply removeNode_detaches.
  repeat (constructor; [cbn; repeat split;
                        try (repeat constructor; cbn; intuition discriminate);
                        try discriminate|]).
  constructor.
Defined.

Section RoundTripFacts.
Import Graph GraphSpec GraphProps.

Lemma filter_shorter {A : Type} (keep : A -> bool) (l : list A) (x : A) :
  In x l -> keep x = false -> (List.length (filter keep l) < List.length l)%nat.
Proof.
  induction l as [|y r IH]; [intros []|].
  intros [<-|Hx] Hk; cbn [filter List.length].
  - rewrite Hk. pose proof (filter_length_le keep r). lia.
  - destruct (keep y); cbn [List.length]; specialize (IH Hx Hk); lia.
Qed.

Lemma vocabulary_nonempty (ty : string) :
  existsb (String.eqb ty) RELATIONSHIP_TYPES = true -> String.eqb ty "" = false.
Proof.
  destruct (String.eqb_spec ty "") as [->|]; [|reflexivity].
  vm_compute. discriminate.
Qed.

Lemma replace_at_in_new {A : Type} (i : nat) (x old : A) (l : list A) :
  nth_error l i = Some old -> In x (replace_at i x l).
Proof.
  revert i. induction l as [|y r IH]; intros [|i] H; cbn in *; try discriminate.
  - left. reflexivity.
  - right. eapply IH, H.
Qed.

End RoundTripFacts.

(** X11.  [removeEdge] undoes [addEdge].  After a successful
    [addEdge(from, to, type, metadata)] whose metadata does not redefine
    [from], [to] or [type], [removeEdge(from, to, type)] reports a removal
    and leaves the nodes as they were and the edges that the same removal
    leaves of the graph before the addition: the edges of that graph
    itself when none had this source, target and type. *)
Theorem removeEdge_after_addEdge (now1 now2 s t ty : string) (metadata : obj)
    (g g1 : Graph.ResourceGraph) :
  GraphSpec.names_same_edge metadata s t ty ->
  Graph.addEdge now1 now2 s t ty metadata g = Some g1 ->
  let g2 := Graph.removeEdge s t (Some ty) g1 in
  Graph.modified g2 = true
  /\ Graph.nodes g2 = Graph.nodes g
  /\ Graph.edges g2 = Graph.edges (Graph.removeEdge s t (Some ty) g)
  /\ (findIndex (Graph.edge_is s t ty) (Graph.edges g) = None ->
      Graph.edges g2 = Graph.edges g).
Proof.
  intros Hm Hadd g2.
  destruct (addEdge_inv _ _ _ _ _ _ _ _ Hadd) as (_ & _ & Hty & Hn & He).
  pose proof (vocabulary_nonempty ty Hty) as Hne.
  assert (Hkey : forall e, GraphSpec.edge_key e = (VStr s, VStr t, VStr ty) ->
                           negb (Graph.edge_is s t ty e) = false).
  { intros e Hk. apply negb_false_iff, edge_is_key, Hk. }
  assert (Hedges : Graph.edges g2
                   = filter (fun edge => negb (Graph.edge_is s t ty edge))
                            (Graph.edges g)).
  { subst g2. unfold Graph.removeEdge. rewrite Hne. cbn [Graph.edges]. rewrite He.
    destruct (findIndex (Graph.edge_is s t ty) (Graph.edges g)) as [i|] eqn:Hi.
    - destruct (findIndex_some _ _ _ Hi) as (old & Hold & Hk).
      apply (filter_replace_at _ i _ old); [exact Hold| |].
      + rewrite Hk. reflexivity.
      + apply Hkey, merged_edge_key, Hm.
    - rewrite filter_app. cbn [filter].
      rewrite (Hkey _ (new_edge_key now1 s t ty metadata Hm)).
      apply app_nil_r. }
  split; [|split; [|split]].
  - subst g2. unfold Graph.removeEdge at 1. rewrite Hne. cbn [Graph.modified].
    apply negb_true_iff, Nat.eqb_neq.
    assert (Hin : exists e, In e (Graph.edges g1)
                            /\ negb (Graph.edge_is s t ty e) = false).
    { rewrite He.
      destruct (findIndex (Graph.edge_is s t ty) (Graph.edges g)) as [i|] eqn:Hi.
      - destruct (findIndex_some _ _ _ Hi) as (old & Hold & Hk).
        eexists. split; [eapply replace_at_in_new, Hold|].
        apply Hkey, merged_edge_key, Hm.
      - eexists. split; [apply in_or_app; right; left; reflexivity|].
        apply Hkey, new_edge_key, Hm. }
    destruct Hin as (e & Hin & Hk).
    pose proof (filter_shorter
                  (fun edge => negb (Graph.edge_is s t ty edge)) _ e Hin Hk).
    lia.
  - subst g2. unfold Graph.removeEdge. cbn [Graph.nodes]. exact Hn.
  - rewrite Hedges. unfold Graph.removeEdge. rewrite Hne. reflexivity.
  - intros Hnone. rewrite Hedges. apply filter_edge_is_new, Hnone.
Qed.

Lemma removeEdge_after_addEdge_witness :
  let now := "2024-01-01T00:00:00.000Z" in
  let g := GraphSpec.run
             [ GraphSpec.AddNode now now "did:asset:text:a" [];
               GraphSpec.AddNode now now "did:asset:text:b" [];
               GraphSpec.AddEdge now now "did:asset:text:a" "did:asset:text:b"
                 "contains" [] ]
             Graph.empty in
  let g1 := GraphSpec.run
              [ GraphSpec.AddEdge now now "did:asset:text:b" "did:asset:text:a"
                  "uses" [("weight", VNum 1)] ] g in
  let g2 := Graph.removeEdge "did:asset:text:b" "did:asset:text:a" (Some "uses") g1 in
  Graph.modified g2 = true
  /\ Graph.nodes g2 = Graph.nodes g
  /\ Graph.edges g2
     = Graph.edges (Graph.removeEdge "did:asset:text:b" "did:asset:text:a"
                      (Some "uses") g)
  /\ (findIndex (Graph.edge_is "did:asset:text:b" "did:asset:text:a" "uses")
        (Graph.edges g) = None ->
      Graph.edges g2 = Graph.edges g).
Proof.
  cbv zeta.
  apply (removeEdge_after_addEdge "2024-01-01T00:00:00.000Z"
           "2024-01-01T00:00:00.000Z" _ _ _ [("weight", VNum 1)]).
  - repeat split; try discriminate. repeat constructor. cbn. tauto.
  - vm_compute. reflexivity.
Defined.

(** X12.  [removeNode] undoes [addNode].  In a graph built from the empty
    one by calls whose edge metadata does not redefine [from], [to] or
    [type], adding a node under an identifier the graph does not hold and
    removing it again gives back the nodes and the edges of the graph. *)
Theorem removeNode_after_addNode (cs : list GraphSpec.call)
    (now1 now2 did : string) (metadata : obj) (g1 : Graph.ResourceGraph) :
  Forall GraphSpec.call_names_same_edge cs ->
  let g := GraphSpec.run cs Graph.empty in
  JMap.has (Graph.nodes g) did = false ->
  Graph.addNode now1 now2 did metadata g = Some g1 ->
  Graph.nodes (Graph.removeNode did g1) = Graph.nodes g
  /\ Graph.edges (Graph.removeNode did g1) = Graph.edges g.
Proof.
  intros Hcs g Hh Hadd.
  pose proof (run_joined cs Graph.empty Hcs (Forall_nil _)) as WE. fold g in WE.
  unfold Graph.addNode in Hadd. destruct (String.eqb did ""); [discriminate|].
  injection Hadd as <-. unfold Graph.removeNode. cbn [Graph.nodes Graph.edges].
  rewrite jmap_has_set, String.eqb_refl. cbn [orb negb Graph.nodes Graph.edges].
  split; [apply jmap_delete_set_absent, Hh|].
  apply filter_all. intros e He.
  destruct (joined_not_mentioned g did e WE Hh He) as [-> ->]. reflexivity.
Qed.

Lemma removeNode_after_addNode_witness :
  let now := "2024-01-01T00:00:00.000Z" in
  let cs := [ GraphSpec.AddNode now now "did:asset:text:a" [];
              GraphSpec.AddNode now now "did:asset:text:b" [];
              GraphSpec.AddEdge now now "did:asset:text:a" "did:asset:text:b"
                "contains" [] ] in
  let g := GraphSpec.run cs Graph.empty in
  let g1 := GraphSpec.run
              [ GraphSpec.AddNode now now "did:asset:text:c"
                  [("label", VStr "third")] ] g in
  Graph.nodes (Graph.removeNode "did:asset:text:c" g1) = Graph.nodes g
  /\ Graph.edges (Graph.removeNode "did:asset:text:c" g1) = Graph.edges g.
Proof.
  cbv zeta.
  apply (removeNode_after_addNode _ "2024-01-01T00:00:00.000Z"
           "2024-01-01T00:00:00.000Z" _ [("label", VStr "third")]).
  - repeat (constructor; [cbn; repeat split;
                          try (repeat constructor; cbn; intuition discriminate);
                          try discriminate|]).
    constructor.
  - vm_compute. reflexivity.
  - vm_compute. reflexivity.
Defined.

(* ------------------------------------------------------------------ *)
(** ** Relationship graph: the cached projection *)

Section CacheFacts.
Import Graph GraphSpec CacheSpec.

Lemma perform_cache (g : ResourceGraph) (c : call) :
  keeps_flag c = true -> cache_current g -> cache_current (perform g c).
Proof.
  unfold cache_current. intros Hc Hg. destruct c; cbn [perform keeps_flag] in *;
    try discriminate.
  - unfold addNode. destruct (String.eqb did ""); [exact Hg|]. discriminate.
  - destruct (addEdge now1 now2 fromDID toDID relationshipType metadata g)
      as [g1|] eqn:E; [|exact Hg].
    unfold addEdge in E.
    destruct (negb (JMap.has (nodes g) fromDID)); [discriminate|].
    destruct (negb (JMap.has (nodes g) toDID)); [discriminate|].
    destruct (negb (existsb (String.eqb relationshipType) RELATIONSHIP_TYPES));
      [discriminate|].
    injection E as <-. discriminate.
  - unfold removeNode. destruct (negb (JMap.has (nodes g) did)); [exact Hg|].
    discriminate.
  - unfold toPROV.
    destruct (negb (modified g) && truthy (provData g)) eqn:E; cbn [snd];
      [exact Hg|].
    intros _ _. reflexivity.
Qed.

End CacheFacts.

(** X13.  The projection is current when [removeEdge] is not used.  After
    any sequence of [addNode], [addEdge], [removeNode] and [toPROV] calls
    on a new graph, failed calls included, [toPROV] returns the projection
    of the nodes and edges the graph holds at that moment. *)
Theorem toPROV_current (cs : list GraphSpec.call) :
  Forall (fun c => CacheSpec.keeps_flag c = true) cs ->
  fst (Graph.toPROV (GraphSpec.run cs Graph.empty))
  = Graph.project (GraphSpec.run cs Graph.empty).
Proof.
  intros Hcs.
  assert (H : CacheSpec.cache_current (GraphSpec.run cs Graph.empty)).
  { assert (H0 : CacheSpec.cache_current Graph.empty) by (intros _ H; discriminate H).
    revert H0. generalize Graph.empty. unfold GraphSpec.run.
    induction Hcs as [|c cs Hc Hr IH]; intros g Hg; [exact Hg|].
    cbn [fold_left]. apply IH, perform_cache; assumption. }
  unfold Graph.toPROV.
  destruct (negb (Graph.modified (GraphSpec.run cs Graph.empty))
            && truthy (Graph.provData (GraphSpec.run cs Graph.empty))) eqn:E;
    [|reflexivity].
  apply andb_true_iff in E as [E1 E2]. apply negb_true_iff in E1.
  cbn [fst]. apply H; assumption.
Qed.

Lemma toPROV_current_witness :
  let now := "2024-01-01T00:00:00.000Z" in
  let cs := [ GraphSpec.AddNode now now "did:asset:text:a" [];
              GraphSpec.ToPROV;
              GraphSpec.AddNode now now "did:asset:text:b" [];
              GraphSpec.RemoveNode "did:asset:text:c";
              GraphSpec.ToPROV ] in
  fst (Graph.toPROV (GraphSpec.run cs Graph.empty))
  = Graph.project (GraphSpec.run cs Graph.empty).
Proof.
  cbv zeta. apply toPROV_current. repeat constructor.
Defined.

(* ------------------------------------------------------------------ *)
(** ** Relationship graph: path search *)

Section PathFacts.
Import Graph GraphSpec GraphProps.

Variable g : ResourceGraph.
Variable target : value.
Variable ts : option (list string).

Lemma dfs_levels_unfold (n : nat) (current : value) (st : search) :
  dfs_levels g target ts (S n) current st
  = let st1 := {| visited := set_add (visited st) current;
                  path := (path st ++ [current])%list;
                  paths := paths st |} in
    let st2 :=
      if value_eqb current target then
        {| visited := visited st1;
           path := path st1;
           paths := (paths st1 ++ [path st1])%list |}
      else fold_left (explore g target ts n) (getEdges_outgoing g current) st1 in
    {| visited := set_delete (visited st2) current;
       path := removelast (path st2);
       paths := paths st2 |}.
Proof. reflexivity. Qed.

Lemma walk_snoc (p : list value) (x y : value) :
  walk g ts (p ++ [x])%list ->
  (exists edge, In edge (edges g)
                /\ obj_get edge "from" = x /\ obj_get edge "to" = y
                /\ type_allowed ts edge = true) ->
  walk g ts ((p ++ [x]) ++ [y])%list.
Proof.
  intros Hw He. induction p as [|a p IH].
  - cbn. split; [exact He|exact I].
  - destruct p as [|b p].
    + cbn in *. destruct Hw as [Ha _]. split; [exact Ha|]. split; [exact He|exact I].
    + cbn [app walk] in *. destruct Hw as [Ha Hr]. split; [exact Ha|].
      apply IH, Hr.
Qed.

Lemma walk_tail (x : value) (p : list value) :
  walk g ts (x :: p) -> walk g ts p.
Proof. destruct p as [|y p]; [intros; exact I|]. cbn. tauto. Qed.

Lemma outgoing_in (current : value) (edge : obj) :
  In edge (getEdges_outgoing g current) ->
  has_node g current = true
  /\ In edge (edges g) /\ obj_get edge "from" = current.
Proof.
  unfold getEdges_outgoing. destruct (has_node g current); cbn [negb]; [|intros []].
  intros H. apply filter_In in H as [H E]. apply value_eqb_eq in E. auto.
Qed.

(** The state between two edges of the loop of [_dfs]: the path and the
    visited set are those the loop started with. *)
Lemma explore_restores (n : nat) (s0 s : search) (edge : obj) :
  NoDup (path s0) ->
  (forall x, set_has (visited s0) x = true <-> In x (path s0)) ->
  path s = path s0
  /\ (forall x, set_has (visited s) x = set_has (visited s0) x)
  /\ Forall (@NoDup value) (paths s) ->
  path (explore g target ts n s edge) = path s0
  /\ (forall x, set_has (visited (explore g target ts n s edge)) x
                = set_has (visited s0) x)
  /\ Forall (@NoDup value) (paths (explore g target ts n s edge)).
Proof.
  intros Hnd Hvis (Hp & Hv & Hf). unfold explore.
  destruct (negb (set_has (visited s) (obj_get edge "to"))
            && type_allowed ts edge) eqn:Hc; [|auto].
  apply andb_true_iff in Hc as [Hc _]. apply negb_true_iff in Hc.
  destruct (dfs_levels_restores g target ts n (obj_get edge "to") s)
    as (Hp' & Hv' & Hf').
  - unfold search_ok. rewrite Hp. split; [exact Hnd|]. split; [|exact Hf].
    intros x. rewrite Hv. apply Hvis.
  - exact Hc.
  - rewrite Hp'. split; [exact Hp|]. split; [|exact Hf'].
    intros x. rewrite Hv'. apply Hv.
Qed.

Lemma explore_all_restore (n : nat) (s0 : search) (l : list obj) :
  NoDup (path s0) ->
  (forall x, set_has (visited s0) x = true <-> In x (path s0)) ->
  forall s,
    path s = path s0
    /\ (forall x, set_has (visited s) x = set_has (visited s0) x)
    /\ Forall (@NoDup value) (paths s) ->
    path (fold_left (explore g target ts n) l s) = path s0
    /\ (forall x, set_has (visited (fold_left (explore g target ts n) l s)) x
                  = set_has (visited s0) x)
    /\ Forall (@NoDup value) (paths (fold_left (explore g target ts n) l s)).
Proof.
  intros Hnd Hvis. induction l as [|e l IH]; intros s Hs; [exact Hs|].
  cbn [fold_left]. apply IH, explore_restores; assumption.
Qed.

Lemma dfs_levels_grows (levels : nat) :
  forall (current : value) (st : search) (p : list value),
    In p (paths st) -> In p (paths (dfs_levels g target ts levels current st)).
Proof.
  induction levels as [|n IH]; intros current st p Hp; [exact Hp|].
  rewrite dfs_levels_unfold. cbv zeta. cbn [paths].
  destruct (value_eqb current target); cbn [paths].
  - apply in_or_app. left. exact Hp.
  - apply (fold_left_invariant (fun s => In p (paths s))); [|exact Hp].
    intros s e _ Hs. unfold explore.
    destruct (negb (set_has (visited s) (obj_get e "to")) && type_allowed ts e);
      [apply IH, Hs|exact Hs].
Qed.

Lemma explore_all_grow (n : nat) (l : list obj) (p : list value) :
  forall s, In p (paths s) -> In p (paths (fold_left (explore g target ts n) l s)).
Proof.
  induction l as [|e l IH]; intros s Hs; [exact Hs|].
  cbn [fold_left]. apply IH. unfold explore.
  destruct (negb (set_has (visited s) (obj_get e "to")) && type_allowed ts e);
    [apply dfs_levels_grows, Hs|exact Hs].
Qed.

Lemma search_ok_step (st : search) (current : value) :
  search_ok st ->
  set_has (visited st) current = false ->
  NoDup (path st ++ [current])%list
  /\ (forall x, set_has (set_add (visited st) current) x = true
                <-> In x (path st ++ [current])%list).
Proof.
  intros (Hnd & Hvis & _) Hfresh.
  assert (Hnotin : ~ In current (path st)).
  { intros H. apply Hvis in H. congruence. }
  split.
  - apply NoDup_app; [exact Hnd|repeat constructor; simpl; tauto|].
    intros x Hx [<-|[]]. contradiction.
  - intros x. rewrite set_has_add, orb_true_iff, value_eqb_eq, in_app_iff, Hvis.
    simpl. intuition.
Qed.

Variable start : value.
Variable bound : nat.

Lemma dfs_levels_sound (levels : nat) :
  forall (current : value) (st : search),
    search_ok st ->
    set_has (visited st) current = false ->
    (exists rest, (path st ++ [current])%list = start :: rest) ->
    walk g ts (path st ++ [current])%list ->
    Forall (fun x => has_node g x = true) (path st) ->
    (List.length (path st) + levels <= bound)%nat ->
    Forall (fun p => route g ts start target p
                     /\ (List.length p <= bound)%nat) (paths st) ->
    Forall (fun p => route g ts start target p
                     /\ (List.length p <= bound)%nat)
           (paths (dfs_levels g target ts levels current st)).
Proof.
  induction levels as [|n IH];
    intros current st Hok Hfresh Hstart Hwalk Hnodes Hlen Hgood; [exact Hgood|].
  destruct (search_ok_step st current Hok Hfresh) as [Hnd1 Hvis1].
  rewrite dfs_levels_unfold. cbv zeta. cbn [paths visited path].
  destruct (value_eqb current target) eqn:Ect; cbn [paths].
  - apply value_eqb_eq in Ect. subst current.
    apply Forall_app. split; [exact Hgood|]. constructor; [|constructor].
    split.
    + split; [exact Hstart|]. split; [apply last_last|]. split; [exact Hwalk|].
      rewrite removelast_last. exact Hnodes.
    + rewrite length_app. cbn [List.length]. lia.
  - set (st1 := {| visited := set_add (visited st) current;
                   path := (path st ++ [current])%list;
                   paths := paths st |}).
    set (good := fun p => route g ts start target p
                          /\ (List.length p <= bound)%nat).
    assert (HJ : forall l s,
               (forall e, In e l -> In e (getEdges_outgoing g current)) ->
               (path s = path st1
                /\ (forall x, set_has (visited s) x = set_has (visited st1) x)
                /\ Forall (@NoDup value) (paths s))
               /\ Forall good (paths s) ->
               Forall good (paths (fold_left (explore g target ts n) l s))).
    { induction l as [|e l IHl]; intros s Hl [Hs Hg]; [exact Hg|].
      cbn [fold_left]. apply IHl; [intros e' He'; apply Hl; right; exact He'|].
      split; [apply (explore_restores n st1); assumption|].
      destruct Hs as (Hp & Hv & Hf). unfold explore.
      destruct (negb (set_has (visited s) (obj_get e "to"))
                && type_allowed ts e) eqn:Hc; [|exact Hg].
      apply andb_true_iff in Hc as [Hc Hty]. apply negb_true_iff in Hc.
      destruct (outgoing_in current e (Hl e (or_introl eq_refl)))
        as (Hcur & Hin & Hfrom).
      apply IH.
      - unfold search_ok. rewrite Hp. split; [exact Hnd1|]. split; [|exact Hf].
        intros x. rewrite Hv. apply Hvis1.
      - exact Hc.
      - rewrite Hp. cbn [path st1]. destruct Hstart as [rest Hrest].
        rewrite Hrest. eexists. reflexivity.
      - rewrite Hp. cbn [path st1]. apply walk_snoc; [exact Hwalk|].
        exists e. auto.
      - rewrite Hp. cbn [path st1]. apply Forall_app. split; [exact Hnodes|].
        constructor; [exact Hcur|constructor].
      - rewrite Hp. cbn [path st1]. rewrite length_app. cbn [List.length]. lia.
      - exact Hg. }
    apply HJ; [auto|]. split; [|exact Hgood].
    destruct Hok as (_ & _ & Hf). repeat split; auto.
Qed.

Lemma last_in_tail (x : value) (rest : list value) (d : value) :
  rest <> [] -> In (last (x :: rest) d) rest.
Proof.
  revert x. induction rest as [|y r IH]; intros x Hne; [contradiction|].
  destruct r as [|z r]; [left; reflexivity|].
  right. apply (IH y). discriminate.
Qed.

Lemma dfs_levels_complete (levels : nat) :
  forall (current : value) (st : search) (rest : list value),
    search_ok st ->
    NoDup (path st ++ current :: rest)%list ->
    last (current :: rest) current = target ->
    walk g ts (current :: rest) ->
    Forall (fun x => has_node g x = true) (removelast (current :: rest)) ->
    (List.length (current :: rest) <= levels)%nat ->
    In (path st ++ current :: rest)%list
       (paths (dfs_levels g target ts levels current st)).
Proof.
  induction levels as [|n IH];
    intros current st rest Hok Hnd Hlast Hwalk Hnodes Hlen;
    [cbn [List.length] in Hlen; lia|].
  assert (Hfresh : set_has (visited st) current = false).
  { destruct (set_has (visited st) current) eqn:E; [|reflexivity].
    destruct Hok as (_ & Hvis & _). apply Hvis in E.
    apply NoDup_remove_2 in Hnd. exfalso. apply Hnd, in_or_app. left. exact E. }
  destruct (search_ok_step st current Hok Hfresh) as [Hnd1 Hvis1].
  rewrite dfs_levels_unfold. cbv zeta. cbn [paths visited path].
  destruct (value_eqb current target) eqn:Ect; cbn [paths].
  - apply value_eqb_eq in Ect.
    assert (rest = []) as ->.
    { destruct rest as [|y r]; [reflexivity|]. exfalso.
      assert (Hin : In (last (current :: y :: r) current) (y :: r))
        by (apply last_in_tail; discriminate).
      rewrite Hlast, <- Ect in Hin.
      apply NoDup_remove_2 in Hnd. apply Hnd, in_or_app. right. exact Hin. }
    apply in_or_app. right. left. reflexivity.
  - destruct rest as [|y rest].
    { cbn in Hlast. rewrite <- Hlast, value_eqb_refl in Ect. discriminate. }
    destruct Hwalk as [(e & Hin & Hfrom & Hto & Hty) Hwalk]. subst current y.
    cbn [removelast] in Hnodes. apply Forall_cons_iff in Hnodes as [Hcur Hnodes'].
    assert (He : In e (getEdges_outgoing g (obj_get e "from"))).
    { unfold getEdges_outgoing. rewrite Hcur. cbn [negb].
      apply filter_In. split; [exact Hin|apply value_eqb_refl]. }
    apply in_split in He as (l1 & l2 & Hl). rewrite Hl.
    set (st1 := {| visited := set_add (visited st) (obj_get e "from");
                   path := (path st ++ [obj_get e "from"])%list;
                   paths := paths st |}).
    rewrite fold_left_app. cbn [fold_left]. apply explore_all_grow.
    destruct (explore_all_restore n st1 l1 Hnd1 Hvis1 st1) as (Hp & Hv & Hf).
    { destruct Hok as (_ & _ & Hf). repeat split; auto. }
    set (s := fold_left (explore g target ts n) l1 st1) in *.
    assert (Hnd' : NoDup ((path st ++ [obj_get e "from"]) ++ obj_get e "to" :: rest)%list).
    { rewrite <- app_assoc. exact Hnd. }
    assert (Hy : set_has (visited s) (obj_get e "to") = false).
    { destruct (set_has (visited s) (obj_get e "to")) eqn:E; [|reflexivity].
      rewrite Hv in E. apply Hvis1 in E.
      apply NoDup_remove_2 in Hnd'. exfalso. apply Hnd', in_or_app. left. exact E. }
    unfold explore at 1. rewrite Hy, Hty. cbn [negb andb].
    replace (path st ++ obj_get e "from" :: obj_get e "to" :: rest)%list
      with (path s ++ obj_get e "to" :: rest)%list
      by (rewrite Hp; cbn [path st1]; rewrite <- app_assoc; reflexivity).
    apply IH.
    + unfold search_ok. rewrite Hp. split; [exact Hnd1|]. split; [|exact Hf].
      intros x. rewrite Hv. apply Hvis1.
    + rewrite Hp. exact Hnd'.
    + rewrite <- Hlast. symmetry.
      change (last (obj_get e "to" :: rest) (obj_get e "from")
              = last (obj_get e "to" :: rest) (obj_get e "to")).
      apply last_cons_any.
    + exact Hwalk.
    + exact Hnodes'.
    + cbn [List.length] in *. lia.
Qed.

End PathFacts.

(** X15.  What [findPaths] returns is a path.  Every list in the result of
    [findPaths(start, end, options)] begins with [start], ends with [end],
    joins each node to the next by an edge of the graph from the first to
    the second whose type [options.relationshipTypes] allows, passes only
    through nodes of the graph, and has at most [options.maxDepth || 5]
    edges. *)
Theorem findPaths_sound (g : Graph.ResourceGraph) (startDID endDID : string)
    (maxDepth : option Z) (relationshipTypes : option (list string))
    (p : list value) :
  In p (Graph.findPaths g startDID endDID maxDepth relationshipTypes) ->
  JMap.has (Graph.nodes g) startDID = true
  /\ JMap.has (Graph.nodes g) endDID = true
  /\ GraphProps.route g relationshipTypes (VStr startDID) (VStr endDID) p
  /\ (Z.of_nat (List.length p) <= GraphProps.max_edges maxDepth + 1)%Z.
Proof.
  unfold Graph.findPaths.
  destruct (JMap.has (Graph.nodes g) startDID) eqn:Hs; cbn [negb orb]; [|intros []].
  destruct (JMap.has (Graph.nodes g) endDID) eqn:Ht; cbn [negb]; [|intros []].
  intros Hin. split; [reflexivity|]. split; [reflexivity|].
  unfold Graph._dfs in Hin.
  pose proof (dfs_levels_sound g (VStr endDID) relationshipTypes (VStr startDID)
                (Z.to_nat (GraphProps.max_edges maxDepth + 1))
                (Z.to_nat (GraphProps.max_edges maxDepth + 1)) (VStr startDID)
                {| Graph.visited := []; Graph.path := []; Graph.paths := [] |})
    as H.
  cbn [Graph.path Graph.paths Graph.visited app List.length] in H.
  assert (Hall : Forall
                   (fun p => GraphProps.route g relationshipTypes (VStr startDID)
                               (VStr endDID) p
                             /\ (List.length p
                                 <= Z.to_nat (GraphProps.max_edges maxDepth + 1))%nat)
                   (Graph.paths
                      (Graph.dfs_levels g (VStr endDID) relationshipTypes
                         (Z.to_nat (GraphProps.max_edges maxDepth + 1))
                         (VStr startDID)
                         {| Graph.visited := []; Graph.path := [];
                            Graph.paths := [] |}))).
  { apply H.
    - repeat split; simpl; try constructor; try discriminate; tauto.
    - reflexivity.
    - eexists. reflexivity.
    - exact I.
    - constructor.
    - lia.
    - constructor. }
  rewrite Forall_forall in Hall. destruct (Hall p Hin) as [Hr Hl].
  split; [exact Hr|]. destruct Hr as ([rest ->] & _). cbn [List.length] in *. lia.
Qed.

Lemma findPaths_sound_witness :
  let now := "2024-01-01T00:00:00.000Z" in
  let g := GraphSpec.run
    [ GraphSpec.AddNode now now "A" []; GraphSpec.AddNode now now "B" [];
      GraphSpec.AddNode now now "C" [];
      GraphSpec.AddEdge now now "A" "B" "used" [];
      GraphSpec.AddEdge now now "B" "A" "uses" [];
      GraphSpec.AddEdge now now "B" "C" "wasGeneratedBy" [];
      GraphSpec.AddEdge now now "A" "C" "contains" [] ] Graph.empty in
  JMap.has (Graph.nodes g) "A" = true
  /\ JMap.has (Graph.nodes g) "C" = true
  /\ GraphProps.route g None (VStr "A") (VStr "C") [VStr "A"; VStr "B"; VStr "C"]
  /\ (Z.of_nat (List.length [VStr "A"; VStr "B"; VStr "C"])
      <= GraphProps.max_edges (Some 2%Z) + 1)%Z.
Proof.
  cbv zeta. apply findPaths_sound. vm_compute. left. reflexivity.
Defined.

(** X16.  [findPaths] misses no path.  When the graph holds [start] and
    [end], every list of distinct nodes that begins with [start], ends
    with [end], joins each node to the next by an edge of an allowed type,
    passes only through nodes of the graph and has at most
    [options.maxDepth || 5] edges is in the result. *)
Theorem findPaths_complete (g : Graph.ResourceGraph) (startDID endDID : string)
    (maxDepth : option Z) (relationshipTypes : option (list string))
    (p : list value) :
  JMap.has (Graph.nodes g) startDID = true ->
  JMap.has (Graph.nodes g) endDID = true ->
  GraphProps.route g relationshipTypes (VStr startDID) (VStr endDID) p ->
  NoDup p ->
  (Z.of_nat (List.length p) <= GraphProps.max_edges maxDepth + 1)%Z ->
  In p (Graph.findPaths g startDID endDID maxDepth relationshipTypes).
Proof.
  intros Hs Ht ([rest ->] & Hlast & Hwalk & Hnodes) Hnd Hlen.
  unfold Graph.findPaths. rewrite Hs, Ht. cbn [negb orb]. unfold Graph._dfs.
  apply (dfs_levels_complete g (VStr endDID) relationshipTypes
           (Z.to_nat (GraphProps.max_edges maxDepth + 1)) (VStr startDID)
           {| Graph.visited := []; Graph.path := []; Graph.paths := [] |} rest).
  - repeat split; simpl; try constructor; try discriminate; tauto.
  - exact Hnd.
  - exact Hlast.
  - exact Hwalk.
  - exact Hnodes.
  - lia.
Qed.

Lemma findPaths_complete_witness :
  let now := "2024-01-01T00:00:00.000Z" in
  let g := GraphSpec.run
    [ GraphSpec.AddNode now now "A" []; GraphSpec.AddNode now now "B" [];
      GraphSpec.AddNode now now "C" [];
      GraphSpec.AddEdge now now "A" "B" "used" [];
      GraphSpec.AddEdge now now "B" "A" "uses" [];
      GraphSpec.AddEdge now now "B" "C" "wasGeneratedBy" [];
      GraphSpec.AddEdge now now "A" "C" "contains" [] ] Graph.empty in
  In [VStr "A"; VStr "B"; VStr "C"] (Graph.findPaths g "A" "C" (Some 2%Z) None).
Proof.
  cbv zeta. apply findPaths_complete.
  - reflexivity.
  - reflexivity.
  - split; [eexists; reflexivity|]. split; [reflexivity|]. split.
    + cbn [GraphProps.walk]. split; [|split; [|exact I]].
      * eexists. split; [vm_compute; left; reflexivity|]. repeat split.
      * eexists. split; [vm_compute; right; right; left; reflexivity|].
        repeat split.
    + repeat constructor.
  - repeat constructor; cbn; intuition discriminate.
  - vm_compute. discriminate.
Defined.

(** X17.  A path from a node to itself.  For a node of the graph,
    [findPaths(did, did, options)] is the single one-node path, whatever
    edges the graph has: no cycle through the node is reported.  With a
    negative [options.maxDepth] the result is empty. *)
Theorem findPaths_self (g : Graph.ResourceGraph) (did : string)
    (maxDepth : option Z) (relationshipTypes : option (list string)) :
  JMap.has (Graph.nodes g) did = true ->
  Graph.findPaths g did did maxDepth relationshipTypes
  = if (GraphProps.max_edges maxDepth <? 0)%Z then [] else [[VStr did]].
Proof.
  intros Hh. unfold Graph.findPaths. rewrite Hh. cbn [negb orb].
  rewrite _dfs_equation. fold (GraphProps.max_edges maxDepth).
  destruct (GraphProps.max_edges maxDepth <? 0)%Z; [reflexivity|].
  cbv zeta. cbn [value_eqb]. rewrite String.eqb_refl. reflexivity.
Qed.

Lemma findPaths_self_witness :
  let now := "2024-01-01T00:00:00.000Z" in
  let g := GraphSpec.run
    [ GraphSpec.AddNode now now "A" []; GraphSpec.AddNode now now "B" [];
      GraphSpec.AddEdge now now "A" "B" "used" [];
      GraphSpec.AddEdge now now "B" "A" "uses" [] ] Graph.empty in
  Graph.findPaths g "A" "A" (Some 3%Z) None
  = if (GraphProps.max_edges (Some 3%Z) <? 0)%Z then [] else [[VStr "A"]].
Proof.
  cbv zeta. apply findPaths_self. reflexivity.
Defined.

(* ------------------------------------------------------------------ *)
(** ** Relationship graph: the JSON form *)

Section SpreadFacts.

Lemma obj_set_middle (done rest : obj) (k : string) (v0 v : value) :
  obj_has done k = false ->
  obj_set (done ++ (k, v0) :: rest)%list k v = (done ++ (k, v) :: rest)%list.
Proof.
  induction done as [|[k' v'] r IH]; cbn [app obj_set obj_has].
  - intros _. rewrite String.eqb_refl. reflexivity.
  - destruct (String.eqb k' k); [discriminate|].
    intros H. rewrite IH by exact H. reflexivity.
Qed.

Lemma obj_has_keys_not_in (o : obj) (k : string) :
  ~ In k (obj_keys o) -> obj_has o k = false.
Proof.
  intros H. destruct (obj_has o k) eqn:E; [|reflexivity].
  apply obj_has_in in E. contradiction.
Qed.

(** Spreading an object over one that has the same keys in the same order
    gives the object spread. *)
Lemma spread_same_keys (n : obj) :
  forall done base,
    NoDup (obj_keys (done ++ n)%list) ->
    obj_keys base = obj_keys n ->
    spread (done ++ base)%list n = (done ++ n)%list.
Proof.
  unfold spread.
  induction n as [|[k v] r IH]; intros done base Hnd Hk.
  - destruct base; [reflexivity|discriminate].
  - destruct base as [|[k0 v0] b]; [discriminate|].
    cbn [obj_keys map fst] in Hk. injection Hk as -> Hk.
    cbn [fold_left fst snd]. rewrite obj_set_middle.
    + change (done ++ (k, v) :: b)%list with (done ++ [(k, v)] ++ b)%list.
      change (done ++ (k, v) :: r)%list with (done ++ [(k, v)] ++ r)%list.
      rewrite !app_assoc. apply IH; [|exact Hk].
      rewrite <- app_assoc. exact Hnd.
    + apply obj_has_keys_not_in. unfold obj_keys in *. rewrite map_app in Hnd.
      apply NoDup_remove_2 in Hnd. intros H. apply Hnd, in_or_app. left. exact H.
Qed.

Lemma spread_new_keys (n : obj) :
  forall a, NoDup (obj_keys (a ++ n)%list) -> spread a n = (a ++ n)%list.
Proof.
  unfold spread. induction n as [|[k v] r IH]; intros a Hnd.
  - rewrite app_nil_r. reflexivity.
  - cbn [fold_left fst snd]. rewrite obj_set_absent.
    + change (a ++ (k, v) :: r)%list with (a ++ [(k, v)] ++ r)%list.
      rewrite app_assoc. apply IH. rewrite <- app_assoc. exact Hnd.
    + apply obj_has_keys_not_in. unfold obj_keys in *. rewrite map_app in Hnd.
      apply NoDup_remove_2 in Hnd. intros H. apply Hnd, in_or_app. left. exact H.
Qed.

Lemma spread_app (a b c : obj) : spread a (b ++ c)%list = spread (spread a b) c.
Proof. unfold spread. apply fold_left_app. Qed.

Lemma keys_split (p : list string) (n : obj) (rest : list string) :
  obj_keys n = (p ++ rest)%list ->
  exists n1 n2, n = (n1 ++ n2)%list /\ obj_keys n1 = p.
Proof.
  revert n. induction p as [|k p IH]; intros n H.
  - exists [], n. auto.
  - destruct n as [|[k' v] n]; [discriminate|].
    cbn in H. injection H as -> H. destruct (IH n H) as (n1 & n2 & -> & Hk).
    exists ((k, v) :: n1), n2. split; [reflexivity|].
    unfold obj_keys in *. cbn [map fst]. rewrite Hk. reflexivity.
Qed.

(** [{...base, ...n} = n] when the keys of [n] begin with those of
    [base]. *)
Lemma spread_begins (base n : obj) :
  NoDup (obj_keys n) ->
  GraphProps.keys_begin (obj_keys base) n ->
  spread base n = n.
Proof.
  intros Hnd [rest Hk]. destruct (keys_split _ _ _ Hk) as (n1 & n2 & -> & Hk1).
  rewrite spread_app.
  assert (H1 : spread base n1 = n1).
  { apply (spread_same_keys n1 [] base); [|symmetry; exact Hk1].
    cbn [app]. unfold obj_keys in *. rewrite map_app in Hnd.
    apply NoDup_app_remove_r in Hnd. exact Hnd. }
  rewrite H1. apply spread_new_keys, Hnd.
Qed.

End SpreadFacts.

Section JSONFacts.
Import Graph GraphSpec GraphProps GraphJSON.

Variable clock : nat -> string.

Lemma import_nodes_all (ns : list (string * obj)) :
  forall (g0 : ResourceGraph) (n : nat),
    NoDup (map fst (nodes g0 ++ ns)%list) ->
    Forall node_shape ns ->
    ~ In "" (map fst ns) ->
    exists g1 n1,
      fold_left (import_node clock) (map (fun entry => VObj (snd entry)) ns)
        (Some (g0, n)) = Some (g1, n1)
      /\ nodes g1 = (nodes g0 ++ ns)%list
      /\ edges g1 = edges g0.
Proof.
  induction ns as [|[k node] ns IH]; intros g0 n Hnd Hshape Hne.
  - exists g0, n. rewrite app_nil_r. auto.
  - inversion Hshape as [|? ? (N1 & N2 & N3) Hshape']; subst.
    cbn [fst snd] in N1, N2, N3.
    cbn [map fold_left snd]. unfold import_node at 2.
    cbn [read get_prop]. rewrite N3.
    unfold addNode_i, addNode.
    assert (Hk : k <> "") by (intros ->; apply Hne; left; reflexivity).
    apply String.eqb_neq in Hk. rewrite Hk.
    assert (Hh : JMap.has (nodes g0) k = false).
    { destruct (JMap.has (nodes g0) k) eqn:E; [|reflexivity].
      apply jmap_has_in in E. rewrite map_app in Hnd.
      exfalso. revert Hnd E. clear. generalize (map fst (nodes g0)).
      intros l Hnd E. induction l as [|x l IHl]; [destruct E|].
      inversion Hnd; subst. destruct E as [->|E]; [|auto].
      match goal with H : ~ In _ _ |- _ => apply H end.
      apply in_or_app. right. left. reflexivity. }
    rewrite (jmap_get_absent _ _ Hh), (jmap_set_absent _ _ _ Hh).
    cbn [entries].
    rewrite spread_begins; [|exact N1|exact N2].
    destruct (IH {| nodes := (nodes g0 ++ [(k, node)])%list; edges := edges g0;
                    provData := provData g0; modified := true |} (S (S n)))
      as (g1 & n1 & Hf & Hn1 & He1).
    + cbn [nodes]. rewrite <- app_assoc. exact Hnd.
    + exact Hshape'.
    + intros H. apply Hne. right. exact H.
    + exists g1, n1. split; [exact Hf|]. cbn [nodes edges] in Hn1, He1.
      rewrite Hn1, <- app_assoc. auto.
Qed.

Lemma import_edges_all (es : list obj) :
  forall (g0 : ResourceGraph) (n : nat),
    NoDup (map edge_key (edges g0 ++ es)%list) ->
    Forall (edge_wellformed g0) es ->
    Forall edge_shape es ->
    exists g1 n1,
      fold_left (import_edge clock) (map VObj es) (Some (g0, n)) = Some (g1, n1)
      /\ nodes g1 = nodes g0
      /\ edges g1 = (edges g0 ++ es)%list.
Proof.
  induction es as [|e es IH]; intros g0 n Hnd Hwf Hshape.
  - exists g0, n. rewrite app_nil_r. auto.
  - inversion Hwf as [|? ? (s & t & ty & Hk & Hs & Ht & Hty) Hwf']; subst.
    inversion Hshape as [|? ? (E1 & E2) Hshape']; subst.
    unfold edge_key in Hk. injection Hk as Hf Hto Hy.
    cbn [map fold_left]. unfold import_edge at 2.
    cbn [read get_prop]. rewrite Hf, Hto, Hy. cbn [has_node].
    rewrite Hs, Ht. cbn [andb]. unfold addEdge_m, addEdge.
    rewrite Hs, Ht, (in_types ty Hty). cbn [negb entries].
    assert (Hnew : findIndex (edge_is s t ty) (edges g0) = None).
    { destruct (findIndex (edge_is s t ty) (edges g0)) as [i|] eqn:Hi;
        [|reflexivity].
      destruct (findIndex_some _ _ _ Hi) as (old & Hold & Hkey).
      apply nth_error_In in Hold. exfalso.
      rewrite map_app in Hnd. cbn [map] in Hnd. apply NoDup_remove_2 in Hnd.
      apply Hnd, in_or_app. left. apply in_map_iff. exists old.
      split; [|exact Hold]. apply edge_is_key in Hkey. rewrite Hkey.
      unfold edge_key. rewrite Hf, Hto, Hy. reflexivity. }
    rewrite Hnew.
    rewrite spread_begins; [|exact E1|exact E2].
    destruct (IH {| nodes := nodes g0; edges := (edges g0 ++ [e])%list;
                    provData := provData g0; modified := true |} (S (S n)))
      as (g1 & n1 & Hfold & Hn1 & He1).
    + cbn [edges]. rewrite <- app_assoc. exact Hnd.
    + exact Hwf'.
    + exact Hshape'.
    + exists g1, n1. split; [exact Hfold|]. cbn [nodes edges] in Hn1, He1.
      rewrite He1, <- app_assoc. auto.
Qed.

Lemma fromJSON_toJSON_well_built (g : ResourceGraph) :
  well_built g ->
  exists g', fromJSON clock (toJSON g) = Some g'
             /\ nodes g' = nodes g /\ edges g' = edges g.
Proof.
  intros [WK WN WS WE WH WU].
  assert (E : fromJSON clock (toJSON g)
              = option_map fst
                  (fold_left (import_edge clock) (map VObj (edges g))
                     (fold_left (import_node clock)
                        (map (fun entry => VObj (snd entry)) (nodes g))
                        (Some (empty, 0%nat)))))
    by reflexivity.
  rewrite E. clear E.
  destruct (import_nodes_all (nodes g) empty 0) as (g1 & n1 & Hf1 & Hn1 & He1).
  - exact WK.
  - exact WS.
  - intros H. apply jmap_has_in in H. congruence.
  - rewrite Hf1. cbn [nodes edges empty app] in Hn1, He1.
    destruct (import_edges_all (edges g) g1 n1) as (g2 & n2 & Hf2 & Hn2 & He2).
    + rewrite He1. exact WU.
    + apply Forall_impl with (2 := WE). intros e.
      apply edge_wellformed_nodes. intros k. rewrite Hn1. auto.
    + exact WH.
    + rewrite Hf2. exists g2. cbn [option_map fst].
      rewrite Hn2, He2, Hn1, He1. auto.
Qed.

End JSONFacts.

(** X18.  The JSON form round-trips.  For a graph built from the empty one
    by calls whose metadata does not redefine the identifier of the node,
    or the end points and the type of the edge, they are passed for,
    [fromJSON(toJSON(graph))] returns a graph with the same nodes, in the
    same order and with the same properties (timestamps included), and
    the same edges. *)
Theorem fromJSON_toJSON (clock : nat -> string) (cs : list GraphSpec.call) :
  Forall GraphProps.call_plain cs ->
  exists g',
    GraphJSON.fromJSON clock (GraphJSON.toJSON (GraphSpec.run cs Graph.empty))
    = Some g'
    /\ Graph.nodes g' = Graph.nodes (GraphSpec.run cs Graph.empty)
    /\ Graph.edges g' = Graph.edges (GraphSpec.run cs Graph.empty).
Proof.
  intros Hcs. apply fromJSON_toJSON_well_built.
  apply run_well_built; [exact Hcs|apply empty_well_built].
Qed.

Lemma fromJSON_toJSON_witness :
  let now := "2024-01-01T00:00:00.000Z" in
  let cs := [ GraphSpec.AddNode now now "did:asset:text:a" [("label", VStr "A")];
              GraphSpec.AddNode now now "did:asset:text:b" [];
              GraphSpec.AddEdge now now "did:asset:text:a" "did:asset:text:b"
                "contains" [("weight", VNum 1)];
              GraphSpec.AddEdge now now "did:asset:text:a" "did:asset:text:b"
                "contains" [("weight", VNum 2)] ] in
  exists g',
    GraphJSON.fromJSON (fun _ => "2025-05-05T00:00:00.000Z")
      (GraphJSON.toJSON (GraphSpec.run cs Graph.empty)) = Some g'
    /\ Graph.nodes g' = Graph.nodes (GraphSpec.run cs Graph.empty)
    /\ Graph.edges g' = Graph.edges (GraphSpec.run cs Graph.empty).
Proof.
  cbv zeta. apply fromJSON_toJSON.
  repeat (constructor; [cbn; repeat split;
                        try (repeat constructor; cbn; intuition discriminate);
                        try discriminate|]).
  constructor.
Defined.

(* ------------------------------------------------------------------ *)
(** ** Relationship graph: related resources *)

Section RelatedFacts.
Import Graph GraphSpec GraphProps GraphQuery.

Variable g : ResourceGraph.
Variable direction : string.
Variable ts : list string.

Lemma map_opt_all {A B : Type} (f : A -> option B) (P : A -> B -> Prop)
    (l : list A) :
  (forall x, In x l -> exists y, f x = Some y /\ P x y) ->
  exists r, map_opt f l = Some r
            /\ Forall (fun y => exists x, In x l /\ P x y) r.
Proof.
  induction l as [|x l IH]; intros H.
  - exists []. split; [reflexivity|constructor].
  - destruct (H x (or_introl eq_refl)) as (y & Hy & Py).
    destruct IH as (r & Hr & Pr); [intros x' Hx'; apply H; right; exact Hx'|].
    exists (y :: r). cbn [map_opt]. rewrite Hy, Hr. split; [reflexivity|].
    constructor; [exists x; split; [left; reflexivity|exact Py]|].
    apply Forall_impl with (2 := Pr). intros b (a & Ha & Pa).
    exists a. split; [right; exact Ha|exact Pa].
Qed.

Lemma find_present {A : Type} (p : A -> bool) (l : list A) (x : A) :
  In x l -> p x = true -> exists y, find p l = Some y.
Proof.
  induction l as [|a l IH]; [intros []|].
  intros [<-|Hx] Hp; cbn [find].
  - rewrite Hp. eauto.
  - destruct (p a); [eauto|apply IH; assumption].
Qed.

Lemma related_entry_found (es : list obj) (e : obj) :
  In e es ->
  exists entry,
    related_entry g direction es (far_end direction e) = Some entry
    /\ related_to g (far_end direction e) entry.
Proof.
  intros He. unfold related_entry.
  destruct (find_present
              (fun e0 => value_eqb (far_end direction e0) (far_end direction e))
              es e He (value_eqb_refl _)) as [r ->].
  eexists. split; [reflexivity|]. eexists. left. reflexivity.
Qed.

Lemma add_transitive_related (n : nat) (x : value) (tr : value)
    (result : list value) :
  Forall (fun entry => exists y, linked g direction ts n x y
                                 /\ related_to g y entry) result ->
  (exists y, linked g direction ts n x y /\ related_to g y tr) ->
  Forall (fun entry => exists y, linked g direction ts n x y
                                 /\ related_to g y entry)
         (add_transitive result tr).
Proof.
  intros Hr (y & Hl & [rel [-> | ->]]); unfold add_transitive;
    match goal with |- context [existsb ?p result] => destruct (existsb p result) end;
    try exact Hr;
    (apply Forall_app; split; [exact Hr|]; constructor; [|constructor];
     exists y; split; [exact Hl|]; exists rel; right; reflexivity).
Qed.

Lemma related_levels_sound (transitive : bool) (levels : nat) :
  forall did,
  exists result,
    related_levels g direction ts transitive levels did = Some result
    /\ Forall (fun entry =>
                 exists y, linked g direction ts
                             (if transitive then levels else 1%nat) did y
                           /\ related_to g y entry) result.
Proof.
  induction levels as [|n IH]; intros did; cbn [related_levels];
    destruct (negb (has_node g did)); try (exists []; split; [reflexivity|constructor]).
  set (es := filter (fun edge => value_eqb (near_end direction edge) did
                                 && includes_type ts edge) (edges g)).
  assert (Hes : forall e, In e es ->
                          In e (edges g) /\ near_end direction e = did
                          /\ includes_type ts e = true).
  { intros e He. apply filter_In in He as [He Hc].
    apply andb_true_iff in Hc as [Hc1 Hc2]. apply value_eqb_eq in Hc1. auto. }
  assert (Hstep : forall m e, In e es ->
                              linked g direction ts (S m) did (far_end direction e)).
  { intros m e He. destruct (Hes e He) as (H1 & H2 & H3).
    eapply linked_step; eauto. }
  destruct (map_opt_all (related_entry g direction es)
              (fun y entry => related_to g y entry /\ In y (map (far_end direction) es))
              (map (far_end direction) es)) as (result & Hres & Hall).
  { intros y Hy. pose proof Hy as Hy'. apply in_map_iff in Hy as (e & <- & He).
    destruct (related_entry_found es e He) as (entry & H1 & H2). eauto. }
  rewrite Hres.
  assert (Hdirect : forall m,
             Forall (fun entry => exists y, linked g direction ts (S m) did y
                                            /\ related_to g y entry) result).
  { intros m. apply Forall_impl with (2 := Hall).
    intros entry (y & _ & Hrel & Hy). apply in_map_iff in Hy as (e & <- & He).
    exists (far_end direction e). split; [apply Hstep, He|exact Hrel]. }
  destruct transitive; cbn [andb]; [|exists result; split; [reflexivity|apply Hdirect]].
  destruct (1 <? S n)%nat; [|exists result; split; [reflexivity|apply Hdirect]].
  destruct (map_opt_all (related_levels g direction ts true n)
              (fun y r => Forall (fun entry =>
                                    exists z, linked g direction ts (S n) did z
                                              /\ related_to g z entry) r)
              (map (far_end direction) es)) as (deeper & Hdeep & Hdall).
  { intros y Hy. apply in_map_iff in Hy as (e & <- & He).
    destruct (IH (far_end direction e)) as (r & Hr & Hrall).
    exists r. split; [exact Hr|].
    apply Forall_impl with (2 := Hrall). intros entry (z & Hl & Hrel).
    exists z. split; [|exact Hrel].
    destruct (Hes e He) as (H1 & H2 & H3).
    eapply linked_more; eauto. }
  rewrite Hdeep. eexists. split; [reflexivity|].
  assert (Hcat : Forall (fun entry => exists z, linked g direction ts (S n) did z
                                                /\ related_to g z entry)
                        (List.concat deeper)).
  { apply Forall_concat. apply Forall_impl with (2 := Hdall).
    intros r (y & _ & Hr). exact Hr. }
  specialize (Hdirect n). revert Hdirect. generalize result.
  induction Hcat as [|tr trs Htr Htrs IHc]; intros res Hres'; [exact Hres'|].
  cbn [fold_left]. apply IHc, add_transitive_related; assumption.
Qed.

End RelatedFacts.

(** X19.  Related resources are related.  [_findRelatedResources], and so
    [findDerivedResources], [findDependencies] and [findComponents], never
    throws: the relationship it looks up for a related resource is always
    found.  Every entry of its result names a resource that is reached
    from [did] in the given direction by at least one edge of the listed
    types and at most [options.maxDepth || 1] of them (one, when
    [options.transitive] is not set), together with the node the graph
    holds for it. *)
Theorem findRelated_sound (g : Graph.ResourceGraph) (did : value)
    (direction : string) (relationshipTypes : list string)
    (maxDepth : option Z) (transitive : bool) :
  exists result,
    GraphQuery._findRelatedResources g did direction relationshipTypes
      maxDepth transitive = Some result
    /\ Forall (fun entry =>
                 GraphProps.linked g direction relationshipTypes
                   (if transitive
                    then Z.to_nat (GraphProps.max_levels maxDepth) else 1%nat)
                   did (get_prop entry "did")
                 /\ get_prop entry "node"
                    = GraphQuery.getNode g (get_prop entry "did")) result.
Proof.
  unfold GraphQuery._findRelatedResources.
  destruct (related_levels_sound g direction relationshipTypes transitive
              (Z.to_nat (GraphProps.max_levels maxDepth)) did)
    as (result & Hres & Hall).
  exists result. split; [exact Hres|].
  apply Forall_impl with (2 := Hall).
  intros entry (y & Hl & [rel [-> | ->]]); split; solve [exact Hl|reflexivity].
Qed.

Section RelatedComplete.
Import Graph GraphSpec GraphProps GraphQuery.

Variable g : ResourceGraph.
Variable direction : string.
Variable ts : list string.
Hypothesis joined : Forall (edge_wellformed g) (edges g).

Lemma map_opt_in {A B : Type} (f : A -> option B) (l : list A) :
  forall r, map_opt f l = Some r ->
            forall x, In x l -> exists y, In y r /\ f x = Some y.
Proof.
  induction l as [|a l IH]; intros r Hr x Hx; [destruct Hx|].
  cbn [map_opt] in Hr. destruct (f a) as [b|] eqn:Ea; [|discriminate].
  destruct (map_opt f l) as [bs|]; [|discriminate].
  injection Hr as <-. destruct Hx as [<-|Hx].
  - exists b. split; [left; reflexivity|exact Ea].
  - destruct (IH bs eq_refl x Hx) as (y & Hy & Ey).
    exists y. split; [right; exact Hy|exact Ey].
Qed.

Lemma related_entry_shape (es : list obj) (y entry : value) :
  related_entry g direction es y = Some entry -> related_to g y entry.
Proof.
  unfold related_entry.
  destruct (find (fun e => value_eqb (far_end direction e) y) es);
    [|discriminate].
  intros E. injection E as <-. eexists. left. reflexivity.
Qed.

Lemma related_to_did (y entry : value) :
  related_to g y entry -> get_prop entry "did" = y.
Proof. intros [rel [-> | ->]]; reflexivity. Qed.

Lemma add_transitive_keeps (res : list value) (tr entry : value) :
  In entry res -> In entry (add_transitive res tr).
Proof.
  intros H. unfold add_transitive.
  match goal with |- context [existsb ?p res] => destruct (existsb p res) end;
    [exact H|apply in_or_app; left; exact H].
Qed.

Lemma add_transitive_has (res : list value) (tr z : value) :
  Forall (fun e => exists y, related_to g y e) res ->
  related_to g z tr ->
  exists entry, In entry (add_transitive res tr) /\ related_to g z entry.
Proof.
  intros Hres Htr. unfold add_transitive.
  rewrite (related_to_did z tr Htr).
  destruct (existsb (fun r => value_eqb (get_prop r "did") z) res) eqn:E.
  - apply existsb_exists in E as (r & Hr & Ez). apply value_eqb_eq in Ez.
    rewrite Forall_forall in Hres. destruct (Hres r Hr) as [y Hy].
    rewrite (related_to_did y r Hy) in Ez. subst y. eauto.
  - eexists. split; [apply in_or_app; right; left; reflexivity|].
    destruct Htr as [rel [-> | ->]]; exists rel; right; reflexivity.
Qed.

Lemma add_transitive_shape (res : list value) (tr : value) :
  Forall (fun e => exists y, related_to g y e) res ->
  (exists y, related_to g y tr) ->
  Forall (fun e => exists y, related_to g y e) (add_transitive res tr).
Proof.
  intros Hres [y Hy]. unfold add_transitive.
  match goal with |- context [existsb ?p res] => destruct (existsb p res) end;
    [exact Hres|].
  apply Forall_app. split; [exact Hres|]. constructor; [|constructor].
  exists y. destruct Hy as [rel [-> | ->]]; exists rel; right; reflexivity.
Qed.

Lemma fold_add_transitive_has (trs : list value) (z : value) :
  forall res,
    Forall (fun e => exists y, related_to g y e) res ->
    Forall (fun e => exists y, related_to g y e) trs ->
    (exists entry, In entry res /\ related_to g z entry)
    \/ (exists tr, In tr trs /\ related_to g z tr) ->
    exists entry, In entry (fold_left add_transitive trs res)
                  /\ related_to g z entry.
Proof.
  induction trs as [|tr trs IH]; intros res Hres Htrs H.
  - destruct H as [H|(tr & [] & _)]. exact H.
  - inversion Htrs as [|? ? Htr Htrs']; subst. cbn [fold_left].
    apply IH; [apply add_transitive_shape; assumption|exact Htrs'|].
    destruct H as [(entry & He & Hz)|(tr' & [<-|Hin] & Hz)].
    + left. exists entry. split; [apply add_transitive_keeps, He|exact Hz].
    + left. apply add_transitive_has; assumption.
    + right. eauto.
Qed.

Lemma linked_near_node (n : nat) (x y : value) :
  linked g direction ts n x y -> has_node g x = true.
Proof.
  assert (H : forall e, In e (edges g) ->
                        has_node g (near_end direction e) = true).
  { intros e He. rewrite Forall_forall in joined.
    destruct (joined e He) as (s & t & ty & Hk & Hs & Ht & _).
    unfold edge_key in Hk. injection Hk as Hf Hto _. unfold near_end.
    destruct (String.eqb direction "outgoing"); [rewrite Hf|rewrite Hto];
      assumption. }
  intros [? ? ? e He <- _ _|? ? ? ? e He <- _ _ _]; apply H, He.
Qed.

Lemma related_levels_complete (levels : nat) :
  forall did z result,
    related_levels g direction ts true levels did = Some result ->
    linked g direction ts levels did z ->
    exists entry, In entry result /\ related_to g z entry.
Proof.
  induction levels as [|n IH]; intros did z result Hres Hl; [inversion Hl|].
  cbn [related_levels] in Hres.
  rewrite (linked_near_node _ _ _ Hl) in Hres. cbn [negb andb] in Hres.
  set (es := filter (fun edge => value_eqb (near_end direction edge) did
                                 && includes_type ts edge) (edges g)) in *.
  assert (Hes : forall e, In e (edges g) -> near_end direction e = did ->
                          includes_type ts e = true ->
                          In (far_end direction e) (map (far_end direction) es)).
  { intros e He Hn Hi. apply in_map, filter_In. split; [exact He|].
    rewrite Hn, value_eqb_refl, Hi. reflexivity. }
  destruct (map_opt (related_entry g direction es) (map (far_end direction) es))
    as [direct|] eqn:Hdirect; [|discriminate].
  assert (Hshape : Forall (fun e => exists y, related_to g y e) direct).
  { destruct (map_opt_all (related_entry g direction es)
                (fun y entry => related_to g y entry)
                (map (far_end direction) es)) as (r & Hr & Hall).
    - intros y Hy. apply in_map_iff in Hy as (e & <- & He).
      destruct (related_entry_found g direction es e He) as (entry & H1 & H2).
      eauto.
    - rewrite Hdirect in Hr. injection Hr as <-.
      apply Forall_impl with (2 := Hall). intros e (y & _ & Hy). eauto. }
  assert (Hone : forall e, In e (edges g) -> near_end direction e = did ->
                           includes_type ts e = true ->
                           exists entry, In entry direct
                                         /\ related_to g (far_end direction e) entry).
  { intros e He Hn Hi.
    destruct (map_opt_in _ _ _ Hdirect _ (Hes e He Hn Hi)) as (entry & Hin & Hf).
    exists entry. split; [exact Hin|]. eapply related_entry_shape, Hf. }
  destruct (1 <? S n)%nat eqn:Hdeep.
  - destruct (map_opt (related_levels g direction ts true n)
                (map (far_end direction) es)) as [deeper|] eqn:Hd; [|discriminate].
    injection Hres as <-.
    assert (Hdshape : Forall (fun e => exists y, related_to g y e)
                             (List.concat deeper)).
    { apply Forall_concat, Forall_forall. intros r Hr.
      destruct (map_opt_all (related_levels g direction ts true n)
                  (fun y r => Forall (fun e => exists y, related_to g y e) r)
                  (map (far_end direction) es)) as (d & Hd' & Hall).
      - intros y _.
        destruct (related_levels_sound g direction ts true n y) as (r' & Hr' & Hall').
        exists r'. split; [exact Hr'|].
        apply Forall_impl with (2 := Hall'). intros e (y' & _ & Hy'). eauto.
      - rewrite Hd in Hd'. injection Hd' as <-. rewrite Forall_forall in Hall.
        destruct (Hall r Hr) as (_ & _ & H). exact H. }
    apply fold_add_transitive_has; [exact Hshape|exact Hdshape|].
    inversion Hl as [? ? ? e He Hn Hf Hi|? ? y ? e He Hn Hf Hi Hmore]; subst.
    + left. apply Hone; auto.
    + right.
      destruct (map_opt_in _ _ _ Hd _ (Hes e He eq_refl Hi)) as (r & Hr & Hf).
      destruct (IH _ _ _ Hf Hmore) as (tr & Htr & Hz).
      exists tr. split; [|exact Hz]. apply in_concat. eauto.
  - injection Hres as <-.
    inversion Hl as [? ? ? e He Hn Hf Hi|? ? y ? e He Hn Hf Hi Hmore]; subst.
    + apply Hone; auto.
    + apply Nat.ltb_ge in Hdeep. assert (n = 0%nat) as -> by lia. inversion Hmore.
Qed.

End RelatedComplete.

(** X20.  A transitive search misses no related resource.  In a graph
    built from the empty one by calls whose edge metadata does not
    redefine [from], [to] or [type], every resource that is reached from
    [did] by at least one edge of the listed types and at most
    [options.maxDepth || 1] of them has an entry in the result of
    [_findRelatedResources] with [options.transitive] set. *)
Theorem findRelated_complete (cs : list GraphSpec.call) (did z : value)
    (direction : string) (relationshipTypes : list string)
    (maxDepth : option Z) :
  Forall GraphSpec.call_names_same_edge cs ->
  GraphProps.linked (GraphSpec.run cs Graph.empty) direction relationshipTypes
    (Z.to_nat (GraphProps.max_levels maxDepth)) did z ->
  exists result entry,
    GraphQuery._findRelatedResources (GraphSpec.run cs Graph.empty) did
      direction relationshipTypes maxDepth true = Some result
    /\ In entry result
    /\ get_prop entry "did" = z
    /\ get_prop entry "node" = GraphQuery.getNode (GraphSpec.run cs Graph.empty) z.
Proof.
  intros Hcs Hl.
  pose proof (run_joined cs Graph.empty Hcs (Forall_nil _)) as WE.
  destruct (related_levels_sound (GraphSpec.run cs Graph.empty) direction
              relationshipTypes true
              (Z.to_nat (GraphProps.max_levels maxDepth)) did)
    as (result & Hres & _).
  destruct (related_levels_complete _ direction relationshipTypes WE _ _ _ _
              Hres Hl) as (entry & Hin & [rel Hz]).
  exists result, entry. split; [exact Hres|]. split; [exact Hin|].
  destruct Hz as [-> | ->]; split; reflexivity.
Qed.

Lemma findRelated_complete_witness :
  let now := "2024-01-01T00:00:00.000Z" in
  let cs := [ GraphSpec.AddNode now now "A" []; GraphSpec.AddNode now now "B" [];
              GraphSpec.AddNode now now "C" [];
              GraphSpec.AddEdge now now "A" "B" "contains" [];
              GraphSpec.AddEdge now now "B" "C" "hasComponent" [] ] in
  exists result entry,
    GraphQuery._findRelatedResources (GraphSpec.run cs Graph.empty) (VStr "A")
      "outgoing" ["contains"; "hasComponent"] (Some 2%Z) true = Some result
    /\ In entry result
    /\ get_prop entry "did" = VStr "C"
    /\ get_prop entry "node"
       = GraphQuery.getNode (GraphSpec.run cs Graph.empty) (VStr "C").
Proof.
  cbv zeta. apply findRelated_complete.
  - repeat (constructor; [cbn; repeat split;
                          try (repeat constructor; cbn; intuition discriminate);
                          try discriminate|]).
    constructor.
  - eapply (GraphProps.linked_more _ _ _ 1 (VStr "A") (VStr "B") (VStr "C")).
    + vm_compute. left. reflexivity.
    + reflexivity.
    + reflexivity.
    + reflexivity.
    + eapply (GraphProps.linked_step _ _ _ 0 (VStr "B") (VStr "C")).
      * vm_compute. right. left. reflexivity.
      * reflexivity.
      * reflexivity.
      * reflexivity.
Defined.

(* ------------------------------------------------------------------ *)
(** ** Relationship graph: connected nodes *)

Section ConnectedFacts.
Import Graph GraphSpec GraphProps GraphQuery.

Lemma getEdges_in (g : ResourceGraph) (did : value) (direction : string)
    (edge : obj) :
  In edge (getEdges g did direction) ->
  In edge (edges g)
  /\ (obj_get edge "from" = did \/ obj_get edge "to" = did).
Proof.
  unfold getEdges. destruct (negb (has_node g did)); [intros []|].
  destruct (String.eqb direction "outgoing");
    [|destruct (String.eqb direction "incoming")];
    intros H; apply filter_In in H as [H E]; (split; [exact H|]).
  - left. apply value_eqb_eq, E.
  - right. apply value_eqb_eq, E.
  - apply orb_true_iff in E as [E|E]; apply value_eqb_eq in E; auto.
Qed.

Lemma getNode_held (g : ResourceGraph) (k : string) :
  JMap.has (nodes g) k = true ->
  exists node, JMap.get (nodes g) k = Some node
               /\ getNode g (VStr k) = VObj (spread [] node).
Proof.
  unfold JMap.has, getNode. destruct (JMap.get (nodes g) k) as [node|];
    [|discriminate].
  intros _. exists node. auto.
Qed.

End ConnectedFacts.

(** X21.  Connected nodes are nodes.  In a graph built from the empty one
    by calls whose edge metadata does not redefine [from], [to] or
    [type], every entry of [getConnectedNodes(did, direction, type)]
    comes from an edge of the graph that starts or ends at [did], and its
    [node] is a copy of the node the graph holds at the other end of that
    edge: it is never [null]. *)
Theorem getConnectedNodes_held (cs : list GraphSpec.call) (did : string)
    (direction : string) (relationshipType : option string) (entry : value) :
  Forall GraphSpec.call_names_same_edge cs ->
  In entry (GraphQuery.getConnectedNodes (GraphSpec.run cs Graph.empty)
              (VStr did) direction relationshipType) ->
  exists edge other node,
    In edge (Graph.edges (GraphSpec.run cs Graph.empty))
    /\ (obj_get edge "from" = VStr did /\ obj_get edge "to" = VStr other
        \/ obj_get edge "to" = VStr did /\ obj_get edge "from" = VStr other)
    /\ JMap.get (Graph.nodes (GraphSpec.run cs Graph.empty)) other = Some node
    /\ get_prop entry "node" = VObj (spread [] node)
    /\ get_prop (get_prop entry "relationship") "type" = obj_get edge "type".
Proof.
  intros Hcs Hin.
  pose proof (run_joined cs Graph.empty Hcs (Forall_nil _)) as WE.
  set (g := GraphSpec.run cs Graph.empty) in *.
  unfold GraphQuery.getConnectedNodes in Hin.
  apply in_map_iff in Hin as (edge & <- & He).
  assert (He' : In edge (GraphQuery.getEdges g (VStr did) direction)).
  { destruct relationshipType as [t|]; [|exact He].
    destruct (String.eqb t ""); [exact He|].
    apply filter_In in He as [He _]. exact He. }
  destruct (getEdges_in g _ _ _ He') as [Hg Hends].
  rewrite Forall_forall in WE.
  destruct (WE edge Hg) as (s & t & ty & Hk & Hs & Ht & _).
  unfold GraphSpec.edge_key in Hk. injection Hk as Hf Hto Hy.
  rewrite Hf, Hto in *. cbn [value_eqb].
  destruct (String.eqb_spec s did) as [->|Hne].
  - destruct (getNode_held g t Ht) as (node & Hget & Hnode).
    exists edge, t, node. split; [exact Hg|]. split; [left; auto|].
    split; [exact Hget|]. split; [exact Hnode|reflexivity].
  - destruct (getNode_held g s Hs) as (node & Hget & Hnode).
    exists edge, s, node. split; [exact Hg|]. split.
    + right. destruct Hends as [E|E]; [congruence|]. split; congruence.
    + split; [exact Hget|]. split; [exact Hnode|reflexivity].
Qed.

Lemma getConnectedNodes_held_witness :
  let now := "2024-01-01T00:00:00.000Z" in
  let cs := [ GraphSpec.AddNode now now "A" []; GraphSpec.AddNode now now "B" [];
              GraphSpec.AddEdge now now "A" "B" "contains" [] ] in
  let g := GraphSpec.run cs Graph.empty in
  let entry :=
    VObj [ ("node", GraphQuery.getNode g (VStr "A"));
           ("relationship",
             VObj [ ("type", VStr "contains");
                    ("direction", VStr "incoming");
                    ("metadata",
                      VObj [ ("from", VStr "A"); ("to", VStr "B");
                             ("type", VStr "contains");
                             ("created", VStr now) ]) ]) ] in
  exists edge other node,
    In edge (Graph.edges g)
    /\ (obj_get edge "from" = VStr "B" /\ obj_get edge "to" = VStr other
        \/ obj_get edge "to" = VStr "B" /\ obj_get edge "from" = VStr other)
    /\ JMap.get (Graph.nodes g) other = Some node
    /\ get_prop entry "node" = VObj (spread [] node)
    /\ get_prop (get_prop entry "relationship") "type" = obj_get edge "type".
Proof.
  cbv zeta.
  apply (getConnectedNodes_held _ "B" "incoming" (Some "contains")).
  - repeat (constructor; [cbn; repeat split;
                          try (repeat constructor; cbn; intuition discriminate);
                          try discriminate|]).
    constructor.
  - vm_compute. left. reflexivity.
Defined.

(* ------------------------------------------------------------------ *)
(** ** Identifiers: the base64url encoding *)

Section HexFacts.
Import Buffer DIDSpec.

Lemma hex_val_digit (n : nat) :
  (n < 16)%nat ->
  JSON.hex_val (nth_char hex_digits n) = Some n
  /\ nth_char hex_digits n <> ":"%char.
Proof.
  intros H. do 16 (destruct n as [|n]; [split; [reflexivity|discriminate]|]). lia.
Qed.

Lemma from_hex_to_hex (bytes : list Z) :
  Forall byte bytes -> from_hex (to_hex bytes) = bytes.
Proof.
  unfold from_hex. induction 1 as [|b r Hb Hr IH]; [reflexivity|].
  cbn [to_hex list_ascii_of_string from_hex_list]. unfold byte in Hb.
  destruct (hex_val_digit (Z.to_nat (b / 16))) as [-> _].
  { apply Nat2Z.inj_lt. rewrite Z2Nat.id by (apply Z.div_pos; lia).
    apply Z.div_lt_upper_bound; lia. }
  destruct (hex_val_digit (Z.to_nat (b mod 16))) as [-> _].
  { apply Nat2Z.inj_lt. rewrite Z2Nat.id by (apply Z.mod_pos_bound; lia).
    apply Z.mod_pos_bound. lia. }
  rewrite IH. f_equal.
  rewrite Nat2Z.inj_add, Nat2Z.inj_mul, !Z2Nat.id
    by (try apply Z.div_pos; try apply Z.mod_pos_bound; lia).
  pose proof (Z.div_mod b 16). lia.
Qed.

Lemma to_hex_no_colon (bytes : list Z) :
  Forall byte bytes ->
  forall c, In c (list_ascii_of_string (to_hex bytes)) -> c <> ":"%char.
Proof.
  induction 1 as [|b r Hb Hr IH]; intros c; [intros []|].
  cbn [to_hex list_ascii_of_string]. unfold byte in Hb.
  intros [<-|[<-|Hc]]; [| |apply IH, Hc].
  - apply hex_val_digit. apply Nat2Z.inj_lt.
    rewrite Z2Nat.id by (apply Z.div_pos; lia).
    apply Z.div_lt_upper_bound; lia.
  - apply hex_val_digit. apply Nat2Z.inj_lt.
    rewrite Z2Nat.id by (apply Z.mod_pos_bound; lia).
    apply Z.mod_pos_bound. lia.
Qed.

Lemma digest_bytes (msg : list Z) : Forall byte (SHA256.digest msg).
Proof.
  unfold SHA256.digest. apply Forall_flat_map, Forall_forall. intros w _.
  unfold SHA256.be_bytes. apply Forall_map, Forall_forall. intros i _.
  unfold byte. apply Z.mod_pos_bound. lia.
Qed.

End HexFacts.

Section Base64Facts.
Import Buffer DID DIDSpec.

Lemma b64_char (n : nat) :
  (n < 64)%nat ->
  let c := nth_char base64_alphabet n in
  of_url (to_url c) = c
  /\ Ascii.eqb (to_url c) "="%char = false
  /\ Ascii.eqb c "="%char = false
  /\ Ascii.eqb (to_url c) ":"%char = false
  /\ unbase64 c = Some (Z.of_nat n).
Proof.
  intros H.
  do 64 (destruct n as [|n]; [vm_compute; repeat split; reflexivity|]). lia.
Qed.

Lemma b64_value (v : Z) :
  (0 <= v < 64)%Z ->
  of_url (to_url (b64 v)) = b64 v
  /\ Ascii.eqb (to_url (b64 v)) "="%char = false
  /\ Ascii.eqb (b64 v) "="%char = false
  /\ Ascii.eqb (to_url (b64 v)) ":"%char = false
  /\ unbase64 (b64 v) = Some v.
Proof.
  intros H. unfold b64.
  destruct (b64_char (Z.to_nat v)) as (H1 & H2 & H3 & H4 & H5); [lia|].
  rewrite Z2Nat.id in H5 by lia. auto.
Qed.

Lemma to_sextets_range (bytes : list Z) :
  Forall byte bytes -> Forall (fun v => (0 <= v < 64)%Z) (to_sextets bytes).
Proof.
  revert bytes.
  fix IH 1. intros [|a [|b [|c r]]] H; cbn [to_sextets].
  - constructor.
  - inversion H as [|? ? Ha _]; subst. unfold byte in Ha.
    repeat constructor; Z.div_mod_to_equations; lia.
  - inversion H as [|? ? Ha H']; subst. inversion H' as [|? ? Hb _]; subst.
    unfold byte in Ha, Hb. repeat constructor; Z.div_mod_to_equations; lia.
  - inversion H as [|? ? Ha H']; subst. inversion H' as [|? ? Hb H'']; subst.
    inversion H'' as [|? ? Hc Hr]; subst. unfold byte in Ha, Hb, Hc.
    repeat (constructor; [Z.div_mod_to_equations; lia|]).
    apply IH, Hr.
Qed.

Lemma from_sextets_to_sextets (bytes : list Z) :
  Forall byte bytes -> from_sextets (to_sextets bytes) = bytes.
Proof.
  revert bytes.
  fix IH 1. intros [|a [|b [|c r]]] H; cbn [to_sextets from_sextets].
  - reflexivity.
  - inversion H as [|? ? Ha _]; subst. unfold byte in Ha.
    f_equal. Z.div_mod_to_equations. lia.
  - inversion H as [|? ? Ha H']; subst. inversion H' as [|? ? Hb _]; subst.
    unfold byte in Ha, Hb.
    f_equal; [|f_equal]; Z.div_mod_to_equations; lia.
  - inversion H as [|? ? Ha H']; subst. inversion H' as [|? ? Hb H'']; subst.
    inversion H'' as [|? ? Hc Hr]; subst. unfold byte in Ha, Hb, Hc.
    rewrite (IH r Hr).
    f_equal; [|f_equal; [|f_equal]]; Z.div_mod_to_equations; lia.
Qed.

Lemma to_base64_chars (bytes : list Z) :
  exists k,
    list_ascii_of_string (to_base64 bytes)
    = (map b64 (to_sextets bytes) ++ repeat "="%char k)%list.
Proof.
  revert bytes.
  fix IH 1. intros [|a [|b [|c r]]].
  - exists 0%nat. reflexivity.
  - exists 2%nat. reflexivity.
  - exists 1%nat. reflexivity.
  - destruct (IH r) as [k Hk]. exists k.
    cbn [to_base64 to_sextets list_ascii_of_string map app]. rewrite Hk.
    reflexivity.
Qed.

End Base64Facts.

Section StringFacts.
Import Buffer DID DIDSpec.

Lemma list_ascii_app (a b : string) :
  list_ascii_of_string (a ++ b)
  = (list_ascii_of_string a ++ list_ascii_of_string b)%list.
Proof. induction a as [|c a IH]; cbn; [reflexivity|]. rewrite IH. reflexivity. Qed.

Lemma string_of_list_app (a b : list ascii) :
  string_of_list_ascii (a ++ b)%list
  = string_of_list_ascii a ++ string_of_list_ascii b.
Proof. induction a as [|c a IH]; cbn; [reflexivity|]. rewrite IH. reflexivity. Qed.

Lemma append_assoc (a b c : string) : (a ++ b) ++ c = a ++ (b ++ c).
Proof. induction a as [|x a IH]; cbn; [reflexivity|]. rewrite IH. reflexivity. Qed.

Lemma append_nil_r (a : string) : a ++ "" = a.
Proof. induction a as [|x a IH]; cbn; [reflexivity|]. rewrite IH. reflexivity. Qed.

Lemma length_string_of_list (l : list ascii) :
  String.length (string_of_list_ascii l) = List.length l.
Proof. induction l as [|c l IH]; cbn; [reflexivity|]. rewrite IH. reflexivity. Qed.

(** [split] on a text made of pieces without the separator. *)
Lemma split_aux_piece (sep : ascii) (a : string) :
  forall (b cur : string),
    forallb (fun c => negb (Ascii.eqb c sep)) (list_ascii_of_string a) = true ->
    split_aux sep (a ++ b) cur = split_aux sep b (cur ++ a).
Proof.
  induction a as [|c a IH]; intros b cur H.
  - cbn. rewrite append_nil_r. reflexivity.
  - cbn [list_ascii_of_string forallb] in H. apply andb_true_iff in H as [Hc H].
    apply negb_true_iff in Hc. cbn [append split_aux]. rewrite Hc.
    rewrite (IH b _ H), append_assoc. reflexivity.
Qed.

Lemma split_aux_last (sep : ascii) (a cur : string) :
  forallb (fun c => negb (Ascii.eqb c sep)) (list_ascii_of_string a) = true ->
  split_aux sep a cur = [cur ++ a].
Proof.
  intros H. rewrite <- (append_nil_r a) at 1.
  rewrite (split_aux_piece sep a "" cur H). reflexivity.
Qed.

Lemma split_aux_more (sep : ascii) (a b cur : string) :
  forallb (fun c => negb (Ascii.eqb c sep)) (list_ascii_of_string a) = true ->
  split_aux sep (a ++ String sep b) cur = (cur ++ a) :: split_aux sep b "".
Proof.
  intros H. rewrite (split_aux_piece sep a _ cur H).
  cbn [split_aux]. rewrite Ascii.eqb_refl. reflexivity.
Qed.

Lemma pad4_appends (fuel : nat) :
  forall s, exists k,
    pad4 fuel s = s ++ string_of_list_ascii (repeat "="%char k).
Proof.
  induction fuel as [|n IH]; intros s; cbn [pad4].
  - exists 0%nat. cbn. rewrite append_nil_r. reflexivity.
  - destruct (String.length s mod 4 =? 0)%nat.
    + exists 0%nat. cbn. rewrite append_nil_r. reflexivity.
    + destruct (IH (s ++ "=")) as [k Hk]. exists (S k).
      rewrite Hk, append_assoc. reflexivity.
Qed.

Lemma sextets_values (vs : list Z) (k : nat) :
  Forall (fun v => (0 <= v < 64)%Z) vs ->
  sextets (map b64 vs ++ repeat "="%char k)%list = vs.
Proof.
  induction 1 as [|v r Hv Hr IH]; cbn [map app sextets].
  - destruct k; reflexivity.
  - destruct (b64_value v Hv) as (_ & _ & H3 & _ & H5).
    rewrite H3, H5, IH. reflexivity.
Qed.

Lemma substring_chars (s : string) :
  forall n m c,
    In c (list_ascii_of_string (String.substring n m s)) ->
    In c (list_ascii_of_string s).
Proof.
  induction s as [|x s IH]; intros [|n] [|m] c; cbn; try tauto.
  - intros [<-|H]; [left; reflexivity|right; apply (IH 0%nat m c H)].
  - intros H. right. apply (IH n 0%nat c H).
  - intros H. right. apply (IH n (S m) c H).
Qed.

Lemma forallb_no_colon (l : list ascii) :
  (forall c, In c l -> c <> ":"%char) ->
  forallb (fun c => negb (Ascii.eqb c ":"%char)) l = true.
Proof.
  intros H. apply forallb_forall. intros c Hc.
  apply negb_true_iff, Ascii.eqb_neq, H, Hc.
Qed.

(** The base64url form of a byte string, and what [decompressDID] makes
    of it. *)
Lemma compress_chars (bytes : list Z) :
  Forall byte bytes ->
  list_ascii_of_string
    (remove_char "="%char
       (replace_char "/"%char "_"%char
          (replace_char "+"%char "-"%char (to_base64 bytes))))
  = map (fun v => to_url (b64 v)) (to_sextets bytes).
Proof.
  intros Hb. unfold remove_char, replace_char.
  rewrite !list_ascii_of_string_of_list_ascii.
  destruct (to_base64_chars bytes) as [k ->].
  pose proof (to_sextets_range bytes Hb) as Hr.
  rewrite map_map, map_app, filter_app, map_map.
  replace (filter (fun c => negb (Ascii.eqb c "="%char))
             (map (fun x => if Ascii.eqb (if Ascii.eqb x "+"%char then "-"%char else x)
                                 "/"%char
                            then "_"%char
                            else if Ascii.eqb x "+"%char then "-"%char else x)
                  (repeat "="%char k)))
    with (@nil ascii) by (induction k; [reflexivity|assumption]).
  rewrite app_nil_r.
  induction Hr as [|v r Hv Hr IH]; [reflexivity|].
  cbn [map filter]. fold (to_url (b64 v)).
  destruct (b64_value v Hv) as (_ & -> & _). cbn [negb]. rewrite IH. reflexivity.
Qed.

Lemma decompress_chars (bytes : list Z) (cid : string) :
  Forall byte bytes ->
  list_ascii_of_string cid = map (fun v => to_url (b64 v)) (to_sextets bytes) ->
  from_base64
    (replace_char "_"%char "/"%char
       (replace_char "-"%char "+"%char (pad4 3 cid)))
  = bytes.
Proof.
  intros Hb Hcid. unfold from_base64, replace_char.
  destruct (pad4_appends 3 cid) as [k ->].
  rewrite !list_ascii_of_string_of_list_ascii, list_ascii_app, Hcid.
  rewrite list_ascii_of_string_of_list_ascii.
  pose proof (to_sextets_range bytes Hb) as Hr.
  rewrite map_map, map_app, map_map.
  replace (map (fun x => if Ascii.eqb (if Ascii.eqb x "-"%char then "+"%char else x)
                              "_"%char
                         then "/"%char
                         else if Ascii.eqb x "-"%char then "+"%char else x)
               (repeat "="%char k))
    with (repeat "="%char k)
    by (induction k as [|k IHk]; [reflexivity|]; cbn; rewrite <- IHk; reflexivity).
  replace (map (fun x => if Ascii.eqb (if Ascii.eqb (to_url (b64 x)) "-"%char
                                       then "+"%char else to_url (b64 x))
                              "_"%char
                         then "/"%char
                         else if Ascii.eqb (to_url (b64 x)) "-"%char
                              then "+"%char else to_url (b64 x))
               (to_sextets bytes))
    with (map b64 (to_sextets bytes)).
  - rewrite sextets_values by exact Hr. apply from_sextets_to_sextets, Hb.
  - apply map_ext_in. intros v Hv. rewrite Forall_forall in Hr.
    destruct (b64_value v (Hr v Hv)) as (H1 & _). symmetry. exact H1.
Qed.

End StringFacts.

Section GenerateFacts.
Import Buffer DID DIDSpec.

Lemma generateHash_digest (resource : value) (u : string) :
  _generateHash resource = Some u ->
  exists bytes, Forall byte bytes /\ u = to_hex bytes.
Proof.
  unfold _generateHash, sha256_hex.
  destruct resource; try discriminate.
  - intros E. injection E as <-. eexists. split; [apply digest_bytes|reflexivity].
  - destruct (canonical (VArr l)); [|discriminate].
    intros E. injection E as <-. eexists. split; [apply digest_bytes|reflexivity].
  - destruct (canonical (VObj l)); [|discriminate].
    intros E. injection E as <-. eexists. split; [apply digest_bytes|reflexivity].
Qed.

Lemma generateUniqueId_digest (resource : value) (resourceType : string)
    (props : obj) (u : string) :
  _generateUniqueId resource resourceType props = Some u ->
  exists bytes, Forall byte bytes /\ u = to_hex bytes.
Proof.
  unfold _generateUniqueId.
  destruct (String.eqb resourceType AI_MODEL); [apply generateHash_digest|].
  destruct (String.eqb resourceType DATASET); [apply generateHash_digest|].
  destruct (String.eqb resourceType CODE); [apply generateHash_digest|].
  destruct resource; apply generateHash_digest.
Qed.

Lemma split_did (m rt cid : string) :
  no_colon m = true -> no_colon rt = true -> no_colon cid = true ->
  split ":"%char ("did:" ++ m ++ ":" ++ rt ++ ":" ++ cid) = ["did"; m; rt; cid].
Proof.
  intros Hm Hrt Hcid. unfold split.
  change ("did:" ++ m ++ ":" ++ rt ++ ":" ++ cid)
    with (String "d" (String "i" (String "d" (String ":"
            (m ++ String ":" (rt ++ String ":" cid)))))).
  cbn [split_aux Ascii.eqb Bool.eqb append].
  rewrite (split_aux_more ":" m _ "" Hm), (split_aux_more ":" rt _ "" Hrt).
  rewrite (split_aux_last ":" cid "" Hcid). reflexivity.
Qed.

Lemma split_did_owner (m rt cid tag : string) :
  no_colon m = true -> no_colon rt = true -> no_colon cid = true ->
  no_colon tag = true ->
  split ":"%char (("did:" ++ m ++ ":" ++ rt ++ ":" ++ cid) ++ ":" ++ tag)
  = ["did"; m; rt; cid; tag].
Proof.
  intros Hm Hrt Hcid Htag. unfold split.
  replace (("did:" ++ m ++ ":" ++ rt ++ ":" ++ cid) ++ ":" ++ tag)
    with (String "d" (String "i" (String "d" (String ":"
            (m ++ String ":" (rt ++ String ":" (cid ++ String ":" tag)))))))
    by (cbn [append]; rewrite !append_assoc; cbn [append];
        rewrite !append_assoc; reflexivity).
  cbn [split_aux Ascii.eqb Bool.eqb append].
  rewrite (split_aux_more ":" m _ "" Hm), (split_aux_more ":" rt _ "" Hrt).
  rewrite (split_aux_more ":" cid _ "" Hcid).
  rewrite (split_aux_last ":" tag "" Htag). reflexivity.
Qed.

End GenerateFacts.

(** X22.  The default encoding round-trips.  When [generateDID] uses the
    base64url compression, and the method and the resource type contain
    no colon, [decompressDID] of the identifier it returns gives back the
    method, the resource type, the hexadecimal SHA-256 digest the
    identifier was derived from and, when an owner was given, the owner
    tag. *)
Theorem decompress_generated (f : DID.factory) (resource : value)
    (resourceType : string) (options : DID.did_options) (did : string) :
  DID.generateDID f resource resourceType options = Some did ->
  DIDSpec.compression_of f options = DID.BASE64URL ->
  DIDSpec.no_colon (DIDSpec.method_of f resourceType options) = true ->
  DIDSpec.no_colon resourceType = true ->
  exists uniqueId,
    DID._generateUniqueId resource resourceType
      (match DID.specificProps options with Some p => p | None => [] end)
    = Some uniqueId
    /\ DID.decompressDID did
       = Some {| DID.c_method := DIDSpec.method_of f resourceType options;
                 DID.c_resourceType := resourceType;
                 DID.c_identifier := uniqueId;
                 DID.c_owner := DIDSpec.owner_tag options |}.
Proof.
  unfold DID.generateDID.
  fold (DIDSpec.method_of f resourceType options).
  fold (DIDSpec.compression_of f options).
  intros Hgen Hc Hm Hrt. rewrite Hc in Hgen.
  destruct (DID._generateUniqueId resource resourceType
              (match DID.specificProps options with Some p => p | None => [] end))
    as [u|] eqn:Hu; [|discriminate].
  exists u. split; [reflexivity|].
  destruct (generateUniqueId_digest _ _ _ _ Hu) as (bytes & Hb & ->).
  unfold DID._compressIdentifier in Hgen.
  cbn [String.eqb Ascii.eqb Bool.eqb DID.BASE64URL DID.NONE DID.BASE58] in Hgen.
  rewrite (from_hex_to_hex bytes Hb) in Hgen.
  set (cid := DID.remove_char "="%char
                (DID.replace_char "/"%char "_"%char
                   (DID.replace_char "+"%char "-"%char (Buffer.to_base64 bytes))))
    in *.
  pose proof (compress_chars bytes Hb) as Hchars. fold cid in Hchars.
  assert (Hcid : DIDSpec.no_colon cid = true).
  { unfold DIDSpec.no_colon. rewrite Hchars. apply forallb_forall.
    intros c Hin. apply in_map_iff in Hin as (v & <- & Hv).
    pose proof (to_sextets_range bytes Hb) as Hr. rewrite Forall_forall in Hr.
    destruct (b64_value v (Hr v Hv)) as (_ & _ & _ & -> & _). reflexivity. }
  assert (Hid : Buffer.to_hex
                  (Buffer.from_base64
                     (DID.replace_char "_"%char "/"%char
                        (DID.replace_char "-"%char "+"%char (DID.pad4 3 cid))))
                = Buffer.to_hex bytes).
  { rewrite (decompress_chars bytes cid Hb Hchars). reflexivity. }
  unfold DIDSpec.owner_tag.
  destruct (DID.owner options) as [o|]; [destruct (String.eqb o "")|];
    injection Hgen as <-; unfold DID.decompressDID.
  - pose proof (split_did _ _ _ Hm Hrt Hcid) as Hsplit.
    cbn [append] in Hsplit. rewrite Hsplit.
    cbn [List.length Nat.ltb Nat.leb nth String.eqb Ascii.eqb Bool.eqb negb orb
         DID.BASE64URL].
    rewrite Hid. reflexivity.
  - assert (Htag : DIDSpec.no_colon
                     (String.substring 0 8 (DID.sha256_hex o)) = true).
    2: { pose proof (split_did_owner _ _ _ _ Hm Hrt Hcid Htag) as Hsplit.
         cbn [append] in Hsplit. rewrite Hsplit.
         cbn [List.length Nat.ltb Nat.leb nth String.eqb Ascii.eqb Bool.eqb negb
              orb DID.BASE64URL].
         rewrite Hid. reflexivity. }
    unfold DIDSpec.no_colon. apply forallb_no_colon. intros c Hin.
    apply substring_chars in Hin. unfold DID.sha256_hex in Hin.
    eapply to_hex_no_colon; [apply digest_bytes|exact Hin].
  - pose proof (split_did _ _ _ Hm Hrt Hcid) as Hsplit.
    cbn [append] in Hsplit. rewrite Hsplit.
    cbn [List.length Nat.ltb Nat.leb nth String.eqb Ascii.eqb Bool.eqb negb orb
         DID.BASE64URL].
    rewrite Hid. reflexivity.
Qed.

Lemma decompress_generated_witness :
  let options := {| DID.method := None; DID.compression := None;
                    DID.specificProps := None; DID.owner := Some "owner-1" |} in
  exists uniqueId,
    DID._generateUniqueId (VStr "hello") "text" [] = Some uniqueId
    /\ DID.decompressDID "did:asset:text:LPJNul-wow4m6DsqxbninhsWHlwfp0JecwQzYpOLmCQ:391887cb"
       = Some {| DID.c_method := DIDSpec.method_of DID.new_factory "text" options;
                 DID.c_resourceType := "text";
                 DID.c_identifier := uniqueId;
                 DID.c_owner := DIDSpec.owner_tag options |}.
Proof.
  cbv zeta.
  apply (decompress_generated DID.new_factory (VStr "hello") "text"
           {| DID.method := None; DID.compression := None;
              DID.specificProps := None; DID.owner := Some "owner-1" |}).
  - vm_compute. reflexivity.
  - reflexivity.
  - reflexivity.
  - reflexivity.
Defined.

(* ------------------------------------------------------------------ *)
(** ** Hierarchical metadata: selective views *)

Section ViewFacts.
Import Metadata ViewSpec.

Variable m : HierarchicalMetadataManager.

Lemma toDIDDocument_keys (l : MetadataLayer) (doc : obj) (key : string) :
  toDIDDocument l = Some doc ->
  (exists tag, In (tag, key) layer_keys) ->
  obj_has doc key = false.
Proof.
  unfold toDIDDocument. destruct (iterate (get l "context" (VArr []))); [|discriminate].
  intros E. injection E as <-. intros (tag & H).
  repeat (destruct H as [H|H]; [injection H as _ <-; reflexivity|]). destruct H.
Qed.

Lemma add_layer_step (sel sel' : obj) (layer tag key : string) :
  add_layer m (Some sel) layer = Some sel' ->
  In (tag, key) layer_keys ->
  match layer_at m layer with
  | Some l =>
      if String.eqb tag layer
      then obj_has sel' key = true /\ obj_get sel' key = disclosed tag l
      else obj_has sel' key = obj_has sel key
           /\ obj_get sel' key = obj_get sel key
  | None => sel' = sel
  end.
Proof.
  unfold add_layer. destruct (layer_at m layer) as [l|];
    [|intros E _; injection E as <-; reflexivity].
  intros Hadd Hin.
  destruct (String.eqb_spec layer DID) as [->|HD].
  { destruct (toDIDDocument l) as [doc|] eqn:Hdoc; [|discriminate].
    injection Hadd as <-.
    pose proof (toDIDDocument_keys l doc key Hdoc (ex_intro _ tag Hin)) as Hk.
    replace (String.eqb tag DID) with false
      by (repeat (destruct Hin as [Hin|Hin];
                  [injection Hin as <- _; reflexivity|]); destruct Hin).
    rewrite obj_has_spread, Hk, orb_false_r.
    rewrite obj_get_spread_absent by exact Hk. auto. }
  destruct (String.eqb_spec layer C2PA) as [->|H1];
    [|destruct (String.eqb_spec layer MODEL_CARD) as [->|H2];
      [|destruct (String.eqb_spec layer DATA_SHEET) as [->|H3];
        [|destruct (String.eqb_spec layer PROV) as [->|H4];
          [|destruct (String.eqb_spec layer MPEG21_REL) as [->|H5];
            [|destruct (String.eqb_spec layer GENERAL) as [->|H6]]]]]];
    injection Hadd as <-;
    repeat (destruct Hin as [Hin|Hin];
            [injection Hin as <- <-;
             first
               [ rewrite String.eqb_refl;
                 rewrite obj_has_set_same, obj_get_set_same; split; reflexivity
               | match goal with
                 | |- context [String.eqb ?a ?b] =>
                     destruct (String.eqb_spec a b) as [E|_];
                     [first [discriminate E|congruence]|]
                 end;
                 first
                   [ rewrite obj_has_set_other, obj_get_set_other by discriminate;
                     split; reflexivity
                   | split; reflexivity ] ]|]);
    destruct Hin.
Qed.

Lemma fold_add_layer (requested : list string) :
  forall (sel sel' : obj) (tag key : string),
    fold_left (add_layer m) requested (Some sel) = Some sel' ->
    In (tag, key) layer_keys ->
    match layer_at m tag with
    | Some l =>
        if existsb (String.eqb tag) requested
        then obj_has sel' key = true /\ obj_get sel' key = disclosed tag l
        else obj_has sel' key = obj_has sel key
             /\ obj_get sel' key = obj_get sel key
    | None => obj_has sel' key = obj_has sel key
              /\ obj_get sel' key = obj_get sel key
    end.
Proof.
  induction requested as [|layer r IH]; intros sel sel' tag key Hf Hin.
  - cbn in Hf. injection Hf as <-. cbn [existsb]. destruct (layer_at m tag); auto.
  - cbn [fold_left] in Hf.
    destruct (add_layer m (Some sel) layer) as [sel1|] eqn:H1.
    2: { exfalso. clear -Hf. induction r as [|x r IHr]; [discriminate|].
         apply IHr. exact Hf. }
    pose proof (add_layer_step sel sel1 layer tag key H1 Hin) as Hstep.
    pose proof (IH sel1 sel' tag key Hf Hin) as Hrest.
    cbn [existsb].
    destruct (String.eqb_spec tag layer) as [<-|Hne].
    + destruct (layer_at m tag) as [l|] eqn:Hl.
      * cbn [orb]. destruct Hstep as [Hh Hg].
        destruct (existsb (String.eqb tag) r); [exact Hrest|].
        destruct Hrest as [-> ->]. auto.
      * subst sel1. exact Hrest.
    + cbn [orb]. destruct (layer_at m layer) as [l'|].
      * destruct Hstep as [Hh Hg].
        destruct (layer_at m tag) as [l|];
          [destruct (existsb (String.eqb tag) r)|]; try exact Hrest;
          destruct Hrest as [-> ->]; auto.
      * subst sel1. exact Hrest.
Qed.

End ViewFacts.

(** X25.  A selective view discloses what was requested and nothing else.
    In the JSON-LD format, for each of the provenance, model card, data
    sheet, lineage, rights and general characteristics layers, the view
    has the key of the layer exactly when the layer was requested and the
    manager holds it, and the key then holds the data of that layer;
    requesting the identity layer or an unknown tag adds none of these
    keys. *)
Theorem selective_view_discloses (m : Metadata.HierarchicalMetadataManager)
    (requested : list string) (format : option string) (sel : obj)
    (tag key : string) :
  ViewSpec.format_of m format = Metadata.JSON_LD ->
  Metadata.createSelectiveView m requested format = Some (VObj sel) ->
  In (tag, key) ViewSpec.layer_keys ->
  match Metadata.layer_at m tag with
  | Some l =>
      if existsb (String.eqb tag) requested
      then obj_get sel key = ViewSpec.disclosed tag l
      else obj_has sel key = false
  | None => obj_has sel key = false
  end.
Proof.
  unfold Metadata.createSelectiveView. fold (ViewSpec.format_of m format).
  intros -> Hview Hin.
  set (sel0 := match Metadata.layer_at m Metadata.DID with
               | Some idLayer =>
                   obj_set [("@context", VArr [VStr "https://www.w3.org/ns/did/v1"])]
                     "id" (Metadata.get idLayer "id" VNull)
               | None => [("@context", VArr [VStr "https://www.w3.org/ns/did/v1"])]
               end) in *.
  destruct (fold_left (Metadata.add_layer m) requested (Some sel0))
    as [sel1|] eqn:Hfold; [|discriminate].
  cbn in Hview. injection Hview as <-.
  pose proof (fold_add_layer m requested sel0 sel1 tag key Hfold Hin) as H.
  assert (H0 : obj_has sel0 key = false).
  { subst sel0.
    destruct (Metadata.layer_at m Metadata.DID);
      repeat (destruct Hin as [Hin|Hin]; [injection Hin as _ <-; reflexivity|]);
      destruct Hin. }
  destruct (Metadata.layer_at m tag) as [l|].
  - destruct (existsb (String.eqb tag) requested); [apply H|].
    destruct H as [-> _]. exact H0.
  - destruct H as [-> _]. exact H0.
Qed.

Lemma selective_view_discloses_witness :
  let now := "2024-01-01T00:00:00.000Z" in
  let m :=
    Metadata.setRightsLayer now [("license", VObj [("type", VStr "MIT")])]
      (Metadata.setLineageLayer now [("entity", VObj [("e1", VObj [])])]
         (Metadata.setProvenanceLayer now [("claim", VObj [("generator", VStr "x")])]
            (Metadata.setIdentificationLayer now
               [("id", VStr "did:asset:ai-model:abc")]
               Metadata.new_manager))) in
  let sel := [ ("@context", VArr [VStr "https://www.w3.org/ns/did/v1"]);
               ("id", VStr "did:asset:ai-model:abc");
               ("rights", VObj [("license", VObj [("type", VStr "MIT")])]) ] in
  match Metadata.layer_at m Metadata.PROV with
  | Some l =>
      if existsb (String.eqb Metadata.PROV) [Metadata.MPEG21_REL; "unknown"]
      then obj_get sel "lineage" = ViewSpec.disclosed Metadata.PROV l
      else obj_has sel "lineage" = false
  | None => obj_has sel "lineage" = false
  end.
Proof.
  cbv zeta.
  apply (selective_view_discloses _ [Metadata.MPEG21_REL; "unknown"] None).
  - reflexivity.
  - reflexivity.
  - right. right. right. left. reflexivity.
Defined.

(* ------------------------------------------------------------------ *)
(** ** Hierarchical metadata: fields of a layer *)

Section LayerFacts.
Import Metadata LayerOps.



Lemma set_path_top (parts : list string) (lastPart : string) (v : value)
    (current current' : obj) :
  set_path parts lastPart v current = Some current' ->
  exists x, current' = obj_set current (hd lastPart parts) x.
Proof.
  destruct parts as [|part rest]; cbn [set_path hd].
  - intros E. injection E as <-. eauto.
  - destruct (obj_get current part); try discriminate;
      match goal with
      | |- option_map _ ?s = _ -> _ => destruct s; [|discriminate]
      end;
      cbn; intros E; injection E as <-; eauto.
Qed.

Lemma hd_removelast (l : list string) (d : string) :
  l <> [] -> hd (last l d) (removelast l) = hd d l.
Proof.
  destruct l as [|a [|b r]]; [contradiction|reflexivity|reflexivity].
Qed.

End LayerFacts.



(* ------------------------------------------------------------------ *)
(** ** Identifiers: DID documents *)

Section DocumentFacts.
Import Metadata DIDDocument.

Lemma split_aux_first (sep : ascii) (s : string) :
  forall cur p0 p1 r,
    split_aux sep s cur = p0 :: p1 :: r ->
    exists s', cur ++ s = p0 ++ String sep s'.
Proof.
  induction s as [|c s IH]; intros cur p0 p1 r H; cbn [split_aux] in H;
    [discriminate|].
  destruct (Ascii.eqb_spec c sep) as [->|Hne].
  - injection H as <- _. exists s. reflexivity.
  - destruct (IH _ _ _ _ H) as [s' Hs']. exists s'.
    rewrite <- Hs', append_assoc. reflexivity.
Qed.

Lemma prefix_append (p s : string) : String.prefix p (p ++ s) = true.
Proof.
  induction p as [|c p IH]; cbn; [destruct s; reflexivity|].
  destruct (ascii_dec c c); [exact IH|contradiction].
Qed.

Lemma did_starts (did : string) :
  ((List.length (split ":"%char did) <? 4)%nat
   || negb (String.eqb (nth 0 (split ":"%char did) "") "did")) = false ->
  startsWith did "did:" = true /\ did <> "".
Proof.
  intros H. apply orb_false_iff in H as [Hlen Hd].
  apply Nat.ltb_ge in Hlen. apply negb_false_iff, String.eqb_eq in Hd.
  unfold split in *.
  destruct (split_aux ":"%char did "") as [|p0 [|p1 r]] eqn:E;
    cbn [List.length] in Hlen; try lia.
  cbn [nth] in Hd. subst p0.
  destruct (split_aux_first _ _ _ _ _ _ E) as [s' Hs']. cbn [append] in Hs'.
  rewrite Hs'. split; [|discriminate].
  unfold startsWith. apply (prefix_append "did:" s').
Qed.

End DocumentFacts.

(** X24.  A generated DID document is valid identity data.  Whenever
    [generateDIDDocument] returns a document, its [id] is the DID, its
    [resourceType] is the third segment of the DID, and an
    identification layer that holds the document passes
    [IdentificationLayer.validate], whatever metadata, services and
    verification methods were given. *)
Theorem generated_document_valid (now1 now2 now did : string) (metadata : obj)
    (services verificationMethods : list value) (doc : obj) :
  DIDDocument.generateDIDDocument now1 now2 did metadata services
    verificationMethods = Some doc ->
  obj_get doc "id" = VStr did
  /\ obj_get doc "resourceType" = VStr (nth 2 (split ":"%char did) "")
  /\ DIDDocument.validate
       {| Metadata.type := Metadata.DID; Metadata.data := doc;
          Metadata.updated := now |} = true.
Proof.
  unfold DIDDocument.generateDIDDocument.
  destruct ((List.length (split ":"%char did) <? 4)%nat
            || negb (String.eqb (nth 0 (split ":"%char did) "") "did")) eqn:Hd;
    [discriminate|].
  destruct (did_starts did Hd) as [Hstart Hne].
  set (c := js_or (obj_get metadata "controller") (VStr did)).
  assert (Hc : truthy c = true).
  { subst c. unfold js_or.
    destruct (truthy (obj_get metadata "controller")) eqn:E; [exact E|].
    cbn. apply negb_true_iff, String.eqb_neq, Hne. }
  intros Hdoc.
  assert (H : obj_get doc "id" = VStr did
              /\ obj_get doc "resourceType" = VStr (nth 2 (split ":"%char did) "")
              /\ obj_get doc "controller" = c).
  { destruct verificationMethods as [|first rest];
      [|destruct (read first "id"); [|discriminate]];
      destruct services; destruct metadata as [|kv metadata];
      injection Hdoc as <-;
      rewrite ?obj_get_set_other by discriminate; repeat split; reflexivity. }
  destruct H as (Hid & Hrt & Hctl). split; [exact Hid|]. split; [exact Hrt|].
  clearbody c. unfold DIDDocument.validate, Metadata.get.
  change (split "."%char "id") with ["id"].
  change (split "."%char "controller") with ["controller"].
  cbn [Metadata.get_path Metadata.data entries]. rewrite Hid, Hctl.
  cbn [truthy]. rewrite Hstart.
  replace (String.eqb did "") with false by (symmetry; apply String.eqb_neq, Hne).
  cbn [negb orb].
  destruct c; cbn [truthy] in Hc |- *; try discriminate Hc; rewrite ?Hc;
    reflexivity.
Qed.

Lemma generated_document_valid_witness :
  let did := "did:asset:text:LPJNul-wow4m6DsqxbninhsWHlwfp0JecwQzYpOLmCQ" in
  let doc :=
    [ ("@context",
        VArr [ VStr "https://www.w3.org/ns/did/v1";
               VStr "https://w3id.org/security/suites/ed25519-2020/v1";
               VStr "https://w3id.org/asset-schema/v1" ]);
      ("id", VStr did);
      ("controller", VStr did);
      ("created", VStr "2024-01-01T00:00:00.000Z");
      ("updated", VStr "2024-01-01T00:00:00.001Z");
      ("resourceType", VStr "text");
      ("metadata", VObj [("title", VStr "t"); ("resourceType", VStr "text")]) ] in
  obj_get doc "id" = VStr did
  /\ obj_get doc "resourceType" = VStr (nth 2 (split ":"%char did) "")
  /\ DIDDocument.validate
       {| Metadata.type := Metadata.DID; Metadata.data := doc;
          Metadata.updated := "2024-03-03T00:00:00.000Z" |} = true.
Proof.
  cbv zeta.
  apply (generated_document_valid "2024-01-01T00:00:00.000Z"
           "2024-01-01T00:00:00.001Z" "2024-03-03T00:00:00.000Z" _
           [("title", VStr "t")] [] []).
  reflexivity.
Defined.

(* ------------------------------------------------------------------ *)
(** ** The watermarking engine *)

Section EngineFacts.
Import Watermark Engine.


End EngineFacts.



(* ------------------------------------------------------------------ *)
(** ** Hierarchical metadata: the JSON form of a manager *)

Section ManagerFacts.
Import Metadata ManagerJSON.

Lemma characteristics_data (resourceType : string) (d : obj) :
  NoDup (obj_keys d) -> GraphProps.keys_begin ["resourceType"] d ->
  spread [("resourceType", VStr resourceType)] d = d.
Proof. intros H1 H2. apply spread_begins; assumption. Qed.

Lemma fromJSON_toJSON_slots (clock : nat -> string)
    (m m0 : HierarchicalMetadataManager) :
  manager_ok m ->
  map fst (layers m0) = map fst (layers new_manager) ->
  exists m', fromJSON clock (toJSON m) m0 = Some m'
             /\ Forall2 same_slot (layers m) (layers m').
Proof.
  intros [Hk Hall] Hk0. destruct m as [f ls], m0 as [f0 ls0].
  cbn [layers defaultFormat] in *.
  destruct ls as [|[k1 o1] [|[k2 o2] [|[k3 o3] [|[k4 o4] [|[k5 o5]
    [|[k6 o6] [|[k7 o7] [|? ?]]]]]]]]; try discriminate Hk.
  injection Hk as -> -> -> -> -> -> ->.
  destruct ls0 as [|[j1 p1] [|[j2 p2] [|[j3 p3] [|[j4 p4] [|[j5 p5]
    [|[j6 p6] [|[j7 p7] [|? ?]]]]]]]]; try discriminate Hk0.
  injection Hk0 as -> -> -> -> -> -> ->.
  repeat match goal with
         | H : Forall _ (_ :: _) |- _ =>
             let Hx := fresh "Hx" in
             apply Forall_cons_iff in H as [Hx H]
         end.
  clear Hall. cbn [fst snd] in *.
  destruct o1 as [l1|], o2 as [l2|], o3 as [l3|], o4 as [l4|], o5 as [l5|],
    o6 as [l6|], o7 as [l7|];
    repeat match goal with
           | H : layer_ok _ _ |- _ =>
               let T := fresh "T" in
               let C := fresh "C" in
               destruct H as [T C];
               first [ destruct (C eq_refl) as [? ?] | clear C ]
           | H : True |- _ => clear H
           end;
    (eexists; split;
     [ unfold fromJSON, toJSON, import_layer, setIdentificationLayer,
         setProvenanceLayer, setCharacteristicsLayer, setLineageLayer,
         setRightsLayer, set_layer, layer_toJSON, layer_data;
       cbn -[spread];
       rewrite ?characteristics_data by assumption;
       reflexivity
     | repeat (constructor; [split; [reflexivity|cbn; auto]|]); constructor ]).
Qed.

End ManagerFacts.

Section ManagerSlots.
Import Metadata ManagerJSON.

Lemma same_slot_layer_at (a b : list (string * option MetadataLayer))
    (tag : string) :
  Forall2 same_slot a b ->
  match JMap.get a tag, JMap.get b tag with
  | Some (Some l), Some (Some l') => type l = type l' /\ data l = data l'
  | Some (Some _), _ | _, Some (Some _) => False
  | _, _ => True
  end.
Proof.
  induction 1 as [|[k o] [k' o'] a b [Hk Ho] Hr IH]; cbn [JMap.get]; [exact I|].
  cbn [fst snd] in Hk, Ho. subst k'.
  destruct (String.eqb k tag); [|exact IH].
  destruct o as [l|], o' as [l'|]; try contradiction; auto.
Qed.

End ManagerSlots.

(** X27.  The JSON form of a manager restores every layer.  For a manager
    whose slots hold layers as the setters store them, [fromJSON] applied
    by any manager to the result of [toJSON()] succeeds and leaves, under
    every tag, a layer of the same type with the same data where there
    was one and no layer where there was none. *)
Theorem manager_fromJSON_toJSON (clock : nat -> string)
    (m m0 : Metadata.HierarchicalMetadataManager) (tag : string) :
  ManagerJSON.manager_ok m ->
  map fst (Metadata.layers m0) = map fst (Metadata.layers Metadata.new_manager) ->
  exists m',
    ManagerJSON.fromJSON clock (ManagerJSON.toJSON m) m0 = Some m'
    /\ match Metadata.layer_at m tag, Metadata.layer_at m' tag with
       | Some l, Some l' =>
           Metadata.type l' = Metadata.type l
           /\ Metadata.data l' = Metadata.data l
       | None, None => True
       | _, _ => False
       end.
Proof.
  intros Hm H0.
  destruct (fromJSON_toJSON_slots clock m m0 Hm H0) as (m' & Hf & Hs).
  exists m'. split; [exact Hf|].
  pose proof (same_slot_layer_at _ _ tag Hs) as H.
  unfold Metadata.layer_at.
  destruct (JMap.get (Metadata.layers m) tag) as [[l|]|],
    (JMap.get (Metadata.layers m') tag) as [[l'|]|];
    try contradiction; try exact I.
  destruct H as [-> ->]. auto.
Qed.

Lemma manager_fromJSON_toJSON_witness :
  let now := "2024-01-01T00:00:00.000Z" in
  let m :=
    Metadata.setRightsLayer now [("license", VObj [("type", VStr "MIT")])]
      (Metadata.setCharacteristicsLayer now "ai-model"
         [("modelName", VStr "m"); ("resourceType", VStr "custom")]
         (Metadata.setIdentificationLayer now
            [("id", VStr "did:asset:ai-model:abc")]
            Metadata.new_manager)) in
  exists m',
    ManagerJSON.fromJSON (fun _ => "2025-05-05T00:00:00.000Z")
      (ManagerJSON.toJSON m) Metadata.new_manager = Some m'
    /\ match Metadata.layer_at m Metadata.MODEL_CARD,
             Metadata.layer_at m' Metadata.MODEL_CARD with
       | Some l, Some l' =>
           Metadata.type l' = Metadata.type l
           /\ Metadata.data l' = Metadata.data l
       | None, None => True
       | _, _ => False
       end.
Proof.
  cbv zeta. apply manager_fromJSON_toJSON.
  - split; [reflexivity|].
    repeat (apply Forall_cons;
            [cbn [fst snd];
             first
               [ exact I
               | split; [reflexivity|]; intros H;
                 first
                   [ discriminate H
                   | split;
                     [ repeat constructor; cbn; intuition discriminate
                     | exists ["modelName"]; reflexivity ] ] ]|]).
    apply Forall_nil.
  - reflexivity.
Defined.

Section SetterFacts.
Import Metadata ManagerJSON.

Lemma set_layer_ok (m : HierarchicalMetadataManager) (tag : string)
    (l : MetadataLayer) :
  manager_ok m -> In tag (map fst (layers new_manager)) -> layer_ok tag l ->
  manager_ok (set_layer m tag l).
Proof.
  intros [Hk Hall] Hin Hl. unfold manager_ok, set_layer. cbn [layers].
  split.
  - rewrite jmap_keys_set.
    replace (JMap.has (layers m) tag) with true; [exact Hk|].
    symmetry. apply jmap_has_in. rewrite Hk. exact Hin.
  - apply jmap_set_all; [exact Hall|exact Hl].
Qed.

(** The setters keep the slots of a manager as [fromJSON] expects them. *)
Lemma setters_ok (now : string) (d : obj) (resourceType : string)
    (m : HierarchicalMetadataManager) :
  manager_ok m ->
  manager_ok (setIdentificationLayer now d m)
  /\ manager_ok (setProvenanceLayer now d m)
  /\ manager_ok (setLineageLayer now d m)
  /\ manager_ok (setRightsLayer now d m)
  /\ (NoDup (obj_keys d) ->
      manager_ok (setCharacteristicsLayer now resourceType d m)).
Proof.
  intros Hm.
  split; [|split; [|split; [|split]]];
    try (apply set_layer_ok;
         [exact Hm|cbn; tauto|split; [reflexivity|intros H; discriminate H]]).
  intros Hd. unfold setCharacteristicsLayer.
  apply set_layer_ok; [exact Hm| |].
  - destruct (String.eqb resourceType "ai-model");
      [|destruct (String.eqb resourceType "dataset")]; cbn; tauto.
  - split; [reflexivity|]. intros _. cbn [data]. split.
    + apply spread_keys_nodup. repeat constructor. cbn. tauto.
    + apply keys_begin_spread. exists []. reflexivity.
Qed.

Lemma new_manager_ok : manager_ok new_manager.
Proof. split; [reflexivity|]. repeat constructor. Qed.

End SetterFacts.


(* ------------------------------------------------------------------ *)
(** ** Relationship graph: the maps of the projection *)

Section ProjectionKeys.
Import Graph GraphSpec ProvSpec.

Lemma of_category_has (c : category) (l : list (string * obj)) (did : string) :
  NoDup (map fst l) ->
  obj_has (of_category c l) did
  = match JMap.get l did with
    | Some node => category_eqb c (fst (classify did node))
    | None => false
    end.
Proof.
  unfold of_category. induction l as [|[k n] r IH]; intros Hnd; [reflexivity|].
  inversion Hnd as [|? ? Hnotin Hnd']; subst.
  cbn [flat_map fst snd JMap.get]. specialize (IH Hnd').
  destruct (String.eqb_spec k did) as [->|Hne].
  - destruct (category_eqb c (fst (classify did n))); cbn [app obj_has].
    + rewrite String.eqb_refl. reflexivity.
    + destruct (obj_has
                  (flat_map
                     (fun entry =>
                        if category_eqb c (fst (classify (fst entry) (snd entry)))
                        then [(fst entry, snd (classify (fst entry) (snd entry)))]
                        else []) r) did) eqn:E; [|reflexivity].
      apply obj_has_in, (of_category_keys c r did) in E. contradiction.
  - destruct (category_eqb c (fst (classify k n))); cbn [app obj_has];
      [apply String.eqb_neq in Hne; rewrite Hne|]; exact IH.
Qed.

Lemma final_has (g : ResourceGraph) (s : slot) (did : string) :
  obj_has (slot_map s (final_maps g)) did
  = obj_has (slot_map s (base_maps g)) did.
Proof. apply keys_has, final_slot_keys. Qed.

End ProjectionKeys.

(** X14.  The projection lists every node once.  After any sequence of
    calls on a new graph that leaves no node under the identifier
    [__proto__], the PROV document that [toPROV] builds from the nodes and
    edges has an entry for an identifier in exactly one of its maps when
    the graph holds a node under it, and in none otherwise: under
    [activity] for a node of type Activity, under [agent] for the types
    Agent, Person, Organization and Software, under [entity] for every
    other type. *)
Theorem projection_lists_nodes_once (cs : list GraphSpec.call) (did : string) :
  JMap.has (Graph.nodes (GraphSpec.run cs Graph.empty)) "__proto__" = false ->
  let g := GraphSpec.run cs Graph.empty in
  let listed name := obj_has (entries (get_prop (Graph.project g) name)) did in
  match JMap.get (Graph.nodes g) did with
  | Some node =>
      let is_activity := Graph.is_type node Graph.ACTIVITY in
      let is_agent :=
        Graph.is_type node Graph.AGENT || Graph.is_type node Graph.PERSON
        || Graph.is_type node Graph.ORGANIZATION
        || Graph.is_type node Graph.SOFTWARE in
      listed "activity" = is_activity
      /\ listed "agent" = negb is_activity && is_agent
      /\ listed "entity" = negb is_activity && negb is_agent
  | None =>
      listed "activity" = false /\ listed "agent" = false
      /\ listed "entity" = false
  end.
Proof.
  intros _ g listed.
  pose proof (run_keys cs Graph.empty (NoDup_nil _)) as WK. fold g in WK.
  assert (He : listed "entity"
               = obj_has (ProvSpec.of_category ProvSpec.CEntity (Graph.nodes g)) did).
  { subst listed. cbv beta. rewrite project_final.
    cbn [Graph.prov_document get_prop obj_get String.eqb Ascii.eqb Bool.eqb entries].
    pose proof (final_has g GraphSpec.InEntity did) as H.
    cbn [ProvSpec.slot_map] in H. rewrite H.
    rewrite (base_maps_closed g WK). reflexivity. }
  assert (Ha : listed "activity"
               = obj_has (ProvSpec.of_category ProvSpec.CActivity (Graph.nodes g)) did).
  { subst listed. cbv beta. rewrite project_final.
    cbn [Graph.prov_document get_prop obj_get String.eqb Ascii.eqb Bool.eqb entries].
    pose proof (final_has g GraphSpec.InActivity did) as H.
    cbn [ProvSpec.slot_map] in H. rewrite H.
    rewrite (base_maps_closed g WK). reflexivity. }
  assert (Hg : listed "agent"
               = obj_has (ProvSpec.of_category ProvSpec.CAgent (Graph.nodes g)) did).
  { subst listed. cbv beta. rewrite project_final.
    cbn [Graph.prov_document get_prop obj_get String.eqb Ascii.eqb Bool.eqb entries].
    rewrite final_agent, (base_maps_closed g WK). reflexivity. }
  rewrite He, Ha, Hg, !of_category_has by exact WK.
  destruct (JMap.get (Graph.nodes g) did) as [node|]; [|auto].
  cbv zeta. unfold ProvSpec.classify.
  destruct (Graph.is_type node Graph.ACTIVITY); [auto|].
  destruct (Graph.is_type node Graph.AGENT || Graph.is_type node Graph.PERSON
            || Graph.is_type node Graph.ORGANIZATION
            || Graph.is_type node Graph.SOFTWARE); auto.
Qed.

Lemma projection_lists_nodes_once_witness :
  let now := "2024-01-01T00:00:00.000Z" in
  let cs := [ GraphSpec.AddNode now now "did:asset:text:a" [];
              GraphSpec.AddNode now now "did:run:1" [("type", VStr "Activity")];
              GraphSpec.AddNode now now "did:org:1" [("type", VStr "Organization")];
              GraphSpec.AddEdge now now "did:asset:text:a" "did:run:1"
                "wasGeneratedBy" [] ] in
  let g := GraphSpec.run cs Graph.empty in
  let listed name :=
    obj_has (entries (get_prop (Graph.project g) name)) "did:org:1" in
  match JMap.get (Graph.nodes g) "did:org:1" with
  | Some node =>
      let is_activity := Graph.is_type node Graph.ACTIVITY in
      let is_agent :=
        Graph.is_type node Graph.AGENT || Graph.is_type node Graph.PERSON
        || Graph.is_type node Graph.ORGANIZATION
        || Graph.is_type node Graph.SOFTWARE in
      listed "activity" = is_activity
      /\ listed "agent" = negb is_activity && is_agent
      /\ listed "entity" = negb is_activity && negb is_agent
  | None =>
      listed "activity" = false /\ listed "agent" = false
      /\ listed "entity" = false
  end.
Proof.
  cbv zeta. apply projection_lists_nodes_once. reflexivity.
Defined.



(** X23.  What a typed identifier depends on.  For the resource types
    ai-model, dataset and code, [generateDID] derives the identifier from
    the type-specific properties and the resource type alone: two
    resources with different contents and the same options receive the
    same DID. *)
Theorem typed_identifier_ignores_resource (f : DID.factory)
    (resource resource' : value) (resourceType : string)
    (options : DID.did_options) :
  resourceType = DID.AI_MODEL \/ resourceType = DID.DATASET
  \/ resourceType = DID.CODE ->
  DID.generateDID f resource resourceType options
  = DID.generateDID f resource' resourceType options.
Proof.
  intros H. unfold DID.generateDID.
  replace (DID._generateUniqueId resource resourceType
             (match DID.specificProps options with Some p => p | None => [] end))
    with (DID._generateUniqueId resource' resourceType
            (match DID.specificProps options with Some p => p | None => [] end));
    [reflexivity|].
  unfold DID._generateUniqueId.
  destruct H as [H|[H|H]]; rewrite H; reflexivity.
Qed.

Lemma typed_identifier_ignores_resource_witness :
  let options := {| DID.method := None; DID.compression := None;
                    DID.specificProps := Some [("architecture", VStr "transformer")];
                    DID.owner := None |} in
  DID.generateDID DID.new_factory (VStr "weights of one model") DID.AI_MODEL options
  = DID.generateDID DID.new_factory (VObj [("weights", VStr "of another")])
      DID.AI_MODEL options.
Proof.
  cbv zeta. apply typed_identifier_ignores_resource. left. reflexivity.
Defined.
